(** * Divoom animation codec: a shallow embedding of [decompiled_code.c]

    The C source is a decompilation of an AArch64 library.  Integers are
    modelled as [Z] with the wrap-around of their C type written out,
    memory reached through a pointer as a function from byte offsets to
    values, read back as [unsigned char].  Loads are total: a load past
    the end of a buffer takes what the function holds there.  The stores
    into the local palette array of [divoom_pic_decode] and the 64-bit
    stores into a palette block are checked against the size of the
    array or block.  Loops whose exit depends on the data take a [fuel]
    argument and report when it runs out. *)

From Stdlib Require Import ZArith List Lia Bool.
Import ListNotations.
Local Open Scope Z_scope.

(* ================================================================== *)
(** * Part I: the embedding                                             *)
(* ================================================================== *)

(** ** Machine integers *)

Definition u8  (x : Z) : Z := x mod 256.
Definition u16 (x : Z) : Z := x mod 65536.
Definition u32 (x : Z) : Z := x mod 4294967296.
Definition u64 (x : Z) : Z := x mod 18446744073709551616.

(** [(int)x] for a 32-bit pattern [x]. *)
Definition s32 (x : Z) : Z :=
  let y := u32 x in if y <? 2147483648 then y else y - 4294967296.

(** [(char)x] for an 8-bit pattern [x]. *)
Definition s8 (x : Z) : Z :=
  let y := u8 x in if y <? 128 then y else y - 256.

(** [x << k] and [x >> k] on [uint]. *)
Definition shl32 (x k : Z) : Z := u32 (Z.shiftl x k).
Definition shr32 (x k : Z) : Z := Z.shiftr (u32 x) k.

(** ** Memory

    [mem] is the content of memory relative to a base pointer: [m k] is
    the byte stored at [base + k]. *)

Definition mem := Z -> Z.

(** [*(byte * )(p + k)] *)
Definition ld8 (m : mem) (k : Z) : Z := u8 (m k).

(** [*(ushort * )(p + k)] on the little-endian target. *)
Definition ld16 (m : mem) (k : Z) : Z := ld8 m k + 256 * ld8 m (k + 1).

(** [*(byte * )(p + k) = v] *)
Definition st8 (m : mem) (k v : Z) : mem :=
  fun a => if a =? k then u8 v else m a.

(** The view of [p + off] as a base pointer of its own. *)
Definition shift (m : mem) (off : Z) : mem := fun k => m (off + k).

(** A byte array laid out from offset 0, zero elsewhere. *)
Definition of_list (l : list Z) : mem :=
  fun k => if k <? 0 then 0 else nth (Z.to_nat k) l 0.

(** The first [n] bytes of a memory, as a list. *)
Definition to_list (n : nat) (m : mem) : list Z :=
  map (fun i => ld8 m (Z.of_nat i)) (seq 0 n).

Definition zeros : mem := fun _ => 0.

(** ** Bits per index: [divoom_image_get_bits], [divoom_multipic_get_bits] *)

(** The [do ... while (1 < bitCount)] loop shared by both functions:
    [masked] is the running result ([0xff] until a set bit is seen),
    [bitIndex] the loop counter. *)
Fixpoint get_bits_loop (fuel : nat) (paletteSize masked bitIndex : Z) : Z :=
  match fuel with
  | O => masked
  | S fuel' =>
      let nextBitCount := bitIndex + 1 in
      let bitIndex1 :=
        if Z.land (Z.lxor masked 0xffffffff) 0xff =? 0
        then bitIndex else bitIndex + 1 in
      let bitCount := Z.land paletteSize 0xffff in
      let masked1 :=
        if Z.land paletteSize 1 =? 0 then masked else bitIndex1 in
      let paletteSize1 := Z.land (Z.shiftr paletteSize 1) 0x7fff in
      if 1 <? bitCount
      then get_bits_loop fuel' paletteSize1 masked1 nextBitCount
      else masked1
  end.

Definition divoom_image_get_bits (paletteSize : Z) : Z :=
  let paletteSizeMasked := Z.land paletteSize 0xffff in
  if 0x20 <? paletteSizeMasked then
    if paletteSizeMasked <? 0x101 then
      if 0x80 <? Z.land paletteSize 0xffff then 8
      else if 0x40 <? Z.land paletteSize 0xffff then 7 else 6
    else get_bits_loop 17 paletteSize 0xff 0
  else if 0x10 <? paletteSizeMasked then 5
  else if 8 <? Z.land paletteSize 0xffff then 4
  else if Z.land paletteSize 0xffff <? 5 then
    if Z.land paletteSize 0xffff <? 3 then u32 (paletteSize - 1) else 2
  else 3.

(** [divoom_multipic_get_bits]: the shift here is a plain [>> 1] on a
    value that starts as a byte. *)
Fixpoint multipic_get_bits_loop (fuel : nat) (remainingValue bitsNeeded bitCount : Z) : Z :=
  match fuel with
  | O => bitsNeeded
  | S fuel' =>
      let nextBitCount := bitCount + 1 in
      let bitCount1 :=
        if Z.land (Z.lxor bitsNeeded 0xffffffff) 0xff =? 0
        then bitCount else bitCount + 1 in
      let bitsNeeded1 :=
        if Z.land remainingValue 1 =? 0 then bitsNeeded else bitCount1 in
      if 1 <? remainingValue
      then multipic_get_bits_loop fuel' (Z.shiftr remainingValue 1) bitsNeeded1 nextBitCount
      else bitsNeeded1
  end.

Definition divoom_multipic_get_bits (value : Z) : Z :=
  if value =? 0 then 0xff
  else multipic_get_bits_loop 9 value 0xff 0.

(** Modelled from the spec: the global [gdivoom_image_bits_table] that the
    frame decoders index by palette count is declared outside the source;
    the spec gives it as 257 entries
    {0,1 -> 1, 2 -> 1, 3..4 -> 2, 5..8 -> 3, 9..16 -> 4, 17..32 -> 5,
     33..64 -> 6, 65..128 -> 7, 129..256 -> 8}. *)
Definition gdivoom_image_bits_table : mem :=
  fun n =>
    if n <? 0 then 0
    else if n <=? 2 then 1
    else if n <=? 4 then 2
    else if n <=? 8 then 3
    else if n <=? 16 then 4
    else if n <=? 32 then 5
    else if n <=? 64 then 6
    else if n <=? 128 then 7
    else if n <=? 256 then 8
    else 0.

(** ** BitReader: [divoom_image_get_dot_info_ex], [divoom_image_get_dot_info] *)

Definition divoom_image_get_dot_info_ex (bitfieldMap : mem) (bitOffset bitsPerIndex : Z) : Z :=
  let bitOffsetInByte := Z.land bitOffset 7 in
  let totalBits := u32 (bitOffsetInByte + bitsPerIndex) in
  let bytePtr := Z.shiftr (s32 bitOffset) 3 in
  if 8 <? totalBits then
    let k := Z.land (u32 (0x10 - totalBits)) 0x1f in
    Z.lor
      (shl32 (shr32 (Z.land (shl32 (ld8 bitfieldMap (bytePtr + 1)) k) 0xff) k)
             (Z.land (u32 (8 - bitOffsetInByte)) 0x1f))
      (Z.shiftr (ld8 bitfieldMap bytePtr) bitOffsetInByte)
  else
    shr32 (Z.land (shl32 (ld8 bitfieldMap bytePtr)
                         (Z.land (u32 (8 - totalBits)) 0x1f)) 0xff)
          (Z.land (u32 ((8 - totalBits) + bitOffsetInByte)) 0x1f).

(** The bit-by-bit loop of [divoom_image_get_dot_info], taken when the
    field is wider than 8 bits. *)
Fixpoint get_dot_info_loop (fuel : nat) (bitfieldMap : mem) (entryCount : Z)
    (byteIndex bitOffset bitCount bitfieldValue : Z) : option Z :=
  match fuel with
  | O => None
  | S fuel' =>
      let byteOffset := byteIndex in
      let bitIndex := Z.land bitCount 0x1f in
      let bitCount1 := u32 (bitCount + 1) in
      let byteIndex1 := if 6 <? s32 bitOffset then byteIndex + 1 else byteIndex in
      let nextBitOffset := if s32 bitOffset <? 7 then u32 (bitOffset + 1) else 0 in
      let bit := Z.land (Z.shiftr (ld8 bitfieldMap byteOffset) (Z.land bitOffset 0x1f)) 1 in
      let bitfieldValue1 :=
        Z.lor (Z.land (u32 (- bit)) (shl32 1 bitIndex)) bitfieldValue in
      if entryCount =? bitCount1 then Some bitfieldValue1
      else get_dot_info_loop fuel' bitfieldMap entryCount
             byteIndex1 nextBitOffset bitCount1 bitfieldValue1
  end.

(** The source names the pixel index [bitsPerIndex] and the field width
    [entryCount]; the parameters keep the source's names and order. *)
Definition divoom_image_get_dot_info (bitfieldMap : mem) (bitsPerIndex entryCount : Z) : option Z :=
  let entryCount := Z.land entryCount 0xff in
  let byteIndex := Z.shiftr (s32 (entryCount * bitsPerIndex)) 3 in
  let bitOffset := Z.land (u32 (entryCount * bitsPerIndex)) 7 in
  if 8 <? entryCount then
    get_dot_info_loop (Z.to_nat 0x100) bitfieldMap entryCount byteIndex bitOffset 0 0
  else
    let entryCount1 := bitOffset + entryCount in
    if 8 <? entryCount1 then
      let k := Z.land (u32 (0x10 - entryCount1)) 0x1f in
      Some (Z.lor
        (shl32 (shr32 (Z.land (shl32 (ld8 bitfieldMap (byteIndex + 1)) k) 0xff) k)
               (Z.land (u32 (8 - bitOffset)) 0x1f))
        (Z.shiftr (ld8 bitfieldMap byteIndex) bitOffset))
    else
      Some (shr32 (Z.land (shl32 (ld8 bitfieldMap byteIndex)
                                 (Z.land (u32 (8 - entryCount1)) 0x1f)) 0xff)
                  (Z.land (u32 ((8 - entryCount1) + bitOffset)) 0x1f)).

(** ** Calls and their outcomes *)

Inductive run (A : Type) : Type :=
| Ret (a : A)      (* the call returns *)
| Undefined        (* the call stores through NULL or past the end of an array or
                      block, or reads a local that was never assigned *)
| OutOfFuel.       (* the loop was still running when the fuel ran out *)
Arguments Ret {A} a.
Arguments Undefined {A}.
Arguments OutOfFuel {A}.

(** ** The decoder handle

    A heap block is its size in bytes and its content.  The handle is the
    0x50-byte record the decoders address by offset. *)

Record block : Type := { blk_size : Z; blk_bytes : mem }.

Record handle : Type := {
  palette_count    : Z;             (* ushort at +0x00 *)
  palette_capacity : Z;             (* ushort at +0x02 *)
  stream_len       : Z;             (* uint   at +0x04 *)
  avail_len        : Z;             (* uint   at +0x08 *)
  cursor           : Z;             (* uint   at +0x0c *)
  input            : mem;           (* byte*  at +0x10 *)
  owned            : option block;  (* void*  at +0x18, NULL or the owned copy *)
  palette          : option block   (* void*  at +0x20, NULL or the palette *)
}.

Definition set_cursor (h : handle) (c : Z) : handle :=
  {| palette_count := palette_count h; palette_capacity := palette_capacity h;
     stream_len := stream_len h; avail_len := avail_len h; cursor := c;
     input := input h; owned := owned h; palette := palette h |}.

Definition set_palette (h : handle) (count capacity : Z) (p : option block) : handle :=
  {| palette_count := count; palette_capacity := capacity;
     stream_len := stream_len h; avail_len := avail_len h; cursor := cursor h;
     input := input h; owned := owned h; palette := p |}.

(** [divoom_image_decode_creat_handle]: every field zero. *)
Definition divoom_image_decode_creat_handle : handle :=
  {| palette_count := 0; palette_capacity := 0; stream_len := 0; avail_len := 0;
     cursor := 0; input := zeros; owned := None; palette := None |}.

(** ** FrameParser: the frame-counting walks *)

(** The [do ... while ((int)frameOffset < inputLength)] loop of
    [divoom_image_decode_add_data]. *)
Fixpoint add_data_walk (fuel : nat) (inputData : mem) (inputLength : Z)
    (frameOffset validFrameCount : Z) : run Z :=
  match fuel with
  | O => OutOfFuel
  | S fuel' =>
      if negb (ld8 inputData frameOffset =? 0xAA) then Ret validFrameCount
      else
        let validFrameCount1 := u64 (s32 (validFrameCount + 1)) in
        let frameOffset1 := u32 (ld16 inputData (frameOffset + 1) + frameOffset) in
        if s32 frameOffset1 <? inputLength
        then add_data_walk fuel' inputData inputLength frameOffset1 validFrameCount1
        else Ret validFrameCount1
  end.

Section AddData.
(** [malloc n]: [None] for NULL, else the initial content of the block. *)
Variable malloc : Z -> option mem.

Definition divoom_image_decode_add_data (fuel : nat) (decoderHandle : option handle)
    (inputData : mem) (inputLength copySourceBuffer : Z) : run (option handle * Z) :=
  match decoderHandle with
  | None => Ret (None, 0)
  | Some h =>
      let working :=
        if copySourceBuffer =? 0 then Ret (inputData, None)
        else
          let size := s32 (Z.shiftl inputLength 1) in
          match malloc size with
          | None => Undefined          (* memcpy through NULL *)
          | Some fresh =>
              let copy := fun k =>
                if (0 <=? k) && (k <? inputLength) then inputData k else fresh k in
              Ret (copy, Some {| blk_size := size; blk_bytes := copy |})
          end in
      match working with
      | Ret (workingInputBuffer, own) =>
          let h1 :=
            {| palette_count := palette_count h;
               palette_capacity := palette_capacity h;
               stream_len := u32 inputLength; avail_len := avail_len h;
               cursor := 0; input := workingInputBuffer;
               owned := own; palette := palette h |} in
          if inputLength <? 1 then Ret (Some h1, 0)
          else
            match add_data_walk fuel inputData inputLength 0 0 with
            | Ret n => Ret (Some h1, n)
            | Undefined => Undefined
            | OutOfFuel => OutOfFuel
            end
      | Undefined => Undefined
      | OutOfFuel => OutOfFuel
      end
  end.
End AddData.

(** [divoom_image_decode_decode_get_pic_num]: no magic test, unsigned
    comparison. *)
Fixpoint get_pic_num_walk (fuel : nat) (frameBase : mem) (encodedLength : Z)
    (frameOffset picCount : Z) : run Z :=
  match fuel with
  | O => OutOfFuel
  | S fuel' =>
      let picCount1 := s32 (picCount + 1) in
      let frameOffset1 := u32 (ld16 frameBase (frameOffset + 1) + frameOffset) in
      if frameOffset1 <? encodedLength
      then get_pic_num_walk fuel' frameBase encodedLength frameOffset1 picCount1
      else Ret picCount1
  end.

Definition divoom_image_decode_decode_get_pic_num (fuel : nat)
    (frameBase : option mem) (encodedLength : Z) : run Z :=
  match frameBase with
  | None => Ret 0
  | Some base =>
      if encodedLength =? 0 then Ret 0
      else get_pic_num_walk fuel base encodedLength 0 0
  end.

(** The counting loop that opens [divoom_image_decode_decode_all]
    (between the handle set-up and the first frame decode).  The result
    is [(frameCount, true)] when the function goes on to decode and
    [(0, false)] when it leaves because the first byte is not the magic. *)
Fixpoint decode_all_count (fuel : nat) (encodedStreamBase : mem)
    (encodedStreamLength : Z) (decodeStatus frameCount : Z) : run (Z * bool) :=
  match fuel with
  | O => OutOfFuel
  | S fuel' =>
      if negb (ld8 encodedStreamBase decodeStatus =? 0xAA) then
        if frameCount =? 0 then Ret (frameCount, false) else Ret (frameCount, true)
      else
        let frameCount1 := u32 (frameCount + 1) in
        let decodeStatus1 := u32 (ld16 encodedStreamBase (decodeStatus + 1) + decodeStatus) in
        if s32 decodeStatus1 <? encodedStreamLength
        then decode_all_count fuel' encodedStreamBase encodedStreamLength decodeStatus1 frameCount1
        else Ret (frameCount1, true)
  end.

(** ** FrameParser: stepping the cursor *)

(** [divoom_image_decode_get_pic_data]: [None] is the NULL return; on
    success the frame's offset in the input, its declared length and its
    delay are returned with the advanced handle. *)
Definition divoom_image_decode_get_pic_data (decoderStateAddress : option handle)
    : option (handle * Z * Z * Z) :=
  match decoderStateAddress with
  | None => None
  | Some h =>
      let currentOffset := cursor h in
      if currentOffset <? stream_len h then
        let frameLength := ld16 (input h) (currentOffset + 1) in
        let frameDelay := ld16 (input h) (currentOffset + 3) in
        Some (set_cursor h (u32 (currentOffset + frameLength)),
              currentOffset, frameLength, frameDelay)
      else None
  end.

(** [divoom_image_decode_check_decode] *)
Definition divoom_image_decode_check_decode (decoderStateAddress : option handle) : bool :=
  match decoderStateAddress with
  | None => false
  | Some h =>
      let totalDataLength := avail_len h in
      let consumedBytes := cursor h in
      if u32 (consumedBytes + 7) <? totalDataLength then
        let frameLength := ld16 (input h) (consumedBytes + 1) in
        u32 (cursor h + frameLength) <=? avail_len h
      else totalDataLength =? stream_len h
  end.

(** ** PaletteStore and BlockDecoder: pieces the four frame decoders share

    Each decoder repeats the same loops with its own constants; they are
    written once here and instantiated below. *)

(** The index read inlined in every pixel loop: [bitCursor] is the running
    bit position, [bitstreamOffset] the byte offset of the bitstream in the
    frame. *)
Definition read_index (frameData : mem) (bitstreamOffset bitCursor bitsPerIndex : Z) : Z :=
  let bitOffset := Z.land bitCursor 7 in
  let byteOffset := Z.shiftr bitCursor 3 in
  let totalBits := u32 (bitOffset + bitsPerIndex) in
  if totalBits <? 9 then
    shr32 (Z.land (shl32 (ld8 frameData (byteOffset + bitstreamOffset))
                         (Z.land (u32 (8 - totalBits)) 0x1f)) 0xff)
          (Z.land (u32 ((8 - totalBits) + bitOffset)) 0x1f)
  else
    let k := Z.land (u32 (0x10 - totalBits)) 0x1f in
    Z.lor
      (shl32 (shr32 (Z.land (shl32 (ld8 frameData (byteOffset + bitstreamOffset + 1)) k) 0xff) k)
             (Z.land (u32 (8 - bitOffset)) 0x1f))
      (Z.shiftr (ld8 frameData (byteOffset + bitstreamOffset)) bitOffset).

(** The pixel loop: [n] pixels, each the three palette bytes at
    [(index & 0xffff) * 3]; the result is the bytes stored to the pixel
    buffer, in order. *)
Fixpoint decode_pixels (n : nat) (frameData : mem) (bitstreamOffset bitsPerIndex : Z)
    (pal : mem) (bitCursor : Z) : list Z :=
  match n with
  | O => []
  | S n' =>
      let paletteIndex := read_index frameData bitstreamOffset bitCursor bitsPerIndex in
      let e := Z.land paletteIndex 0xffff * 3 in
      ld8 pal e :: ld8 pal (e + 1) :: ld8 pal (e + 2)
        :: decode_pixels n' frameData bitstreamOffset bitsPerIndex pal
             (u32 (bitCursor + bitsPerIndex))
  end.

(** Entry-by-entry palette copy: entries [j .. j+n) of the palette are
    the triples at [frameData + hdr + 3*j ..].  This is the whole reset
    copy of the 16x16 decoder (whose 64-bit moves index the write cursor
    as [paletteWriteCursor[k]] and come to the same bytes) and the last
    loop of the reset copy of the larger decoders. *)
Fixpoint copy_entries (n : nat) (pal frameData : mem) (hdr j : Z) : mem :=
  match n with
  | O => pal
  | S n' =>
      let pal1 := st8 pal (3 * j) (ld8 frameData (hdr + 3 * j)) in
      let pal2 := st8 pal1 (3 * j + 1) (ld8 frameData (hdr + 3 * j + 1)) in
      let pal3 := st8 pal2 (3 * j + 2) (ld8 frameData (hdr + 3 * j + 2)) in
      copy_entries n' pal3 frameData hdr (j + 1)
  end.

(** A 64-bit move: the eight bytes at [frameData + s ..] go to
    [pal + d ..]. *)
Fixpoint copy_bytes (n : nat) (pal frameData : mem) (d s : Z) : mem :=
  match n with
  | O => pal
  | S n' => copy_bytes n' (st8 pal d (ld8 frameData s)) frameData (d + 1) (s + 1)
  end.

Definition copy_word (pal frameData : mem) (d s : Z) : mem :=
  copy_bytes 8 pal frameData d s.

(** The same move into a block; it is defined when the eight bytes lie
    inside the block. *)
Definition store_word (buf : block) (frameData : mem) (d s : Z) : option block :=
  if (0 <=? d) && (d + 8 <=? blk_size buf) then
    Some {| blk_size := blk_size buf;
            blk_bytes := copy_word (blk_bytes buf) frameData d s |}
  else None.

(** The 16-entry loop of the palette reset in the 32x32, 64x64 and
    128x128 decoders.  [paletteWriteCursor] is declared as a pointer to
    [undefined8] there and the stores go through [paletteWriteCursor + k],
    so [k] counts 8-byte words: the six words read at the byte offsets
    0x18, 0x10, 0x28, 0x20, 8 and 0 of the read cursor (a pointer to
    [char]) are stored at the byte offsets [8 * k] of the write cursor.
    [step] is the number of bytes the write cursor moves per round:
    [paletteWriteCursor + 0x30] in the 32x32 and 64x64 decoders (0x180
    bytes), the cursor cast to a pointer to [char] plus 0x30 in the
    128x128 decoder.  [w] is the write cursor as an offset into the
    block, [r] the read cursor as an offset into the frame. *)
Fixpoint copy_blocks16 (rounds : nat) (step : Z) (buf : block) (frameData : mem)
    (w r : Z) : option block :=
  match rounds with
  | O => Some buf
  | S rounds' =>
      match store_word buf frameData (w + 8 * 0x18) (r + 0x18) with
      | None => None
      | Some b1 =>
      match store_word b1 frameData (w + 8 * 0x10) (r + 0x10) with
      | None => None
      | Some b2 =>
      match store_word b2 frameData (w + 8 * 0x28) (r + 0x28) with
      | None => None
      | Some b3 =>
      match store_word b3 frameData (w + 8 * 0x20) (r + 0x20) with
      | None => None
      | Some b4 =>
      match store_word b4 frameData (w + 8 * 8) (r + 8) with
      | None => None
      | Some b5 =>
      match store_word b5 frameData w r with
      | None => None
      | Some b6 => copy_blocks16 rounds' step b6 frameData (w + step) (r + 0x30)
      end end end end end end
  end.

(** The 8-entry loop: the write cursor is [existingPaletteBuffer +
    paletteCopySize] (a sum in bytes) cast to a pointer to [undefined8],
    the read cursor [paletteDataStart + (paletteCopySize & 0xfffffff8)],
    and the three words read at the byte offsets 0x10, 8 and 0 are stored
    at the word offsets 0x10, 8 and 0. *)
Fixpoint copy_blocks8 (rounds : nat) (buf : block) (frameData : mem)
    (paletteCopySize : Z) : option block :=
  match rounds with
  | O => Some buf
  | S rounds' =>
      let w := paletteCopySize in
      let r := 8 + Z.land paletteCopySize 0xfffffff8 in
      match store_word buf frameData (w + 8 * 0x10) (r + 0x10) with
      | None => None
      | Some b1 =>
      match store_word b1 frameData (w + 8 * 8) (r + 8) with
      | None => None
      | Some b2 =>
      match store_word b2 frameData w r with
      | None => None
      | Some b3 => copy_blocks8 rounds' b3 frameData (paletteCopySize + 0x18)
      end end end
  end.

(** The palette reset copy of the 32x32, 64x64 and 128x128 decoders.
    The frame and the palette lie in different blocks, so the overlap
    test of the source fails and the count alone selects the loops: none
    for 0 entries, the entry loop for fewer than 8, otherwise the
    16-entry loop ([paletteEntryCount & 0xfff0] entries, 16 per round),
    the 8-entry loop when bit 3 of the count is set (its counter starts
    at [paletteCopySize - alignedPaletteSize] and rises by 8 to 0) and
    the entry loop for what is left.  Every block these decoders allocate
    holds 6 bytes per entry of its capacity, and the entry loop writes
    the first [3 * paletteEntryCount] bytes only; the 64-bit stores lie
    0x40 bytes apart and can leave the block, and the result is [None]
    when one of them does. *)
Definition copy_reset (step : Z) (buf : block) (frameData : mem)
    (paletteEntryCount : Z) : option block :=
  let entries (b : block) (alignedPaletteSize : Z) :=
    Some {| blk_size := blk_size b;
            blk_bytes := copy_entries (Z.to_nat (paletteEntryCount - alignedPaletteSize))
                           (blk_bytes b) frameData 8 alignedPaletteSize |} in
  let blocks8 (b : block) (paletteCopySize : Z) :=
    let alignedPaletteSize := Z.land paletteEntryCount 0xfff8 in
    match copy_blocks8 (Z.to_nat ((alignedPaletteSize - paletteCopySize) / 8)) b
            frameData (paletteCopySize * 3) with
    | None => None
    | Some b' =>
        if alignedPaletteSize =? paletteEntryCount then Some b'
        else entries b' alignedPaletteSize
    end in
  if paletteEntryCount =? 0 then Some buf
  else if paletteEntryCount <? 8 then entries buf 0
  else if paletteEntryCount <? 0x10 then blocks8 buf 0
  else
    let alignedPaletteSize := Z.land paletteEntryCount 0xfff0 in
    match copy_blocks16 (Z.to_nat (alignedPaletteSize / 0x10)) step buf frameData 0 8 with
    | None => None
    | Some b' =>
        if alignedPaletteSize =? paletteEntryCount then Some b'
        else if Z.land (Z.shiftr paletteEntryCount 3) 1 =? 0
        then entries b' alignedPaletteSize
        else blocks8 b' alignedPaletteSize
    end.

(** Palette extension: entry [j] of the frame goes to palette slot
    [currentPaletteOffset & 0xffff]; the running offset is a [uint] and the
    count stored back in the handle its low 16 bits.  Returns the palette
    and the final running offset. *)
Fixpoint append_entries (n : nat) (pal frameData : mem) (hdr j currentPaletteOffset : Z)
    : mem * Z :=
  match n with
  | O => (pal, currentPaletteOffset)
  | S n' =>
      let slot := Z.land currentPaletteOffset 0xffff in
      let pal1 := st8 pal (slot + slot * 2) (ld8 frameData (hdr + 3 * j)) in
      let pal2 := st8 pal1 (slot + slot * 2 + 1) (ld8 frameData (hdr + 3 * j + 1)) in
      let pal3 := st8 pal2 (slot + slot * 2 + 2) (ld8 frameData (hdr + 3 * j + 2)) in
      append_entries n' pal3 frameData hdr (j + 1) (u32 (currentPaletteOffset + 1))
  end.

(** What a frame decoder hands back: the handle, the return value (0 or
    1), the bytes stored to the pixel buffer and the value stored to
    [*bytesConsumed] (the caller's variable keeps its old value on the
    paths that do not store). *)
Record decoded : Type := {
  d_handle   : handle;
  d_ret      : Z;
  d_pixels   : list Z;
  d_consumed : option Z
}.

Definition failed (h : handle) : decoded :=
  {| d_handle := h; d_ret := 0; d_pixels := []; d_consumed := None |}.

Section Decoders.
(** The bits table as memory at [&gdivoom_image_bits_table], and the
    allocator. *)
Variable bits_table : mem.
Variable malloc : Z -> option mem.

(** *** [divoom_image_decode_decode_one]: 16x16, kinds 0x00 and 0x01 *)
Definition divoom_image_decode_decode_one (decoderState : handle)
    (frameData : option mem) : run decoded :=
  match frameData with
  | None => Ret (failed decoderState)                                   (* 0x1578 *)
  | Some frameData =>
    if negb (ld8 frameData 0 =? 0xAA) then Ret (failed decoderState)    (* 0x157d *)
    else
      let frameFormatType := ld8 frameData 5 in
      if 1 <? frameFormatType then Ret (failed decoderState)            (* 0x1582 *)
      else if frameFormatType =? 0 then
        let paletteEntryCounter :=
          if ld8 frameData 6 =? 0 then 0x100 else ld8 frameData 6 in
        let paletteIndex :=
          if 0xff <? shl32 paletteEntryCounter 1 then 0x100
          else shl32 paletteEntryCounter 1 in
        let bitOffset := if 0xf <? paletteEntryCounter then paletteIndex else 0x40 in
        match malloc (u32 (bitOffset * 6)) with
        | None => Undefined
        | Some fresh =>
            let pal := copy_entries (Z.to_nat paletteEntryCounter) fresh frameData 7 0 in
            let h := set_palette decoderState (u16 paletteEntryCounter) (u16 bitOffset)
                       (Some {| blk_size := u32 (bitOffset * 6); blk_bytes := pal |}) in
            let bitstreamOffset := u32 (paletteEntryCounter * 3 + 7) in
            let bitsPerIndex := ld8 bits_table paletteEntryCounter in
            Ret {| d_handle := h; d_ret := 1;
                   d_pixels := decode_pixels (Z.to_nat 0x100) frameData bitstreamOffset bitsPerIndex pal 0;
                   d_consumed := Some (s32 (bitstreamOffset + bitsPerIndex * 0x20)) |}
        end
      else
        match palette decoderState with
        | None => Ret (failed decoderState)                             (* 0x158e *)
        | Some existing =>
            let newEntries := ld8 frameData 6 in
            let currentPaletteCount := palette_count decoderState in
            if palette_capacity decoderState <? currentPaletteCount + newEntries
            then Ret (failed decoderState)                              (* 0x1594 *)
            else
              let '(pal, currentPaletteCountUlong) :=
                append_entries (Z.to_nat newEntries) (blk_bytes existing) frameData 7 0
                               currentPaletteCount in
              let h := set_palette decoderState (u16 currentPaletteCountUlong)
                         (palette_capacity decoderState)
                         (Some {| blk_size := blk_size existing; blk_bytes := pal |}) in
              let bitstreamOffset := newEntries * 3 + 7 in
              let bitsPerIndex := ld8 bits_table (Z.land currentPaletteCountUlong 0xffff) in
              Ret {| d_handle := h; d_ret := 1;
                     d_pixels := decode_pixels (Z.to_nat 0x100) frameData bitstreamOffset bitsPerIndex pal 0;
                     d_consumed := Some (s32 (bitstreamOffset + bitsPerIndex * 0x20)) |}
        end
  end.

(** *** The paths shared by the 32-, 64- and 128-pixel decoders

    [npix] is the pixel count and [unit] the multiplier of the bits per
    index in the consumed-bytes formula (0x80, 0x200, 0x800). *)

(** Raw truecolor: the palette is freed and its pointer cleared, and
    [3 * npix] bytes are copied from [frameData + 8]. *)
Definition decode_raw (npix : nat) (unit : Z) (decoderState : handle) (frameData : mem)
    : run decoded :=
  let h := set_palette decoderState (palette_count decoderState)
             (palette_capacity decoderState) None in
  Ret {| d_handle := h; d_ret := 1;
         d_pixels := to_list (3 * npix) (shift frameData 8);
         d_consumed := Some (s32 (0x18 * unit + Z.land 8 0xffff)) |}.

(** Palette continuation: the new entries follow the current ones, in a
    larger block when the capacity is too small. *)
Definition decode_extend (npix : nat) (unit : Z) (decoderState : handle) (frameData : mem)
    : run decoded :=
  match palette decoderState with
  | None => Ret (failed decoderState)
  | Some existing =>
      let newPaletteSize := ld16 frameData 6 in
      let currentPaletteCount := palette_count decoderState in
      let totalPaletteSize := newPaletteSize + currentPaletteCount in
      let grown :=
        if palette_capacity decoderState <? u32 totalPaletteSize then
          match malloc (totalPaletteSize * 6 + 0x600) with
          | None => None
          | Some fresh =>
              let kept := fun k =>
                if (0 <=? k) && (k <? currentPaletteCount * 3)
                then blk_bytes existing k else fresh k in
              Some ({| blk_size := totalPaletteSize * 6 + 0x600; blk_bytes := kept |},
                    u16 (currentPaletteCount + newPaletteSize + 0x100))
          end
        else Some (existing, palette_capacity decoderState) in
      match grown with
      | None => Ret (failed decoderState)
      | Some (buf, capacity) =>
          let '(pal, currentPaletteOffset) :=
            append_entries (Z.to_nat newPaletteSize) (blk_bytes buf) frameData 8 0
                           currentPaletteCount in
          let h := set_palette decoderState (u16 currentPaletteOffset) capacity
                     (Some {| blk_size := blk_size buf; blk_bytes := pal |}) in
          let bitstreamOffset := u32 (newPaletteSize * 3 + 8) in
          let bitsPerIndex := ld8 bits_table (Z.land currentPaletteOffset 0xffff) in
          Ret {| d_handle := h; d_ret := 1;
                 d_pixels := decode_pixels npix frameData (u16 bitstreamOffset)
                               bitsPerIndex pal 0;
                 d_consumed := Some (s32 (bitsPerIndex * unit + Z.land bitstreamOffset 0xffff)) |}
      end
  end.

(** Palette reset: the handle's block is kept when its capacity field
    equals the size wanted and replaced otherwise.  [paletteAllocSize]
    is the size wanted, [tableIndex] the local the source indexes the
    bits table with ([None] when the path leaves it unassigned), [step]
    the bytes the write cursor of the 16-entry copy loop moves per
    round. *)
Definition decode_reset (npix : nat) (unit step : Z) (decoderState : handle)
    (frameData : mem) (paletteAllocSize : Z) (tableIndex : option Z) : run decoded :=
  let currentPaletteCount := ld16 frameData 6 in
  let buffer :=
    match palette decoderState with
    | Some existing =>
        if negb (palette_capacity decoderState =? paletteAllocSize) then
          match malloc (paletteAllocSize * 6) with
          | None => None
          | Some fresh =>
              Some ({| blk_size := paletteAllocSize * 6; blk_bytes := fresh |},
                    u16 paletteAllocSize)
          end
        else Some (existing, palette_capacity decoderState)
    | None =>
        match malloc (paletteAllocSize * 6) with
        | None => None
        | Some fresh =>
            Some ({| blk_size := paletteAllocSize * 6; blk_bytes := fresh |},
                  u16 paletteAllocSize)
        end
    end in
  match buffer with
  | None =>
      (* malloc returned NULL: the copy stores through it, and the pixel
         loop loads through it *)
      Undefined
  | Some (buf, capacity) =>
      match copy_reset step buf frameData currentPaletteCount with
      | None =>
          (* a 64-bit store of the copy past the end of the block *)
          Undefined
      | Some filled =>
          let pal := blk_bytes filled in
          let h := set_palette decoderState currentPaletteCount capacity (Some filled) in
          let bitstreamOffset := u32 (currentPaletteCount * 3 + 8) in
          match tableIndex with
          | None => Undefined
          | Some i =>
              let bitsPerIndex := ld8 bits_table i in
              Ret {| d_handle := h; d_ret := 1;
                     d_pixels := decode_pixels npix frameData (u16 bitstreamOffset)
                                   bitsPerIndex pal 0;
                     d_consumed := Some (s32 (bitsPerIndex * unit
                                              + Z.land bitstreamOffset 0xffff)) |}
          end
      end
  end.

(** *** [divoom_image_decode_decode_one_big]: 32x32, kinds 0x02..0x04 *)
Definition divoom_image_decode_decode_one_big (decoderState : handle)
    (frameData : option mem) : run decoded :=
  match frameData with
  | None => Ret (failed decoderState)                                   (* 0x14db *)
  | Some frameData =>
    if negb (ld8 frameData 0 =? 0xAA) then Ret (failed decoderState)    (* 0x14e0 *)
    else
      let frameFormatType := ld8 frameData 5 in
      if negb (Z.land frameFormatType 0x7e =? 2) && negb (Z.land frameFormatType 0x7f =? 4)
      then Ret (failed decoderState)                                    (* 0x14e6 *)
      else if Z.land frameFormatType 0x7f =? 4 then
        decode_extend (Z.to_nat 0x400) 0x80 decoderState frameData
      else if Z.land frameFormatType 0x7f =? 2 then
        decode_raw (Z.to_nat 0x400) 0x80 decoderState frameData
      else
        let currentPaletteCount := ld16 frameData 6 in
        let paletteAllocSize :=
          if 0x7f <? currentPaletteCount then currentPaletteCount + 0x100 else 0x100 in
        decode_reset (Z.to_nat 0x400) 0x80 0x180 decoderState frameData paletteAllocSize
          (Some currentPaletteCount)
  end.

(** *** [divoom_image_decode_decode_one_64]: 64x64, kinds 0x0B..0x10

    On the reset path the source indexes the bits table with
    [currentPaletteOffset], which that path assigns only when the frame
    carries no palette entry. *)
Definition divoom_image_decode_decode_one_64 (decoderState : handle)
    (frameData : option mem) : run decoded :=
  match frameData with
  | None => Ret (failed decoderState)                                   (* 0x108d *)
  | Some frameData =>
    if negb (ld8 frameData 0 =? 0xAA) then Ret (failed decoderState)    (* 0x1092 *)
    else
      let frameFormatType := ld8 frameData 5 in
      if u32 (Z.land frameFormatType 0x7f - 0x11) <? 0xfffffffa
      then Ret (failed decoderState)                                    (* 0x1099 *)
      else if (frameFormatType =? 0xb) || (frameFormatType =? 0xe)
              || (frameFormatType =? 0x8b) || (frameFormatType =? 0x8e) then
        decode_raw (Z.to_nat 0x1000) 0x200 decoderState frameData
      else if (frameFormatType =? 0xd) || (frameFormatType =? 0x10)
              || (frameFormatType =? 0x8d) || (frameFormatType =? 0x90) then
        decode_extend (Z.to_nat 0x1000) 0x200 decoderState frameData
      else
        let currentPaletteCount := ld16 frameData 6 in
        let paletteAllocSize :=
          if currentPaletteCount <? 0x81 then 0x80 else currentPaletteCount in
        decode_reset (Z.to_nat 0x1000) 0x200 0x180 decoderState frameData paletteAllocSize
          (if currentPaletteCount =? 0 then Some 0 else None)
  end.

(** *** [divoom_image_decode_decode_one_128]: 128x128, kinds 0x11, 0x13, 0x14 *)
Definition divoom_image_decode_decode_one_128 (decoderState : handle)
    (frameData : option mem) : run decoded :=
  match frameData with
  | None => Ret (failed decoderState)                                   (* 0x112c *)
  | Some frameData =>
    if negb (ld8 frameData 0 =? 0xAA) then Ret (failed decoderState)    (* 0x1131 *)
    else
      let frameFormatType := ld8 frameData 5 in
      if negb (Z.land frameFormatType 0x7d =? 0x11) && negb (Z.land frameFormatType 0x7f =? 0x14)
      then Ret (failed decoderState)                                    (* 0x1137 *)
      else if Z.land frameFormatType 0x7f =? 0x13 then
        decode_extend (Z.to_nat 0x4000) 0x800 decoderState frameData
      else if Z.land frameFormatType 0x7f =? 0x11 then
        decode_raw (Z.to_nat 0x4000) 0x800 decoderState frameData
      else
        let newPaletteSize := ld16 frameData 6 in
        let paletteSizeUint := if newPaletteSize <? 0x81 then 0x80 else newPaletteSize in
        decode_reset (Z.to_nat 0x4000) 0x800 0x30 decoderState frameData paletteSizeUint
          (Some newPaletteSize)
  end.

(** *** [divoom_image_decode_decode_pic]: dispatch on the kind byte at
    the cursor and advance the cursor by the bytes the decoder reports.
    The result pairs the handle with the size code (0x10, 0x20, 0x40,
    0x80, or 0 on failure) and the pixel bytes. *)
Definition divoom_image_decode_decode_pic (decoderStateAddress : option handle)
    : run (option handle * Z * list Z) :=
  match decoderStateAddress with
  | None => Ret (None, 0, [])                                           (* 0x191c *)
  | Some h =>
      let currentOffset := cursor h in
      if currentOffset <? stream_len h then
        let frameDataBase := input h in
        let frameFormatType := ld8 frameDataBase (u32 (currentOffset + 5)) in
        let kind := Z.land frameFormatType 0x7f in
        let frame := Some (shift frameDataBase currentOffset) in
        let finish (size : Z) (r : run decoded) : run (option handle * Z * list Z) :=
          match r with
          | Ret d =>
              let stackCheck := match d_consumed d with Some c => c | None => 0 end in
              Ret (Some (set_cursor (d_handle d) (u32 (cursor (d_handle d) + stackCheck))),
                   (if d_ret d =? 0 then 0 else size), d_pixels d)
          | Undefined => Undefined
          | OutOfFuel => OutOfFuel
          end in
        if kind <? 2 then
          finish 0x10 (divoom_image_decode_decode_one h frame)
        else if u32 (kind - 2) <? 3 then
          finish 0x20 (divoom_image_decode_decode_one_big h frame)
        else if u32 (kind - 0xb) <? 6 then
          finish 0x40 (divoom_image_decode_decode_one_64 h frame)
        else if (Z.land frameFormatType 0x7e =? 0x12)
                || (Z.land frameFormatType 0x7b =? 0x11) || (kind =? 0x14) then
          finish 0x80 (divoom_image_decode_decode_one_128 h frame)
        else Ret (Some h, 0, [])
      else Ret (Some h, 0, [])                                          (* 0x1922 *)
  end.
End Decoders.

(** ** PicEncoder and its decoder: 11x11 images, 4 bits per channel

    An image is 121 pixels packed two to three bytes (182 bytes). *)

Definition s16 (x : Z) : Z :=
  let y := u16 x in if y <? 32768 then y else y - 65536.

(** [divoom_multipic_get_data]: the three nibbles of pixel [index]. *)
Definition divoom_multipic_get_data (packedData : mem) (index : Z) : Z * Z * Z :=
  let byteOffset := Z.land (u32 (index + Z.shiftr (Z.land index 0xfffe) 1)) 0xffff in
  if Z.land index 1 =? 0 then
    (Z.land (ld8 packedData byteOffset) 0xf,
     Z.shiftr (ld8 packedData byteOffset) 4,
     Z.land (ld8 packedData (byteOffset + 1)) 0xf)
  else
    (Z.shiftr (ld8 packedData byteOffset) 4,
     Z.land (ld8 packedData (byteOffset + 1)) 0xf,
     Z.shiftr (ld8 packedData (byteOffset + 1)) 4).

(** The nibble store that [divoom_pic_encode] and [divoom_pic_decode]
    inline at every pixel write and that [divoom_multipic_set_data] has as
    a function: pixel [index] of the packed array at [base]. *)
Definition put_pixel (m : mem) (base index r g b : Z) : mem :=
  let target := base + Z.shiftr index 1 + index in
  if Z.land index 1 =? 0 then
    let m1 := st8 m target (Z.lor r (Z.shiftl g 4)) in
    st8 m1 (target + 1) (Z.lor b (Z.land (ld8 m1 (target + 1)) 0xf0))
  else
    let m1 := st8 m target (Z.lor (Z.land (ld8 m target) 0xf) (Z.shiftl r 4)) in
    st8 m1 (target + 1) (Z.lor g (Z.shiftl b 4)).

Definition divoom_multipic_set_data (index : Z) (rgbInput : Z * Z * Z) (packedData : mem) : mem :=
  let '(r, g, b) := rgbInput in
  put_pixel packedData 0 (Z.land index 0xffff) r g b.

(** *** [divoom_pic_encode] *)

(** The palette search of the first loop: entries [k ..] up to [n] of them. *)
Fixpoint palette_find (n : nat) (paletteBuffer : mem) (k : Z) (r g b : Z) : option Z :=
  match n with
  | O => None
  | S n' =>
      if (ld8 paletteBuffer (3 * k) =? r) && (ld8 paletteBuffer (3 * k + 1) =? g)
         && (ld8 paletteBuffer (3 * k + 2) =? b)
      then Some k
      else palette_find n' paletteBuffer (k + 1) r g b
  end.

(** The first loop: one palette index per pixel, a new palette entry for
    each colour not seen before. *)
Fixpoint build_palette (npix : nat) (inputImage : mem) (pixelIndex : Z)
    (paletteBuffer : mem) (paletteSize : Z) (pixelColorIndices : mem) : mem * Z * mem :=
  match npix with
  | O => (paletteBuffer, paletteSize, pixelColorIndices)
  | S npix' =>
      let off := Z.land (Z.shiftr pixelIndex 1) 0x7fff + pixelIndex in
      let b0 := ld8 inputImage off in
      let b1 := ld8 inputImage (off + 1) in
      let '(r, g, b) :=
        if Z.land pixelIndex 1 =? 0
        then (Z.land b0 0xf, Z.shiftr b0 4, Z.land b1 0xf)
        else (Z.shiftr b0 4, Z.land b1 0xf, Z.shiftr b1 4) in
      let n := Z.land paletteSize 0xffff in
      let found :=
        if n =? 0 then None else palette_find (Z.to_nat n) paletteBuffer 0 r g b in
      match found with
      | Some k =>
          build_palette npix' inputImage (pixelIndex + 1) paletteBuffer n
            (st8 pixelColorIndices pixelIndex k)
      | None =>
          let p1 := st8 paletteBuffer (n * 3) r in
          let p2 := st8 p1 (n * 3 + 1) g in
          let p3 := st8 p2 (n * 3 + 2) b in
          build_palette npix' inputImage (pixelIndex + 1) p3 (u32 (n + 1))
            (st8 pixelColorIndices pixelIndex n)
      end
  end.

(** The loop at [LAB_0024a448] that packs the palette behind the two
    header bytes ([do ... while (count != k)]). *)
Fixpoint write_palette (fuel : nat) (encodedData paletteBuffer : mem) (count k : Z)
    : run mem :=
  match fuel with
  | O => OutOfFuel
  | S fuel' =>
      let e := put_pixel encodedData 2 k (ld8 paletteBuffer (3 * k))
                 (ld8 paletteBuffer (3 * k + 1)) (ld8 paletteBuffer (3 * k + 2)) in
      if count =? k + 1 then Ret e
      else write_palette fuel' e paletteBuffer count (k + 1)
  end.

(** The membership bitmap written for a two-colour palette. *)
Fixpoint write_bitmap (n : nat) (encodedData pixelColorIndices : mem) (pixelIndex p : Z) : mem :=
  match n with
  | O => encodedData
  | S n' =>
      let a := Z.land (Z.shiftr p 3) 0x1fff + pixelIndex in
      let e := st8 encodedData a
                 (Z.lor (ld8 encodedData a)
                        (Z.shiftl (ld8 pixelColorIndices p) (Z.land p 7))) in
      write_bitmap n' e pixelColorIndices pixelIndex (p + 1)
  end.

(** The inner comparison loop of both run-length loops: how many of the
    following indices equal the one at [paletteSize], at most [n]. *)
Fixpoint run_scan (n : nat) (pixelColorIndices : mem) (paletteSize j : Z) : Z :=
  match n with
  | O => j
  | S n' =>
      if negb (ld8 pixelColorIndices paletteSize =? ld8 pixelColorIndices (j + paletteSize + 1))
      then j
      else run_scan n' pixelColorIndices paletteSize (j + 1)
  end.

(** One pass of a run-length loop body up to the stores: the run byte and
    the value the source assigns back to the position [paletteSize]. *)
Definition run_step (pixelColorIndices : mem) (paletteSize : Z) : Z * Z :=
  let runLength := u32 paletteSize in
  if runLength <? 0x78 then
    let runLength1 := u32 (0x77 - runLength) in
    let runLength2 := if 0xc <? runLength1 then 0xd else runLength1 in
    let j := run_scan (Z.to_nat (runLength2 + 1)) pixelColorIndices paletteSize 0 in
    (u32 (j + 1), Z.land (u32 (u32 (runLength2 + j) + 1)) 0xffff)
  else (1, Z.land (u32 (runLength + 1)) 0xffff).

(** The loop at [LAB_0024a540]: one byte per run, index in the low nibble
    and run length in the high one. *)
Fixpoint rle4_loop (fuel : nat) (encodedData pixelColorIndices : mem)
    (pixelIndex paletteSize dataOffset : Z) : run (mem * Z) :=
  match fuel with
  | O => OutOfFuel
  | S fuel' =>
      let '(run, next) := run_step pixelColorIndices paletteSize in
      let e := st8 encodedData (pixelIndex + dataOffset)
                 (Z.lor (ld8 pixelColorIndices paletteSize)
                        (u8 (Z.shiftl (Z.land run 0xff) 4))) in
      let dataOffset1 := u16 (dataOffset + 1) in
      if next <? 0x79
      then rle4_loop fuel' e pixelColorIndices pixelIndex next dataOffset1
      else Ret (e, dataOffset1)
  end.

(** The loop for palettes above 16 entries: two bytes per run. *)
Fixpoint rle8_loop (fuel : nat) (encodedData pixelColorIndices : mem)
    (pixelIndex paletteSize dataOffset : Z) : run (mem * Z) :=
  match fuel with
  | O => OutOfFuel
  | S fuel' =>
      let '(run, next) := run_step pixelColorIndices paletteSize in
      let e1 := st8 encodedData (pixelIndex + dataOffset)
                  (ld8 pixelColorIndices paletteSize) in
      let e2 := st8 e1 (pixelIndex + Z.lor dataOffset 1) run in
      let dataOffset1 := u16 (dataOffset + 2) in
      if next <? 0x79
      then rle8_loop fuel' e2 pixelColorIndices pixelIndex next dataOffset1
      else Ret (e2, dataOffset1)
  end.

(** The unrolled stores of mode 3: body byte [k] is index [k], 121 of them. *)
Fixpoint copy_raw8 (n : nat) (encodedData pixelColorIndices : mem) (pixelIndex k : Z) : mem :=
  match n with
  | O => encodedData
  | S n' =>
      copy_raw8 n' (st8 encodedData (pixelIndex + k) (ld8 pixelColorIndices k))
        pixelColorIndices pixelIndex (k + 1)
  end.

(** The unrolled stores of mode 1: body byte [k] packs indices [2k] and
    [2k+1], 60 of them, and byte 0x3c packs index 0x78 with the local
    [local_1cb]. *)
Fixpoint copy_raw4 (n : nat) (encodedData pixelColorIndices : mem) (pixelIndex k : Z) : mem :=
  match n with
  | O => encodedData
  | S n' =>
      copy_raw4 n'
        (st8 encodedData (pixelIndex + k)
             (Z.lor (ld8 pixelColorIndices (2 * k))
                    (Z.shiftl (ld8 pixelColorIndices (2 * k + 1)) 4)))
        pixelColorIndices pixelIndex (k + 1)
  end.

(** Sequencing of calls. *)
Definition bind {A B : Type} (r : run A) (k : A -> run B) : run B :=
  match r with
  | Ret a => k a
  | Undefined => Undefined
  | OutOfFuel => OutOfFuel
  end.

Section PicEncode.
Variable malloc : Z -> option mem.

(** [paletteBuffer0], [pixelColorIndices0] and [local_1cb] are the
    contents of the locals on entry.  The result is the output block
    and the value stored to [*outputSize]. *)
Definition divoom_pic_encode (fuel : nat) (paletteBuffer0 pixelColorIndices0 : mem)
    (local_1cb : Z) (inputImage : mem) : run (block * Z) :=
  let '(paletteBuffer, colorIndex, pixelColorIndices) :=
    build_palette (Z.to_nat 0x79) inputImage 0 paletteBuffer0 0 pixelColorIndices0 in
  let totalPaletteSize := u32 colorIndex in
  let count := Z.land totalPaletteSize 0xffff in
  let paletteOffset :=
    u32 (Z.shiftr (u32 (count + u16 colorIndex * 2 + 1)) 1 + 2) in
  let pixelIndex := Z.land paletteOffset 0xffff in
  let sizeValue := s16 paletteOffset in
  match malloc (pixelIndex + 0x16b) with
  | None => Undefined                                  (* memset through NULL *)
  | Some fresh =>
      let encodedData0 : mem :=
        fun k => if (0 <=? k) && (k <? pixelIndex + 0x16b) then 0 else fresh k in
      let finish (e : mem) (dataOffset : Z) : run (block * Z) :=
        Ret ({| blk_size := pixelIndex + 0x16b; blk_bytes := e |},
             s16 (dataOffset + sizeValue)) in
      (* LAB_0024a540 *)
      let rle4 (e : mem) : run (block * Z) :=
        bind (rle4_loop fuel e pixelColorIndices pixelIndex 0 0) (fun '(e1, dataOffset) =>
          if dataOffset <? 0xb7 then finish e1 dataOffset
          else
            let e2 := copy_raw4 (Z.to_nat 0x3c) e1 pixelColorIndices pixelIndex 0 in
            let e3 := st8 e2 (pixelIndex + 0x3c)
                        (Z.lor (ld8 pixelColorIndices 0x78) (Z.shiftl (s8 local_1cb) 4)) in
            finish (st8 e3 0 1) 0xb6) in
      (* LAB_0024a448 *)
      let after_header (e : mem) : run (block * Z) :=
        bind (write_palette fuel e paletteBuffer (Z.land colorIndex 0xffff) 0) (fun e1 =>
          if count =? 1 then finish e1 0
          else if count =? 2 then
            finish (write_bitmap (Z.to_nat 0x79) e1 pixelColorIndices pixelIndex 0) 0x10
          else if count <? 0x11 then rle4 e1
          else
            bind (rle8_loop fuel e1 pixelColorIndices pixelIndex 0 0) (fun '(e2, dataOffset) =>
              if dataOffset <? 0x7a then finish e2 dataOffset
              else
                let e3 := copy_raw8 (Z.to_nat 0x79) e2 pixelColorIndices pixelIndex 0 in
                finish (st8 e3 0 3) 0x79)) in
      (* LAB_0024a440 *)
      let header (encodeMode : Z) : run (block * Z) :=
        after_header (st8 (st8 encodedData0 0 encodeMode) 1 colorIndex) in
      if paletteOffset =? 1 then header 4
      else if paletteOffset =? 2 then header 5
      else if 0x10 <? count then header 2
      else
        let e := st8 (st8 encodedData0 0 0) 1 colorIndex in
        if negb (Z.land colorIndex 0xffff =? 0) then after_header e
        else rle4 e
  end.
End PicEncode.

(** *** [divoom_pic_decode] *)

(** The palette unpacking loop: entry [k] of the packed palette at
    [encodedData + 2] into the three bytes [3*k .. 3*k+2] of the local
    [paletteBuffer].  The local is [byte paletteBuffer [368]] and the
    loop has no bound but the palette size in byte 1: the result is
    [None] when an entry is stored past byte 367 of the array, which
    happens from the 123rd entry on. *)
Fixpoint unpack_palette (n : nat) (encodedData paletteBuffer : mem) (k : Z) : option mem :=
  match n with
  | O => Some paletteBuffer
  | S n' =>
      if 368 <? 3 * k + 3 then None
      else
        let packedDataOffset := Z.land (u32 (k + Z.shiftr (Z.land k 0xfffe) 1)) 0xffff in
        let b0 := ld8 encodedData (packedDataOffset + 2) in
        let b1 := ld8 encodedData (packedDataOffset + 3) in
        let '(r, g, b) :=
          if Z.land k 1 =? 0
          then (Z.land b0 0xf, Z.shiftr b0 4, Z.land b1 0xf)
          else (Z.shiftr b0 4, Z.land b1 0xf, Z.shiftr b1 4) in
        let p1 := st8 paletteBuffer (3 * k) r in
        let p2 := st8 p1 (3 * k + 1) g in
        let p3 := st8 p2 (3 * k + 2) b in
        unpack_palette n' encodedData p3 (k + 1)
  end.

(** Pixel [p] of the output from the palette entry at byte [e]. *)
Definition paint (outputBuffer paletteBuffer : mem) (p e : Z) : mem :=
  put_pixel outputBuffer 0 p (ld8 paletteBuffer e) (ld8 paletteBuffer (e + 1))
    (ld8 paletteBuffer (e + 2)).

(** The inner [do ... while (runLength != 0)] of modes 0 and 2. *)
Fixpoint paint_run (runLength : nat) (outputBuffer paletteBuffer : mem)
    (currentPixelIndex e : Z) : mem :=
  match runLength with
  | O => outputBuffer
  | S r' =>
      paint_run r' (paint outputBuffer paletteBuffer currentPixelIndex e) paletteBuffer
        (u16 (currentPixelIndex + 1)) e
  end.

(** Mode 0: one byte per run. *)
Fixpoint decode_rle4 (fuel : nat) (encodedData paletteBuffer outputBuffer : mem)
    (paletteColorIndex pixelIndex : Z) : run mem :=
  match fuel with
  | O => OutOfFuel
  | S fuel' =>
      let v := ld8 encodedData (Z.land paletteColorIndex 0xffff) in
      let out :=
        if 0xf <? v then
          let runLength := if Z.shiftr v 4 <? 2 then 1 else Z.shiftr v 4 in
          paint_run (Z.to_nat runLength) outputBuffer paletteBuffer pixelIndex
            (Z.land v 0xf * 3)
        else outputBuffer in
      let pixelIndex1 := u16 (pixelIndex + Z.shiftr v 4) in
      if pixelIndex1 <? 0x79
      then decode_rle4 fuel' encodedData paletteBuffer out
             (u32 (paletteColorIndex + 1)) pixelIndex1
      else Ret out
  end.

(** Mode 2: an index byte and a length byte per run. *)
Fixpoint decode_rle8 (fuel : nat) (encodedData paletteBuffer outputBuffer : mem)
    (paletteColorIndex pixelIndex : Z) : run mem :=
  match fuel with
  | O => OutOfFuel
  | S fuel' =>
      let runLength := ld8 encodedData (Z.land (u32 (paletteColorIndex + 1)) 0xffff) in
      let out :=
        if negb (runLength =? 0) then
          paint_run (Z.to_nat runLength) outputBuffer paletteBuffer pixelIndex
            (ld8 encodedData (Z.land paletteColorIndex 0xffff) * 3)
        else outputBuffer in
      let pixelIndex1 := u16 (pixelIndex + runLength) in
      if pixelIndex1 <? 0x79
      then decode_rle8 fuel' encodedData paletteBuffer out
             (u32 (paletteColorIndex + 2)) pixelIndex1
      else Ret out
  end.

(** Modes 1, 3 (and every mode byte above 5), 4 and 5 visit the 121
    pixels in order; [pick p] is the palette byte offset for pixel [p]. *)
Fixpoint decode_each (n : nat) (pick : Z -> Z) (paletteBuffer outputBuffer : mem) (p : Z) : mem :=
  match n with
  | O => outputBuffer
  | S n' =>
      decode_each n' pick paletteBuffer (paint outputBuffer paletteBuffer p (pick p)) (p + 1)
  end.

(** [paletteBuffer0] is the content of the stack from the start of the
    local palette array on, on entry (the pixel loops load three bytes at
    three times an index that modes 2 and 3 take from a byte of the
    input), [outputBuffer] the content of the caller's buffer.  The
    source has no test on the palette size in byte 1: with more than 122
    entries the unpacking loop stores past the 368 bytes of
    [paletteBuffer], into the stack canary that follows it, and the run
    is [Undefined]. *)
Definition divoom_pic_decode (fuel : nat) (paletteBuffer0 outputBuffer encodedData : mem)
    : run mem :=
  let paletteSize := ld8 encodedData 1 in
  let decodeMode := ld8 encodedData 0 in
  let unpacked :=
    if paletteSize =? 0 then Some paletteBuffer0
    else unpack_palette (Z.to_nat paletteSize) encodedData paletteBuffer0 0 in
  match unpacked with
  | None => Undefined
  | Some paletteBuffer =>
      let paletteColorIndex := Z.shiftr (paletteSize * 3 + 1) 1 + 2 in
      let each pick := Ret (decode_each (Z.to_nat 0x79) pick paletteBuffer outputBuffer 0) in
      if decodeMode =? 0 then
        decode_rle4 fuel encodedData paletteBuffer outputBuffer paletteColorIndex 0
      else if decodeMode =? 1 then
        each (fun p =>
          if Z.land p 1 =? 0
          then Z.land (ld8 encodedData (Z.shiftr p 1 + paletteColorIndex)) 0xf * 3
          else Z.shiftr (ld8 encodedData (Z.shiftr p 1 + paletteColorIndex)) 4 * 3)
      else if decodeMode =? 2 then
        decode_rle8 fuel encodedData paletteBuffer outputBuffer paletteColorIndex 0
      else if decodeMode =? 4 then
        each (fun _ => 0)
      else if decodeMode =? 5 then
        each (fun p =>
          if Z.land (Z.shiftr (ld8 encodedData (Z.shiftr p 3 + paletteColorIndex))
                              (Z.land p 7)) 1 =? 0
          then 0 else 3)
      else
        each (fun p => ld8 encodedData (p + paletteColorIndex) * 3)
  end.

(** ** Concrete streams, frames and images used by the examples below *)

(** A three-byte stream: the magic and a length field of 0. *)
Definition zero_length_stream : mem := of_list [0xAA; 0; 0].

(** Seven-byte streams whose only header declares length 0 and 0xFFFF. *)
Definition stalled_handle : handle :=
  {| palette_count := 0; palette_capacity := 0; stream_len := 7; avail_len := 0;
     cursor := 0; input := of_list [0xAA; 0; 0; 0; 0; 0; 0];
     owned := None; palette := None |}.

Definition overlong_handle : handle :=
  {| palette_count := 0; palette_capacity := 0; stream_len := 7; avail_len := 0;
     cursor := 0; input := of_list [0xAA; 0xFF; 0xFF; 0; 0; 0; 0];
     owned := None; palette := None |}.

(** A well-formed two-frame stream: lengths 7 and 8. *)
Definition two_frame_handle : handle :=
  {| palette_count := 0; palette_capacity := 0; stream_len := 15; avail_len := 0;
     cursor := 0;
     input := of_list [0xAA; 7; 0; 100; 0; 6; 0; 0xAA; 8; 0; 100; 0; 6; 0; 0];
     owned := None; palette := None |}.

(** The fields of a handle hold values of their C types. *)
Definition wf_handle (h : handle) : Prop :=
  0 <= palette_count h < 65536 /\ 0 <= palette_capacity h < 65536 /\
  0 <= stream_len h < 4294967296 /\ 0 <= cursor h < 4294967296.

(** Allocators for the examples: one that always succeeds and fills the
    block with [fill], one that always returns NULL. *)
Definition always_alloc (fill : Z) : Z -> option mem := fun _ => Some (fun _ => fill).
Definition never_alloc : Z -> option mem := fun _ => None.

(** A handle with two palette entries (1,2,3) and (4,5,6) in a
    0x100-entry block. *)
Definition small_palette_handle : handle :=
  {| palette_count := 2; palette_capacity := 0x100; stream_len := 0; avail_len := 0;
     cursor := 0; input := zeros; owned := None;
     palette := Some {| blk_size := 0x600; blk_bytes := of_list [1; 2; 3; 4; 5; 6] |} |}.

Definition kind4_one_entry : mem := of_list [0xAA; 0x8B; 0; 0; 0; 0x04; 1; 0; 9; 9; 9].


(** A 32x32 raw frame header. *)
Definition raw32_frame : mem := of_list [0xAA; 0x08; 0x0C; 0; 0; 0x02].

(** A handle holding 60 palette entries in a 64-entry block, and a 16x16
    continuation frame (kind 0x01) that brings 10 more. *)
Definition nearly_full_handle : handle :=
  {| palette_count := 60; palette_capacity := 64; stream_len := 0; avail_len := 0;
     cursor := 0; input := zeros; owned := None;
     palette := Some {| blk_size := 384; blk_bytes := zeros |} |}.

Definition kind1_ten_entries : mem := of_list [0xAA; 0x45; 0; 0; 0; 0x01; 10].

(** A handle holding 65000 palette entries, and a 32x32 continuation
    frame (kind 0x04) that brings 500 more. *)
Definition huge_palette_handle : handle :=
  {| palette_count := 65000; palette_capacity := 65256; stream_len := 0; avail_len := 0;
     cursor := 0; input := zeros; owned := None;
     palette := Some {| blk_size := 391536; blk_bytes := zeros |} |}.

Definition kind4_500_entries : mem := of_list [0xAA; 0; 0; 0; 0; 0x04; 0xF4; 0x01].




(** Images for the examples, packed with the source's own
    [divoom_multipic_set_data]: [pack_image cols 0 zeros] holds the
    colours [cols] in pixels 0, 1, ... *)
Fixpoint pack_image (cols : list (Z * Z * Z)) (index : Z) (packedData : mem) : mem :=
  match cols with
  | [] => packedData
  | rgb :: rest => pack_image rest (index + 1) (divoom_multipic_set_data index rgb packedData)
  end.

(** 121 pixels of the colour (5,6,7). *)
Definition one_colour_image : mem := pack_image (repeat (5, 6, 7) 121) 0 zeros.

(** 121 pixels of two colours: (1,2,3) at pixels 4..7, 12..15, ...,
    60..63 and at pixel 68, (9,8,7) everywhere else. *)
Definition two_colour_pixel (i : Z) : Z * Z * Z :=
  if ((i <? 64) && (4 <=? i mod 8)) || (i =? 68) then (1, 2, 3) else (9, 8, 7).

Definition two_colour_image : mem :=
  pack_image (map (fun i => two_colour_pixel (Z.of_nat i)) (seq 0 121)) 0 zeros.

(** 121 pixels cycling through three colours. *)
Definition three_colour_image : mem :=
  pack_image (map (fun i => let c := Z.of_nat i mod 3 + 1 in (c, c, c)) (seq 0 121)) 0 zeros.

(** ** Vocabulary of the statements *)

(** The integers [lo, lo + n). *)
Definition zrange (lo : Z) (n : nat) : list Z :=
  map (fun k => lo + Z.of_nat k) (seq 0 n).

(** The specification's mapping on sizes 2..256, and what the function
    returns on the sizes 0 and 1. *)
Definition bits_expected (n : Z) : Z :=
  if n =? 0 then 0xffffffff
  else if n =? 1 then 0
  else if n <=? 2 then 1
  else if n <=? 4 then 2
  else if n <=? 8 then 3
  else if n <=? 16 then 4
  else if n <=? 32 then 5
  else if n <=? 64 then 6
  else if n <=? 128 then 7
  else 8.

(** The two expressions of the reader over the byte values alone: [x] is
    the byte at the index, [y] the next one, [b] the bit offset in the
    byte and [w] the width. *)
Definition reader_one (b w x : Z) : Z :=
  let totalBits := u32 (b + w) in
  shr32 (Z.land (shl32 x (Z.land (u32 (8 - totalBits)) 0x1f)) 0xff)
        (Z.land (u32 ((8 - totalBits) + b)) 0x1f).

Definition reader_high (b w y : Z) : Z :=
  let totalBits := u32 (b + w) in
  let k := Z.land (u32 (0x10 - totalBits)) 0x1f in
  shl32 (shr32 (Z.land (shl32 y k) 0xff) k) (Z.land (u32 (8 - b)) 0x1f).

(** The field as the specification writes it. *)
Definition field_spec (b w x y : Z) : Z :=
  if b + w <=? 8 then Z.land (Z.shiftr x b) (Z.shiftl 1 w - 1)
  else Z.lor (Z.shiftr x b)
             (Z.shiftl (Z.land y (Z.shiftl 1 (w - (8 - b)) - 1)) (8 - b)).

Definition reader_one_table : bool :=
  forallb (fun b => forallb (fun w => forallb (fun x =>
    negb (b + w <=? 8) || (reader_one b w x =? field_spec b w x 0))
    (zrange 0 256)) (zrange 1 8)) (zrange 0 8).

Definition reader_high_table : bool :=
  forallb (fun b => forallb (fun w => forallb (fun y =>
    (b + w <=? 8)
    || (reader_high b w y =? Z.shiftl (Z.land y (Z.shiftl 1 (w - (8 - b)) - 1)) (8 - b)))
    (zrange 0 256)) (zrange 1 8)) (zrange 0 8).

(** The offsets a walk reaches on a stream: 0, and from each offset the
    one its length field leads to. *)
Inductive visits (m : mem) : Z -> Prop :=
| visits_first : visits m 0
| visits_next o : visits m o -> visits m (o + ld16 m (o + 1)).

(** What a continuation frame leaves behind: [new] entries read from
    [f + hdr] follow the [palette_count h] entries of [old]. *)
Definition appended (h : handle) (old : block) (f : mem) (hdr new : Z) (d : decoded) : Prop :=
  d_ret d = 1
  /\ palette_count (d_handle d) = u16 (palette_count h + new)
  /\ exists blk,
       palette (d_handle d) = Some blk
       /\ (palette_count h + new <= 65536 ->
           (forall k, 0 <= k < 3 * palette_count h -> blk_bytes blk k = blk_bytes old k)
           /\ (forall i c, 0 <= i < new -> 0 <= c < 3 ->
                 ld8 (blk_bytes blk) (3 * (palette_count h + i) + c)
                   = ld8 f (hdr + 3 * i + c))).

(** The calls that decode a palette-continuation frame of the 32-, 64-
    and 128-pixel decoders (kinds 0x04, 0x0D/0x10 and 0x13). *)
Inductive continuation (tbl : mem) (malloc : Z -> option mem) (h : handle) (f : mem)
  : run decoded -> Prop :=
| continuation_32 :
    Z.land (ld8 f 5) 0x7f = 4 ->
    continuation tbl malloc h f (divoom_image_decode_decode_one_big tbl malloc h (Some f))
| continuation_64 :
    ld8 f 5 = 0xd \/ ld8 f 5 = 0x10 ->
    continuation tbl malloc h f (divoom_image_decode_decode_one_64 tbl malloc h (Some f))
| continuation_128 :
    Z.land (ld8 f 5) 0x7f = 0x13 ->
    continuation tbl malloc h f (divoom_image_decode_decode_one_128 tbl malloc h (Some f)).


(** ** Bit-field writers: [divoom_image_set_dot_info],
    [divoom_image_set_dot_info_ex], and the multipic reader and writer *)

(** The loop of [divoom_image_set_dot_info]: one bit of the value per
    pass, into bit [bitOffset] of the byte at [byteIndex]. *)
Fixpoint set_dot_info_loop (fuel : nat) (bitfieldMap : mem) (entryCount bitfieldValue : Z)
    (byteIndex bitOffset bitCount : Z) : option mem :=
  match fuel with
  | O => None
  | S fuel' =>
      let byteOffset := byteIndex in
      let bitIndex := Z.land bitCount 0x1f in
      let bitCount1 := u32 (bitCount + 1) in
      let currentByte := ld8 bitfieldMap byteOffset in
      let bitMask := u8 (shl32 1 (Z.land bitOffset 0x1f)) in
      let newByte :=
        if negb (Z.land (Z.shiftr (Z.land bitfieldValue 0xffff) bitIndex) 1 =? 0)
        then Z.lor currentByte bitMask
        else Z.land currentByte (Z.lxor bitMask 0xff) in
      let byteIndex1 := if 6 <? s32 bitOffset then byteIndex + 1 else byteIndex in
      let nextBitOffset := if s32 bitOffset <? 7 then u32 (bitOffset + 1) else 0 in
      let bitfieldMap1 := st8 bitfieldMap byteOffset newByte in
      if entryCount =? bitCount1 then Some bitfieldMap1
      else set_dot_info_loop fuel' bitfieldMap1 entryCount bitfieldValue
             byteIndex1 nextBitOffset bitCount1
  end.

(** As in [divoom_image_get_dot_info], [bitsPerIndex] is the index of
    the field and [entryCount] its width. *)
Definition divoom_image_set_dot_info (bitfieldMap : mem)
    (bitsPerIndex entryCount bitfieldValue : Z) : option mem :=
  let entryCount := Z.land entryCount 0xff in
  if negb (entryCount =? 0) then
    let byteIndex := Z.shiftr (s32 (entryCount * bitsPerIndex)) 3 in
    let bitOffset := Z.land (u32 (entryCount * bitsPerIndex)) 7 in
    set_dot_info_loop (Z.to_nat 0x100) bitfieldMap entryCount bitfieldValue byteIndex bitOffset 0
  else Some bitfieldMap.

(** [divoom_image_set_dot_info_ex]: the value is or-ed into the byte at
    the bit position and, when the field crosses the byte, its high part
    is stored to the next byte. *)
Definition divoom_image_set_dot_info_ex (bitfieldMap : mem)
    (bitOffset bitsPerIndex bitfieldValue : Z) : mem :=
  let byteOffset := Z.shiftr (s32 bitOffset) 3 in
  let bitOffset := Z.land bitOffset 7 in
  let bitfieldMap1 :=
    st8 bitfieldMap byteOffset
      (Z.lor (ld8 bitfieldMap byteOffset)
             (u8 (shl32 (Z.land bitfieldValue 0xffff) bitOffset))) in
  if 8 <? u32 (bitOffset + bitsPerIndex) then
    st8 bitfieldMap1 (byteOffset + 1)
      (shr32 (Z.land bitfieldValue 0xffff) (Z.land (u32 (8 - bitOffset)) 0x1f))
  else bitfieldMap1.

(** The loop of [divoom_multipic_get_dot_info]; the byte index is used
    modulo 256. *)
Fixpoint multipic_get_dot_info_loop (fuel : nat) (bitstreamBuffer : mem) (bitsPerIndex : Z)
    (byteIndex totalBitOffset bitCounter resultValue : Z) : option Z :=
  match fuel with
  | O => None
  | S fuel' =>
      let byteOffset := byteIndex in
      let bitIndex := Z.land bitCounter 0x1f in
      let nextBitOffset := Z.land (u32 (totalBitOffset + 1)) 0xff in
      let bitCounter1 := u32 (bitCounter + 1) in
      let byteIndex1 := if 7 <? nextBitOffset then u32 (byteIndex + 1) else byteIndex in
      let newBitOffset := if nextBitOffset <? 8 then u32 (totalBitOffset + 1) else 0 in
      let bit :=
        Z.land (Z.shiftr (ld8 bitstreamBuffer (Z.land byteOffset 0xff))
                         (Z.land totalBitOffset 0x1f)) 1 in
      let resultValue1 := Z.lor (Z.land (u32 (- bit)) (shl32 1 bitIndex)) resultValue in
      if bitsPerIndex =? bitCounter1 then Some resultValue1
      else multipic_get_dot_info_loop fuel' bitstreamBuffer bitsPerIndex
             byteIndex1 newBitOffset bitCounter1 resultValue1
  end.

Definition divoom_multipic_get_dot_info (bitstreamBuffer : mem) (pixelIndex bitsPerIndex : Z)
    : option Z :=
  let width := Z.land bitsPerIndex 0xff in
  if negb (width =? 0) then
    let totalBitOffset := u32 (width * pixelIndex) in
    multipic_get_dot_info_loop (Z.to_nat 0x100) bitstreamBuffer width
      (Z.land (Z.shiftr totalBitOffset 3) 0x1fff) (Z.land totalBitOffset 7) 0 0
  else Some 0.

(** The loop of [divoom_multipic_set_dot_info]. *)
Fixpoint multipic_set_dot_info_loop (fuel : nat) (bitstreamBuffer : mem)
    (bitsPerIndex valueToWrite : Z) (byteIndex totalBitOffset bitCounter : Z) : option mem :=
  match fuel with
  | O => None
  | S fuel' =>
      let byteOffset := byteIndex in
      let bitIndex := Z.land bitCounter 0x1f in
      let nextBitOffset := Z.land (u32 (totalBitOffset + 1)) 0xff in
      let savedByte := ld8 bitstreamBuffer (Z.land byteOffset 0xff) in
      let bitCounter1 := u32 (bitCounter + 1) in
      let bitMask := u8 (shl32 1 (Z.land totalBitOffset 0x1f)) in
      let currentByte :=
        if negb (Z.land (Z.shiftr (Z.land valueToWrite 0xff) bitIndex) 1 =? 0)
        then Z.lor savedByte bitMask
        else Z.land savedByte (Z.lxor bitMask 0xff) in
      let byteIndex1 := if 7 <? nextBitOffset then u32 (byteIndex + 1) else byteIndex in
      let newBitOffset := if nextBitOffset <? 8 then u32 (totalBitOffset + 1) else 0 in
      let bitstreamBuffer1 := st8 bitstreamBuffer (Z.land byteOffset 0xff) currentByte in
      if bitsPerIndex =? bitCounter1 then Some bitstreamBuffer1
      else multipic_set_dot_info_loop fuel' bitstreamBuffer1 bitsPerIndex valueToWrite
             byteIndex1 newBitOffset bitCounter1
  end.

Definition divoom_multipic_set_dot_info (bitstreamBuffer : mem)
    (pixelIndex bitsPerIndex valueToWrite : Z) : option mem :=
  let width := Z.land bitsPerIndex 0xff in
  if negb (width =? 0) then
    let totalBitOffset := u32 (width * pixelIndex) in
    multipic_set_dot_info_loop (Z.to_nat 0x100) bitstreamBuffer width valueToWrite
      (Z.land (Z.shiftr totalBitOffset 3) 0x1fff) (Z.land totalBitOffset 7) 0
  else Some bitstreamBuffer.

(** Bit [pos] of a byte array, least significant bit of byte 0 first. *)
Definition bit_at (m : mem) (pos : Z) : bool :=
  Z.testbit (ld8 m (Z.shiftr pos 3)) (Z.land pos 7).

(** No bit set from position [pos] on: the state of an output buffer
    that has been filled up to [pos]. *)
Definition clear_from (m : mem) (pos : Z) : Prop :=
  forall j, pos <= j -> bit_at m j = false.

(** The palette index [divoom_pic_decode] selects for pixel [p] in the
    modes that store one index per pixel: a nibble (mode 1), nothing
    (mode 4), a bit (mode 5), a byte (mode 3 and every other mode byte
    but 0 and 2). *)
Definition pic_index (encodedData : mem) (p : Z) : Z :=
  let paletteSize := ld8 encodedData 1 in
  let decodeMode := ld8 encodedData 0 in
  let paletteColorIndex := Z.shiftr (paletteSize * 3 + 1) 1 + 2 in
  if decodeMode =? 1 then
    if Z.land p 1 =? 0
    then Z.land (ld8 encodedData (Z.shiftr p 1 + paletteColorIndex)) 0xf
    else Z.shiftr (ld8 encodedData (Z.shiftr p 1 + paletteColorIndex)) 4
  else if decodeMode =? 4 then 0
  else if decodeMode =? 5 then
    Z.land (Z.shiftr (ld8 encodedData (Z.shiftr p 3 + paletteColorIndex)) (Z.land p 7)) 1
  else ld8 encodedData (p + paletteColorIndex).

(** Mode 4 with the one-entry palette (5,6,7). *)
Definition flat_mode4 : mem := of_list [4; 1; 0x65; 0x07].

(** ** Enlarging a decoded picture in place:
    [divoom_image_decode_decode_large_pic] and
    [divoom_image_decode_decode_large_pic_64]

    The three loops are the same but for the source index, the
    destination offset and the type of the destination counter; they
    are written once and instantiated. *)

(** One pixel moved inside the buffer: the two high bytes are loaded as
    a [ushort], the low byte is copied, the two bytes are stored. *)
Definition copy_pixel (frameBuffer : mem) (sourcePixel destPixel : Z) : mem :=
  let rgb565Pair := ld16 frameBuffer (sourcePixel + 1) in
  let frameBuffer1 := st8 frameBuffer destPixel (ld8 frameBuffer sourcePixel) in
  st8 (st8 frameBuffer1 (destPixel + 1) rgb565Pair) (destPixel + 2) (Z.shiftr rgb565Pair 8).

Section Enlarge.
(** [sourceIndex row column], the byte offset of destination pixel [d],
    and the decrement of the destination counter. *)
Variable sourceIndex : Z -> Z -> Z.
Variable destOffset : Z -> Z.
Variable destPrev : Z -> Z.

(** The inner [do ... while (columnIndex != 0)]. *)
Fixpoint enlarge_columns (fuel : nat) (frameBuffer : mem)
    (rowIndex columnCounter destPixelIndex : Z) : run (mem * Z) :=
  match fuel with
  | O => OutOfFuel
  | S fuel' =>
      let columnIndex := Z.land columnCounter 0xffff in
      let columnCounter1 := u32 (columnCounter - 1) in
      let sourcePixelIndex := sourceIndex rowIndex columnIndex in
      let sourcePixel := Z.land sourcePixelIndex 0xffff + u16 sourcePixelIndex * 2 in
      let destPixel := destOffset destPixelIndex in
      let destPixelIndex1 := destPrev destPixelIndex in
      let frameBuffer1 := copy_pixel frameBuffer sourcePixel destPixel in
      if negb (columnIndex =? 0)
      then enlarge_columns fuel' frameBuffer1 rowIndex columnCounter1 destPixelIndex1
      else Ret (frameBuffer1, destPixelIndex1)
  end.

(** The outer [do ... while (0 < rowIndexCheck)]; [lastColumn] is the
    value the column counter starts from. *)
Fixpoint enlarge_rows (fuel : nat) (lastColumn : Z) (frameBuffer : mem)
    (rowIndex destPixelIndex : Z) : run mem :=
  match fuel with
  | O => OutOfFuel
  | S fuel' =>
      match enlarge_columns fuel' frameBuffer rowIndex lastColumn destPixelIndex with
      | Ret (frameBuffer1, destPixelIndex1) =>
          let rowIndexCheck := s16 rowIndex in
          let rowIndex1 := u32 (rowIndex - 1) in
          if 0 <? rowIndexCheck
          then enlarge_rows fuel' lastColumn frameBuffer1 rowIndex1 destPixelIndex1
          else Ret frameBuffer1
      | Undefined => Undefined
      | OutOfFuel => OutOfFuel
      end
  end.
End Enlarge.

(** [divoom_image_decode_decode_large_pic]: 16x16 at the head of the
    buffer to 32x32. *)
Definition divoom_image_decode_decode_large_pic (fuel : nat) (frameBuffer : mem) : run mem :=
  enlarge_rows
    (fun rowIndex columnIndex =>
       u32 (Z.land rowIndex 0x1ffffffe * 8 + Z.shiftr columnIndex 1))
    (fun destPixelIndex =>
       Z.land destPixelIndex 0xffff + Z.land destPixelIndex 0xffff * 2)
    (fun destPixelIndex => u64 (s32 destPixelIndex - 1))
    fuel 0x1f frameBuffer 0x1f 0x3ff.

(** [divoom_image_decode_decode_large_pic_64]: to 64x64, from 16x16
    when [formatByte] is 0x10 and from 32x32 otherwise. *)
Definition divoom_image_decode_decode_large_pic_64 (fuel : nat) (frameBuffer : mem)
    (formatByte : Z) : run mem :=
  if formatByte =? 0x10 then
    enlarge_rows
      (fun rowIndex columnIndex =>
         u32 (Z.land rowIndex 0x3ffffffc * 4 + Z.shiftr columnIndex 2))
      (fun destPixelIndex => u16 (destPixelIndex * 3))
      (fun destPixelIndex => s16 (destPixelIndex - 1))
      fuel 0x3f frameBuffer 0x3f 0xfff
  else
    enlarge_rows
      (fun rowIndex columnIndex =>
         u32 (Z.land rowIndex 0xffffffe * 0x10 + Z.shiftr columnIndex 1))
      (fun destPixelIndex => u16 (destPixelIndex * 3))
      (fun destPixelIndex => s16 (destPixelIndex - 1))
      fuel 0x3f frameBuffer 0x3f 0xfff.

(** The state of an enlarging loop once the destination pixels above
    [d] have been written: they hold their source pixel [from row column]
    of the original [m0], and everything at or below pixel [d], or past
    the picture, is as in the original. *)
Definition enlarged (from : Z -> Z -> Z) (width height : Z) (m0 m : mem) (d : Z) : Prop :=
  (forall row column k, 0 <= row < height -> 0 <= column < width -> 0 <= k < 3 ->
     d < width * row + column ->
     ld8 m (3 * (width * row + column) + k) = ld8 m0 (3 * from row column + k))
  /\ (forall a, a < 3 * (d + 1) \/ 3 * (width * height) <= a -> ld8 m a = ld8 m0 a).

(** A buffer whose byte at [a] is [a] modulo 256. *)
Definition ramp : mem := fun a => a.

(** ** Iterating over the frames

    [iterates h k h']: [k] calls of [divoom_image_decode_get_pic_data]
    succeed one after the other and lead from the handle [h] to [h']. *)
Inductive iterates : handle -> nat -> handle -> Prop :=
| iterates_done h : iterates h 0 h
| iterates_step h h1 h' k off len delay :
    divoom_image_decode_get_pic_data (Some h) = Some (h1, off, len, delay) ->
    iterates h1 k h' ->
    iterates h (S k) h'.

(** ** [divoom_image_decode_decode_pass_review]: skipping frames

    The loop body advances the cursor past the frame at [currentOffset]
    unless that frame stops the review; [stream_len] is read again from
    the handle at every test. *)
Fixpoint pass_review_loop (fuel : nat) (h : handle) (currentOffset : Z) : run handle :=
  match fuel with
  | O => OutOfFuel
  | S fuel' =>
      let frameHeader := currentOffset in
      let advance :=
        let currentOffset1 := u32 (ld16 (input h) (frameHeader + 1) + currentOffset) in
        let h1 := set_cursor h currentOffset1 in
        if currentOffset1 <? stream_len h1
        then pass_review_loop fuel' h1 currentOffset1
        else Ret h1 in
      if ld8 (input h) frameHeader =? 0xAA then
        let frameFormatType := ld8 (input h) (frameHeader + 5) in
        if frameFormatType <? 0x11 then
          let frameSize := shl32 1 (Z.land frameFormatType 0x1f) in
          if negb (Z.land frameSize 0x6e0 =? 0) then advance
          else if negb (Z.land frameSize 0x1f801 =? 0) then Ret h
          else if -1 <? s8 frameFormatType then Ret h else advance
        else if -1 <? s8 frameFormatType then Ret h else advance
      else advance
  end.

Definition divoom_image_decode_decode_pass_review (fuel : nat) (h : handle) : run handle :=
  let currentOffset := cursor h in
  if currentOffset <? stream_len h then pass_review_loop fuel h currentOffset
  else Ret h.

(** The frames the review stops at: the magic byte and a kind below 0x80
    other than 5, 6, 7, 9 and 10. *)
Definition stops_review (m : mem) (o : Z) : bool :=
  (ld8 m o =? 0xAA)
  && (ld8 m (o + 5) <? 0x80)
  && negb (existsb (Z.eqb (ld8 m (o + 5))) [5; 6; 7; 9; 10]).

(** [passed m a o]: the review started at offset [a] reaches offset [o],
    having skipped every frame on the way. *)
Inductive passed (m : mem) (a : Z) : Z -> Prop :=
| passed_none : passed m a a
| passed_next o :
    passed m a o -> stops_review m o = false -> passed m a (o + ld16 m (o + 1)).

(** A stream of three frames of kinds 5, 0x85 and 0 (lengths 7, 8, 7). *)
Definition review_handle : handle :=
  {| palette_count := 0; palette_capacity := 0; stream_len := 22; avail_len := 0;
     cursor := 0;
     input := of_list [0xAA; 7; 0; 0; 0; 5; 0;
                       0xAA; 8; 0; 0; 0; 0x85; 0; 0;
                       0xAA; 7; 0; 0; 0; 0; 0];
     owned := None; palette := None |}.

(** ** [divoom_multipic_get_color_index]: the first palette slot holding a
    colour byte *)
Fixpoint get_color_index_loop (fuel : nat) (paletteData : mem)
    (paletteSize targetColor index : Z) : run Z :=
  match fuel with
  | O => OutOfFuel
  | S fuel' =>
      if s8 (ld8 paletteData index) =? s8 targetColor then Ret (Z.land index 0xffffffff)
      else
        let index1 := u64 (index + 1) in
        if negb (Z.land paletteSize 0xff =? index1)
        then get_color_index_loop fuel' paletteData paletteSize targetColor index1
        else Ret paletteSize
  end.

Definition divoom_multipic_get_color_index (paletteData : mem)
    (paletteSize targetColor : Z) : run Z :=
  if negb (Z.land paletteSize 0xff =? 0)
  then get_color_index_loop (Z.to_nat 0x100) paletteData paletteSize targetColor 0
  else Ret paletteSize.

(** ** The entries a bit map selects:
    [divoom_image_decode_decode_fix_get_index_from_map],
    [divoom_image_decode_decode_fix_absolute_index_from_map]

    The cache pointer is the cache and the offset reached in it; the
    result is the cache and the number of entries stored. *)
Fixpoint get_index_from_map_loop (fuel : nat) (bitfieldMap : mem) (entryCount : Z)
    (indexCache : mem) (indexCachePos indicesCopied entryIndex : Z) : run (mem * Z) :=
  match fuel with
  | O => OutOfFuel
  | S fuel' =>
      let hit :=
        negb (Z.land (Z.shiftr (ld8 bitfieldMap (Z.shiftr entryIndex 3))
                               (Z.land entryIndex 7)) 1 =? 0) in
      let indicesCopied1 := if hit then s32 (indicesCopied + 1) else indicesCopied in
      let indexCachePos1 := if hit then indexCachePos + 1 else indexCachePos in
      let indexCache1 := if hit then st8 indexCache indexCachePos entryIndex else indexCache in
      let entryIndex1 := u32 (entryIndex + 1) in
      if negb (entryCount =? entryIndex1)
      then get_index_from_map_loop fuel' bitfieldMap entryCount indexCache1
             indexCachePos1 indicesCopied1 entryIndex1
      else Ret (indexCache1, indicesCopied1)
  end.

Definition divoom_image_decode_decode_fix_get_index_from_map (fuel : nat)
    (bitfieldMap : mem) (entryCount : Z) (indexCache : mem) : run (mem * Z) :=
  if 0 <? s32 entryCount
  then get_index_from_map_loop fuel bitfieldMap entryCount indexCache 0 0 0
  else Ret (indexCache, 0).

Fixpoint absolute_index_from_map_loop (fuel : nat) (paletteSource bitfieldMap : mem)
    (entryCount : Z) (paletteCache : mem) (paletteCachePos entriesCopied entryIndex : Z)
    : run (mem * Z) :=
  match fuel with
  | O => OutOfFuel
  | S fuel' =>
      let hit :=
        negb (Z.land (Z.shiftr (ld8 bitfieldMap (Z.land (Z.shiftr entryIndex 3) 0x1fffffff))
                               (Z.land (u32 entryIndex) 7)) 1 =? 0) in
      let entriesCopied1 := if hit then s32 (entriesCopied + 1) else entriesCopied in
      let paletteCachePos1 := if hit then paletteCachePos + 1 else paletteCachePos in
      let paletteCache1 :=
        if hit then st8 paletteCache paletteCachePos (ld8 paletteSource entryIndex)
        else paletteCache in
      let entryIndex1 := u64 (entryIndex + 1) in
      if negb (entryCount =? entryIndex1)
      then absolute_index_from_map_loop fuel' paletteSource bitfieldMap entryCount
             paletteCache1 paletteCachePos1 entriesCopied1 entryIndex1
      else Ret (paletteCache1, entriesCopied1)
  end.

Definition divoom_image_decode_decode_fix_absolute_index_from_map (fuel : nat)
    (paletteSource bitfieldMap : mem) (entryCount : Z) (paletteCache : mem)
    : run (mem * Z) :=
  if 0 <? s32 entryCount
  then absolute_index_from_map_loop fuel paletteSource bitfieldMap entryCount
         paletteCache 0 0 0
  else Ret (paletteCache, 0).

(** The positions of the set bits among the first [n] bits of a map, in
    ascending order. *)
Definition set_bits (bitfieldMap : mem) (n : nat) : list Z :=
  filter (bit_at bitfieldMap) (zrange 0 n).

(** [P] on every integer of [lo, lo + n), counting up. *)
Fixpoint all_from (P : Z -> bool) (lo : Z) (n : nat) : bool :=
  match n with
  | O => true
  | S n' => P lo && all_from P (lo + 1) n'
  end.

(** A width [b] holds the [n] values [0 .. n - 1] and no smaller width
    does. *)
Definition least_width (n b : Z) : bool :=
  (0 <=? b) && (n <=? 2 ^ b) && ((b =? 0) || (2 ^ (b - 1) <? n)).



(** A 32x32 reset frame with two entries, every pixel of index 1, and a
    continuation frame adding one entry, every pixel of index 2. *)
Definition kind3_two_entries : mem :=
  fun k => if k <? 14 then of_list [0xAA; 0; 0; 0; 0; 0x03; 2; 0; 1; 2; 3; 4; 5; 6] k
           else 0xFF.

(** ** [divoom_image_decode_get_pic_width]: the width read off a frame
    header

    The switch is on the byte at offset 5 of the argument, the kind byte
    of a frame header, as [divoom_image_decode_get_pic_len] reads the
    length at offset 1. *)
Definition divoom_image_decode_get_pic_width (decoderStateAddress : mem) : Z :=
  let frameFormatType := ld8 decoderStateAddress 5 in
  if frameFormatType =? 0 then 0x10
  else if (frameFormatType =? 2) || (frameFormatType =? 3) then 0x20
  else if (frameFormatType =? 0xb) || (frameFormatType =? 0xc) then 0x40
  else 0x80.

(** The fields of the handle a frame decoder does not write. *)
Definition same_stream (h h' : handle) : Prop :=
  stream_len h' = stream_len h /\ avail_len h' = avail_len h
  /\ cursor h' = cursor h /\ input h' = input h /\ owned h' = owned h.

(** The size code of the decoder that takes a frame of kind byte [k], 0
    when the dispatch or that decoder's own test turns the byte down. *)
Definition accepted_size (k : Z) : Z :=
  let kind := Z.land k 0x7f in
  if kind <? 2 then (if 1 <? k then 0 else 0x10)
  else if u32 (kind - 2) <? 3 then
    (if negb (Z.land k 0x7e =? 2) && negb (Z.land k 0x7f =? 4) then 0 else 0x20)
  else if u32 (kind - 0xb) <? 6 then
    (if u32 (Z.land k 0x7f - 0x11) <? 0xfffffffa then 0 else 0x40)
  else if (Z.land k 0x7e =? 0x12) || (Z.land k 0x7b =? 0x11) || (kind =? 0x14) then
    (if negb (Z.land k 0x7d =? 0x11) && negb (Z.land k 0x7f =? 0x14) then 0 else 0x80)
  else 0.

(** The kind bytes for which the width and the size code are the same. *)
Definition width_kinds : list Z :=
  [0; 2; 3; 0xb; 0xc; 0x11; 0x13; 0x14; 0x91; 0x93; 0x94].

(** A handle at a 32x32 reset frame, and one at a 32x32 continuation
    frame. *)
Definition at_kind3_handle : handle :=
  {| palette_count := 0; palette_capacity := 0; stream_len := 14; avail_len := 14;
     cursor := 0; input := kind3_two_entries; owned := None; palette := None |}.
Definition at_kind4_handle : handle :=
  {| palette_count := 2; palette_capacity := 0x100; stream_len := 11; avail_len := 11;
     cursor := 0; input := kind4_one_entry; owned := None;
     palette := Some {| blk_size := 0x600; blk_bytes := of_list [1; 2; 3; 4; 5; 6] |} |}.

(** ** Header queries: [divoom_image_decode_get_image_info],
    [divoom_image_decode_check_image] *)

(** The result is the size returned and the value stored through
    [formatTypeOut] ([None] when the pointer is NULL). *)
Definition divoom_image_decode_get_image_info (frameHeader : mem) (formatTypeOut : bool)
    : Z * option Z :=
  let out (imageSize formatType : Z) :=
    (imageSize, if formatTypeOut then Some formatType else None) in
  if negb (ld8 frameHeader 0 =? 0xAA) then out 0 6
  else
    let frameFormatByte := ld8 frameHeader 5 in
    if frameFormatByte =? 0 then out 0x10 0
    else if frameFormatByte =? 6 then out 0x20 4
    else if frameFormatByte =? 7 then out 0x10 5
    else if frameFormatByte =? 9 then out 0x40 2
    else if frameFormatByte =? 0xa then out 0x40 4
    else if (0xb <=? frameFormatByte) && (frameFormatByte <=? 0x10) then out 0x40 0
    else if frameFormatByte =? 5 then out 0x20 2
    else out 0x20 (Z.land (Z.shiftr (s8 frameFormatByte) 7) 3).

Definition divoom_image_decode_check_image (frameHeader : mem) : bool :=
  if ld8 frameHeader 0 =? 0xAA then Z.land (ld8 frameHeader 5) 0x7f <? 9
  else false.

(** The kind bytes for which the size of [get_image_info] is the size
    code of the decoder. *)
Definition info_kinds : list Z :=
  [0; 2; 3; 4; 0xb; 0xc; 0xd; 0xe; 0xf; 0x10; 0x82; 0x83; 0x84].

(** ** Run-length data of [divoom_pic_decode]

    A run is a length and a palette index.  [colour_of runs p] is the
    index of the run that covers pixel [p]. *)
Fixpoint colour_of (runs : list (Z * Z)) (p : Z) : Z :=
  match runs with
  | [] => 0
  | (len, c) :: rest => if p <? len then c else colour_of rest (p - len)
  end.

Fixpoint total_length (runs : list (Z * Z)) : Z :=
  match runs with
  | [] => 0
  | (len, _) :: rest => len + total_length rest
  end.

(** Mode 0 stores a run in one byte, the length in the high nibble and
    the index in the low one; mode 2 stores the index byte and then the
    length byte. *)
Fixpoint stored_rle4 (encodedData : mem) (pos : Z) (runs : list (Z * Z)) : Prop :=
  match runs with
  | [] => True
  | (len, c) :: rest =>
      1 <= len <= 15 /\ 0 <= c < 16 /\ ld8 encodedData pos = 16 * len + c
      /\ stored_rle4 encodedData (pos + 1) rest
  end.

Fixpoint stored_rle8 (encodedData : mem) (pos : Z) (runs : list (Z * Z)) : Prop :=
  match runs with
  | [] => True
  | (len, c) :: rest =>
      1 <= len <= 255 /\ ld8 encodedData pos = c /\ ld8 encodedData (pos + 1) = len
      /\ stored_rle8 encodedData (pos + 2) rest
  end.

(** Entry [k] of the unpacked palette. *)
Definition entry_of (pb : mem) (k : Z) : Z * Z * Z :=
  (ld8 pb (k * 3), ld8 pb (k * 3 + 1), ld8 pb (k * 3 + 2)).

(** Mode 0, two entries (1,2,3) and (4,5,6): runs of 15 pixels of entry 1
    eight times, then one pixel of entry 0. *)
Definition rle4_image : mem :=
  of_list [0; 2; 0x21; 0x43; 0x65; 0xF1; 0xF1; 0xF1; 0xF1; 0xF1; 0xF1; 0xF1; 0xF1; 0x10].

(** ** [divoom_image_decode_decode_handle]: one call for a whole stream *)

(** The bytes [l] stored from [p + off] on. *)
Definition store_list (m : mem) (off : Z) (l : list Z) : mem :=
  fun a =>
    if (off <=? a) && (a <? off + Z.of_nat (length l))
    then nth (Z.to_nat (a - off)) l 0 else m a.

Section EnlargeInline.
Variable sourceIndex : Z -> Z -> Z.
Variable destOffset : Z -> Z.
Variable destPrev : Z -> Z.

(** The enlarging loops as [divoom_image_decode_decode_handle] inlines
    them: the inner loop is that of [divoom_image_decode_decode_large_pic],
    the outer one runs [while ((rowCounter & 0xffff) != 0)]. *)
Fixpoint enlarge_rows_masked (fuel : nat) (lastColumn : Z) (frameBuffer : mem)
    (rowCounter destPixelIndex : Z) : run mem :=
  match fuel with
  | O => OutOfFuel
  | S fuel' =>
      match enlarge_columns sourceIndex destOffset destPrev fuel' frameBuffer rowCounter
              lastColumn destPixelIndex with
      | Ret (frameBuffer1, destPixelIndex1) =>
          let rowIndex := Z.land rowCounter 0xffff in
          let rowCounter1 := u32 (rowCounter - 1) in
          if negb (rowIndex =? 0)
          then enlarge_rows_masked fuel' lastColumn frameBuffer1 rowCounter1 destPixelIndex1
          else Ret frameBuffer1
      | Undefined => Undefined
      | OutOfFuel => OutOfFuel
      end
  end.
End EnlargeInline.

(** The frame-counting loop of [divoom_image_decode_decode_handle]:
    [frameCount] is the bound (the first frame's length field),
    [decodedFrameIndex] counts down from 0.  The result is the count and
    whether the function goes on to decode. *)
Fixpoint decode_handle_count (fuel : nat) (encodedStream : mem)
    (frameCount decodeStatus decodedFrameIndex : Z) : run (Z * bool) :=
  match fuel with
  | O => OutOfFuel
  | S fuel' =>
      if negb (ld8 encodedStream decodeStatus =? 0xAA) then
        Ret (u32 (- decodedFrameIndex), negb (decodedFrameIndex =? 0))
      else
        let decodedFrameIndex1 := s32 (decodedFrameIndex - 1) in
        let decodeStatus1 := u32 (ld16 encodedStream (decodeStatus + 1) + decodeStatus) in
        if decodeStatus1 <? frameCount
        then decode_handle_count fuel' encodedStream frameCount decodeStatus1 decodedFrameIndex1
        else Ret (u32 (- decodedFrameIndex1), true)
  end.

Section DecodeHandle.
Variable bits_table : mem.
Variable malloc : Z -> option mem.

(** The enlargement of the picture just decoded, at
    [destinationBlockAddress = outputPixelBuffer + dest]. *)
Definition enlarge_at (fuel : nat) (outputPixelBuffer : mem) (dest : Z)
    (loop : nat -> mem -> run mem) : run mem :=
  match loop fuel (shift outputPixelBuffer dest) with
  | Ret block => Ret (fun a => block (a - dest))
  | Undefined => Undefined
  | OutOfFuel => OutOfFuel
  end.

(** The decoding loop: frame [frameIndex] is decoded to
    [outputPixelBuffer + formatStride * frameIndex] and enlarged there
    when it is smaller than the format asked for. *)
Fixpoint decode_handle_frames (fuel : nat) (h : handle) (outputPixelBuffer : mem)
    (requestedFormat formatStride frameCount frameIndex : Z) : run (Z * handle * mem) :=
  match fuel with
  | O => OutOfFuel
  | S fuel' =>
      let decodedFrameIndex := s32 frameIndex in
      match divoom_image_decode_decode_pic bits_table malloc (Some h) with
      | Ret (ho, decodeStatus, pixels) =>
          let h1 := match ho with Some h' => h' | None => h end in
          let out1 := store_list outputPixelBuffer (u32 (formatStride * decodedFrameIndex))
                        pixels in
          if Z.land requestedFormat 0xff <? Z.land decodeStatus 0xff then
            Ret (frameCount, h1, out1)                                 (* 0x16a9 *)
          else if Z.land decodeStatus 0xff =? 0 then
            Ret (frameCount, h1, out1)                                 (* 0x16ae *)
          else
            let enlargedBuffer :=
              if Z.land decodeStatus 0xff <? Z.land requestedFormat 0xff then
                if Z.land requestedFormat 0xff =? 0x40 then
                  if Z.land decodeStatus 0xff =? 0x10 then
                    enlarge_at fuel' out1 (u32 (decodedFrameIndex * 0x3000))
                      (fun fuel block =>
                         enlarge_rows_masked
                           (fun rowIndex columnIndex =>
                              u32 (Z.land rowIndex 0x3ffffffc * 4 + Z.shiftr columnIndex 2))
                           (fun destPixelIndex => u16 (destPixelIndex * 3))
                           (fun destPixelIndex => s16 (destPixelIndex - 1))
                           fuel 0x3f block 0x3f 0xfff)
                  else
                    enlarge_at fuel' out1 (u32 (decodedFrameIndex * 0x3000))
                      (fun fuel block =>
                         enlarge_rows_masked
                           (fun rowIndex columnIndex =>
                              u32 (Z.land rowIndex 0xffffffe * 0x10 + Z.shiftr columnIndex 1))
                           (fun destPixelIndex => u16 (destPixelIndex * 3))
                           (fun destPixelIndex => s16 (destPixelIndex - 1))
                           fuel 0x3f block 0x3f 0xfff)
                else if Z.land requestedFormat 0xff =? 0x20 then
                  enlarge_at fuel' out1 (u32 (decodedFrameIndex * 0xc00))
                    (fun fuel block =>
                       enlarge_rows_masked
                         (fun rowIndex columnIndex =>
                            u32 (Z.land rowIndex 0x1ffffffe * 8 + Z.shiftr columnIndex 1))
                         (fun destPixelIndex =>
                            Z.land destPixelIndex 0xffff + Z.land destPixelIndex 0xffff * 2)
                         (fun destPixelIndex => u64 (s32 destPixelIndex - 1))
                         fuel 0x1f block 0x1f 0x3ff)
                else Ret out1
              else Ret out1 in
            match enlargedBuffer with
            | Ret out2 =>
                let frameIndex1 := u64 (frameIndex + 1) in
                if negb (frameIndex1 =? frameCount)
                then decode_handle_frames fuel' h1 out2 requestedFormat formatStride
                       frameCount frameIndex1
                else Ret (frameCount, h1, out2)
            | Undefined => Undefined
            | OutOfFuel => OutOfFuel
            end
      | Undefined => Undefined
      | OutOfFuel => OutOfFuel
      end
  end.

(** The result is the value returned, the handle and the output buffer. *)
Definition divoom_image_decode_decode_handle (fuel : nat)
    (decoderStateAddress : option handle) (encodedStream outputPixelBuffer : option mem)
    (requestedFormat : Z) : run (Z * option handle * option mem) :=
  match decoderStateAddress, encodedStream, outputPixelBuffer with
  | Some h, Some stream, Some out =>
      let requestedFormatByte := Z.land requestedFormat 0xff in
      let formatStride :=
        if requestedFormatByte =? 0x10 then Some 0x300
        else if requestedFormatByte =? 0x40 then Some 0x3000
        else if requestedFormatByte =? 0x20 then Some 0xc00
        else None in
      match formatStride with
      | None => Ret (0, Some h, Some out)
      | Some formatStride =>
          let frameCount := ld16 stream 1 in
          let h1 :=
            {| palette_count := palette_count h; palette_capacity := palette_capacity h;
               stream_len := frameCount; avail_len := avail_len h; cursor := 0;
               input := stream; owned := None; palette := palette h |} in
          if negb (frameCount =? 0) then
            match decode_handle_count fuel stream frameCount 0 0 with
            | Ret (frameCount1, false) => Ret (frameCount1, Some h1, Some out)
            | Ret (frameCount1, true) =>
                match decode_handle_frames fuel h1 out requestedFormat formatStride
                        frameCount1 0 with
                | Ret (r, h2, out2) => Ret (r, Some h2, Some out2)
                | Undefined => Undefined
                | OutOfFuel => OutOfFuel
                end
            | Undefined => Undefined
            | OutOfFuel => OutOfFuel
            end
          else Ret (frameCount, Some h1, Some out)
      end
  | _, _, _ => Ret (0, decoderStateAddress, outputPixelBuffer)
  end.
End DecodeHandle.

(** The handle as [divoom_image_decode_decode_handle] sets it up before
    decoding. *)
Definition handle_on (h : handle) (stream : mem) : handle :=
  {| palette_count := palette_count h; palette_capacity := palette_capacity h;
     stream_len := ld16 stream 1; avail_len := avail_len h; cursor := 0;
     input := stream; owned := None; palette := palette h |}.

(** A stream of one 32x32 reset frame, its length field 14, two palette
    entries, every pixel of index 1. *)
Definition kind3_stream : mem :=
  fun k => if k <? 14 then of_list [0xAA; 14; 0; 0; 0; 0x03; 2; 0; 1; 2; 3; 4; 5; 6] k
           else 0xFF.

(** The two-frame stream, wholly received. *)
Definition received_handle : handle :=
  {| palette_count := 0; palette_capacity := 0; stream_len := 15; avail_len := 15;
     cursor := 0; input := input two_frame_handle; owned := None; palette := None |}.

(** ** The bytes a frame takes in the stream

    The value a frame decoder that returns 1 stores to [*bytesConsumed],
    written over the frame [frameData], the size code [size] of the
    decoder and the handle [h'] the decoder leaves: the header and the
    palette entries the frame carries, then [size * size] indices of the
    width the bits table gives for the palette count (24 bits a pixel
    for a raw frame, the one kind that leaves no palette). *)
Definition frame_bytes (bits_table : mem) (h' : handle) (frameData : mem) (size : Z) : Z :=
  let width := match palette h' with
               | None => 0x18
               | Some _ => ld8 bits_table (palette_count h')
               end in
  let start :=
    if size =? 0x10 then
      3 * (if ld8 frameData 5 =? 0 then palette_count h' else ld8 frameData 6) + 7
    else match palette h' with
         | None => 8
         | Some _ => u16 (3 * ld16 frameData 6 + 8)
         end in
  start + width * (size * size / 8).

Definition consumed_as (tbl : mem) (f : mem) (size : Z) (d : decoded) : Prop :=
  d_consumed d = Some (frame_bytes tbl (d_handle d) f size)
  /\ 0 <= frame_bytes tbl (d_handle d) f size < 1048576.

(** A memory whose only non-zero byte, 0xFF, is at index 2^28. *)
Definition far_byte : mem := fun k => if k =? 0x10000000 then 0xFF else 0.

(* ================================================================== *)
(** * Part II: properties                                               *)
(* ================================================================== *)

(** ** Ranges of the machine integers and finite checks *)

Lemma u8_range x : 0 <= u8 x < 256.
Proof. unfold u8. apply Z.mod_pos_bound. lia. Qed.

Lemma u16_range x : 0 <= u16 x < 65536.
Proof. unfold u16. apply Z.mod_pos_bound. lia. Qed.

Lemma u32_range x : 0 <= u32 x < 4294967296.
Proof. unfold u32. apply Z.mod_pos_bound. lia. Qed.

Lemma u32_small x : 0 <= x < 4294967296 -> u32 x = x.
Proof. intros. unfold u32. apply Z.mod_small. lia. Qed.

Lemma u16_small x : 0 <= x < 65536 -> u16 x = x.
Proof. intros. unfold u16. apply Z.mod_small. lia. Qed.

Lemma u8_small x : 0 <= x < 256 -> u8 x = x.
Proof. intros. unfold u8. apply Z.mod_small. lia. Qed.

Lemma s32_small x : 0 <= x < 2147483648 -> s32 x = x.
Proof.
  intros. unfold s32. rewrite u32_small by lia.
  destruct (x <? 2147483648) eqn:E; [reflexivity | apply Z.ltb_ge in E; lia].
Qed.

Lemma ld8_range m k : 0 <= ld8 m k < 256.
Proof. apply u8_range. Qed.

Lemma ld16_range m k : 0 <= ld16 m k < 65536.
Proof.
  unfold ld16. pose proof (ld8_range m k). pose proof (ld8_range m (k + 1)). lia.
Qed.

Lemma in_zrange lo n x : lo <= x < lo + Z.of_nat n -> In x (zrange lo n).
Proof.
  intros H. unfold zrange. apply in_map_iff.
  exists (Z.to_nat (x - lo)). split; [lia | apply in_seq; lia].
Qed.

Lemma forallb_zrange (P : Z -> bool) lo n :
  forallb P (zrange lo n) = true -> forall x, lo <= x < lo + Z.of_nat n -> P x = true.
Proof.
  intros H x Hx. rewrite forallb_forall in H. apply H, in_zrange, Hx.
Qed.

(** ** Bits per index (C6) *)

Lemma get_bits_expected n : 0 <= n <= 256 -> divoom_image_get_bits n = bits_expected n.
Proof.
  intros H.
  apply Z.eqb_eq.
  apply (forallb_zrange (fun n => divoom_image_get_bits n =? bits_expected n) 0 257);
    [vm_compute; reflexivity | lia].
Qed.

Lemma multipic_get_bits_expected n :
  1 <= n <= 255 -> divoom_multipic_get_bits n = bits_expected n.
Proof.
  intros H.
  apply Z.eqb_eq.
  apply (forallb_zrange (fun n => divoom_multipic_get_bits n =? bits_expected n) 1 255);
    [vm_compute; reflexivity | lia].
Qed.

(** C6, as stated, fails: [divoom_image_get_bits] returns 0 for a
    one-entry palette and 0xFFFFFFFF for an empty one, not 1; and
    [divoom_multipic_get_bits] returns 0 and 0xFF. *)
Lemma get_bits_small_sizes :
  divoom_image_get_bits 1 = 0 /\ divoom_image_get_bits 0 = 0xffffffff /\
  divoom_multipic_get_bits 1 = 0 /\ divoom_multipic_get_bits 0 = 0xff /\
  ~ (divoom_image_get_bits 0 = 1 /\ divoom_image_get_bits 1 = 1 /\
     divoom_image_get_bits 2 = 1).
Proof.
  repeat split; try reflexivity.
  intros [H _]. vm_compute in H. discriminate H.
Qed.

(** C6, amended: for palette sizes 2..256 [divoom_image_get_bits] returns
    1 for 2, 2 for 3..4, 3 for 5..8, 4 for 9..16, 5 for 17..32, 6 for
    33..64, 7 for 65..128 and 8 for 129..256, which is also what the
    module-scope table of the spec holds there and what
    [divoom_multipic_get_bits] returns for sizes up to 255; size 1 gives 0
    and size 0 gives 0xFFFFFFFF. *)
Theorem get_bits_mapping : forall n, 0 <= n <= 256 ->
  (n = 0 -> divoom_image_get_bits n = 0xffffffff) /\
  (n = 1 -> divoom_image_get_bits n = 0) /\
  (n = 2 -> divoom_image_get_bits n = 1) /\
  (3 <= n <= 4 -> divoom_image_get_bits n = 2) /\
  (5 <= n <= 8 -> divoom_image_get_bits n = 3) /\
  (9 <= n <= 16 -> divoom_image_get_bits n = 4) /\
  (17 <= n <= 32 -> divoom_image_get_bits n = 5) /\
  (33 <= n <= 64 -> divoom_image_get_bits n = 6) /\
  (65 <= n <= 128 -> divoom_image_get_bits n = 7) /\
  (129 <= n <= 256 -> divoom_image_get_bits n = 8) /\
  (2 <= n -> divoom_image_get_bits n = ld8 gdivoom_image_bits_table n) /\
  (1 <= n <= 255 -> divoom_multipic_get_bits n = divoom_image_get_bits n).
Proof.
  intros n Hn.
  rewrite (get_bits_expected n Hn).
  assert (Htab : 2 <= n -> bits_expected n = ld8 gdivoom_image_bits_table n).
  { intros H2. unfold bits_expected, ld8, gdivoom_image_bits_table.
    replace (n =? 0) with false by (symmetry; apply Z.eqb_neq; lia).
    replace (n =? 1) with false by (symmetry; apply Z.eqb_neq; lia).
    replace (n <? 0) with false by (symmetry; apply Z.ltb_ge; lia).
    replace (n <=? 256) with true by (symmetry; apply Z.leb_le; lia).
    repeat match goal with
           | |- context [?a <=? ?b] =>
               destruct (a <=? b); [reflexivity | ]
           end.
    reflexivity. }
  unfold bits_expected in *.
  repeat split; intros H;
    try (rewrite multipic_get_bits_expected by lia; unfold bits_expected);
    try (apply Htab; lia);
    repeat match goal with
           | |- context [?a =? ?b] =>
               let E := fresh in destruct (a =? b) eqn:E;
               [apply Z.eqb_eq in E | apply Z.eqb_neq in E]; try lia
           | |- context [?a <=? ?b] =>
               let E := fresh in destruct (a <=? b) eqn:E;
               [apply Z.leb_le in E | apply Z.leb_gt in E]; try lia
           end; try reflexivity.
Qed.

Lemma get_bits_mapping_witness :
  0 <= 200 <= 256 /\ divoom_image_get_bits 200 = 8 /\ divoom_multipic_get_bits 200 = 8.
Proof.
  assert (H : 0 <= 200 <= 256) by lia.
  split; [exact H | ].
  destruct (get_bits_mapping 200 H) as (_ & _ & _ & _ & _ & _ & _ & _ & _ & H8 & _ & Hm).
  split; [apply H8; lia | rewrite Hm by lia; apply H8; lia].
Defined.

(** ** BitReader (C7) *)

Lemma reader_one_ok b w x :
  0 <= b < 8 -> 1 <= w <= 8 -> b + w <= 8 -> 0 <= x < 256 ->
  reader_one b w x = Z.land (Z.shiftr x b) (Z.shiftl 1 w - 1).
Proof.
  intros Hb Hw Hbw Hx.
  assert (T : reader_one_table = true) by (vm_compute; reflexivity).
  unfold reader_one_table in T.
  pose proof (forallb_zrange _ _ _ T b ltac:(simpl; lia)) as T1. cbv beta in T1.
  pose proof (forallb_zrange _ _ _ T1 w ltac:(simpl; lia)) as T2. cbv beta in T2.
  pose proof (forallb_zrange _ _ _ T2 x ltac:(simpl; lia)) as T3. cbv beta in T3.
  unfold field_spec in T3.
  replace (b + w <=? 8) with true in T3 by (symmetry; apply Z.leb_le; lia).
  simpl in T3. apply Z.eqb_eq in T3. exact T3.
Qed.

Lemma reader_high_ok b w y :
  0 <= b < 8 -> 1 <= w <= 8 -> 8 < b + w -> 0 <= y < 256 ->
  reader_high b w y = Z.shiftl (Z.land y (Z.shiftl 1 (w - (8 - b)) - 1)) (8 - b).
Proof.
  intros Hb Hw Hbw Hy.
  assert (T : reader_high_table = true) by (vm_compute; reflexivity).
  unfold reader_high_table in T.
  pose proof (forallb_zrange _ _ _ T b ltac:(simpl; lia)) as T1. cbv beta in T1.
  pose proof (forallb_zrange _ _ _ T1 w ltac:(simpl; lia)) as T2. cbv beta in T2.
  pose proof (forallb_zrange _ _ _ T2 y ltac:(simpl; lia)) as T3. cbv beta in T3.
  replace (b + w <=? 8) with false in T3 by (symmetry; apply Z.leb_gt; lia).
  simpl in T3. apply Z.eqb_eq in T3. exact T3.
Qed.

(** Bit offset [8 * i + b] splits into byte index [i] and bit [b]. *)
Lemma bit_offset_split i b :
  0 <= i -> 0 <= b < 8 ->
  Z.land (8 * i + b) 7 = b /\ Z.shiftr (8 * i + b) 3 = i.
Proof.
  intros Hi Hb. split.
  - change 7 with (Z.ones 3). rewrite Z.land_ones by lia.
    change (2 ^ 3) with 8. rewrite Z.add_comm, Z.mul_comm, Z.mod_add by lia.
    apply Z.mod_small. lia.
  - rewrite Z.shiftr_div_pow2 by lia. change (2 ^ 3) with 8.
    rewrite Z.add_comm, Z.mul_comm, Z.div_add by lia.
    rewrite Z.div_small by lia. lia.
Qed.

Lemma get_dot_info_ex_field bytes i b w :
  0 <= i -> 8 * i + b < 2147483648 -> 0 <= b < 8 -> 1 <= w <= 8 ->
  divoom_image_get_dot_info_ex bytes (8 * i + b) w =
    field_spec b w (ld8 bytes i) (ld8 bytes (i + 1)).
Proof.
  intros Hi Hmax Hb Hw.
  destruct (bit_offset_split i b Hi Hb) as [Hland Hshr].
  unfold divoom_image_get_dot_info_ex, field_spec.
  rewrite s32_small by lia. rewrite Hland, Hshr.
  rewrite (u32_small (b + w)) by lia.
  destruct (8 <? b + w) eqn:E.
  - apply Z.ltb_lt in E.
    replace (b + w <=? 8) with false by (symmetry; apply Z.leb_gt; lia).
    pose proof (reader_high_ok b w (ld8 bytes (i + 1)) Hb Hw E (ld8_range _ _)) as H.
    unfold reader_high in H. rewrite (u32_small (b + w)) in H by lia.
    rewrite H. apply Z.lor_comm.
  - apply Z.ltb_ge in E.
    replace (b + w <=? 8) with true by (symmetry; apply Z.leb_le; lia).
    pose proof (reader_one_ok b w (ld8 bytes i) Hb Hw E (ld8_range _ _)) as H.
    unfold reader_one in H. rewrite (u32_small (b + w)) in H by lia.
    exact H.
Qed.

(** The reader inlined in the pixel loops is the same function, on the
    frame seen from the bitstream's first byte. *)
Lemma read_index_is_get_dot_info_ex frameData off bitCursor w :
  0 <= bitCursor < 2147483648 ->
  read_index frameData off bitCursor w =
    divoom_image_get_dot_info_ex (shift frameData off) bitCursor w.
Proof.
  intros H. unfold read_index, divoom_image_get_dot_info_ex, ld8, shift.
  rewrite s32_small by lia.
  replace (off + Z.shiftr bitCursor 3) with (Z.shiftr bitCursor 3 + off) by lia.
  replace (off + (Z.shiftr bitCursor 3 + 1)) with (Z.shiftr bitCursor 3 + off + 1) by lia.
  pose proof (u32_range (Z.land bitCursor 7 + w)) as R.
  destruct (u32 (Z.land bitCursor 7 + w) <? 9) eqn:E1;
    destruct (8 <? u32 (Z.land bitCursor 7 + w)) eqn:E2;
    try reflexivity.
  - apply Z.ltb_lt in E1. apply Z.ltb_lt in E2. lia.
  - apply Z.ltb_ge in E1. apply Z.ltb_ge in E2. lia.
Qed.

(** C7, as stated for every byte index, fails: the byte index is
    computed as [(int)bitOffset >> 3], so at the bit position 2^31, that
    is byte index 2^28 and bit offset 0, the reader takes the byte at
    index [2^28 - 2^29] and returns 0 where the byte at 2^28 is 0xFF. *)
Lemma bit_reader_wraps :
  divoom_image_get_dot_info_ex far_byte (8 * 0x10000000 + 0) 8
    = ld8 far_byte (0x10000000 - 0x20000000)
  /\ divoom_image_get_dot_info_ex far_byte (8 * 0x10000000 + 0) 8 = 0
  /\ Z.land (Z.shiftr (ld8 far_byte 0x10000000) 0) (Z.shiftl 1 8 - 1) = 0xFF.
Proof. split; [ | split]; vm_compute; reflexivity. Qed.

(** C7, amended: the unaligned LSB-first read, for bit positions below
    2^31.  For byte index [i] and bit offset [b] in [0,8) with
    [8*i+b < 2^31], and width [w] in [1,8], [divoom_image_get_dot_info_ex]
    at bit position [8*i+b] returns [(bytes[i] >> b) & ((1<<w)-1)] when
    [b + w <= 8] and [(bytes[i] >> b) | ((bytes[i+1] & ((1 << (w-(8-b)))-1)) << (8-b))]
    otherwise; [divoom_image_get_dot_info] returns the same for the
    [p]-th field of width [w] when [p * w = 8*i + b]. *)
Theorem bit_reader_correct : forall (bytes : mem) (i b w p : Z),
  0 <= i -> 8 * i + b < 2147483648 -> 0 <= b < 8 -> 1 <= w <= 8 ->
  divoom_image_get_dot_info_ex bytes (8 * i + b) w =
    (if b + w <=? 8
     then Z.land (Z.shiftr (ld8 bytes i) b) (Z.shiftl 1 w - 1)
     else Z.lor (Z.shiftr (ld8 bytes i) b)
                (Z.shiftl (Z.land (ld8 bytes (i + 1)) (Z.shiftl 1 (w - (8 - b)) - 1))
                          (8 - b)))
  /\ (w * p = 8 * i + b ->
      divoom_image_get_dot_info bytes p w =
        Some (divoom_image_get_dot_info_ex bytes (8 * i + b) w)).
Proof.
  intros bytes i b w p Hi Hmax Hb Hw. split.
  - apply (get_dot_info_ex_field bytes i b w Hi Hmax Hb Hw).
  - intros Hp.
    destruct (bit_offset_split i b Hi Hb) as [Hland Hshr].
    unfold divoom_image_get_dot_info, divoom_image_get_dot_info_ex.
    assert (Hw8 : Z.land w 255 = w).
    { change 255 with (Z.ones 8). rewrite Z.land_ones by lia. apply Z.mod_small. lia. }
    rewrite Hw8, Hp.
    rewrite (u32_small (8 * i + b)) by lia.
    rewrite s32_small by lia. rewrite Hland, Hshr.
    rewrite (u32_small (b + w)) by lia.
    replace (8 <? w) with false by (symmetry; apply Z.ltb_ge; lia).
    destruct (8 <? b + w); reflexivity.
Qed.

Lemma bit_reader_correct_witness :
  divoom_image_get_dot_info_ex (of_list [0xB5; 0x03]) (8 * 0 + 6) 3 = 6 /\
  divoom_image_get_dot_info (of_list [0xB5; 0x03]) 2 3 = Some 6.
Proof.
  destruct (bit_reader_correct (of_list [0xB5; 0x03]) 0 6 3 2
              ltac:(lia) ltac:(lia) ltac:(lia) ltac:(lia)) as [H1 H2].
  split.
  - rewrite H1. reflexivity.
  - rewrite (H2 eq_refl), H1. reflexivity.
Defined.

(** ** Frame-counting walks (C5) *)

Lemma add_data_walk_stalls fuel cnt :
  add_data_walk fuel zero_length_stream 3 0 cnt = OutOfFuel.
Proof.
  revert cnt. induction fuel as [|fuel IH]; intros cnt; [reflexivity | ].
  simpl. change (ld8 zero_length_stream 0 =? 170) with true.
  change (u32 (ld16 zero_length_stream (0 + 1) + 0)) with 0.
  change (s32 0 <? 3) with true. simpl. apply IH.
Qed.

Lemma get_pic_num_walk_stalls fuel cnt :
  get_pic_num_walk fuel zero_length_stream 3 0 cnt = OutOfFuel.
Proof.
  revert cnt. induction fuel as [|fuel IH]; intros cnt; [reflexivity | ].
  simpl. change (u32 (ld16 zero_length_stream (0 + 1) + 0)) with 0.
  change (0 <? 3) with true. simpl. apply IH.
Qed.

Lemma decode_all_count_stalls fuel cnt :
  decode_all_count fuel zero_length_stream 3 0 cnt = OutOfFuel.
Proof.
  revert cnt. induction fuel as [|fuel IH]; intros cnt; [reflexivity | ].
  simpl. change (ld8 zero_length_stream 0 =? 170) with true.
  change (u32 (ld16 zero_length_stream (0 + 1) + 0)) with 0.
  change (s32 0 <? 3) with true. simpl. apply IH.
Qed.

(** C5, as stated, fails: on the three-byte stream [AA 00 00] none of the
    three walks ever returns, whatever the number of steps allowed. *)
Lemma walks_stall_on_zero_length :
  ~ (exists fuel r,
       divoom_image_decode_add_data (fun _ => None) fuel
         (Some divoom_image_decode_creat_handle) zero_length_stream 3 0 = Ret r)
  /\ ~ (exists fuel n,
       divoom_image_decode_decode_get_pic_num fuel (Some zero_length_stream) 3 = Ret n)
  /\ ~ (exists fuel r, decode_all_count fuel zero_length_stream 3 0 0 = Ret r).
Proof.
  split; [ | split ].
  - intros (fuel & r & H). unfold divoom_image_decode_add_data in H. simpl in H.
    rewrite add_data_walk_stalls in H. discriminate H.
  - intros (fuel & n & H). unfold divoom_image_decode_decode_get_pic_num in H. simpl in H.
    rewrite get_pic_num_walk_stalls in H. discriminate H.
  - intros (fuel & r & H). rewrite decode_all_count_stalls in H. discriminate H.
Qed.

Section WalksTerminate.
Variable m : mem.
Variable n : Z.
Hypothesis n_bound : n <= 2147418112.

Lemma add_data_walk_returns :
  (forall o, visits m o -> 0 <= o < n -> ld8 m o = 0xAA -> ld16 m (o + 1) <> 0) ->
  forall fuel off cnt,
    visits m off -> 0 <= off < n -> (Z.to_nat (n - off) <= fuel)%nat ->
    exists c, add_data_walk fuel m n off cnt = Ret c.
Proof.
  intros Hlen. induction fuel as [|fuel IH]; intros off cnt Hv Hoff Hfuel; [lia | ].
  simpl. destruct (ld8 m off =? 170) eqn:Emagic; simpl; [ | eauto ].
  apply Z.eqb_eq in Emagic.
  pose proof (Hlen off Hv Hoff Emagic) as Hnz.
  pose proof (ld16_range m (off + 1)) as Hr.
  rewrite (u32_small (ld16 m (off + 1) + off)) by lia.
  rewrite s32_small by lia.
  destruct (ld16 m (off + 1) + off <? n) eqn:E; [ | eauto ].
  apply Z.ltb_lt in E. apply IH; [ | lia | lia].
  rewrite Z.add_comm. apply visits_next, Hv.
Qed.

Lemma decode_all_count_returns :
  (forall o, visits m o -> 0 <= o < n -> ld8 m o = 0xAA -> ld16 m (o + 1) <> 0) ->
  forall fuel off cnt,
    visits m off -> 0 <= off < n -> (Z.to_nat (n - off) <= fuel)%nat ->
    exists r, decode_all_count fuel m n off cnt = Ret r.
Proof.
  intros Hlen. induction fuel as [|fuel IH]; intros off cnt Hv Hoff Hfuel; [lia | ].
  simpl. destruct (ld8 m off =? 170) eqn:Emagic; simpl.
  - apply Z.eqb_eq in Emagic.
    pose proof (Hlen off Hv Hoff Emagic) as Hnz.
    pose proof (ld16_range m (off + 1)) as Hr.
    rewrite (u32_small (ld16 m (off + 1) + off)) by lia.
    rewrite s32_small by lia.
    destruct (ld16 m (off + 1) + off <? n) eqn:E; [ | eauto ].
    apply Z.ltb_lt in E. apply IH; [ | lia | lia].
    rewrite Z.add_comm. apply visits_next, Hv.
  - destruct (cnt =? 0); eauto.
Qed.

Lemma get_pic_num_walk_returns :
  (forall o, visits m o -> 0 <= o < n -> ld16 m (o + 1) <> 0) ->
  forall fuel off cnt,
    visits m off -> 0 <= off < n -> (Z.to_nat (n - off) <= fuel)%nat ->
    exists c, get_pic_num_walk fuel m n off cnt = Ret c.
Proof.
  intros Hlen. induction fuel as [|fuel IH]; intros off cnt Hv Hoff Hfuel; [lia | ].
  simpl.
  pose proof (Hlen off Hv Hoff) as Hnz.
  pose proof (ld16_range m (off + 1)) as Hr.
  rewrite (u32_small (ld16 m (off + 1) + off)) by lia.
  destruct (ld16 m (off + 1) + off <? n) eqn:E; [ | eauto ].
  apply Z.ltb_lt in E. apply IH; [ | lia | lia].
  rewrite Z.add_comm. apply visits_next, Hv.
Qed.
End WalksTerminate.

(** C5, amended: on a stream of [n] bytes ([n] at most 2^31 - 2^16) in
    which every header the walk reaches declares a length other than 0,
    the walks of [add_data], [get_pic_num] and [decode_all] return within
    [n] steps.  ([add_data] and [decode_all] stop at an offset that does
    not hold the magic byte; [get_pic_num] does not look at it.
    [add_data] returns unless it was asked for a copy and the allocation
    failed, where it copies through NULL.) *)
Theorem walks_return_when_lengths_positive :
  forall (malloc : Z -> option mem) (h : option handle) (inputData : mem)
         (n copySourceBuffer : Z),
  n <= 2147418112 ->
  ((forall o, visits inputData o -> 0 <= o < n ->
              ld8 inputData o = 0xAA -> ld16 inputData (o + 1) <> 0) ->
     divoom_image_decode_add_data malloc (Z.to_nat n) h inputData n copySourceBuffer
       <> OutOfFuel
     /\ (copySourceBuffer = 0 \/ malloc (s32 (Z.shiftl n 1)) <> None ->
         exists r, divoom_image_decode_add_data malloc (Z.to_nat n) h inputData n
                     copySourceBuffer = Ret r)
     /\ (0 < n -> exists r, decode_all_count (Z.to_nat n) inputData n 0 0 = Ret r))
  /\ ((forall o, visits inputData o -> 0 <= o < n -> ld16 inputData (o + 1) <> 0) ->
     0 <= n ->
     exists c, divoom_image_decode_decode_get_pic_num (Z.to_nat n) (Some inputData) n = Ret c).
Proof.
  intros malloc h inputData n copy Hn. split.
  - intros Hlen.
    assert (W : (n <? 1) = false ->
                exists c, add_data_walk (Z.to_nat n) inputData n 0 0 = Ret c).
    { intros E. apply Z.ltb_ge in E.
      apply (add_data_walk_returns inputData n Hn Hlen); [constructor | lia | lia]. }
    split; [ | split].
    + unfold divoom_image_decode_add_data.
      destruct h as [h|]; [ | discriminate ].
      destruct (copy =? 0).
      * destruct (n <? 1); [discriminate | ].
        destruct (W eq_refl) as [c ->]. discriminate.
      * destruct (malloc (s32 (Z.shiftl n 1))); [ | discriminate ].
        destruct (n <? 1); [discriminate | ].
        destruct (W eq_refl) as [c ->]. discriminate.
    + intros Hcopy. unfold divoom_image_decode_add_data.
      destruct h as [h|]; [ | eauto ].
      destruct (copy =? 0) eqn:Ec.
      * destruct (n <? 1); [eauto | ].
        destruct (W eq_refl) as [c ->]. eauto.
      * apply Z.eqb_neq in Ec.
        destruct (malloc (s32 (Z.shiftl n 1))); [ | destruct Hcopy; contradiction ].
        destruct (n <? 1); [eauto | ].
        destruct (W eq_refl) as [c ->]. eauto.
    + intros Hpos.
      apply (decode_all_count_returns inputData n Hn Hlen); [constructor | lia | lia].
  - intros Hlen Hpos. unfold divoom_image_decode_decode_get_pic_num.
    destruct (n =? 0) eqn:E; [eauto | ].
    apply Z.eqb_neq in E.
    apply (get_pic_num_walk_returns inputData n Hn Hlen); [constructor | lia | lia].
Qed.

(** The two-frame stream is visited at 0, at 7 and from 15 on. *)
Lemma two_frame_visits o :
  visits (input two_frame_handle) o -> o = 0 \/ o = 7 \/ 15 <= o.
Proof.
  induction 1 as [|o Hv IH]; [left; reflexivity | ].
  destruct IH as [-> | [-> | Hge]].
  - right; left. reflexivity.
  - right; right. vm_compute. discriminate.
  - right; right. pose proof (ld16_range (input two_frame_handle) (o + 1)). lia.
Qed.

Lemma walks_return_witness :
  exists c,
    divoom_image_decode_decode_get_pic_num (Z.to_nat 15) (Some (input two_frame_handle)) 15
      = Ret c.
Proof.
  destruct (walks_return_when_lengths_positive (fun _ => None) None
              (input two_frame_handle) 15 0 ltac:(lia)) as [_ H].
  apply H; [ | lia].
  intros o Hv Ho.
  destruct (two_frame_visits o Hv) as [-> | [-> | Hge]];
    [vm_compute; discriminate | vm_compute; discriminate | lia].
Defined.

(** ** Cursor stepping (C4) *)

(** C4, as stated, fails: a successful [get_pic_data] step on a header
    that declares length 0 leaves the cursor where it was, one on a
    header that declares 0xFFFF in a seven-byte stream moves it to 65535,
    and a successful [decode_pic] step on a 14-byte stream that holds a
    32x32 frame header with two palette entries moves the cursor to
    142. *)
Lemma cursor_step_not_monotone :
  (exists h' off len delay,
     divoom_image_decode_get_pic_data (Some stalled_handle) = Some (h', off, len, delay)
     /\ cursor h' = cursor stalled_handle)
  /\ (exists h' off len delay,
     divoom_image_decode_get_pic_data (Some overlong_handle) = Some (h', off, len, delay)
     /\ cursor h' = 65535 /\ stream_len h' = 7)
  /\ (exists h' px,
     divoom_image_decode_decode_pic gdivoom_image_bits_table (always_alloc 0)
       (Some at_kind3_handle) = Ret (Some h', 0x20, px)
     /\ cursor at_kind3_handle = 0
     /\ cursor h' = 142 /\ stream_len h' = 14).
Proof.
  split; [ | split].
  - eexists _, _, _, _. split; [reflexivity | reflexivity].
  - eexists _, _, _, _. split; [reflexivity | split; reflexivity].
  - eexists _, _. split; [vm_compute; reflexivity | ].
    repeat split.
Qed.

(** ** Memory and palette lemmas *)

Lemma ld8_st8_same m k v : ld8 (st8 m k v) k = u8 v.
Proof.
  unfold ld8, st8. rewrite Z.eqb_refl. unfold u8. apply Z.mod_mod. lia.
Qed.

Lemma st8_other m k v a : a <> k -> st8 m k v a = m a.
Proof.
  intros H. unfold st8. destruct (a =? k) eqn:E; [apply Z.eqb_eq in E; lia | reflexivity].
Qed.

Lemma ld8_st8_other m k v a : a <> k -> ld8 (st8 m k v) a = ld8 m a.
Proof. intros H. unfold ld8. rewrite st8_other by exact H. reflexivity. Qed.

Lemma u8_ld8 m k : u8 (ld8 m k) = ld8 m k.
Proof. apply u8_small, ld8_range. Qed.

Lemma u32_add_l a b : u32 (u32 a + b) = u32 (a + b).
Proof. unfold u32. apply Z.add_mod_idemp_l. lia. Qed.

Lemma u16_u32 a : u16 (u32 a) = u16 a.
Proof.
  unfold u16, u32.
  apply Z.mod_mod_divide. exists 65536. reflexivity.
Qed.

(** Three consecutive stores of a palette entry, read back. *)
Lemma ld8_entry_store pal base v0 v1 v2 c :
  0 <= c < 3 ->
  ld8 (st8 (st8 (st8 pal base v0) (base + 1) v1) (base + 2) v2) (base + c)
    = u8 (if c =? 0 then v0 else if c =? 1 then v1 else v2).
Proof.
  intros Hc.
  assert (Hc3 : c = 0 \/ c = 1 \/ c = 2) by lia.
  destruct Hc3 as [-> | [-> | ->]]; cbn [Z.eqb Pos.eqb].
  - rewrite !ld8_st8_other by lia. rewrite Z.add_0_r. apply ld8_st8_same.
  - rewrite ld8_st8_other by lia. apply ld8_st8_same.
  - apply ld8_st8_same.
Qed.

Lemma entry_store_other pal base v0 v1 v2 k :
  k < base \/ base + 3 <= k ->
  st8 (st8 (st8 pal base v0) (base + 1) v1) (base + 2) v2 k = pal k.
Proof. intros H. rewrite !st8_other by lia. reflexivity. Qed.








(** [append_entries] with no slot wrap-around: the slots
    [cur .. cur+n) receive the frame's entries [j .. j+n), the rest of the
    block is left alone, and the running offset ends at [cur + n]. *)
Lemma append_entries_spec n : forall pal frameData hdr j cur,
  0 <= cur -> cur + Z.of_nat n <= 65536 ->
  snd (append_entries n pal frameData hdr j cur) = cur + Z.of_nat n
  /\ (forall k, k < 3 * cur \/ 3 * (cur + Z.of_nat n) <= k ->
                fst (append_entries n pal frameData hdr j cur) k = pal k)
  /\ (forall i c, 0 <= i < Z.of_nat n -> 0 <= c < 3 ->
        ld8 (fst (append_entries n pal frameData hdr j cur)) (3 * (cur + i) + c)
          = ld8 frameData (hdr + 3 * (j + i) + c)).
Proof.
  induction n as [|n IH]; intros pal frameData hdr j cur Hcur Hmax.
  - cbn [append_entries fst snd]. split; [lia | ]. split; [reflexivity | intros; lia].
  - cbn [append_entries].
    assert (Hslot : Z.land cur 65535 = cur).
    { change 65535 with (Z.ones 16). rewrite Z.land_ones by lia. apply Z.mod_small. lia. }
    rewrite Hslot. rewrite (u32_small (cur + 1)) by lia.
    set (pal3 := st8 (st8 (st8 pal (cur + cur * 2) (ld8 frameData (hdr + 3 * j)))
                          (cur + cur * 2 + 1) (ld8 frameData (hdr + 3 * j + 1)))
                     (cur + cur * 2 + 2) (ld8 frameData (hdr + 3 * j + 2))).
    destruct (IH pal3 frameData hdr (j + 1) (cur + 1) ltac:(lia) ltac:(lia))
      as (Hsnd & Hout & Hin).
    split; [rewrite Hsnd; lia | ]. split.
    + intros k Hk. rewrite Hout by lia. apply entry_store_other. lia.
    + intros i c Hi Hc.
      destruct (Z.eq_dec i 0) as [-> | Hne].
      * unfold ld8 at 1. rewrite Hout by lia. fold (ld8 pal3 (3 * (cur + 0) + c)).
        replace (3 * (cur + 0) + c) with (cur + cur * 2 + c) by lia.
        unfold pal3. rewrite ld8_entry_store by exact Hc.
        assert (Hc3 : c = 0 \/ c = 1 \/ c = 2) by lia.
        destruct Hc3 as [-> | [-> | ->]]; cbn [Z.eqb Pos.eqb];
          rewrite u8_ld8; f_equal; lia.
      * replace (3 * (cur + i) + c) with (3 * (cur + 1 + (i - 1)) + c) by lia.
        rewrite Hin by lia. f_equal. lia.
Qed.

(** The running offset of [append_entries] in general: modulo 2^32. *)
Lemma append_entries_offset n : forall pal frameData hdr j cur,
  0 <= cur < 4294967296 ->
  snd (append_entries n pal frameData hdr j cur) = u32 (cur + Z.of_nat n).
Proof.
  induction n as [|n IH]; intros pal frameData hdr j cur Hcur.
  - cbn [append_entries snd]. rewrite Z.add_0_r, u32_small by lia. reflexivity.
  - cbn [append_entries]. rewrite IH by apply u32_range.
    rewrite u32_add_l. f_equal. lia.
Qed.

Lemma decode_pixels_length n : forall frameData off bpi pal cur,
  length (decode_pixels n frameData off bpi pal cur) = (3 * n)%nat.
Proof.
  induction n as [|n IH]; intros; [reflexivity | ].
  cbn [decode_pixels length]. rewrite IH. lia.
Qed.


(** ** Raw frames drop the palette (C10) *)

Lemma land_mask_of_7f k v mask :
  Z.land k 0x7f = v -> Z.land 0x7f mask = mask -> Z.land k mask = Z.land v mask.
Proof. intros <- Hm. rewrite <- Z.land_assoc, Hm. reflexivity. Qed.

(** A continuation frame meets a cleared palette pointer. *)
Lemma decode_extend_null tbl malloc npix unit h f :
  palette h = None -> decode_extend tbl malloc npix unit h f = Ret (failed h).
Proof. intros H. unfold decode_extend. rewrite H. reflexivity. Qed.

Lemma decode_one_big_raw tbl malloc h f :
  ld8 f 0 = 0xAA -> Z.land (ld8 f 5) 0x7f = 2 ->
  divoom_image_decode_decode_one_big tbl malloc h (Some f)
    = decode_raw (Z.to_nat 0x400) 0x80 h f.
Proof.
  intros Hm Hk. unfold divoom_image_decode_decode_one_big.
  rewrite Hm, Hk, (land_mask_of_7f _ _ 0x7e Hk eq_refl). reflexivity.
Qed.

Lemma decode_one_big_extend tbl malloc h f :
  ld8 f 0 = 0xAA -> Z.land (ld8 f 5) 0x7f = 4 ->
  divoom_image_decode_decode_one_big tbl malloc h (Some f)
    = decode_extend tbl malloc (Z.to_nat 0x400) 0x80 h f.
Proof.
  intros Hm Hk. unfold divoom_image_decode_decode_one_big.
  rewrite Hm, Hk, (land_mask_of_7f _ _ 0x7e Hk eq_refl). reflexivity.
Qed.

Lemma decode_one_64_raw tbl malloc h f :
  ld8 f 0 = 0xAA -> ld8 f 5 = 0xb \/ ld8 f 5 = 0xe ->
  divoom_image_decode_decode_one_64 tbl malloc h (Some f)
    = decode_raw (Z.to_nat 0x1000) 0x200 h f.
Proof.
  intros Hm Hk. unfold divoom_image_decode_decode_one_64.
  rewrite Hm. destruct Hk as [-> | ->]; reflexivity.
Qed.

Lemma decode_one_64_extend tbl malloc h f :
  ld8 f 0 = 0xAA -> ld8 f 5 = 0xd \/ ld8 f 5 = 0x10 ->
  divoom_image_decode_decode_one_64 tbl malloc h (Some f)
    = decode_extend tbl malloc (Z.to_nat 0x1000) 0x200 h f.
Proof.
  intros Hm Hk. unfold divoom_image_decode_decode_one_64.
  rewrite Hm. destruct Hk as [-> | ->]; reflexivity.
Qed.

Lemma decode_one_128_extend tbl malloc h f :
  ld8 f 0 = 0xAA -> Z.land (ld8 f 5) 0x7f = 0x13 ->
  divoom_image_decode_decode_one_128 tbl malloc h (Some f)
    = decode_extend tbl malloc (Z.to_nat 0x4000) 0x800 h f.
Proof.
  intros Hm Hk. unfold divoom_image_decode_decode_one_128.
  rewrite Hm, Hk, (land_mask_of_7f _ _ 0x7d Hk eq_refl). reflexivity.
Qed.

(** C10: a raw-truecolor frame (kind 0x02 for the 32-pixel decoder, kinds
    0x0B and 0x0E for the 64-pixel one) is decoded with return value 1,
    its pixels copied from offset 8, and leaves the handle with no
    palette; a palette-continuation frame (kind 0x04, resp. 0x0D and
    0x10) decoded next on that handle returns 0 and changes nothing. *)
Theorem raw_then_continuation_fails :
  forall (tbl : mem) (malloc : Z -> option mem) (h : handle) (f1 f2 : mem),
  ld8 f1 0 = 0xAA -> ld8 f2 0 = 0xAA ->
  (Z.land (ld8 f1 5) 0x7f = 2 -> Z.land (ld8 f2 5) 0x7f = 4 ->
   exists d,
     divoom_image_decode_decode_one_big tbl malloc h (Some f1) = Ret d
     /\ d_ret d = 1
     /\ d_pixels d = to_list (3 * Z.to_nat 0x400) (shift f1 8)
     /\ palette (d_handle d) = None
     /\ divoom_image_decode_decode_one_big tbl malloc (d_handle d) (Some f2)
          = Ret (failed (d_handle d)))
  /\ (ld8 f1 5 = 0xb \/ ld8 f1 5 = 0xe -> ld8 f2 5 = 0xd \/ ld8 f2 5 = 0x10 ->
   exists d,
     divoom_image_decode_decode_one_64 tbl malloc h (Some f1) = Ret d
     /\ d_ret d = 1
     /\ d_pixels d = to_list (3 * Z.to_nat 0x1000) (shift f1 8)
     /\ palette (d_handle d) = None
     /\ divoom_image_decode_decode_one_64 tbl malloc (d_handle d) (Some f2)
          = Ret (failed (d_handle d))).
Proof.
  intros tbl malloc h f1 f2 Hm1 Hm2. split.
  - intros Hk1 Hk2.
    rewrite (decode_one_big_raw tbl malloc h f1 Hm1 Hk1). unfold decode_raw.
    eexists. split; [reflexivity | ]. cbn [d_ret d_pixels d_handle].
    split; [reflexivity | ]. split; [reflexivity | ]. split; [reflexivity | ].
    rewrite (decode_one_big_extend tbl malloc _ f2 Hm2 Hk2).
    apply decode_extend_null. reflexivity.
  - intros Hk1 Hk2.
    rewrite (decode_one_64_raw tbl malloc h f1 Hm1 Hk1). unfold decode_raw.
    eexists. split; [reflexivity | ]. cbn [d_ret d_pixels d_handle].
    split; [reflexivity | ]. split; [reflexivity | ]. split; [reflexivity | ].
    rewrite (decode_one_64_extend tbl malloc _ f2 Hm2 Hk2).
    apply decode_extend_null. reflexivity.
Qed.

(** ** Palette extension and reset (C3, C9) *)

Lemma land_ffff x : Z.land x 0xffff = u16 x.
Proof. change 65535 with (Z.ones 16). rewrite Z.land_ones by lia. reflexivity. Qed.

(** The palette-continuation path of the 32-, 64- and 128-pixel decoders. *)
Lemma decode_extend_spec tbl malloc npix unit h f old :
  wf_handle h -> palette h = Some old ->
  let count := palette_count h in
  let new := ld16 f 6 in
  (count + new <= palette_capacity h ->
     exists d, decode_extend tbl malloc npix unit h f = Ret d
               /\ appended h old f 8 new d
               /\ palette_capacity (d_handle d) = palette_capacity h
               /\ (exists blk, palette (d_handle d) = Some blk /\ blk_size blk = blk_size old))
  /\ (palette_capacity h < count + new ->
      forall fresh, malloc ((new + count) * 6 + 0x600) = Some fresh ->
      exists d, decode_extend tbl malloc npix unit h f = Ret d
                /\ appended h old f 8 new d
                /\ palette_capacity (d_handle d) = u16 (count + new + 0x100)
                /\ (exists blk, palette (d_handle d) = Some blk
                                /\ blk_size blk = 6 * (count + new + 0x100)))
  /\ (palette_capacity h < count + new ->
      malloc ((new + count) * 6 + 0x600) = None ->
      decode_extend tbl malloc npix unit h f = Ret (failed h)).
Proof.
  intros (Hc & Hcap & _) Hpal count new.
  pose proof (ld16_range f 6) as Hnew. fold new in Hnew.
  assert (Hoff : forall pal, snd (append_entries (Z.to_nat new) pal f 8 0 count)
                             = u32 (count + new)).
  { intros pal. rewrite append_entries_offset by (unfold count; lia).
    rewrite Z2Nat.id by lia. reflexivity. }
  assert (Happ : forall pal,
             count + new <= 65536 ->
             (forall k, 0 <= k < 3 * count ->
                        fst (append_entries (Z.to_nat new) pal f 8 0 count) k = pal k)
             /\ (forall i c, 0 <= i < new -> 0 <= c < 3 ->
                   ld8 (fst (append_entries (Z.to_nat new) pal f 8 0 count))
                       (3 * (count + i) + c) = ld8 f (8 + 3 * i + c))).
  { intros pal Hfit.
    destruct (append_entries_spec (Z.to_nat new) pal f 8 0 count
                ltac:(unfold count; lia) ltac:(rewrite Z2Nat.id by lia; lia))
      as (_ & Hout & Hin).
    split.
    - intros k Hk. apply Hout. lia.
    - intros i c Hi Hcc. rewrite Hin by (rewrite ?Z2Nat.id by lia; lia).
      f_equal. }
  unfold decode_extend. rewrite Hpal. fold new. fold count.
  rewrite (u32_small (new + count)) by (unfold count; lia).
  split; [ | split ].
  - intros Hfit.
    replace (palette_capacity h <? new + count) with false
      by (symmetry; apply Z.ltb_ge; lia).
    destruct (append_entries (Z.to_nat new) (blk_bytes old) f 8 0 count)
      as [pal cur] eqn:Eapp.
    eexists. split; [reflexivity | ]. cbn [d_handle d_ret set_palette palette_count
      palette_capacity palette].
    pose proof (Hoff (blk_bytes old)) as Ho. rewrite Eapp in Ho. cbn [snd] in Ho.
    split; [ | split; [reflexivity | eexists; split; reflexivity] ].
    split; [reflexivity | ]. split; [rewrite Ho; apply u16_u32 | ].
    eexists. split; [reflexivity | ]. cbn [blk_bytes].
    intros H65. pose proof (Happ (blk_bytes old) H65) as Ha. rewrite Eapp in Ha.
    exact Ha.
  - intros Hgrow fresh Hm.
    replace (palette_capacity h <? new + count) with true
      by (symmetry; apply Z.ltb_lt; lia).
    rewrite Hm.
    set (kept := fun k : Z => if (0 <=? k) && (k <? count * 3)
                              then blk_bytes old k else fresh k).
    destruct (append_entries (Z.to_nat new) kept f 8 0 count) as [pal cur] eqn:Eapp.
    cbn [blk_bytes blk_size].
    rewrite Eapp.
    eexists. split; [reflexivity | ]. cbn [d_handle d_ret set_palette palette_count
      palette_capacity palette].
    pose proof (Hoff kept) as Ho. rewrite Eapp in Ho. cbn [snd] in Ho.
    split; [ | split; [reflexivity | eexists; split; [reflexivity | cbn [blk_size]; lia]] ].
    split; [reflexivity | ]. split; [rewrite Ho; apply u16_u32 | ].
    eexists. split; [reflexivity | ]. cbn [blk_bytes].
    intros H65. pose proof (Happ kept H65) as Ha. rewrite Eapp in Ha. cbn [fst] in Ha.
    destruct Ha as [Hkeep Hfill]. split; [ | exact Hfill].
    intros k Hk. rewrite Hkeep by exact Hk. unfold kept.
    replace (0 <=? k) with true by (symmetry; apply Z.leb_le; lia).
    replace (k <? count * 3) with true by (symmetry; apply Z.ltb_lt; lia).
    reflexivity.
  - intros Hgrow Hm.
    replace (palette_capacity h <? new + count) with true
      by (symmetry; apply Z.ltb_lt; lia).
    rewrite Hm. reflexivity.
Qed.

Lemma continuation_is_extend tbl malloc h f r :
  ld8 f 0 = 0xAA -> continuation tbl malloc h f r ->
  exists npix unit, r = decode_extend tbl malloc npix unit h f.
Proof.
  intros Hm [Hk | Hk | Hk].
  - eexists _, _. apply decode_one_big_extend; assumption.
  - eexists _, _. apply decode_one_64_extend; assumption.
  - eexists _, _. apply decode_one_128_extend; assumption.
Qed.

(** The 16x16 continuation frame (kind 0x01). *)
Lemma decode_one_continuation tbl malloc h f old :
  wf_handle h -> palette h = Some old -> ld8 f 0 = 0xAA -> ld8 f 5 = 1 ->
  (palette_capacity h < palette_count h + ld8 f 6 ->
     divoom_image_decode_decode_one tbl malloc h (Some f) = Ret (failed h))
  /\ (palette_count h + ld8 f 6 <= palette_capacity h ->
     exists d, divoom_image_decode_decode_one tbl malloc h (Some f) = Ret d
               /\ appended h old f 7 (ld8 f 6) d
               /\ palette_capacity (d_handle d) = palette_capacity h).
Proof.
  intros (Hc & Hcap & _) Hpal Hm Hk.
  unfold divoom_image_decode_decode_one. rewrite Hm, Hk, Hpal.
  cbn [Z.eqb Pos.eqb negb Z.ltb Z.compare Pos.compare Pos.compare_cont].
  pose proof (ld8_range f 6) as Hnew.
  split.
  - intros Hover.
    replace (palette_capacity h <? palette_count h + ld8 f 6) with true
      by (symmetry; apply Z.ltb_lt; lia).
    reflexivity.
  - intros Hfit.
    replace (palette_capacity h <? palette_count h + ld8 f 6) with false
      by (symmetry; apply Z.ltb_ge; lia).
    destruct (append_entries (Z.to_nat (ld8 f 6)) (blk_bytes old) f 7 0 (palette_count h))
      as [pal cur] eqn:Eapp.
    eexists. split; [reflexivity | ].
    cbn [d_handle d_ret set_palette palette_count palette_capacity palette].
    destruct (append_entries_spec (Z.to_nat (ld8 f 6)) (blk_bytes old) f 7 0 (palette_count h)
                ltac:(lia) ltac:(rewrite Z2Nat.id by lia; lia))
      as (Hsnd & Hout & Hin).
    rewrite Eapp in Hsnd, Hout, Hin. cbn [fst snd] in Hsnd, Hout, Hin.
    rewrite Z2Nat.id in Hsnd, Hin by lia.
    split; [ | reflexivity].
    split; [reflexivity | ]. split; [rewrite Hsnd; reflexivity | ].
    eexists. split; [reflexivity | ]. cbn [blk_bytes].
    intros _. split.
    + intros k Hk'. apply Hout. lia.
    + intros i c Hi Hcc. rewrite Hin by lia. f_equal.
Qed.

(** C3, as stated, fails for kind 0x01: with 60 entries in a 64-entry
    palette, a continuation frame bringing 10 more is rejected (return
    value 0) and the handle, its capacity and its block are left as they
    were, even when an allocation would succeed.  For kind 0x04 with
    65000 entries and 500 more, the capacity field after the reallocation
    is 220, below the count 65500. *)
Lemma continuation_overflow_rejected :
  divoom_image_decode_decode_one gdivoom_image_bits_table (always_alloc 0)
    nearly_full_handle (Some kind1_ten_entries) = Ret (failed nearly_full_handle)
  /\ exists d,
       divoom_image_decode_decode_one_big gdivoom_image_bits_table (always_alloc 0)
         huge_palette_handle (Some kind4_500_entries) = Ret d
       /\ palette_count (d_handle d) = 65500
       /\ palette_capacity (d_handle d) = 220.
Proof.
  split; [reflexivity | ].
  destruct (decode_extend_spec gdivoom_image_bits_table (always_alloc 0)
              (Z.to_nat 0x400) 0x80 huge_palette_handle kind4_500_entries
              {| blk_size := 391536; blk_bytes := zeros |})
    as (_ & Hgrow & _).
  { unfold wf_handle, huge_palette_handle. cbn. lia. }
  { reflexivity. }
  destruct (Hgrow ltac:(vm_compute; reflexivity) (fun _ => 0) eq_refl)
    as (d & Hd & (_ & Hcount & _) & Hcap & _).
  exists d. split.
  - rewrite decode_one_big_extend by reflexivity. exact Hd.
  - split; [rewrite Hcount | rewrite Hcap]; reflexivity.
Qed.

(** C3, amended: a 16x16 continuation frame (kind 0x01) whose entries do
    not fit the capacity is rejected with the handle unchanged, and one
    that fits is appended in place.  For the continuation kinds of the
    larger decoders (0x04, 0x0D/0x10, 0x13; kind 0x03 is not one of them),
    entries that fit are appended in place; entries that do not fit go,
    after the existing ones, to a new block of [count + new + 0x100]
    entries (6 bytes each), the capacity field taking that value modulo
    2^16, and the frame is rejected when the allocation fails.  Existing
    entries are preserved and [count <= capacity] holds afterwards
    whenever [count + new + 0x100] stays below 2^16. *)
Theorem palette_continuation :
  forall (tbl : mem) (malloc : Z -> option mem) (h : handle) (old : block) (f : mem),
  wf_handle h -> palette h = Some old -> ld8 f 0 = 0xAA ->
  (ld8 f 5 = 1 ->
     (palette_capacity h < palette_count h + ld8 f 6 ->
        divoom_image_decode_decode_one tbl malloc h (Some f) = Ret (failed h))
     /\ (palette_count h + ld8 f 6 <= palette_capacity h ->
        exists d, divoom_image_decode_decode_one tbl malloc h (Some f) = Ret d
                  /\ appended h old f 7 (ld8 f 6) d
                  /\ palette_capacity (d_handle d) = palette_capacity h
                  /\ palette_count (d_handle d) <= palette_capacity (d_handle d)))
  /\ (forall r, continuation tbl malloc h f r ->
     (palette_count h + ld16 f 6 <= palette_capacity h ->
        exists d, r = Ret d
                  /\ appended h old f 8 (ld16 f 6) d
                  /\ palette_capacity (d_handle d) = palette_capacity h
                  /\ palette_count (d_handle d) <= palette_capacity (d_handle d))
     /\ (palette_capacity h < palette_count h + ld16 f 6 ->
         forall fresh, malloc ((ld16 f 6 + palette_count h) * 6 + 0x600) = Some fresh ->
         exists d blk, r = Ret d
                  /\ appended h old f 8 (ld16 f 6) d
                  /\ palette_capacity (d_handle d) = u16 (palette_count h + ld16 f 6 + 0x100)
                  /\ palette (d_handle d) = Some blk
                  /\ blk_size blk = 6 * (palette_count h + ld16 f 6 + 0x100)
                  /\ (palette_count h + ld16 f 6 + 0x100 < 65536 ->
                      palette_count (d_handle d) <= palette_capacity (d_handle d)))
     /\ (palette_capacity h < palette_count h + ld16 f 6 ->
         malloc ((ld16 f 6 + palette_count h) * 6 + 0x600) = None ->
         r = Ret (failed h))).
Proof.
  intros tbl malloc h old f Hwf Hpal Hm.
  pose proof Hwf as (Hc & Hcap & _).
  split.
  - intros Hk.
    destruct (decode_one_continuation tbl malloc h f old Hwf Hpal Hm Hk) as [Hrej Hfit].
    split; [exact Hrej | ].
    intros Hle. destruct (Hfit Hle) as (d & Hd & Happ & Hcp).
    exists d. repeat (split; [assumption | ]).
    destruct Happ as (_ & Hcount & _). rewrite Hcount, Hcp.
    pose proof (ld8_range f 6). rewrite u16_small by lia. lia.
  - intros r Hr.
    destruct (continuation_is_extend tbl malloc h f r Hm Hr) as (npix & unit & ->).
    destruct (decode_extend_spec tbl malloc npix unit h f old Hwf Hpal)
      as (Hfit & Hgrow & Hfail).
    pose proof (ld16_range f 6) as Hnew.
    split; [ | split ].
    + intros Hle. destruct (Hfit Hle) as (d & Hd & Happ & Hcp & _).
      exists d. repeat (split; [assumption | ]).
      destruct Happ as (_ & Hcount & _). rewrite Hcount, Hcp.
      rewrite u16_small by lia. lia.
    + intros Hlt fresh Hmal.
      destruct (Hgrow Hlt fresh Hmal) as (d & Hd & Happ & Hcp & blk & Hblk & Hsize).
      exists d, blk. repeat (split; [assumption | ]).
      intros Hsmall. destruct Happ as (_ & Hcount & _). rewrite Hcount, Hcp.
      rewrite !u16_small by lia. lia.
    + intros Hlt Hmal. apply Hfail; assumption.
Qed.

Lemma palette_continuation_witness :
  exists d,
    divoom_image_decode_decode_one_big gdivoom_image_bits_table never_alloc
      small_palette_handle (Some kind4_one_entry) = Ret d
    /\ palette_count (d_handle d) = 3
    /\ palette_capacity (d_handle d) = 0x100.
Proof.
  destruct (palette_continuation gdivoom_image_bits_table never_alloc
              small_palette_handle {| blk_size := 0x600; blk_bytes := of_list [1; 2; 3; 4; 5; 6] |}
              kind4_one_entry) as [_ H].
  { unfold wf_handle, small_palette_handle. cbn. lia. }
  { reflexivity. }
  { reflexivity. }
  destruct (H _ (continuation_32 gdivoom_image_bits_table never_alloc
                small_palette_handle kind4_one_entry eq_refl)) as [Hfit _].
  destruct (Hfit ltac:(vm_compute; discriminate)) as (d & Hd & (_ & Hcount & _) & Hcap & _).
  exists d. split; [exact Hd | ]. split; [rewrite Hcount | rewrite Hcap]; reflexivity.
Defined.









Lemma raw_then_continuation_witness :
  exists d,
    divoom_image_decode_decode_one_big gdivoom_image_bits_table (always_alloc 0)
      small_palette_handle (Some raw32_frame) = Ret d
    /\ palette (d_handle d) = None
    /\ divoom_image_decode_decode_one_big gdivoom_image_bits_table (always_alloc 0)
         (d_handle d) (Some kind4_one_entry) = Ret (failed (d_handle d)).
Proof.
  destruct (raw_then_continuation_fails gdivoom_image_bits_table (always_alloc 0)
              small_palette_handle raw32_frame kind4_one_entry eq_refl eq_refl) as [H _].
  destruct (H eq_refl eq_refl) as (d & Hd & _ & _ & Hp & Hf).
  exists d. split; [exact Hd | split; [exact Hp | exact Hf]].
Defined.

(** ** Palette lookup (C2) *)

Lemma Ret_inj {A : Type} (a b : A) : Ret a = Ret b -> a = b.
Proof. intros H. injection H as H. exact H. Qed.











(** ** The pic encoder and decoder (C1, C8) *)

(** The first loop adds at most one palette entry per pixel. *)
Lemma build_palette_count npix : forall img pi pb ps pci,
  0 <= ps -> ps + Z.of_nat npix < 65536 ->
  ps <= snd (fst (build_palette npix img pi pb ps pci)) <= ps + Z.of_nat npix.
Proof.
  induction npix as [|npix IH]; intros img pi pb ps pci Hps Hlt.
  - cbn [build_palette fst snd]. lia.
  - cbn [build_palette].
    rewrite land_ffff, u16_small by lia.
    destruct (Z.land pi 1 =? 0);
      (destruct (if ps =? 0 then None else palette_find _ _ _ _ _ _) as [k|];
       [ specialize (IH img (pi + 1) pb ps (st8 pci pi k)) 
       | rewrite (u32_small (ps + 1)) by lia;
         match goal with |- context [build_palette npix img (pi + 1) ?p (ps + 1) ?q] =>
           specialize (IH img (pi + 1) p (ps + 1) q) end ]; lia).
Qed.

(** The first pixel always makes an entry: the palette of an image has
    between 1 and 121 colours. *)
Lemma build_palette_first n img pb pci :
  Z.of_nat n < 65535 ->
  1 <= snd (fst (build_palette (S n) img 0 pb 0 pci)) <= 1 + Z.of_nat n.
Proof.
  intros Hn. cbn [build_palette].
  change (Z.land 0 65535 =? 0) with true. cbn iota.
  change (Z.land 0 1 =? 0) with true. cbn iota.
  change (Z.land 0 65535) with 0. change (u32 (0 + 1)) with 1.
  apply build_palette_count; lia.
Qed.

(** The run-length loops assign the clamped remaining length plus the
    run back to the scan position: from 0 it stays within 14..28 and
    the exit test [< 0x79] never fails. *)
Lemma run_scan_range n : forall pci p j, j <= run_scan n pci p j <= j + Z.of_nat n.
Proof.
  induction n as [|n IH]; intros pci p j; cbn [run_scan]; [lia | ].
  destruct (negb _); [lia | ]. specialize (IH pci p (j + 1)). lia.
Qed.

Lemma run_step_next pci p : 0 <= p <= 28 -> 14 <= snd (run_step pci p) <= 28.
Proof.
  intros Hp. unfold run_step.
  rewrite (u32_small p) by lia.
  replace (p <? 120) with true by (symmetry; apply Z.ltb_lt; lia).
  rewrite (u32_small (119 - p)) by lia.
  replace (12 <? 119 - p) with true by (symmetry; apply Z.ltb_lt; lia).
  cbn [snd].
  pose proof (run_scan_range (Z.to_nat (13 + 1)) pci p 0) as Hj.
  change (Z.of_nat (Z.to_nat (13 + 1))) with 14 in Hj.
  set (j := run_scan _ _ _ _) in *.
  rewrite (u32_small (13 + j)) by lia.
  rewrite (u32_small (13 + j + 1)) by lia.
  rewrite land_ffff, u16_small by lia. lia.
Qed.

Lemma rle4_loop_diverges fuel : forall e pci pi p d,
  0 <= p <= 28 -> rle4_loop fuel e pci pi p d = OutOfFuel.
Proof.
  induction fuel as [|fuel IH]; intros e pci pi p d Hp; cbn [rle4_loop]; [reflexivity | ].
  pose proof (run_step_next pci p Hp) as Hn.
  destruct (run_step pci p) as [run next]. cbn [snd] in Hn.
  replace (next <? 121) with true by (symmetry; apply Z.ltb_lt; lia).
  apply IH. lia.
Qed.

Lemma rle8_loop_diverges fuel : forall e pci pi p d,
  0 <= p <= 28 -> rle8_loop fuel e pci pi p d = OutOfFuel.
Proof.
  induction fuel as [|fuel IH]; intros e pci pi p d Hp; cbn [rle8_loop]; [reflexivity | ].
  pose proof (run_step_next pci p Hp) as Hn.
  destruct (run_step pci p) as [run next]. cbn [snd] in Hn.
  replace (next <? 121) with true by (symmetry; apply Z.ltb_lt; lia).
  apply IH. lia.
Qed.

(** The palette and bitmap stores leave the two header bytes alone. *)
Lemma put_pixel_low m base idx r g b a :
  0 <= idx -> a < base -> put_pixel m base idx r g b a = m a.
Proof.
  intros Hi Ha. pose proof (proj2 (Z.shiftr_nonneg idx 1) Hi) as Hs.
  unfold put_pixel.
  destruct (Z.land idx 1 =? 0); cbv zeta; rewrite !st8_other by lia; reflexivity.
Qed.

Lemma write_palette_low fuel : forall e pb count k e',
  write_palette fuel e pb count k = Ret e' -> 0 <= k ->
  forall a, a < 2 -> e' a = e a.
Proof.
  induction fuel as [|fuel IH]; intros e pb count k e' H Hk a Ha;
    cbn [write_palette] in H; [discriminate H | ].
  cbv zeta in H. destruct (count =? k + 1).
  - apply Ret_inj in H. subst e'. apply put_pixel_low; assumption.
  - rewrite (IH _ _ _ _ _ H) by lia. apply put_pixel_low; assumption.
Qed.

Lemma write_bitmap_low n : forall e pci pi p a,
  a < pi -> write_bitmap n e pci pi p a = e a.
Proof.
  induction n as [|n IH]; intros e pci pi p a Ha; cbn [write_bitmap]; [reflexivity | ].
  cbv zeta. rewrite IH by assumption. apply st8_other.
  assert (0 <= Z.land (Z.shiftr p 3) 8191) by (apply Z.land_nonneg; right; lia).
  lia.
Qed.

(** C8, at every input: whenever [divoom_pic_encode] returns, the mode
    byte it has written is 0, never 4 or 5, byte 1 is the number of
    colours found, and that number is 1 (four bytes of output) or 2 (21
    bytes).  The tests that select modes 4 and 5 compare the header
    length, which is at least 4; with three or more colours a run-length
    loop is entered that does not end. *)
Theorem pic_encode_mode_byte :
  forall (malloc : Z -> option mem) (fuel : nat) (paletteBuffer0 pixelColorIndices0 : mem)
         (local_1cb : Z) (inputImage : mem) (enc : block) (sz : Z),
  divoom_pic_encode malloc fuel paletteBuffer0 pixelColorIndices0 local_1cb inputImage
    = Ret (enc, sz) ->
  let count :=
    snd (fst (build_palette (Z.to_nat 0x79) inputImage 0 paletteBuffer0 0 pixelColorIndices0)) in
  ld8 (blk_bytes enc) 0 = 0
  /\ ld8 (blk_bytes enc) 1 = count
  /\ ((count = 1 /\ sz = 4) \/ (count = 2 /\ sz = 21)).
Proof.
  intros malloc fuel pb0 pci0 l img enc sz.
  cbv zeta. unfold divoom_pic_encode.
  pose proof (build_palette_first 120 img pb0 pci0 ltac:(lia)) as Hc.
  change (S 120) with (Z.to_nat 121) in Hc.
  destruct (build_palette (Z.to_nat 121) img 0 pb0 0 pci0) as [[pb ci] pci].
  cbn [fst snd] in Hc. change (Z.of_nat 120) with 120 in Hc.
  rewrite (u32_small ci), !land_ffff, !(u16_small ci) by lia.
  set (po := u32 (Z.shiftr (u32 (ci + ci * 2 + 1)) 1 + 2)).
  assert (Hpo : 4 <= po <= 184 /\ (ci = 1 -> po = 4) /\ (ci = 2 -> po = 5)).
  { unfold po. rewrite (u32_small (ci + ci * 2 + 1)) by lia.
    rewrite Z.shiftr_div_pow2 by lia. change (2 ^ 1) with 2.
    assert (2 <= (ci + ci * 2 + 1) / 2 <= 182).
    { split; [apply Z.div_le_lower_bound | apply Z.div_le_upper_bound]; lia. }
    rewrite u32_small by lia.
    split; [lia | ]. split; intros ->; reflexivity. }
  destruct Hpo as (Hpo & Hpo1 & Hpo2).
  rewrite !(u16_small po) by lia.
  destruct (malloc (po + 363)) as [fresh|]; [ | discriminate].
  replace (po =? 1) with false by (symmetry; apply Z.eqb_neq; lia).
  replace (po =? 2) with false by (symmetry; apply Z.eqb_neq; lia).
  destruct (16 <? ci) eqn:E16.
  - apply Z.ltb_lt in E16.
    destruct (write_palette _ _ _ _ _) as [e1| |]; cbn [bind]; [ | discriminate | discriminate].
    replace (ci =? 1) with false by (symmetry; apply Z.eqb_neq; lia).
    replace (ci =? 2) with false by (symmetry; apply Z.eqb_neq; lia).
    replace (ci <? 17) with false by (symmetry; apply Z.ltb_ge; lia).
    rewrite rle8_loop_diverges by lia. discriminate.
  - replace (ci =? 0) with false by (symmetry; apply Z.eqb_neq; lia). cbn [negb].
    destruct (write_palette _ _ _ _ _) as [e1| |] eqn:Ew; cbn [bind];
      [ | discriminate | discriminate].
    pose proof (write_palette_low _ _ _ _ _ _ Ew ltac:(lia)) as Hlow.
    destruct (ci =? 1) eqn:E1; [ | destruct (ci =? 2) eqn:E2].
    + apply Z.eqb_eq in E1. intros H. apply Ret_inj in H.
      pose proof (f_equal fst H) as H1. pose proof (f_equal snd H) as H2.
      cbn [fst snd] in H1, H2. clear H. subst enc sz.
      cbn [blk_bytes]. unfold ld8. rewrite !Hlow by lia. rewrite (Hpo1 E1), E1.
      split; [vm_compute; reflexivity | ].
      split; [vm_compute; reflexivity | left; split; vm_compute; reflexivity].
    + apply Z.eqb_eq in E2. intros H. apply Ret_inj in H.
      pose proof (f_equal fst H) as H1. pose proof (f_equal snd H) as H2.
      cbn [fst snd] in H1, H2. clear H. subst enc sz.
      cbn [blk_bytes]. unfold ld8. rewrite !write_bitmap_low by lia.
      rewrite !Hlow by lia. rewrite (Hpo2 E2), E2.
      split; [vm_compute; reflexivity | ].
      split; [vm_compute; reflexivity | right; split; vm_compute; reflexivity].
    + destruct (ci <? 17);
        [rewrite rle4_loop_diverges by lia | rewrite rle8_loop_diverges by lia];
        discriminate.
Qed.

Lemma pic_encode_mode_byte_witness :
  exists enc,
    divoom_pic_encode (always_alloc 0) 200 zeros zeros 0 one_colour_image = Ret (enc, 4)
    /\ ld8 (blk_bytes enc) 0 = 0 /\ ld8 (blk_bytes enc) 1 = 1.
Proof.
  assert (H : exists enc,
            divoom_pic_encode (always_alloc 0) 200 zeros zeros 0 one_colour_image
              = Ret (enc, 4)).
  { eexists. vm_compute. reflexivity. }
  destruct H as [enc H]. exists enc. split; [exact H | ].
  destruct (pic_encode_mode_byte _ _ _ _ _ _ _ _ H) as (H0 & H1 & [[Hc _] | [_ Hs]]).
  - split; [exact H0 | rewrite H1; exact Hc].
  - discriminate Hs.
Defined.

(** The two degenerate images byte by byte, whatever the locals and the
    allocated block hold on entry: for the one-colour image the encoder
    returns four bytes whose mode byte is 0, where mode 4 is expected,
    and for the two-colour image 21 bytes whose mode byte is 0, where
    mode 5 is expected; the palette count in byte 1 and the body (empty,
    resp. the membership bitmap) are those of modes 4 and 5. *)
Lemma pic_encode_degenerate_modes :
  forall (fresh paletteBuffer0 pixelColorIndices0 : mem) (local_1cb : Z),
  (exists enc,
     divoom_pic_encode (fun _ => Some fresh) 200 paletteBuffer0 pixelColorIndices0 local_1cb
       one_colour_image = Ret (enc, 4)
     /\ to_list 5 (blk_bytes enc) = [0; 1; 0x65; 0x07; 0])
  /\ (exists enc,
     divoom_pic_encode (fun _ => Some fresh) 200 paletteBuffer0 pixelColorIndices0 local_1cb
       two_colour_image = Ret (enc, 21)
     /\ to_list 5 (blk_bytes enc) = [0; 2; 0x89; 0x17; 0x32]
     /\ to_list 16 (shift (blk_bytes enc) 5)
          = [0xF0; 0xF0; 0xF0; 0xF0; 0xF0; 0xF0; 0xF0; 0xF0; 0x10; 0; 0; 0; 0; 0; 0; 0]).
Proof.
  intros fresh paletteBuffer0 pixelColorIndices0 local_1cb. split.
  - eexists. split; [vm_compute; reflexivity | vm_compute; reflexivity].
  - eexists. split; [vm_compute; reflexivity | split; vm_compute; reflexivity].
Qed.

(** C1 at its failing input, whatever the locals of both functions and
    the allocated block hold on entry: the two-colour image is encoded
    with mode byte 0 and its membership bitmap as body;
    [divoom_pic_decode] reads that body as run-length bytes and returns
    an image whose pixel 4 is (9,8,7) where the original has (1,2,3). *)
Theorem pic_round_trip_two_colours :
  forall (fresh encPalette encIndices : mem) (local_1cb : Z) (decPalette : mem),
  exists enc out,
    divoom_pic_encode (fun _ => Some fresh) 200 encPalette encIndices local_1cb two_colour_image
      = Ret (enc, 21)
    /\ divoom_pic_decode 200 decPalette zeros (blk_bytes enc) = Ret out
    /\ divoom_multipic_get_data two_colour_image 4 = (1, 2, 3)
    /\ divoom_multipic_get_data out 4 = (9, 8, 7)
    /\ to_list 182 out <> to_list 182 two_colour_image.
Proof.
  intros fresh encPalette encIndices local_1cb decPalette.
  eexists _, _. split; [vm_compute; reflexivity | ].
  split; [vm_compute; reflexivity | ].
  split; [vm_compute; reflexivity | ].
  split; [vm_compute; reflexivity | ].
  vm_compute. discriminate.
Qed.

(** ** Bit fields: writers against readers *)

Lemma testbit_u8 x j : 0 <= j -> Z.testbit (u8 x) j = (j <? 8) && Z.testbit x j.
Proof.
  intros Hj. unfold u8. change 256 with (2 ^ 8).
  apply Z.testbit_mod_pow2. lia.
Qed.

Lemma testbit_ld8_high m k j : 8 <= j -> Z.testbit (ld8 m k) j = false.
Proof.
  intros Hj. unfold ld8. rewrite testbit_u8 by lia.
  replace (j <? 8) with false by (symmetry; apply Z.ltb_ge; lia). reflexivity.
Qed.

Lemma shiftr3_split i b : 0 <= b < 8 -> Z.shiftr (8 * i + b) 3 = i /\ Z.land (8 * i + b) 7 = b.
Proof.
  intros Hb. split.
  - rewrite Z.shiftr_div_pow2 by lia. change (2 ^ 3) with 8.
    symmetry. apply Z.div_unique with (r := b); lia.
  - change 7 with (Z.ones 3). rewrite Z.land_ones by lia. change (2 ^ 3) with 8.
    symmetry. apply Z.mod_unique with (q := i); lia.
Qed.

Lemma pos_split pos : 8 * Z.shiftr pos 3 + Z.land pos 7 = pos /\ 0 <= Z.land pos 7 < 8.
Proof.
  rewrite Z.shiftr_div_pow2 by lia. change 7 with (Z.ones 3).
  rewrite Z.land_ones by lia. change (2 ^ 3) with 8.
  pose proof (Z.div_mod pos 8 ltac:(lia)). pose proof (Z.mod_pos_bound pos 8 ltac:(lia)). lia.
Qed.

Lemma bit_at_split m i b : 0 <= b < 8 -> bit_at m (8 * i + b) = Z.testbit (ld8 m i) b.
Proof.
  intros Hb. unfold bit_at. destruct (shiftr3_split i b Hb) as [-> ->]. reflexivity.
Qed.

(** The bit a writer pass stores: bit [b] of the byte becomes [v], the
    others stay. *)
Lemma byte_with_bit x b (v : bool) j :
  0 <= b < 8 -> 0 <= j < 8 ->
  Z.testbit
    (if v then Z.lor x (u8 (shl32 1 (Z.land b 0x1f)))
     else Z.land x (Z.lxor (u8 (shl32 1 (Z.land b 0x1f))) 0xff)) j
  = if j =? b then v else Z.testbit x j.
Proof.
  intros Hb Hj.
  assert (Hm : u8 (shl32 1 (Z.land b 0x1f)) = 2 ^ b).
  { assert (b = 0 \/ b = 1 \/ b = 2 \/ b = 3 \/ b = 4 \/ b = 5 \/ b = 6 \/ b = 7) as Hc by lia.
    destruct Hc as [-> | [-> | [-> | [-> | [-> | [-> | [-> | ->]]]]]]]; reflexivity. }
  rewrite Hm.
  destruct v.
  - rewrite Z.lor_spec, Z.pow2_bits_eqb by lia.
    rewrite (Z.eqb_sym b j). destruct (j =? b); [apply orb_true_r | apply orb_false_r].
  - rewrite Z.land_spec, Z.lxor_spec, Z.pow2_bits_eqb by lia.
    change 255 with (Z.ones 8). rewrite Z.testbit_ones_nonneg by lia.
    replace (j <? 8) with true by (symmetry; apply Z.ltb_lt; lia).
    rewrite (Z.eqb_sym b j). destruct (j =? b); simpl; [apply andb_false_r | apply andb_true_r].
Qed.

Lemma bit_at_st8 m k x pos :
  0 <= pos ->
  bit_at (st8 m k x) pos =
    if Z.shiftr pos 3 =? k then Z.testbit x (Z.land pos 7) else bit_at m pos.
Proof.
  intros Hp. unfold bit_at. destruct (pos_split pos) as [_ Hb].
  destruct (Z.shiftr pos 3 =? k) eqn:E.
  - apply Z.eqb_eq in E. rewrite E, ld8_st8_same, testbit_u8 by lia.
    replace (Z.land pos 7 <? 8) with true by (symmetry; apply Z.ltb_lt; lia). reflexivity.
  - apply Z.eqb_neq in E. rewrite ld8_st8_other by exact E. reflexivity.
Qed.

(** One writer pass at position [8 * i + b]. *)
Lemma bit_at_store_bit m i b (v : bool) pos :
  0 <= b < 8 -> 0 <= pos ->
  bit_at (st8 m i
            (if v then Z.lor (ld8 m i) (u8 (shl32 1 (Z.land b 0x1f)))
             else Z.land (ld8 m i) (Z.lxor (u8 (shl32 1 (Z.land b 0x1f))) 0xff))) pos
  = if pos =? 8 * i + b then v else bit_at m pos.
Proof.
  intros Hb Hp. rewrite bit_at_st8 by exact Hp.
  destruct (pos_split pos) as [Hs Hr].
  destruct (Z.shiftr pos 3 =? i) eqn:E.
  - apply Z.eqb_eq in E. rewrite byte_with_bit by lia.
    unfold bit_at. rewrite E.
    destruct (Z.land pos 7 =? b) eqn:E2.
    + apply Z.eqb_eq in E2. replace (pos =? 8 * i + b) with true
        by (symmetry; apply Z.eqb_eq; lia). reflexivity.
    + apply Z.eqb_neq in E2. replace (pos =? 8 * i + b) with false
        by (symmetry; apply Z.eqb_neq; lia). reflexivity.
  - apply Z.eqb_neq in E.
    replace (pos =? 8 * i + b) with false; [reflexivity | ].
    symmetry. apply Z.eqb_neq. intros ->.
    destruct (shiftr3_split i b Hb) as [Hi _]. contradiction.
Qed.

(** The bit tested by the writers and the one gathered by the readers. *)
Lemma land_shiftr_1 x s : 0 <= s -> Z.land (Z.shiftr x s) 1 = Z.b2z (Z.testbit x s).
Proof.
  intros Hs. change 1 with (Z.ones 1) at 1. rewrite Z.land_ones by lia.
  change (2 ^ 1) with 2. rewrite <- Z.bit0_mod, Z.shiftr_spec by lia. reflexivity.
Qed.

Lemma gathered_bit (bit : bool) k j :
  0 <= k < 32 -> 0 <= j ->
  Z.testbit (Z.land (u32 (- Z.b2z bit)) (shl32 1 k)) j = bit && (j =? k).
Proof.
  intros Hk Hj.
  assert (Hs : shl32 1 k = 2 ^ k).
  { unfold shl32. rewrite Z.shiftl_1_l. apply u32_small.
    split; [apply Z.pow_nonneg; lia | ].
    change 4294967296 with (2 ^ 32). apply Z.pow_lt_mono_r; lia. }
  rewrite Hs, Z.land_spec, Z.pow2_bits_eqb by lia. rewrite (Z.eqb_sym k j).
  destruct bit; simpl.
  - change (u32 (-1)) with (Z.ones 32).
    destruct (j =? k) eqn:E; [ | apply andb_false_r].
    apply Z.eqb_eq in E. rewrite Z.testbit_ones_nonneg by lia.
    replace (j <? 32) with true by (symmetry; apply Z.ltb_lt; lia). reflexivity.
  - change (u32 (-0)) with 0. rewrite Z.bits_0. reflexivity.
Qed.

Lemma tested_bit x s : 0 <= s -> negb (Z.land (Z.shiftr x s) 1 =? 0) = Z.testbit x s.
Proof.
  intros Hs. rewrite land_shiftr_1 by exact Hs. destruct (Z.testbit x s); reflexivity.
Qed.

Lemma land_1f k : 0 <= k < 32 -> Z.land k 0x1f = k.
Proof.
  intros Hk. change 31 with (Z.ones 5). rewrite Z.land_ones by lia.
  apply Z.mod_small. change (2 ^ 5) with 32. lia.
Qed.

(** [divoom_image_set_dot_info]'s loop from pass [k] on: bits
    [pos .. pos + (w - k)) of the array take bits [k ..] of the value. *)
Lemma set_dot_info_loop_spec fuel : forall m w v i b k,
  0 <= b < 8 -> 0 <= k < w -> w <= 32 -> (Z.to_nat (w - k) <= fuel)%nat ->
  exists m',
    set_dot_info_loop fuel m w v i b k = Some m'
    /\ forall pos, 0 <= pos ->
         bit_at m' pos =
           if (8 * i + b <=? pos) && (pos <? 8 * i + b + (w - k))
           then Z.testbit (Z.land v 0xffff) (k + (pos - (8 * i + b)))
           else bit_at m pos.
Proof.
  induction fuel as [|fuel IH]; intros m w v i b k Hb Hk Hw Hfuel; [lia | ].
  cbn [set_dot_info_loop]. cbv zeta.
  rewrite (land_1f k) by lia. rewrite tested_bit by lia.
  rewrite (u32_small (k + 1)) by lia. rewrite (s32_small b) by lia.
  set (m1 := st8 m i _).
  assert (H1 : forall pos, 0 <= pos ->
             bit_at m1 pos = if pos =? 8 * i + b
                             then Z.testbit (Z.land v 0xffff) k else bit_at m pos).
  { intros pos Hp. unfold m1. apply bit_at_store_bit; assumption. }
  destruct (w =? k + 1) eqn:Ew.
  - apply Z.eqb_eq in Ew. exists m1. split; [reflexivity | ].
    intros pos Hp. rewrite (H1 pos Hp).
    destruct (pos =? 8 * i + b) eqn:E.
    + apply Z.eqb_eq in E. subst pos.
      replace ((8 * i + b <=? 8 * i + b) && (8 * i + b <? 8 * i + b + (w - k))) with true
        by (symmetry; apply andb_true_iff; split; [apply Z.leb_le | apply Z.ltb_lt]; lia).
      f_equal. lia.
    + apply Z.eqb_neq in E.
      replace ((8 * i + b <=? pos) && (pos <? 8 * i + b + (w - k))) with false; [reflexivity | ].
      symmetry. apply andb_false_iff.
      destruct (Z_le_gt_dec (8 * i + b) pos); [right; apply Z.ltb_ge | left; apply Z.leb_gt]; lia.
  - apply Z.eqb_neq in Ew.
    set (i1 := if 6 <? b then i + 1 else i).
    set (b1 := if b <? 7 then u32 (b + 1) else 0).
    assert (Hn : 0 <= b1 < 8 /\ 8 * i1 + b1 = 8 * i + b + 1).
    { unfold i1, b1. destruct (6 <? b) eqn:E6; destruct (b <? 7) eqn:E7;
        try apply Z.ltb_lt in E6; try apply Z.ltb_ge in E6;
        try apply Z.ltb_lt in E7; try apply Z.ltb_ge in E7;
        rewrite ?u32_small by lia; lia. }
    destruct Hn as [Hb1 Hpos1].
    destruct (IH m1 w v i1 b1 (k + 1) Hb1 ltac:(lia) Hw ltac:(lia)) as (m' & Hm' & Hbits).
    exists m'. split; [exact Hm' | ].
    intros pos Hp. rewrite (Hbits pos Hp), (H1 pos Hp), Hpos1.
    destruct (pos =? 8 * i + b) eqn:E.
    + apply Z.eqb_eq in E. subst pos.
      replace ((8 * i + b + 1 <=? 8 * i + b) && _) with false
        by (symmetry; apply andb_false_iff; left; apply Z.leb_gt; lia).
      replace ((8 * i + b <=? 8 * i + b) && (8 * i + b <? 8 * i + b + (w - k))) with true
        by (symmetry; apply andb_true_iff; split; [apply Z.leb_le | apply Z.ltb_lt]; lia).
      f_equal. lia.
    + apply Z.eqb_neq in E.
      destruct ((8 * i + b + 1 <=? pos) && (pos <? 8 * i + b + 1 + (w - (k + 1)))) eqn:E1.
      * apply andb_true_iff in E1. destruct E1 as [Ea Eb].
        apply Z.leb_le in Ea. apply Z.ltb_lt in Eb.
        replace ((8 * i + b <=? pos) && (pos <? 8 * i + b + (w - k))) with true
          by (symmetry; apply andb_true_iff; split; [apply Z.leb_le | apply Z.ltb_lt]; lia).
        f_equal. lia.
      * apply andb_false_iff in E1.
        replace ((8 * i + b <=? pos) && (pos <? 8 * i + b + (w - k))) with false; [reflexivity | ].
        symmetry. apply andb_false_iff.
        destruct E1 as [Ea | Eb]; [apply Z.leb_gt in Ea | apply Z.ltb_ge in Eb].
        -- left. apply Z.leb_gt. lia.
        -- right. apply Z.ltb_ge. lia.
Qed.

(** [divoom_image_get_dot_info]'s loop from pass [k] on: bit [j] of the
    result is bit [pos + (j - k)] of the array, for [k <= j < w]. *)
Lemma get_dot_info_loop_spec fuel : forall m w i b k acc,
  0 <= b < 8 -> 0 <= k < w -> w <= 32 -> (Z.to_nat (w - k) <= fuel)%nat ->
  exists r,
    get_dot_info_loop fuel m w i b k acc = Some r
    /\ forall j, 0 <= j ->
         Z.testbit r j =
           Z.testbit acc j || ((k <=? j) && (j <? w) && bit_at m (8 * i + b + (j - k))).
Proof.
  induction fuel as [|fuel IH]; intros m w i b k acc Hb Hk Hw Hfuel; [lia | ].
  cbn [get_dot_info_loop]. cbv zeta.
  rewrite (land_1f k), (land_1f b) by lia.
  rewrite (u32_small (k + 1)) by lia. rewrite (s32_small b) by lia.
  rewrite land_shiftr_1 by lia.
  rewrite <- (bit_at_split m i b Hb).
  set (acc1 := Z.lor _ acc).
  assert (H1 : forall j, 0 <= j ->
             Z.testbit acc1 j = Z.testbit acc j || ((j =? k) && bit_at m (8 * i + b))).
  { intros j Hj. unfold acc1. rewrite Z.lor_spec, gathered_bit by lia.
    rewrite orb_comm. f_equal. apply andb_comm. }
  destruct (w =? k + 1) eqn:Ew.
  - apply Z.eqb_eq in Ew. exists acc1. split; [reflexivity | ].
    intros j Hj. rewrite (H1 j Hj). f_equal.
    destruct (j =? k) eqn:E.
    + apply Z.eqb_eq in E. subst j.
      replace (k <=? k) with true by (symmetry; apply Z.leb_le; lia).
      replace (k <? w) with true by (symmetry; apply Z.ltb_lt; lia).
      simpl. f_equal. lia.
    + apply Z.eqb_neq in E. simpl.
      destruct (k <=? j) eqn:E1; [ | reflexivity].
      apply Z.leb_le in E1.
      replace (j <? w) with false by (symmetry; apply Z.ltb_ge; lia). reflexivity.
  - apply Z.eqb_neq in Ew.
    set (i1 := if 6 <? b then i + 1 else i).
    set (b1 := if b <? 7 then u32 (b + 1) else 0).
    assert (Hn : 0 <= b1 < 8 /\ 8 * i1 + b1 = 8 * i + b + 1).
    { unfold i1, b1. destruct (6 <? b) eqn:E6; destruct (b <? 7) eqn:E7;
        try apply Z.ltb_lt in E6; try apply Z.ltb_ge in E6;
        try apply Z.ltb_lt in E7; try apply Z.ltb_ge in E7;
        rewrite ?u32_small by lia; lia. }
    destruct Hn as [Hb1 Hpos1].
    destruct (IH m w i1 b1 (k + 1) acc1 Hb1 ltac:(lia) Hw ltac:(lia)) as (r & Hr & Hbits).
    exists r. split; [exact Hr | ].
    intros j Hj. rewrite (Hbits j Hj), (H1 j Hj), Hpos1, <- orb_assoc. f_equal.
    destruct (j =? k) eqn:E.
    + apply Z.eqb_eq in E. subst j.
      replace (k + 1 <=? k) with false by (symmetry; apply Z.leb_gt; lia).
      replace (k <=? k) with true by (symmetry; apply Z.leb_le; lia).
      replace (k <? w) with true by (symmetry; apply Z.ltb_lt; lia).
      simpl. rewrite orb_false_r. f_equal. lia.
    + apply Z.eqb_neq in E. simpl.
      destruct (k + 1 <=? j) eqn:E1.
      * apply Z.leb_le in E1.
        replace (k <=? j) with true by (symmetry; apply Z.leb_le; lia).
        simpl. destruct (j <? w); [ | reflexivity]. simpl. f_equal. lia.
      * apply Z.leb_gt in E1.
        replace (k <=? j) with false by (symmetry; apply Z.leb_gt; lia). reflexivity.
Qed.

Lemma ones_mask w : 0 <= w -> Z.shiftl 1 w - 1 = Z.ones w.
Proof. intros Hw. rewrite Z.shiftl_1_l, Z.ones_equiv. reflexivity. Qed.

(** The closed form of the readers, bit by bit. *)
Lemma field_spec_bits m i b w j :
  0 <= b < 8 -> 1 <= w <= 8 -> 0 <= j ->
  Z.testbit (field_spec b w (ld8 m i) (ld8 m (i + 1))) j
    = (j <? w) && bit_at m (8 * i + b + j).
Proof.
  intros Hb Hw Hj. unfold field_spec.
  destruct (b + w <=? 8) eqn:E.
  - apply Z.leb_le in E.
    rewrite ones_mask, Z.land_spec, Z.shiftr_spec, Z.testbit_ones_nonneg by lia.
    rewrite andb_comm. destruct (j <? w) eqn:Ej; [ | reflexivity].
    apply Z.ltb_lt in Ej. cbn [andb].
    replace (8 * i + b + j) with (8 * i + (j + b)) by lia.
    rewrite bit_at_split by lia. reflexivity.
  - apply Z.leb_gt in E.
    rewrite ones_mask, Z.lor_spec, Z.shiftr_spec, Z.shiftl_spec by lia.
    destruct (Z_lt_ge_dec j (8 - b)) as [Hlo | Hhi].
    + rewrite (Z.testbit_neg_r _ (j - (8 - b))) by lia.
      replace (j <? w) with true by (symmetry; apply Z.ltb_lt; lia).
      rewrite orb_false_r. cbn [andb].
      replace (8 * i + b + j) with (8 * i + (j + b)) by lia.
      rewrite bit_at_split by lia. reflexivity.
    + rewrite testbit_ld8_high by lia. cbn [orb].
      rewrite Z.land_spec, Z.testbit_ones_nonneg by lia.
      rewrite andb_comm.
      destruct (j <? w) eqn:Ej.
      * apply Z.ltb_lt in Ej.
        replace (j - (8 - b) <? w - (8 - b)) with true by (symmetry; apply Z.ltb_lt; lia).
        cbn [andb].
        replace (8 * i + b + j) with (8 * (i + 1) + (j - (8 - b))) by lia.
        rewrite bit_at_split by lia. reflexivity.
      * apply Z.ltb_ge in Ej.
        replace (j - (8 - b) <? w - (8 - b)) with false by (symmetry; apply Z.ltb_ge; lia).
        reflexivity.
Qed.

(** What the three readers return, bit by bit: bit [j] of the field of
    width [w] at bit position [pos] is bit [pos + j] of the array. *)
Lemma get_dot_info_ex_bits m pos w j :
  0 <= pos < 2147483648 -> 1 <= w <= 8 -> 0 <= j ->
  Z.testbit (divoom_image_get_dot_info_ex m pos w) j = (j <? w) && bit_at m (pos + j).
Proof.
  intros Hpos Hw Hj.
  destruct (pos_split pos) as [Hs Hb].
  assert (Hi : 0 <= Z.shiftr pos 3) by (apply Z.shiftr_nonneg; lia).
  rewrite <- Hs at 1.
  rewrite get_dot_info_ex_field by lia.
  rewrite field_spec_bits by lia. rewrite Hs. reflexivity.
Qed.

Lemma get_dot_info_bits m p w :
  0 <= p -> 1 <= w <= 32 -> w * p < 2147483648 ->
  exists r,
    divoom_image_get_dot_info m p w = Some r
    /\ forall j, 0 <= j -> Z.testbit r j = (j <? w) && bit_at m (w * p + j).
Proof.
  intros Hp Hw Hmax.
  assert (Hpos : 0 <= w * p) by nia.
  destruct (pos_split (w * p)) as [Hs Hb].
  unfold divoom_image_get_dot_info.
  assert (Hw8 : Z.land w 255 = w).
  { change 255 with (Z.ones 8). rewrite Z.land_ones by lia. apply Z.mod_small.
    change (2 ^ 8) with 256. lia. }
  rewrite Hw8. cbv zeta.
  rewrite (u32_small (w * p)), (s32_small (w * p)) by lia.
  destruct (8 <? w) eqn:E8.
  - apply Z.ltb_lt in E8.
    destruct (get_dot_info_loop_spec (Z.to_nat 256) m w (Z.shiftr (w * p) 3)
                (Z.land (w * p) 7) 0 0 Hb ltac:(lia) ltac:(lia) ltac:(lia))
      as (r & Hr & Hbits).
    exists r. split; [exact Hr | ].
    intros j Hj. rewrite (Hbits j Hj), Z.bits_0, Hs. cbn [orb].
    replace (0 <=? j) with true by (symmetry; apply Z.leb_le; lia).
    replace (j - 0) with j by lia. reflexivity.
  - apply Z.ltb_ge in E8.
    exists (divoom_image_get_dot_info_ex m (w * p) w). split.
    + unfold divoom_image_get_dot_info_ex.
      rewrite (s32_small (w * p)) by lia.
      rewrite (u32_small (Z.land (w * p) 7 + w)) by lia.
      destruct (8 <? Z.land (w * p) 7 + w); reflexivity.
    + intros j Hj. apply get_dot_info_ex_bits; lia.
Qed.

Lemma land_ff k : 0 <= k < 256 -> Z.land k 0xff = k.
Proof.
  intros Hk. change 255 with (Z.ones 8). rewrite Z.land_ones by lia.
  apply Z.mod_small. change (2 ^ 8) with 256. lia.
Qed.

Lemma set_dot_info_bits m p w v :
  0 <= p -> 1 <= w <= 32 -> w * p < 2147483648 ->
  exists m',
    divoom_image_set_dot_info m p w v = Some m'
    /\ forall pos, 0 <= pos ->
         bit_at m' pos =
           if (w * p <=? pos) && (pos <? w * p + w)
           then Z.testbit (Z.land v 0xffff) (pos - w * p)
           else bit_at m pos.
Proof.
  intros Hp Hw Hmax.
  assert (Hpos : 0 <= w * p) by nia.
  destruct (pos_split (w * p)) as [Hs Hb].
  unfold divoom_image_set_dot_info.
  rewrite (land_ff w) by lia. cbv zeta.
  replace (w =? 0) with false by (symmetry; apply Z.eqb_neq; lia). cbn [negb].
  rewrite (u32_small (w * p)), (s32_small (w * p)) by lia.
  destruct (set_dot_info_loop_spec (Z.to_nat 256) m w v (Z.shiftr (w * p) 3)
              (Z.land (w * p) 7) 0 Hb ltac:(lia) ltac:(lia) ltac:(lia))
    as (m' & Hm' & Hbits).
  exists m'. split; [exact Hm' | ].
  intros pos Hp'. rewrite (Hbits pos Hp'), Hs.
  replace (w - 0) with w by lia. reflexivity.
Qed.

(** Within the first 256 bytes the multipic loops are the image loops. *)
Lemma multipic_set_dot_info_loop_eq fuel : forall m w v i b k,
  0 <= i -> 0 <= b < 8 -> 0 <= k < w -> w <= 32 -> 8 * i + b + (w - k) <= 2048 ->
  multipic_set_dot_info_loop fuel m w v i b k
    = set_dot_info_loop fuel m w (Z.land v 0xff) i b k.
Proof.
  induction fuel as [|fuel IH]; intros m w v i b k Hi Hb Hk Hw Hmax; [reflexivity | ].
  cbn [multipic_set_dot_info_loop set_dot_info_loop]. cbv zeta.
  rewrite (land_ff i) by lia.
  rewrite (u32_small (b + 1)) by lia. rewrite (land_ff (b + 1)) by lia.
  rewrite (s32_small b) by lia.
  replace (Z.land (Z.land v 255) 65535) with (Z.land v 255).
  2:{ change 65535 with (Z.ones 16). change 255 with (Z.ones 8).
      rewrite <- Z.land_assoc. reflexivity. }
  replace (7 <? b + 1) with (6 <? b)
    by (destruct (6 <? b) eqn:E; symmetry;
        [apply Z.ltb_lt in E; apply Z.ltb_lt | apply Z.ltb_ge in E; apply Z.ltb_ge]; lia).
  replace (b + 1 <? 8) with (b <? 7)
    by (destruct (b <? 7) eqn:E; symmetry;
        [apply Z.ltb_lt in E; apply Z.ltb_lt | apply Z.ltb_ge in E; apply Z.ltb_ge]; lia).
  rewrite (u32_small (i + 1)) by lia.
  destruct (w =? u32 (k + 1)) eqn:Ew; [reflexivity | ].
  rewrite (u32_small (k + 1)) in * by lia. apply Z.eqb_neq in Ew.
  apply IH; try lia.
  - destruct (6 <? b); lia.
  - destruct (b <? 7) eqn:E7; [apply Z.ltb_lt in E7 | ]; lia.
  - destruct (6 <? b) eqn:E6; destruct (b <? 7) eqn:E7;
      try apply Z.ltb_lt in E6; try apply Z.ltb_ge in E6;
      try apply Z.ltb_lt in E7; try apply Z.ltb_ge in E7; lia.
Qed.

Lemma multipic_get_dot_info_loop_eq fuel : forall m w i b k acc,
  0 <= i -> 0 <= b < 8 -> 0 <= k < w -> w <= 32 -> 8 * i + b + (w - k) <= 2048 ->
  multipic_get_dot_info_loop fuel m w i b k acc = get_dot_info_loop fuel m w i b k acc.
Proof.
  induction fuel as [|fuel IH]; intros m w i b k acc Hi Hb Hk Hw Hmax; [reflexivity | ].
  cbn [multipic_get_dot_info_loop get_dot_info_loop]. cbv zeta.
  rewrite (land_ff i) by lia.
  rewrite (u32_small (b + 1)) by lia. rewrite (land_ff (b + 1)) by lia.
  rewrite (s32_small b) by lia.
  replace (7 <? b + 1) with (6 <? b)
    by (destruct (6 <? b) eqn:E; symmetry;
        [apply Z.ltb_lt in E; apply Z.ltb_lt | apply Z.ltb_ge in E; apply Z.ltb_ge]; lia).
  replace (b + 1 <? 8) with (b <? 7)
    by (destruct (b <? 7) eqn:E; symmetry;
        [apply Z.ltb_lt in E; apply Z.ltb_lt | apply Z.ltb_ge in E; apply Z.ltb_ge]; lia).
  rewrite (u32_small (i + 1)) by lia.
  destruct (w =? u32 (k + 1)) eqn:Ew; [reflexivity | ].
  rewrite (u32_small (k + 1)) in * by lia. apply Z.eqb_neq in Ew.
  apply IH; try lia.
  - destruct (6 <? b); lia.
  - destruct (b <? 7) eqn:E7; [apply Z.ltb_lt in E7 | ]; lia.
  - destruct (6 <? b) eqn:E6; destruct (b <? 7) eqn:E7;
      try apply Z.ltb_lt in E6; try apply Z.ltb_ge in E6;
      try apply Z.ltb_lt in E7; try apply Z.ltb_ge in E7; lia.
Qed.

Lemma multipic_position w p :
  0 <= p -> 1 <= w -> w * p + w <= 2048 ->
  u32 (w * p) = w * p
  /\ Z.land (Z.shiftr (w * p) 3) 0x1fff = Z.shiftr (w * p) 3
  /\ 0 <= Z.shiftr (w * p) 3.
Proof.
  intros Hp Hw Hmax. assert (0 <= w * p) by nia.
  split; [apply u32_small; lia | ].
  assert (Hr : 0 <= Z.shiftr (w * p) 3 < 256).
  { rewrite Z.shiftr_div_pow2 by lia. change (2 ^ 3) with 8.
    split; [apply Z.div_pos; lia | apply Z.div_lt_upper_bound; lia]. }
  split; [ | lia].
  change 8191 with (Z.ones 13). rewrite Z.land_ones by lia.
  apply Z.mod_small. change (2 ^ 13) with 8192. lia.
Qed.

Lemma multipic_get_dot_info_bits m p w :
  0 <= p -> 1 <= w <= 32 -> w * p + w <= 2048 ->
  exists r,
    divoom_multipic_get_dot_info m p w = Some r
    /\ forall j, 0 <= j -> Z.testbit r j = (j <? w) && bit_at m (w * p + j).
Proof.
  intros Hp Hw Hmax.
  destruct (multipic_position w p Hp ltac:(lia) Hmax) as (Hu & Hl & Hi).
  destruct (pos_split (w * p)) as [Hs Hb].
  unfold divoom_multipic_get_dot_info.
  rewrite (land_ff w) by lia. cbv zeta.
  replace (w =? 0) with false by (symmetry; apply Z.eqb_neq; lia). cbn [negb].
  rewrite Hu, Hl.
  rewrite multipic_get_dot_info_loop_eq by lia.
  destruct (get_dot_info_loop_spec (Z.to_nat 256) m w (Z.shiftr (w * p) 3)
              (Z.land (w * p) 7) 0 0 Hb ltac:(lia) ltac:(lia) ltac:(lia))
    as (r & Hr & Hbits).
  exists r. split; [exact Hr | ].
  intros j Hj. rewrite (Hbits j Hj), Z.bits_0, Hs. cbn [orb].
  replace (0 <=? j) with true by (symmetry; apply Z.leb_le; lia).
  replace (j - 0) with j by lia. reflexivity.
Qed.

Lemma multipic_set_dot_info_bits m p w v :
  0 <= p -> 1 <= w <= 32 -> w * p + w <= 2048 ->
  exists m',
    divoom_multipic_set_dot_info m p w v = Some m'
    /\ forall pos, 0 <= pos ->
         bit_at m' pos =
           if (w * p <=? pos) && (pos <? w * p + w)
           then Z.testbit (Z.land v 0xff) (pos - w * p)
           else bit_at m pos.
Proof.
  intros Hp Hw Hmax.
  destruct (multipic_position w p Hp ltac:(lia) Hmax) as (Hu & Hl & Hi).
  destruct (pos_split (w * p)) as [Hs Hb].
  unfold divoom_multipic_set_dot_info.
  rewrite (land_ff w) by lia. cbv zeta.
  replace (w =? 0) with false by (symmetry; apply Z.eqb_neq; lia). cbn [negb].
  rewrite Hu, Hl.
  rewrite multipic_set_dot_info_loop_eq by lia.
  destruct (set_dot_info_loop_spec (Z.to_nat 256) m w (Z.land v 255) (Z.shiftr (w * p) 3)
              (Z.land (w * p) 7) 0 Hb ltac:(lia) ltac:(lia) ltac:(lia))
    as (m' & Hm' & Hbits).
  exists m'. split; [exact Hm' | ].
  intros pos Hp'. rewrite (Hbits pos Hp'), Hs.
  replace (w - 0) with w by lia.
  replace (Z.land (Z.land v 255) 65535) with (Z.land v 255).
  2:{ change 65535 with (Z.ones 16). change 255 with (Z.ones 8).
      rewrite <- Z.land_assoc. reflexivity. }
  replace (0 + (pos - w * p)) with (pos - w * p) by lia. reflexivity.
Qed.

Lemma testbit_low_16 v j : 0 <= j < 16 -> Z.testbit (Z.land v 0xffff) j = Z.testbit v j.
Proof.
  intros Hj. change 65535 with (Z.ones 16).
  rewrite Z.land_spec, Z.testbit_ones_nonneg by lia.
  replace (j <? 16) with true by (symmetry; apply Z.ltb_lt; lia). apply andb_true_r.
Qed.

Lemma testbit_low_8 v j : 0 <= j < 8 -> Z.testbit (Z.land v 0xff) j = Z.testbit v j.
Proof.
  intros Hj. change 255 with (Z.ones 8).
  rewrite Z.land_spec, Z.testbit_ones_nonneg by lia.
  replace (j <? 8) with true by (symmetry; apply Z.ltb_lt; lia). apply andb_true_r.
Qed.

(** Fields of the same width at different indices do not overlap. *)
Lemma other_field w p q j :
  1 <= w -> 0 <= j < w -> q <> p ->
  (w * p <=? w * q + j) && (w * q + j <? w * p + w) = false.
Proof.
  intros Hw Hj Hq. apply andb_false_iff.
  destruct (Z_lt_ge_dec q p) as [Hlt | Hge].
  - left. apply Z.leb_gt. nia.
  - right. apply Z.ltb_ge. nia.
Qed.

(** [divoom_image_set_dot_info] against [divoom_image_get_dot_info]:
    the field written at index [p] reads back as the value's low [w]
    bits, and the field at any other index [q] reads as before. *)
Theorem image_dot_info_write_read :
  forall (m : mem) (p q w v : Z),
  0 <= p -> 0 <= q -> 1 <= w <= 16 -> w * p < 2147483648 -> w * q < 2147483648 ->
  exists m',
    divoom_image_set_dot_info m p w v = Some m'
    /\ divoom_image_get_dot_info m' p w = Some (v mod 2 ^ w)
    /\ (q <> p -> divoom_image_get_dot_info m' q w = divoom_image_get_dot_info m q w).
Proof.
  intros m p q w v Hp Hq Hw Hmp Hmq.
  assert (Hpp : 0 <= w * p) by nia. assert (Hqq : 0 <= w * q) by nia.
  destruct (set_dot_info_bits m p w v Hp ltac:(lia) Hmp) as (m' & Hset & Hbits).
  exists m'. split; [exact Hset | ]. split.
  - destruct (get_dot_info_bits m' p w Hp ltac:(lia) Hmp) as (r & Hr & Hrb).
    rewrite Hr. f_equal. apply Z.bits_inj'. intros j Hj.
    rewrite (Hrb j Hj), Z.testbit_mod_pow2 by lia.
    destruct (j <? w) eqn:Ej; [ | reflexivity].
    apply Z.ltb_lt in Ej. cbn [andb].
    rewrite Hbits by lia.
    replace ((w * p <=? w * p + j) && (w * p + j <? w * p + w)) with true
      by (symmetry; apply andb_true_iff; split; [apply Z.leb_le | apply Z.ltb_lt]; lia).
    replace (w * p + j - w * p) with j by lia.
    apply testbit_low_16. lia.
  - intros Hne.
    destruct (get_dot_info_bits m' q w Hq ltac:(lia) Hmq) as (r' & Hr' & Hrb').
    destruct (get_dot_info_bits m q w Hq ltac:(lia) Hmq) as (r & Hr & Hrb).
    rewrite Hr', Hr. f_equal. apply Z.bits_inj'. intros j Hj.
    rewrite (Hrb' j Hj), (Hrb j Hj).
    destruct (j <? w) eqn:Ej; [ | reflexivity].
    apply Z.ltb_lt in Ej. cbn [andb].
    rewrite Hbits by lia. rewrite other_field by lia. reflexivity.
Qed.

Lemma image_dot_info_write_read_witness :
  exists m',
    divoom_image_set_dot_info (of_list [0xFF; 0xFF; 0xFF]) 2 5 0x2A = Some m'
    /\ divoom_image_get_dot_info m' 2 5 = Some 10
    /\ divoom_image_get_dot_info m' 1 5 = Some 31.
Proof.
  destruct (image_dot_info_write_read (of_list [0xFF; 0xFF; 0xFF]) 2 1 5 0x2A
              ltac:(lia) ltac:(lia) ltac:(lia) ltac:(lia) ltac:(lia))
    as (m' & Hset & Hget & Hother).
  exists m'. split; [exact Hset | ]. split; [exact Hget | ].
  rewrite Hother by lia. reflexivity.
Defined.

(** The same for [divoom_multipic_set_dot_info] and
    [divoom_multipic_get_dot_info], whose fields are at most 8 bits wide
    and lie in the first 256 bytes. *)
Theorem multipic_dot_info_write_read :
  forall (m : mem) (p q w v : Z),
  0 <= p -> 0 <= q -> 1 <= w <= 8 -> w * p + w <= 2048 -> w * q + w <= 2048 ->
  exists m',
    divoom_multipic_set_dot_info m p w v = Some m'
    /\ divoom_multipic_get_dot_info m' p w = Some (v mod 2 ^ w)
    /\ (q <> p ->
        divoom_multipic_get_dot_info m' q w = divoom_multipic_get_dot_info m q w).
Proof.
  intros m p q w v Hp Hq Hw Hmp Hmq.
  assert (Hpp : 0 <= w * p) by nia. assert (Hqq : 0 <= w * q) by nia.
  destruct (multipic_set_dot_info_bits m p w v Hp ltac:(lia) Hmp) as (m' & Hset & Hbits).
  exists m'. split; [exact Hset | ]. split.
  - destruct (multipic_get_dot_info_bits m' p w Hp ltac:(lia) Hmp) as (r & Hr & Hrb).
    rewrite Hr. f_equal. apply Z.bits_inj'. intros j Hj.
    rewrite (Hrb j Hj), Z.testbit_mod_pow2 by lia.
    destruct (j <? w) eqn:Ej; [ | reflexivity].
    apply Z.ltb_lt in Ej. cbn [andb].
    rewrite Hbits by lia.
    replace ((w * p <=? w * p + j) && (w * p + j <? w * p + w)) with true
      by (symmetry; apply andb_true_iff; split; [apply Z.leb_le | apply Z.ltb_lt]; lia).
    replace (w * p + j - w * p) with j by lia.
    apply testbit_low_8. lia.
  - intros Hne.
    destruct (multipic_get_dot_info_bits m' q w Hq ltac:(lia) Hmq) as (r' & Hr' & Hrb').
    destruct (multipic_get_dot_info_bits m q w Hq ltac:(lia) Hmq) as (r & Hr & Hrb).
    rewrite Hr', Hr. f_equal. apply Z.bits_inj'. intros j Hj.
    rewrite (Hrb' j Hj), (Hrb j Hj).
    destruct (j <? w) eqn:Ej; [ | reflexivity].
    apply Z.ltb_lt in Ej. cbn [andb].
    rewrite Hbits by lia. rewrite other_field by lia. reflexivity.
Qed.

Lemma multipic_dot_info_write_read_witness :
  exists m',
    divoom_multipic_set_dot_info zeros 120 3 5 = Some m'
    /\ divoom_multipic_get_dot_info m' 120 3 = Some 5
    /\ divoom_multipic_get_dot_info m' 119 3 = Some 0.
Proof.
  destruct (multipic_dot_info_write_read zeros 120 119 3 5
              ltac:(lia) ltac:(lia) ltac:(lia) ltac:(lia) ltac:(lia))
    as (m' & Hset & Hget & Hother).
  exists m'. split; [exact Hset | ]. split; [exact Hget | ].
  rewrite Hother by lia. reflexivity.
Defined.

(** The three readers return the same field: for widths up to 8,
    [divoom_image_get_dot_info] and [divoom_multipic_get_dot_info] at
    field index [p] are [divoom_image_get_dot_info_ex] at bit [w * p]. *)
Theorem dot_info_readers_agree :
  forall (m : mem) (p w : Z),
  0 <= p -> 1 <= w <= 8 -> w * p + w <= 2048 ->
  divoom_image_get_dot_info m p w = Some (divoom_image_get_dot_info_ex m (w * p) w)
  /\ divoom_multipic_get_dot_info m p w = Some (divoom_image_get_dot_info_ex m (w * p) w).
Proof.
  intros m p w Hp Hw Hmax.
  assert (Hpp : 0 <= w * p) by nia.
  assert (Hex : forall j, 0 <= j ->
            Z.testbit (divoom_image_get_dot_info_ex m (w * p) w) j
              = (j <? w) && bit_at m (w * p + j)).
  { intros j Hj. apply get_dot_info_ex_bits; lia. }
  split.
  - destruct (get_dot_info_bits m p w Hp ltac:(lia) ltac:(lia)) as (r & Hr & Hrb).
    rewrite Hr. f_equal. apply Z.bits_inj'. intros j Hj.
    rewrite (Hrb j Hj), (Hex j Hj). reflexivity.
  - destruct (multipic_get_dot_info_bits m p w Hp ltac:(lia) Hmax) as (r & Hr & Hrb).
    rewrite Hr. f_equal. apply Z.bits_inj'. intros j Hj.
    rewrite (Hrb j Hj), (Hex j Hj). reflexivity.
Qed.

Lemma dot_info_readers_agree_witness :
  divoom_image_get_dot_info (of_list [0xB5; 0x03]) 2 3 = Some 6
  /\ divoom_multipic_get_dot_info (of_list [0xB5; 0x03]) 2 3 = Some 6.
Proof.
  destruct (dot_info_readers_agree (of_list [0xB5; 0x03]) 2 3
              ltac:(lia) ltac:(lia) ltac:(lia)) as [H1 H2].
  split; [rewrite H1 | rewrite H2]; reflexivity.
Defined.

Lemma testbit_above v w j : 0 <= v < 2 ^ w -> 0 <= w <= j -> Z.testbit v j = false.
Proof.
  intros Hv Hj. rewrite <- (Z.mod_small v (2 ^ w)) by lia.
  rewrite Z.testbit_mod_pow2 by lia.
  replace (j <? w) with false by (symmetry; apply Z.ltb_ge; lia). reflexivity.
Qed.

(** [divoom_image_set_dot_info_ex] on a buffer that is clear from [pos]
    on: every bit below [pos] stays, the bits from [pos] on are the
    value's. *)
Lemma set_dot_info_ex_bits m pos w v j :
  0 <= pos < 2147483648 -> 1 <= w <= 8 -> 0 <= v < 2 ^ w -> clear_from m pos -> 0 <= j ->
  bit_at (divoom_image_set_dot_info_ex m pos w v) j =
    if j <? pos then bit_at m j else Z.testbit v (j - pos).
Proof.
  intros Hpos Hw Hv Hclear Hj.
  destruct (pos_split pos) as [Hs Hb].
  destruct (pos_split j) as [Hjs Hjb].
  set (i := Z.shiftr pos 3) in *. set (b := Z.land pos 7) in *.
  assert (Hv256 : 0 <= v < 256).
  { split; [lia | ]. apply Z.lt_le_trans with (2 ^ w); [lia | ].
    change 256 with (2 ^ 8). apply Z.pow_le_mono_r; lia. }
  assert (Hv16 : Z.land v 65535 = v).
  { change 65535 with (Z.ones 16). rewrite Z.land_ones by lia. apply Z.mod_small.
    change (2 ^ 16) with 65536. lia. }
  unfold divoom_image_set_dot_info_ex. cbv zeta.
  rewrite (s32_small pos) by lia. fold i. fold b.
  rewrite Hv16. rewrite (u32_small (b + w)), (u32_small (8 - b)), (land_1f (8 - b)) by lia.
  assert (Hsh : shl32 v b = Z.shiftl v b).
  { unfold shl32. apply u32_small. rewrite Z.shiftl_mul_pow2 by lia.
    assert (0 < 2 ^ b <= 128).
    { split; [apply Z.pow_pos_nonneg; lia | ].
      change 128 with (2 ^ 7). apply Z.pow_le_mono_r; lia. }
    nia. }
  assert (Hsr : shr32 v (8 - b) = Z.shiftr v (8 - b)).
  { unfold shr32. rewrite u32_small by lia. reflexivity. }
  rewrite Hsh, Hsr.
  (* the byte at the position *)
  assert (Hfirst : forall k, 0 <= k < 8 ->
            Z.testbit (Z.lor (ld8 m i) (u8 (Z.shiftl v b))) k =
              if k <? b then Z.testbit (ld8 m i) k else Z.testbit v (k - b)).
  { intros k Hk. rewrite Z.lor_spec, testbit_u8, Z.shiftl_spec by lia.
    replace (k <? 8) with true by (symmetry; apply Z.ltb_lt; lia). cbn [andb].
    destruct (k <? b) eqn:Ek.
    - apply Z.ltb_lt in Ek. rewrite (Z.testbit_neg_r v) by lia. apply orb_false_r.
    - apply Z.ltb_ge in Ek.
      rewrite <- (bit_at_split m i k) by lia.
      rewrite Hclear by lia. reflexivity. }
  assert (Hcase : Z.shiftr j 3 < i \/ Z.shiftr j 3 = i \/ Z.shiftr j 3 = i + 1
                  \/ i + 1 < Z.shiftr j 3) by lia.
  destruct (8 <? b + w) eqn:E8; [apply Z.ltb_lt in E8 | apply Z.ltb_ge in E8].
  - rewrite bit_at_st8 by lia.
    destruct (Z.shiftr j 3 =? i + 1) eqn:E1.
    + apply Z.eqb_eq in E1.
      replace (j <? pos) with false by (symmetry; apply Z.ltb_ge; lia).
      rewrite Z.shiftr_spec by lia. f_equal. lia.
    + apply Z.eqb_neq in E1. rewrite bit_at_st8 by lia.
      destruct (Z.shiftr j 3 =? i) eqn:E0.
      * apply Z.eqb_eq in E0. rewrite Hfirst by lia.
        destruct (Z.land j 7 <? b) eqn:Ek; [apply Z.ltb_lt in Ek | apply Z.ltb_ge in Ek].
        -- replace (j <? pos) with true by (symmetry; apply Z.ltb_lt; lia).
           unfold bit_at. rewrite E0. reflexivity.
        -- replace (j <? pos) with false by (symmetry; apply Z.ltb_ge; lia).
           f_equal. lia.
      * apply Z.eqb_neq in E0.
        destruct (j <? pos) eqn:Ej; [reflexivity | ].
        apply Z.ltb_ge in Ej. rewrite Hclear by lia.
        symmetry. apply (testbit_above v w); lia.
  - rewrite bit_at_st8 by lia.
    destruct (Z.shiftr j 3 =? i) eqn:E0.
    + apply Z.eqb_eq in E0. rewrite Hfirst by lia.
      destruct (Z.land j 7 <? b) eqn:Ek; [apply Z.ltb_lt in Ek | apply Z.ltb_ge in Ek].
      * replace (j <? pos) with true by (symmetry; apply Z.ltb_lt; lia).
        unfold bit_at. rewrite E0. reflexivity.
      * replace (j <? pos) with false by (symmetry; apply Z.ltb_ge; lia).
        f_equal. lia.
    + apply Z.eqb_neq in E0.
      destruct (j <? pos) eqn:Ej; [reflexivity | ].
      apply Z.ltb_ge in Ej. rewrite Hclear by lia.
      symmetry. apply (testbit_above v w); lia.
Qed.

(** Appending a field with [divoom_image_set_dot_info_ex] to a buffer
    that is clear from [pos] on, for a width [w] from 1 to 8, a value
    below [2^w] and a field that ends below bit 2^31 (the range of the
    [int] cast of the bit position): the field reads back with
    [divoom_image_get_dot_info_ex], the fields written before it read as
    before, and the buffer is clear from [pos + w] on. *)
Theorem dot_info_ex_append :
  forall (m : mem) (pos w v : Z),
  0 <= pos -> pos + w < 2147483648 -> 1 <= w <= 8 -> 0 <= v < 2 ^ w -> clear_from m pos ->
  let m' := divoom_image_set_dot_info_ex m pos w v in
  divoom_image_get_dot_info_ex m' pos w = v
  /\ clear_from m' (pos + w)
  /\ (forall pos' w', 0 <= pos' -> 1 <= w' <= 8 -> pos' + w' <= pos ->
        divoom_image_get_dot_info_ex m' pos' w' = divoom_image_get_dot_info_ex m pos' w').
Proof.
  intros m pos w v Hpos Hmax Hw Hv Hclear m'.
  assert (Hbits : forall j, 0 <= j ->
            bit_at m' j = if j <? pos then bit_at m j else Z.testbit v (j - pos)).
  { intros j Hj. apply set_dot_info_ex_bits; try assumption; lia. }
  split; [ | split].
  - apply Z.bits_inj'. intros j Hj.
    rewrite get_dot_info_ex_bits by lia.
    rewrite Hbits by lia.
    replace (pos + j <? pos) with false by (symmetry; apply Z.ltb_ge; lia).
    replace (pos + j - pos) with j by lia.
    destruct (j <? w) eqn:Ej; [reflexivity | ].
    apply Z.ltb_ge in Ej. symmetry. apply (testbit_above v w); lia.
  - intros j Hj. rewrite Hbits by lia.
    replace (j <? pos) with false by (symmetry; apply Z.ltb_ge; lia).
    apply (testbit_above v w); lia.
  - intros pos' w' Hp' Hw' Hle. apply Z.bits_inj'. intros j Hj.
    rewrite !get_dot_info_ex_bits by lia.
    destruct (j <? w') eqn:Ej; [ | reflexivity].
    apply Z.ltb_lt in Ej. cbn [andb]. rewrite Hbits by lia.
    replace (pos' + j <? pos) with true by (symmetry; apply Z.ltb_lt; lia). reflexivity.
Qed.

Lemma dot_info_ex_append_witness :
  divoom_image_get_dot_info_ex (divoom_image_set_dot_info_ex (of_list [0x15]) 6 5 0x1B) 6 5
    = 0x1B
  /\ divoom_image_get_dot_info_ex (divoom_image_set_dot_info_ex (of_list [0x15]) 6 5 0x1B) 0 6
    = 0x15.
Proof.
  assert (Hc : clear_from (of_list [0x15]) 6).
  { intros j Hj. unfold bit_at.
    destruct (pos_split j) as [Hs Hb].
    assert (Hi : 0 <= Z.shiftr j 3) by (apply Z.shiftr_nonneg; lia).
    destruct (Z.eq_dec (Z.shiftr j 3) 0) as [E | E].
    - rewrite E.
      assert (Z.land j 7 = 6 \/ Z.land j 7 = 7) as [-> | ->] by lia; reflexivity.
    - unfold ld8, of_list.
      replace (Z.shiftr j 3 <? 0) with false by (symmetry; apply Z.ltb_ge; lia).
      destruct (Z.to_nat (Z.shiftr j 3)) as [|n] eqn:En; [lia | ].
      destruct n; apply Z.bits_0. }
  destruct (dot_info_ex_append (of_list [0x15]) 6 5 0x1B
              ltac:(lia) ltac:(lia) ltac:(lia) ltac:(lia) Hc) as (H1 & _ & H3).
  split; [exact H1 | ].
  rewrite (H3 0 6) by lia. reflexivity.
Defined.

(** ** Packed pixels: [divoom_multipic_set_data] against
    [divoom_multipic_get_data] *)

Lemma half_split i :
  0 <= i ->
  exists h p, i = 2 * h + p /\ (p = 0 \/ p = 1) /\ 0 <= h
              /\ Z.shiftr i 1 = h /\ Z.land i 1 = p.
Proof.
  intros Hi. exists (i / 2), (i mod 2).
  pose proof (Z.div_mod i 2 ltac:(lia)). pose proof (Z.mod_pos_bound i 2 ltac:(lia)).
  split; [lia | ]. split; [lia | ].
  split; [apply Z.div_pos; lia | ].
  split.
  - rewrite Z.shiftr_div_pow2 by lia. reflexivity.
  - change 1 with (Z.ones 1). rewrite Z.land_ones by lia. reflexivity.
Qed.

Lemma get_data_offset index :
  0 <= index <= 43690 ->
  Z.land (u32 (index + Z.shiftr (Z.land index 0xfffe) 1)) 0xffff = Z.shiftr index 1 + index.
Proof.
  intros H.
  assert (Hh : Z.shiftr (Z.land index 0xfffe) 1 = Z.shiftr index 1).
  { apply Z.bits_inj'. intros n Hn.
    rewrite !Z.shiftr_spec, Z.land_spec by lia.
    change 65534 with (Z.shiftl (Z.ones 15) 1).
    rewrite Z.shiftl_spec by lia.
    replace (n + 1 - 1) with n by lia.
    rewrite Z.testbit_ones_nonneg by lia.
    destruct (n <? 15) eqn:E; [apply andb_true_r | ].
    apply Z.ltb_ge in E. rewrite andb_false_r. symmetry.
    apply (testbit_above index 16); [change (2 ^ 16) with 65536 | ]; lia. }
  rewrite Hh.
  assert (0 <= Z.shiftr index 1 <= index).
  { rewrite Z.shiftr_div_pow2 by lia. change (2 ^ 1) with 2.
    split; [apply Z.div_pos; lia | apply Z.div_le_upper_bound; lia]. }
  assert (Z.shiftr index 1 * 2 <= index).
  { rewrite Z.shiftr_div_pow2 by lia. change (2 ^ 1) with 2.
    pose proof (Z.div_mod index 2 ltac:(lia)).
    pose proof (Z.mod_pos_bound index 2 ltac:(lia)). lia. }
  rewrite u32_small by lia. rewrite land_ffff, u16_small by lia. lia.
Qed.

(** Two nibbles in a byte. *)
Lemma nibbles_packed lo hi :
  0 <= lo < 16 -> 0 <= hi < 16 ->
  Z.land (u8 (Z.lor lo (Z.shiftl hi 4))) 0xf = lo
  /\ Z.shiftr (u8 (Z.lor lo (Z.shiftl hi 4))) 4 = hi.
Proof.
  intros Hlo Hhi.
  assert (T : forallb (fun lo => forallb (fun hi =>
                (Z.land (u8 (Z.lor lo (Z.shiftl hi 4))) 0xf =? lo)
                && (Z.shiftr (u8 (Z.lor lo (Z.shiftl hi 4))) 4 =? hi))
              (zrange 0 16)) (zrange 0 16) = true) by (vm_compute; reflexivity).
  pose proof (forallb_zrange _ _ _ T lo ltac:(simpl; lia)) as T1. cbv beta in T1.
  pose proof (forallb_zrange _ _ _ T1 hi ltac:(simpl; lia)) as T2. cbv beta in T2.
  apply andb_true_iff in T2. destruct T2 as [A B].
  apply Z.eqb_eq in A. apply Z.eqb_eq in B. split; assumption.
Qed.

(** A nibble stored beside the other nibble of a byte. *)
Lemma low_nibble_stored x lo :
  0 <= x < 256 -> 0 <= lo < 16 ->
  Z.land (u8 (Z.lor lo (Z.land x 0xf0))) 0xf = lo
  /\ Z.shiftr (u8 (Z.lor lo (Z.land x 0xf0))) 4 = Z.shiftr x 4.
Proof.
  intros Hx Hlo.
  assert (T : forallb (fun x => forallb (fun lo =>
                (Z.land (u8 (Z.lor lo (Z.land x 0xf0))) 0xf =? lo)
                && (Z.shiftr (u8 (Z.lor lo (Z.land x 0xf0))) 4 =? Z.shiftr x 4))
              (zrange 0 16)) (zrange 0 256) = true) by (vm_compute; reflexivity).
  pose proof (forallb_zrange _ _ _ T x ltac:(simpl; lia)) as T1. cbv beta in T1.
  pose proof (forallb_zrange _ _ _ T1 lo ltac:(simpl; lia)) as T2. cbv beta in T2.
  apply andb_true_iff in T2. destruct T2 as [A B].
  apply Z.eqb_eq in A. apply Z.eqb_eq in B. split; assumption.
Qed.

Lemma high_nibble_stored x hi :
  0 <= x < 256 -> 0 <= hi < 16 ->
  Z.land (u8 (Z.lor (Z.land x 0xf) (Z.shiftl hi 4))) 0xf = Z.land x 0xf
  /\ Z.shiftr (u8 (Z.lor (Z.land x 0xf) (Z.shiftl hi 4))) 4 = hi.
Proof.
  intros Hx Hhi.
  assert (T : forallb (fun x => forallb (fun hi =>
                (Z.land (u8 (Z.lor (Z.land x 0xf) (Z.shiftl hi 4))) 0xf =? Z.land x 0xf)
                && (Z.shiftr (u8 (Z.lor (Z.land x 0xf) (Z.shiftl hi 4))) 4 =? hi))
              (zrange 0 16)) (zrange 0 256) = true) by (vm_compute; reflexivity).
  pose proof (forallb_zrange _ _ _ T x ltac:(simpl; lia)) as T1. cbv beta in T1.
  pose proof (forallb_zrange _ _ _ T1 hi ltac:(simpl; lia)) as T2. cbv beta in T2.
  apply andb_true_iff in T2. destruct T2 as [A B].
  apply Z.eqb_eq in A. apply Z.eqb_eq in B. split; assumption.
Qed.

(** The bytes of the array after a pixel store at [base + 3h] (even
    pixel [2h]) or [base + 3h + 1] (odd pixel [2h + 1]). *)
Lemma put_pixel_even m base h r g b :
  0 <= h -> 0 <= r < 16 -> 0 <= g < 16 -> 0 <= b < 16 ->
  let m' := put_pixel m base (2 * h) r g b in
  Z.land (ld8 m' (base + 3 * h)) 0xf = r
  /\ Z.shiftr (ld8 m' (base + 3 * h)) 4 = g
  /\ Z.land (ld8 m' (base + 3 * h + 1)) 0xf = b
  /\ Z.shiftr (ld8 m' (base + 3 * h + 1)) 4 = Z.shiftr (ld8 m (base + 3 * h + 1)) 4
  /\ forall a, a <> base + 3 * h -> a <> base + 3 * h + 1 -> ld8 m' a = ld8 m a.
Proof.
  intros Hh Hr Hg Hb.
  destruct (half_split (2 * h) ltac:(lia)) as (h' & p & E & Hp & Hh' & Hs & Hl).
  assert (h' = h /\ p = 0) as [-> ->] by lia.
  unfold put_pixel. rewrite Hs, Hl. cbn [Z.eqb]. cbv zeta.
  replace (base + h + 2 * h) with (base + 3 * h) by lia.
  destruct (nibbles_packed r g Hr Hg) as [N1 N2].
  split; [ | split; [ | split; [ | split]]].
  - rewrite ld8_st8_other by lia. rewrite ld8_st8_same. exact N1.
  - rewrite ld8_st8_other by lia. rewrite ld8_st8_same. exact N2.
  - rewrite ld8_st8_same. rewrite ld8_st8_other by lia.
    apply (low_nibble_stored _ b (ld8_range _ _) Hb).
  - rewrite ld8_st8_same. rewrite ld8_st8_other by lia.
    apply (low_nibble_stored _ b (ld8_range _ _) Hb).
  - intros a H1 H2. rewrite !ld8_st8_other by lia. reflexivity.
Qed.

Lemma put_pixel_odd m base h r g b :
  0 <= h -> 0 <= r < 16 -> 0 <= g < 16 -> 0 <= b < 16 ->
  let m' := put_pixel m base (2 * h + 1) r g b in
  Z.shiftr (ld8 m' (base + 3 * h + 1)) 4 = r
  /\ Z.land (ld8 m' (base + 3 * h + 2)) 0xf = g
  /\ Z.shiftr (ld8 m' (base + 3 * h + 2)) 4 = b
  /\ Z.land (ld8 m' (base + 3 * h + 1)) 0xf = Z.land (ld8 m (base + 3 * h + 1)) 0xf
  /\ forall a, a <> base + 3 * h + 1 -> a <> base + 3 * h + 2 -> ld8 m' a = ld8 m a.
Proof.
  intros Hh Hr Hg Hb.
  destruct (half_split (2 * h + 1) ltac:(lia)) as (h' & p & E & Hp & Hh' & Hs & Hl).
  assert (h' = h /\ p = 1) as [-> ->] by lia.
  unfold put_pixel. rewrite Hs, Hl. cbn [Z.eqb Pos.eqb]. cbv zeta.
  replace (base + h + (2 * h + 1)) with (base + 3 * h + 1) by lia.
  replace (base + 3 * h + 1 + 1) with (base + 3 * h + 2) by lia.
  destruct (nibbles_packed g b Hg Hb) as [N1 N2].
  split; [ | split; [ | split; [ | split]]].
  - rewrite ld8_st8_other by lia. rewrite ld8_st8_same.
    apply (high_nibble_stored _ r (ld8_range _ _) Hr).
  - rewrite ld8_st8_same. exact N1.
  - rewrite ld8_st8_same. exact N2.
  - rewrite ld8_st8_other by lia. rewrite ld8_st8_same.
    apply (high_nibble_stored _ r (ld8_range _ _) Hr).
  - intros a H1 H2. rewrite !ld8_st8_other by lia. reflexivity.
Qed.

(** The pixel read at index [2h] or [2h + 1] of the array at [base]. *)
Lemma get_data_even m h :
  0 <= 2 * h <= 43690 ->
  divoom_multipic_get_data m (2 * h) =
    (Z.land (ld8 m (3 * h)) 0xf, Z.shiftr (ld8 m (3 * h)) 4, Z.land (ld8 m (3 * h + 1)) 0xf).
Proof.
  intros Hh.
  destruct (half_split (2 * h) ltac:(lia)) as (h' & p & E & Hp & Hh' & Hs & Hl).
  assert (h' = h /\ p = 0) as [-> ->] by lia.
  unfold divoom_multipic_get_data. rewrite get_data_offset by lia. rewrite Hs, Hl.
  cbn [Z.eqb]. replace (h + 2 * h) with (3 * h) by lia. reflexivity.
Qed.

Lemma get_data_odd m h :
  0 <= 2 * h + 1 <= 43690 ->
  divoom_multipic_get_data m (2 * h + 1) =
    (Z.shiftr (ld8 m (3 * h + 1)) 4, Z.land (ld8 m (3 * h + 2)) 0xf,
     Z.shiftr (ld8 m (3 * h + 2)) 4).
Proof.
  intros Hh.
  destruct (half_split (2 * h + 1) ltac:(lia)) as (h' & p & E & Hp & Hh' & Hs & Hl).
  assert (h' = h /\ p = 1) as [-> ->] by lia.
  unfold divoom_multipic_get_data. rewrite get_data_offset by lia. rewrite Hs, Hl.
  cbn [Z.eqb Pos.eqb].
  replace (h + (2 * h + 1)) with (3 * h + 1) by lia.
  replace (3 * h + 1 + 1) with (3 * h + 2) by lia. reflexivity.
Qed.

(** A pixel store seen through the pixel read. *)
Lemma get_data_put_pixel m i j r g b :
  0 <= i <= 43690 -> 0 <= j <= 43690 ->
  0 <= r < 16 -> 0 <= g < 16 -> 0 <= b < 16 ->
  divoom_multipic_get_data (put_pixel m 0 i r g b) j =
    if j =? i then (r, g, b) else divoom_multipic_get_data m j.
Proof.
  intros Hi Hj Hr Hg Hb.
  destruct (half_split i ltac:(lia)) as (hi & pi & Ei & Hpi & Hhi & _ & _).
  destruct (half_split j ltac:(lia)) as (hj & pj & Ej & Hpj & Hhj & _ & _).
  destruct Hpi as [-> | ->]; destruct Hpj as [-> | ->];
    subst i j; rewrite ?Z.add_0_r in *.
  - (* even, even *)
    destruct (put_pixel_even m 0 hi r g b Hhi Hr Hg Hb) as (A & B & C & D & O).
    cbv zeta in *. rewrite !Z.add_0_l in *.
    rewrite !get_data_even by lia.
    destruct (2 * hj =? 2 * hi) eqn:E.
    + apply Z.eqb_eq in E. assert (hj = hi) as E' by lia. subst hj. rewrite A, B, C. reflexivity.
    + apply Z.eqb_neq in E. rewrite !O by lia. reflexivity.
  - (* store even, read odd *)
    destruct (put_pixel_even m 0 hi r g b Hhi Hr Hg Hb) as (A & B & C & D & O).
    cbv zeta in *. rewrite !Z.add_0_l in *.
    rewrite !get_data_odd by lia.
    replace (2 * hj + 1 =? 2 * hi) with false by (symmetry; apply Z.eqb_neq; lia).
    destruct (Z.eq_dec hj hi) as [E | Hne]; [subst hj | ].
    + rewrite D. rewrite !(O (3 * hi + 2)) by lia. reflexivity.
    + rewrite !O by lia. reflexivity.
  - (* store odd, read even *)
    destruct (put_pixel_odd m 0 hi r g b Hhi Hr Hg Hb) as (A & B & C & D & O).
    cbv zeta in *. rewrite !Z.add_0_l in *.
    rewrite !get_data_even by lia.
    replace (2 * hj =? 2 * hi + 1) with false by (symmetry; apply Z.eqb_neq; lia).
    destruct (Z.eq_dec hj hi) as [E | Hne]; [subst hj | ].
    + rewrite D. rewrite !(O (3 * hi)) by lia. reflexivity.
    + rewrite !O by lia. reflexivity.
  - (* odd, odd *)
    destruct (put_pixel_odd m 0 hi r g b Hhi Hr Hg Hb) as (A & B & C & D & O).
    cbv zeta in *. rewrite !Z.add_0_l in *.
    rewrite !get_data_odd by lia.
    destruct (2 * hj + 1 =? 2 * hi + 1) eqn:E.
    + apply Z.eqb_eq in E. assert (hj = hi) as E' by lia. subst hj. rewrite A, B, C. reflexivity.
    + apply Z.eqb_neq in E. rewrite !O by lia. reflexivity.
Qed.

(** [divoom_multipic_set_data] against [divoom_multipic_get_data]: the
    pixel stored at index [i] reads back, and every other pixel reads as
    before, although neighbours share a byte. *)
Theorem multipic_data_write_read :
  forall (m : mem) (i j r g b : Z),
  0 <= i <= 43690 -> 0 <= j <= 43690 ->
  0 <= r < 16 -> 0 <= g < 16 -> 0 <= b < 16 ->
  divoom_multipic_get_data (divoom_multipic_set_data i (r, g, b) m) i = (r, g, b)
  /\ (j <> i ->
      divoom_multipic_get_data (divoom_multipic_set_data i (r, g, b) m) j
        = divoom_multipic_get_data m j).
Proof.
  intros m i j r g b Hi Hj Hr Hg Hb.
  unfold divoom_multipic_set_data.
  assert (Hm : Z.land i 0xffff = i).
  { rewrite land_ffff. apply u16_small. lia. }
  rewrite Hm. split.
  - rewrite get_data_put_pixel by lia. rewrite Z.eqb_refl. reflexivity.
  - intros Hne. rewrite get_data_put_pixel by lia.
    replace (j =? i) with false by (symmetry; apply Z.eqb_neq; lia). reflexivity.
Qed.

Lemma multipic_data_write_read_witness :
  divoom_multipic_get_data (divoom_multipic_set_data 3 (1, 2, 3) two_colour_image) 3
    = (1, 2, 3)
  /\ divoom_multipic_get_data (divoom_multipic_set_data 3 (1, 2, 3) two_colour_image) 2
    = (9, 8, 7).
Proof.
  destruct (multipic_data_write_read two_colour_image 3 2 1 2 3
              ltac:(lia) ltac:(lia) ltac:(lia) ltac:(lia) ltac:(lia)) as [H1 H2].
  split; [exact H1 | ]. rewrite H2 by lia. reflexivity.
Defined.

(** ** [divoom_pic_decode]: the modes with one index per pixel *)

Lemma low_nibble_range x : 0 <= Z.land x 0xf < 16.
Proof.
  change 15 with (Z.ones 4). rewrite Z.land_ones by lia.
  change (2 ^ 4) with 16. apply Z.mod_pos_bound. lia.
Qed.

Lemma high_nibble_range m k : 0 <= Z.shiftr (ld8 m k) 4 < 16.
Proof.
  pose proof (ld8_range m k). rewrite Z.shiftr_div_pow2 by lia. change (2 ^ 4) with 16.
  split; [apply Z.div_pos; lia | apply Z.div_lt_upper_bound; lia].
Qed.

Lemma get_data_nibbles m k :
  let '(r, g, b) := divoom_multipic_get_data m k in
  0 <= r < 16 /\ 0 <= g < 16 /\ 0 <= b < 16.
Proof.
  unfold divoom_multipic_get_data.
  destruct (Z.land k 1 =? 0);
    repeat split; try apply low_nibble_range; try apply high_nibble_range.
Qed.

(** The palette unpacked into the local array: entry [k] holds the three
    nibbles of packed entry [k] of the data, one per byte. *)
Lemma unpack_palette_spec n : forall enc pb k0,
  0 <= k0 -> 3 * (k0 + Z.of_nat n) <= 368 ->
  exists pb',
    unpack_palette n enc pb k0 = Some pb'
    /\ forall k c, 0 <= c < 3 ->
         ld8 pb' (3 * k + c) =
           if (k0 <=? k) && (k <? k0 + Z.of_nat n)
           then let '(r, g, b) := divoom_multipic_get_data (shift enc 2) k in
                if c =? 0 then r else if c =? 1 then g else b
           else ld8 pb (3 * k + c).
Proof.
  induction n as [|n IH]; intros enc pb k0 Hk0 Hmax.
  - exists pb. split; [reflexivity | ]. intros k c Hc.
    replace ((k0 <=? k) && (k <? k0 + Z.of_nat 0)) with false; [reflexivity | ].
    symmetry. apply andb_false_iff.
    destruct (Z_le_gt_dec k0 k); [right; apply Z.ltb_ge | left; apply Z.leb_gt]; lia.
  - cbn [unpack_palette]. cbv zeta.
    replace (368 <? 3 * k0 + 3) with false by (symmetry; apply Z.ltb_ge; lia).
    set (entry := if Z.land k0 1 =? 0 then _ else _).
    assert (He : entry = divoom_multipic_get_data (shift enc 2) k0).
    { unfold entry, divoom_multipic_get_data, ld8, shift.
      rewrite !(Z.add_comm 2).
      replace (Z.land (u32 (k0 + Z.shiftr (Z.land k0 65534) 1)) 65535 + 1 + 2)
        with (Z.land (u32 (k0 + Z.shiftr (Z.land k0 65534) 1)) 65535 + 3) by lia.
      reflexivity. }
    pose proof (get_data_nibbles (shift enc 2) k0) as Hn.
    rewrite He. destruct (divoom_multipic_get_data (shift enc 2) k0) as [[r g] b] eqn:Eg.
    destruct Hn as (Hr & Hg & Hb).
    destruct (IH enc (st8 (st8 (st8 pb (3 * k0) r) (3 * k0 + 1) g) (3 * k0 + 2) b) (k0 + 1))
      as (pb' & Hrun & Hspec); [lia | lia | ].
    exists pb'. split; [exact Hrun | ]. intros k c Hc.
    rewrite Hspec by exact Hc.
    destruct (Z.eq_dec k k0) as [-> | Hne].
    + replace ((k0 + 1 <=? k0) && (k0 <? k0 + 1 + Z.of_nat n)) with false
        by (symmetry; apply andb_false_iff; left; apply Z.leb_gt; lia).
      replace ((k0 <=? k0) && (k0 <? k0 + Z.of_nat (S n))) with true
        by (symmetry; apply andb_true_iff; split; [apply Z.leb_le | apply Z.ltb_lt]; lia).
      rewrite Eg.
      assert (c = 0 \/ c = 1 \/ c = 2) as [-> | [-> | ->]] by lia; cbn [Z.eqb Pos.eqb].
      * rewrite Z.add_0_r. rewrite !ld8_st8_other by lia.
        rewrite ld8_st8_same. apply u8_small. lia.
      * rewrite ld8_st8_other by lia. rewrite ld8_st8_same. apply u8_small. lia.
      * rewrite ld8_st8_same. apply u8_small. lia.
    + rewrite !ld8_st8_other by lia.
      destruct ((k0 + 1 <=? k) && (k <? k0 + 1 + Z.of_nat n)) eqn:E.
      * apply andb_true_iff in E. destruct E as [Ea Eb].
        apply Z.leb_le in Ea. apply Z.ltb_lt in Eb.
        replace ((k0 <=? k) && (k <? k0 + Z.of_nat (S n))) with true
          by (symmetry; apply andb_true_iff; split; [apply Z.leb_le | apply Z.ltb_lt]; lia).
        reflexivity.
      * apply andb_false_iff in E.
        replace ((k0 <=? k) && (k <? k0 + Z.of_nat (S n))) with false; [reflexivity | ].
        symmetry. apply andb_false_iff.
        destruct E as [Ea | Eb]; [apply Z.leb_gt in Ea | apply Z.ltb_ge in Eb].
        -- left. apply Z.leb_gt. lia.
        -- right. apply Z.ltb_ge. lia.
Qed.

(** The unpacking loop leaves the array when it is asked for more
    entries than the array holds. *)
Lemma unpack_palette_overrun n : forall enc pb k0,
  3 * k0 <= 368 -> 368 < 3 * (k0 + Z.of_nat n) ->
  unpack_palette n enc pb k0 = None.
Proof.
  induction n as [|n IH]; intros enc pb k0 Hk0 Hmax.
  - exfalso. change (Z.of_nat 0) with 0 in Hmax. lia.
  - cbn [unpack_palette]. cbv zeta.
    destruct (368 <? 3 * k0 + 3) eqn:E; [reflexivity | ].
    apply Z.ltb_ge in E.
    destruct (if Z.land k0 1 =? 0 then _ else _) as [[r g] b].
    apply IH; lia.
Qed.

(** The entries [divoom_pic_decode] unpacks, for a palette size the
    local array holds. *)
Lemma unpacked_palette enc pb0 n :
  0 <= n <= 122 ->
  exists pb,
    (if n =? 0 then Some pb0 else unpack_palette (Z.to_nat n) enc pb0 0) = Some pb
    /\ forall k, 0 <= k < n ->
         (ld8 pb (k * 3), ld8 pb (k * 3 + 1), ld8 pb (k * 3 + 2))
           = divoom_multipic_get_data (shift enc 2) k
         /\ forall c, 0 <= c < 3 -> 0 <= ld8 pb (k * 3 + c) < 16.
Proof.
  intros Hn.
  destruct (unpack_palette_spec (Z.to_nat n) enc pb0 0 ltac:(lia)
              ltac:(rewrite Z2Nat.id by lia; lia)) as (pb & Hrun & Hspec).
  exists pb. split.
  - destruct (n =? 0) eqn:E; [ | exact Hrun].
    apply Z.eqb_eq in E. subst n. cbn in Hrun. exact Hrun.
  - intros k Hk.
    assert (Hpb : forall c, 0 <= c < 3 ->
              ld8 pb (3 * k + c) =
                let '(r, g, b) := divoom_multipic_get_data (shift enc 2) k in
                if c =? 0 then r else if c =? 1 then g else b).
    { intros c Hc. rewrite Hspec by exact Hc.
      rewrite Z2Nat.id by lia.
      replace ((0 <=? k) && (k <? 0 + n)) with true
        by (symmetry; apply andb_true_iff; split; [apply Z.leb_le | apply Z.ltb_lt]; lia).
      reflexivity. }
    pose proof (get_data_nibbles (shift enc 2) k) as Hnib.
    split.
    + replace (k * 3) with (3 * k) by lia.
      pose proof (Hpb 0 ltac:(lia)) as H0. pose proof (Hpb 1 ltac:(lia)) as H1.
      pose proof (Hpb 2 ltac:(lia)) as H2. rewrite Z.add_0_r in H0.
      rewrite H0, H1, H2.
      destruct (divoom_multipic_get_data (shift enc 2) k) as [[r g] b]. reflexivity.
    + intros c Hc. replace (k * 3) with (3 * k) by lia. rewrite (Hpb c Hc).
      destruct (divoom_multipic_get_data (shift enc 2) k) as [[r g] b].
      destruct (c =? 0); [lia | ]. destruct (c =? 1); lia.
Qed.

(** The pixel loop of the per-pixel modes: pixel [q] of the output is
    the palette entry picked for it. *)
Lemma decode_each_spec n : forall pick pb out p0 q,
  0 <= p0 -> p0 + Z.of_nat n <= 43690 -> 0 <= q <= 43690 ->
  (forall p c, p0 <= p < p0 + Z.of_nat n -> 0 <= c < 3 -> 0 <= ld8 pb (pick p + c) < 16) ->
  divoom_multipic_get_data (decode_each n pick pb out p0) q =
    if (p0 <=? q) && (q <? p0 + Z.of_nat n)
    then (ld8 pb (pick q), ld8 pb (pick q + 1), ld8 pb (pick q + 2))
    else divoom_multipic_get_data out q.
Proof.
  induction n as [|n IH]; intros pick pb out p0 q Hp0 Hmax Hq Hnib.
  - cbn [decode_each].
    replace ((p0 <=? q) && (q <? p0 + Z.of_nat 0)) with false; [reflexivity | ].
    symmetry. apply andb_false_iff.
    destruct (Z_le_gt_dec p0 q); [right; apply Z.ltb_ge | left; apply Z.leb_gt]; lia.
  - cbn [decode_each].
    rewrite IH; try lia.
    2:{ intros p c Hp Hc. apply Hnib; lia. }
    unfold paint.
    pose proof (Hnib p0 0 ltac:(lia) ltac:(lia)) as H0. rewrite Z.add_0_r in H0.
    pose proof (Hnib p0 1 ltac:(lia) ltac:(lia)) as H1.
    pose proof (Hnib p0 2 ltac:(lia) ltac:(lia)) as H2.
    rewrite get_data_put_pixel by lia.
    destruct (q =? p0) eqn:E.
    + apply Z.eqb_eq in E. subst q.
      replace ((p0 + 1 <=? p0) && (p0 <? p0 + 1 + Z.of_nat n)) with false
        by (symmetry; apply andb_false_iff; left; apply Z.leb_gt; lia).
      replace ((p0 <=? p0) && (p0 <? p0 + Z.of_nat (S n))) with true
        by (symmetry; apply andb_true_iff; split; [apply Z.leb_le | apply Z.ltb_lt]; lia).
      reflexivity.
    + apply Z.eqb_neq in E.
      destruct ((p0 + 1 <=? q) && (q <? p0 + 1 + Z.of_nat n)) eqn:E1.
      * apply andb_true_iff in E1. destruct E1 as [Ea Eb].
        apply Z.leb_le in Ea. apply Z.ltb_lt in Eb.
        replace ((p0 <=? q) && (q <? p0 + Z.of_nat (S n))) with true
          by (symmetry; apply andb_true_iff; split; [apply Z.leb_le | apply Z.ltb_lt]; lia).
        reflexivity.
      * apply andb_false_iff in E1.
        replace ((p0 <=? q) && (q <? p0 + Z.of_nat (S n))) with false; [reflexivity | ].
        symmetry. apply andb_false_iff.
        destruct E1 as [Ea | Eb]; [apply Z.leb_gt in Ea | apply Z.ltb_ge in Eb].
        -- left. apply Z.leb_gt. lia.
        -- right. apply Z.ltb_ge. lia.
Qed.

(** A palette size above 122 in byte 1 makes the unpacking loop of
    [divoom_pic_decode] store past its 368-byte local array, whatever the
    mode. *)
Lemma pic_decode_palette_overrun fuel paletteBuffer0 outputBuffer encodedData :
  122 < ld8 encodedData 1 ->
  divoom_pic_decode fuel paletteBuffer0 outputBuffer encodedData = Undefined.
Proof.
  intros H. unfold divoom_pic_decode. cbv zeta.
  replace (ld8 encodedData 1 =? 0) with false by (symmetry; apply Z.eqb_neq; lia).
  rewrite unpack_palette_overrun by (rewrite ?Z2Nat.id by lia; lia).
  reflexivity.
Qed.

(** [divoom_pic_decode] in the modes that store one index per pixel (1,
    4, 5, and 3 or any other mode byte but 0 and 2): when the palette
    size in byte 1 is at most 122, the number of entries the 368-byte
    local palette array holds, and every index is below the palette
    size, pixel [p] of the output is entry [pic_index p] of the packed
    palette that follows the two header bytes, and the output beyond the
    121 pixels is left as it was.  With a palette size above 122 the
    unpacking loop stores past the local array and the run is
    undefined. *)
Theorem pic_decode_per_pixel :
  forall (fuel : nat) (paletteBuffer0 outputBuffer encodedData : mem),
  (122 < ld8 encodedData 1 ->
   divoom_pic_decode fuel paletteBuffer0 outputBuffer encodedData = Undefined)
  /\ (ld8 encodedData 1 <= 122 ->
      ld8 encodedData 0 <> 0 -> ld8 encodedData 0 <> 2 ->
      (forall p, 0 <= p < 121 -> 0 <= pic_index encodedData p < ld8 encodedData 1) ->
      exists out,
        divoom_pic_decode fuel paletteBuffer0 outputBuffer encodedData = Ret out
        /\ (forall p, 0 <= p < 121 ->
              divoom_multipic_get_data out p
                = divoom_multipic_get_data (shift encodedData 2) (pic_index encodedData p))
        /\ (forall q, 121 <= q <= 43690 ->
              divoom_multipic_get_data out q = divoom_multipic_get_data outputBuffer q)).
Proof.
  intros fuel pb0 out0 enc.
  split; [apply pic_decode_palette_overrun | ].
  intros Hfit Hm0 Hm2 Hidx.
  pose proof (ld8_range enc 1) as Hcount.
  assert (Hpos : ld8 enc 1 <> 0).
  { intros E. specialize (Hidx 0 ltac:(lia)). lia. }
  destruct (unpacked_palette enc pb0 (ld8 enc 1) ltac:(lia)) as (pb & Hunpack & Hpal).
  unfold divoom_pic_decode. cbv zeta. rewrite Hunpack.
  replace (ld8 enc 0 =? 0) with false by (symmetry; apply Z.eqb_neq; lia).
  replace (ld8 enc 0 =? 2) with false by (symmetry; apply Z.eqb_neq; lia).
  assert (Hentry : forall k, 0 <= k < ld8 enc 1 ->
            (ld8 pb (k * 3), ld8 pb (k * 3 + 1), ld8 pb (k * 3 + 2))
              = divoom_multipic_get_data (shift enc 2) k).
  { intros k Hk. apply (Hpal k Hk). }
  assert (Hnib : forall k c, 0 <= k < ld8 enc 1 -> 0 <= c < 3 ->
            0 <= ld8 pb (k * 3 + c) < 16).
  { intros k c Hk Hc. apply (Hpal k Hk). exact Hc. }
  (* every mode paints pixel p from entry [pic_index p] *)
  assert (Hall : forall pick,
            (forall p, 0 <= p < 121 -> pick p = pic_index enc p * 3) ->
            (forall p, 0 <= p < 121 ->
               divoom_multipic_get_data (decode_each (Z.to_nat 121) pick pb out0 0) p
                 = divoom_multipic_get_data (shift enc 2) (pic_index enc p))
            /\ (forall q, 121 <= q <= 43690 ->
               divoom_multipic_get_data (decode_each (Z.to_nat 121) pick pb out0 0) q
                 = divoom_multipic_get_data out0 q)).
  { intros pick Hpick.
    assert (Hn : forall p c, 0 <= p < 0 + Z.of_nat (Z.to_nat 121) -> 0 <= c < 3 ->
              0 <= ld8 pb (pick p + c) < 16).
    { intros p c Hp Hc. rewrite Z2Nat.id in Hp by lia.
      rewrite Hpick by lia. apply Hnib; [apply Hidx | ]; lia. }
    split.
    - intros p Hp. rewrite decode_each_spec; try (rewrite ?Z2Nat.id; lia); [ | exact Hn].
      rewrite Z2Nat.id by lia.
      replace ((0 <=? p) && (p <? 0 + 121)) with true
        by (symmetry; apply andb_true_iff; split; [apply Z.leb_le | apply Z.ltb_lt]; lia).
      rewrite Hpick by lia. apply Hentry, Hidx. lia.
    - intros q Hq. rewrite decode_each_spec; try (rewrite ?Z2Nat.id; lia); [ | exact Hn].
      rewrite Z2Nat.id by lia.
      replace ((0 <=? q) && (q <? 0 + 121)) with false; [reflexivity | ].
      symmetry. apply andb_false_iff. right. apply Z.ltb_ge. lia. }
  destruct (ld8 enc 0 =? 1) eqn:E1; [ | destruct (ld8 enc 0 =? 4) eqn:E4;
                                        [ | destruct (ld8 enc 0 =? 5) eqn:E5]].
  - eexists. split; [reflexivity | ]. apply Hall.
    intros p Hp. unfold pic_index. rewrite E1.
    destruct (Z.land p 1 =? 0); reflexivity.
  - eexists. split; [reflexivity | ]. apply Hall.
    intros p Hp. unfold pic_index. rewrite E1, E4. reflexivity.
  - eexists. split; [reflexivity | ]. apply Hall.
    intros p Hp. unfold pic_index. rewrite E1, E4, E5. cbv zeta.
    rewrite land_shiftr_1 by (destruct (pos_split p); lia).
    destruct (Z.testbit _ _); reflexivity.
  - eexists. split; [reflexivity | ]. apply Hall.
    intros p Hp. unfold pic_index. rewrite E1, E4, E5. reflexivity.
Qed.

Lemma pic_decode_per_pixel_witness :
  divoom_pic_decode 0 zeros zeros (of_list [4; 123]) = Undefined
  /\ exists out,
    divoom_pic_decode 0 zeros zeros flat_mode4 = Ret out
    /\ divoom_multipic_get_data out 120 = (5, 6, 7).
Proof.
  split.
  { apply (pic_decode_per_pixel 0 zeros zeros (of_list [4; 123])). vm_compute. reflexivity. }
  destruct (pic_decode_per_pixel 0 zeros zeros flat_mode4) as [_ H].
  destruct H as (out & Hout & Hpix & _).
  { vm_compute. discriminate. }
  { discriminate. }
  { discriminate. }
  { intros p Hp. vm_compute. split; [discriminate | reflexivity]. }
  exists out. split; [exact Hout | ].
  rewrite (Hpix 120) by lia. reflexivity.
Defined.

(** ** Enlarging in place *)

Lemma ld16_bytes m k :
  u8 (ld16 m k) = ld8 m k /\ u8 (Z.shiftr (ld16 m k) 8) = ld8 m (k + 1).
Proof.
  pose proof (ld8_range m k) as H0. pose proof (ld8_range m (k + 1)) as H1.
  unfold ld16, u8.
  replace (ld8 m k + 256 * ld8 m (k + 1)) with (ld8 m k + ld8 m (k + 1) * 256) by lia.
  split.
  - rewrite Z.mod_add by lia. apply Z.mod_small. lia.
  - rewrite Z.shiftr_div_pow2 by lia. change (2 ^ 8) with 256.
    rewrite Z.div_add by lia.
    rewrite Z.div_small by lia. apply Z.mod_small. lia.
Qed.

(** The three bytes at [destPixel] become those at [sourcePixel]. *)
Lemma copy_pixel_spec m src dst a :
  ld8 (copy_pixel m src dst) a =
    if (dst <=? a) && (a <? dst + 3) then ld8 m (src + (a - dst)) else ld8 m a.
Proof.
  unfold copy_pixel. cbv zeta.
  destruct (ld16_bytes m (src + 1)) as [Hlo Hhi].
  destruct ((dst <=? a) && (a <? dst + 3)) eqn:E.
  - apply andb_true_iff in E. destruct E as [Ea Eb].
    apply Z.leb_le in Ea. apply Z.ltb_lt in Eb.
    assert (a = dst \/ a = dst + 1 \/ a = dst + 2) as [-> | [-> | ->]] by lia.
    + rewrite !ld8_st8_other by lia. rewrite ld8_st8_same, u8_ld8. f_equal. lia.
    + rewrite ld8_st8_other by lia. rewrite ld8_st8_same, Hlo. f_equal. lia.
    + rewrite ld8_st8_same, Hhi. f_equal. lia.
  - apply andb_false_iff in E.
    assert (a < dst \/ dst + 3 <= a) as Ha
      by (destruct E as [E | E]; [apply Z.leb_gt in E | apply Z.ltb_ge in E]; lia).
    rewrite !ld8_st8_other by lia. reflexivity.
Qed.

Lemma s16_small x : 0 <= x < 32768 -> s16 x = x.
Proof.
  intros H. unfold s16. rewrite u16_small by lia.
  destruct (x <? 32768) eqn:E; [reflexivity | apply Z.ltb_ge in E; lia].
Qed.

Lemma cell_range w h r c :
  0 < w -> 0 <= r < h -> 0 <= c < w ->
  0 <= w * r + c < w * h /\ (1 <= r -> w <= w * r) /\ 0 <= w * r.
Proof. intros Hw Hr Hc. nia. Qed.

Lemma cell_unique w r c r' c' :
  0 <= c < w -> 0 <= c' < w -> w * r + c = w * r' + c' -> r = r' /\ c = c'.
Proof.
  intros Hc Hc' E.
  assert (r = r').
  { rewrite (Z.div_unique (w * r + c) w r c) by lia.
    rewrite (Z.div_unique (w * r + c) w r' c') by lia. reflexivity. }
  subst r'. lia.
Qed.

Section EnlargeInPlace.
Variable sourceIndex : Z -> Z -> Z.
Variable destOffset : Z -> Z.
Variable destPrev : Z -> Z.
(** [width] columns and [height] rows of destination pixels; pixel
    [(row, column)] comes from pixel [from row column] of the original. *)
Variables width height : Z.
Variable from : Z -> Z -> Z.
Hypothesis width_pos : 0 < width <= 65536.
Hypothesis height_pos : 0 < height <= 32768.
Hypothesis dest_ok : forall d, 0 <= d < width * height -> destOffset d = 3 * d.
Hypothesis prev_ok : forall d, 1 <= d < width * height -> destPrev d = d - 1.
Hypothesis source_ok : forall row column,
  0 <= row < height -> 0 <= column < width ->
  Z.land (sourceIndex row column) 0xffff + u16 (sourceIndex row column) * 2
    = 3 * from row column
  /\ 0 <= from row column <= width * row + column.

Lemma enlarge_columns_spec m0 row :
  0 <= row < height ->
  forall fuel column m,
    0 <= column < width -> (Z.to_nat column < fuel)%nat ->
    enlarged from width height m0 m (width * row + column) ->
    exists m' d',
      enlarge_columns sourceIndex destOffset destPrev fuel m row column
        (width * row + column) = Ret (m', d')
      /\ enlarged from width height m0 m' (width * row - 1)
      /\ (1 <= row -> d' = width * row - 1).
Proof.
  intros Hrow.
  induction fuel as [|fuel IH]; intros column m Hcol Hfuel [Hdone Hrest]; [lia | ].
  cbn [enlarge_columns]. cbv zeta.
  assert (Hc16 : Z.land column 0xffff = column) by (rewrite land_ffff; apply u16_small; lia).
  rewrite Hc16.
  destruct (cell_range width height row column ltac:(lia) Hrow Hcol) as (Hd & Hrow1 & Hrow0).
  destruct (source_ok row column Hrow Hcol) as [Hsrc Hfrom].
  rewrite Hsrc, (dest_ok _ Hd).
  set (m1 := copy_pixel m _ _).
  assert (W1 : enlarged from width height m0 m1 (width * row + column - 1)).
  { split.
    - intros r c k Hr Hc Hk Hlt. unfold m1. rewrite copy_pixel_spec.
      destruct (Z.eq_dec (width * r + c) (width * row + column)) as [E | E].
      + replace ((3 * (width * row + column) <=? 3 * (width * r + c) + k)
                 && (3 * (width * r + c) + k <? 3 * (width * row + column) + 3)) with true
          by (symmetry; apply andb_true_iff; split; [apply Z.leb_le | apply Z.ltb_lt]; lia).
        destruct (cell_unique width r c row column Hc Hcol E) as [-> ->].
        rewrite Hrest by (left; lia). f_equal. lia.
      + replace ((3 * (width * row + column) <=? 3 * (width * r + c) + k)
                 && (3 * (width * r + c) + k <? 3 * (width * row + column) + 3)) with false
          by (symmetry; apply andb_false_iff; right; apply Z.ltb_ge; lia).
        apply Hdone; lia.
    - intros a Ha. unfold m1. rewrite copy_pixel_spec.
      replace ((3 * (width * row + column) <=? a)
               && (a <? 3 * (width * row + column) + 3)) with false.
      + apply Hrest. lia.
      + symmetry. apply andb_false_iff.
        destruct Ha as [Ha | Ha]; [left; apply Z.leb_gt | right; apply Z.ltb_ge]; lia. }
  destruct (column =? 0) eqn:E0; cbn [negb].
  - apply Z.eqb_eq in E0. subst column. exists m1, (destPrev (width * row + 0)).
    split; [reflexivity | ]. split.
    + replace (width * row - 1) with (width * row + 0 - 1) by lia. exact W1.
    + intros Hr. specialize (Hrow1 Hr). rewrite prev_ok by lia. lia.
  - apply Z.eqb_neq in E0.
    rewrite prev_ok by lia. rewrite (u32_small (column - 1)) by lia.
    replace (width * row + column - 1) with (width * row + (column - 1)) in * by lia.
    apply IH; [lia | lia | exact W1].
Qed.

Lemma enlarge_rows_spec m0 :
  forall fuel row m,
    0 <= row < height -> (Z.to_nat (row + width) < fuel)%nat ->
    enlarged from width height m0 m (width * row + (width - 1)) ->
    exists m',
      enlarge_rows sourceIndex destOffset destPrev fuel (width - 1) m row
        (width * row + (width - 1)) = Ret m'
      /\ enlarged from width height m0 m' (-1).
Proof.
  induction fuel as [|fuel IH]; intros row m Hrow Hfuel Hw; [lia | ].
  cbn [enlarge_rows].
  destruct (enlarge_columns_spec m0 row Hrow fuel (width - 1) m ltac:(lia) ltac:(lia) Hw)
    as (m1 & d1 & Hcols & Hw1 & Hd1).
  rewrite Hcols. cbv zeta.
  rewrite (s16_small row) by lia.
  destruct (0 <? row) eqn:E; [apply Z.ltb_lt in E | apply Z.ltb_ge in E].
  - rewrite Hd1 by lia. rewrite (u32_small (row - 1)) by lia.
    replace (width * row - 1) with (width * (row - 1) + (width - 1)) in * by lia.
    apply IH; [lia | lia | exact Hw1].
  - assert (row = 0) as -> by lia. exists m1. split; [reflexivity | ].
    replace (width * 0 - 1) with (-1) in Hw1 by lia. exact Hw1.
Qed.

(** Every destination pixel holds its source pixel of the original
    buffer, and the buffer outside the destination picture is untouched. *)
Lemma enlarge_in_place fuel m0 :
  (Z.to_nat (height + width) <= fuel)%nat ->
  exists m',
    enlarge_rows sourceIndex destOffset destPrev fuel (width - 1) m0 (height - 1)
      (width * height - 1) = Ret m'
    /\ (forall row column k, 0 <= row < height -> 0 <= column < width -> 0 <= k < 3 ->
          ld8 m' (3 * (width * row + column) + k) = ld8 m0 (3 * from row column + k))
    /\ (forall a, a < 0 \/ 3 * (width * height) <= a -> ld8 m' a = ld8 m0 a).
Proof.
  intros Hfuel.
  assert (W0 : enlarged from width height m0 m0 (width * (height - 1) + (width - 1))).
  { split; [ | reflexivity].
    intros r c k Hr Hc Hk Hlt. exfalso.
    destruct (cell_range width height r c ltac:(lia) Hr Hc) as (Hd & _). lia. }
  destruct (enlarge_rows_spec m0 fuel (height - 1) m0 ltac:(lia) ltac:(lia) W0)
    as (m' & Hm' & Hdone & Hrest).
  exists m'. split.
  - replace (width * height - 1) with (width * (height - 1) + (width - 1)) by lia.
    exact Hm'.
  - split.
    + intros r c k Hr Hc Hk. apply Hdone; try assumption.
      destruct (cell_range width height r c ltac:(lia) Hr Hc) as (Hd & _). lia.
    + intros a Ha. apply Hrest. lia.
Qed.
End EnlargeInPlace.

Lemma half_le x : 0 <= x -> 0 <= x / 2 /\ 2 * (x / 2) <= x.
Proof.
  intros H. split; [apply Z.div_pos; lia | apply Z.mul_div_le; lia].
Qed.

Lemma quarter_le x : 0 <= x -> 0 <= x / 4 /\ 4 * (x / 4) <= x.
Proof.
  intros H. split; [apply Z.div_pos; lia | apply Z.mul_div_le; lia].
Qed.

(** The row masks and column shifts of the three loops. *)
Lemma enlarge_indices x :
  0 <= x < 64 ->
  Z.land x 0x1ffffffe = 2 * (x / 2) /\ Z.land x 0xffffffe = 2 * (x / 2)
  /\ Z.land x 0x3ffffffc = 4 * (x / 4)
  /\ Z.shiftr x 1 = x / 2 /\ Z.shiftr x 2 = x / 4.
Proof.
  intros Hx.
  assert (T : forallb (fun x =>
                (Z.land x 0x1ffffffe =? 2 * (x / 2)) && (Z.land x 0xffffffe =? 2 * (x / 2))
                && (Z.land x 0x3ffffffc =? 4 * (x / 4))
                && (Z.shiftr x 1 =? x / 2) && (Z.shiftr x 2 =? x / 4))
              (zrange 0 64) = true) by (vm_compute; reflexivity).
  pose proof (forallb_zrange _ _ _ T x ltac:(simpl; lia)) as T1. cbv beta in T1.
  repeat (apply andb_true_iff in T1; destruct T1 as [T1 ?]).
  repeat match goal with H : (_ =? _) = true |- _ => apply Z.eqb_eq in H end.
  repeat split; assumption.
Qed.

(** [divoom_image_decode_decode_large_pic] doubles the 16x16 picture at
    the head of the buffer in place: pixel [(row, column)] of the 32x32
    result is pixel [(row / 2, column / 2)] of the original, although the
    result overwrites the original; the buffer past the 32x32 picture is
    untouched. *)
Theorem large_pic_doubles :
  forall (fuel : nat) (frameBuffer : mem),
  (64 <= fuel)%nat ->
  exists out,
    divoom_image_decode_decode_large_pic fuel frameBuffer = Ret out
    /\ (forall row column k, 0 <= row < 32 -> 0 <= column < 32 -> 0 <= k < 3 ->
          ld8 out (3 * (32 * row + column) + k)
            = ld8 frameBuffer (3 * (16 * (row / 2) + column / 2) + k))
    /\ (forall a, a < 0 \/ 3072 <= a -> ld8 out a = ld8 frameBuffer a).
Proof.
  intros fuel m Hfuel. unfold divoom_image_decode_decode_large_pic.
  apply (enlarge_in_place _ _ _ 32 32 (fun row column => 16 * (row / 2) + column / 2));
    try lia.
  - intros d Hd. rewrite land_ffff, u16_small by lia. lia.
  - intros d Hd. rewrite s32_small by lia. unfold u64. apply Z.mod_small. lia.
  - intros row column Hr Hc.
    destruct (enlarge_indices row ltac:(lia)) as (Hm & _).
    destruct (enlarge_indices column ltac:(lia)) as (_ & _ & _ & Hs & _).
    destruct (half_le row ltac:(lia)). destruct (half_le column ltac:(lia)).
    rewrite Hm, Hs. rewrite u32_small by lia. rewrite land_ffff, u16_small by lia.
    split; lia.
Qed.

Lemma large_pic_doubles_witness :
  exists out,
    divoom_image_decode_decode_large_pic 64 ramp = Ret out
    /\ ld8 out (3 * (32 * 31 + 30) + 1) = 254.
Proof.
  destruct (large_pic_doubles 64 ramp ltac:(lia)) as (out & Hout & Hpix & _).
  exists out. split; [exact Hout | ].
  rewrite (Hpix 31 30 1) by lia. reflexivity.
Defined.

(** [divoom_image_decode_decode_large_pic_64] enlarges in place to
    64x64: by four from the 16x16 picture when the format byte is 0x10,
    by two from the 32x32 picture otherwise. *)
Theorem large_pic_64_enlarges :
  forall (fuel : nat) (frameBuffer : mem) (formatByte : Z),
  (128 <= fuel)%nat ->
  exists out,
    divoom_image_decode_decode_large_pic_64 fuel frameBuffer formatByte = Ret out
    /\ (forall row column k, 0 <= row < 64 -> 0 <= column < 64 -> 0 <= k < 3 ->
          ld8 out (3 * (64 * row + column) + k)
            = ld8 frameBuffer
                (3 * (if formatByte =? 0x10
                      then 16 * (row / 4) + column / 4
                      else 32 * (row / 2) + column / 2) + k))
    /\ (forall a, a < 0 \/ 12288 <= a -> ld8 out a = ld8 frameBuffer a).
Proof.
  intros fuel m formatByte Hfuel. unfold divoom_image_decode_decode_large_pic_64.
  destruct (formatByte =? 16).
  - apply (enlarge_in_place _ _ _ 64 64 (fun row column => 16 * (row / 4) + column / 4));
      try lia.
    + intros d Hd. rewrite u16_small by lia. lia.
    + intros d Hd. apply s16_small. lia.
    + intros row column Hr Hc.
      destruct (enlarge_indices row ltac:(lia)) as (_ & _ & Hm & _).
      destruct (enlarge_indices column ltac:(lia)) as (_ & _ & _ & _ & Hs).
      destruct (quarter_le row ltac:(lia)). destruct (quarter_le column ltac:(lia)).
      rewrite Hm, Hs. rewrite u32_small by lia. rewrite land_ffff, u16_small by lia.
      split; lia.
  - apply (enlarge_in_place _ _ _ 64 64 (fun row column => 32 * (row / 2) + column / 2));
      try lia.
    + intros d Hd. rewrite u16_small by lia. lia.
    + intros d Hd. apply s16_small. lia.
    + intros row column Hr Hc.
      destruct (enlarge_indices row ltac:(lia)) as (_ & Hm & _).
      destruct (enlarge_indices column ltac:(lia)) as (_ & _ & _ & Hs & _).
      destruct (half_le row ltac:(lia)). destruct (half_le column ltac:(lia)).
      rewrite Hm, Hs. rewrite u32_small by lia. rewrite land_ffff, u16_small by lia.
      split; lia.
Qed.

Lemma large_pic_64_enlarges_witness :
  exists out,
    divoom_image_decode_decode_large_pic_64 128 ramp 0x10 = Ret out
    /\ ld8 out (3 * (64 * 63 + 62) + 2) = 255.
Proof.
  destruct (large_pic_64_enlarges 128 ramp 0x10 ltac:(lia)) as (out & Hout & Hpix & _).
  exists out. split; [exact Hout | ].
  rewrite (Hpix 63 62 2) by lia. reflexivity.
Defined.

(** ** The frame count against the iteration *)

Section FrameCount.
Variable m : mem.
Variable n : Z.
Hypothesis n_bound : n <= 2147418112.

Lemma get_pic_num_walk_iterates h :
  stream_len h = n -> input h = m ->
  (forall o, visits m o -> 0 <= o < n -> ld16 m (o + 1) <> 0) ->
  forall fuel off cnt,
    visits m off -> 0 <= off < n -> (Z.to_nat (n - off) <= fuel)%nat ->
    0 <= cnt -> cnt + (n - off) < 2147483648 ->
    exists (k : nat) (hEnd : handle),
      (1 <= k)%nat /\ Z.of_nat k <= n - off
      /\ get_pic_num_walk fuel m n off cnt = Ret (cnt + Z.of_nat k)
      /\ iterates (set_cursor h off) k hEnd
      /\ divoom_image_decode_get_pic_data (Some hEnd) = None.
Proof.
  intros Hsl Hin Hlen.
  induction fuel as [|fuel IH]; intros off cnt Hv Hoff Hfuel Hcnt Hsum; [lia | ].
  simpl.
  pose proof (Hlen off Hv Hoff) as Hnz.
  pose proof (ld16_range m (off + 1)) as Hr.
  rewrite (u32_small (ld16 m (off + 1) + off)) by lia.
  rewrite (s32_small (cnt + 1)) by lia.
  assert (Hstep : divoom_image_decode_get_pic_data (Some (set_cursor h off))
                  = Some (set_cursor h (ld16 m (off + 1) + off), off,
                          ld16 m (off + 1), ld16 m (off + 3))).
  { unfold divoom_image_decode_get_pic_data. cbn [cursor set_cursor stream_len input].
    rewrite Hsl, Hin.
    destruct (off <? n) eqn:E; [ | apply Z.ltb_ge in E; lia].
    rewrite (Z.add_comm off), u32_small by lia. reflexivity. }
  destruct (ld16 m (off + 1) + off <? n) eqn:E.
  - apply Z.ltb_lt in E.
    destruct (IH (ld16 m (off + 1) + off) (cnt + 1)) as (k & hEnd & Hk & Hkn & Hw & Hit & Hend);
      [ rewrite Z.add_comm; apply visits_next, Hv | lia | lia | lia | lia | ].
    exists (S k), hEnd.
    refine (conj _ (conj _ (conj _ (conj _ Hend)))); [lia | lia | | ].
    + rewrite Hw. f_equal. lia.
    + eapply iterates_step; [exact Hstep | exact Hit].
  - apply Z.ltb_ge in E.
    exists 1%nat, (set_cursor h (ld16 m (off + 1) + off)).
    refine (conj _ (conj _ (conj _ (conj _ _)))); [lia | lia | reflexivity | | ].
    + eapply iterates_step; [exact Hstep | constructor].
    + unfold divoom_image_decode_get_pic_data. cbn [cursor set_cursor stream_len].
      rewrite Hsl.
      destruct (ld16 m (off + 1) + off <? n) eqn:E'; [apply Z.ltb_lt in E'; lia | reflexivity].
Qed.

Lemma magic_walks_count :
  (forall o, visits m o -> 0 <= o < n -> ld8 m o = 0xAA /\ ld16 m (o + 1) <> 0) ->
  forall fuel off cnt,
    visits m off -> 0 <= off < n -> (Z.to_nat (n - off) <= fuel)%nat ->
    0 <= cnt -> cnt + (n - off) < 2147483648 ->
    exists c, cnt < c
      /\ get_pic_num_walk fuel m n off cnt = Ret c
      /\ add_data_walk fuel m n off cnt = Ret c
      /\ decode_all_count fuel m n off cnt = Ret (c, true).
Proof.
  intros Hwf.
  induction fuel as [|fuel IH]; intros off cnt Hv Hoff Hfuel Hcnt Hsum; [lia | ].
  simpl.
  destruct (Hwf off Hv Hoff) as [Hmagic Hnz]. rewrite Hmagic.
  cbn [Z.eqb Pos.eqb negb].
  pose proof (ld16_range m (off + 1)) as Hr.
  rewrite (u32_small (ld16 m (off + 1) + off)) by lia.
  rewrite (s32_small (cnt + 1)) by lia.
  rewrite (s32_small (ld16 m (off + 1) + off)) by lia.
  unfold u64. rewrite (Z.mod_small (cnt + 1)) by lia.
  rewrite (u32_small (cnt + 1)) by lia.
  destruct (ld16 m (off + 1) + off <? n) eqn:E.
  - apply Z.ltb_lt in E.
    destruct (IH (ld16 m (off + 1) + off) (cnt + 1)) as (c & Hc & H1 & H2 & H3);
      [ rewrite Z.add_comm; apply visits_next, Hv | lia | lia | lia | lia | ].
    exists c. refine (conj _ (conj H1 (conj H2 H3))). lia.
  - exists (cnt + 1). refine (conj _ (conj eq_refl (conj eq_refl eq_refl))). lia.
Qed.
End FrameCount.

(** On a stream of [n] bytes ([0 < n <= 2^31 - 2^16]) in which every
    header the walk reaches carries the magic byte and a length other
    than 0, the three counting walks agree: [divoom_image_decode_add_data]
    (no copy asked for), [divoom_image_decode_decode_get_pic_num] and the
    counting loop of [divoom_image_decode_decode_all] return the same
    number of frames, between 1 and [n]; [add_data] leaves the handle at
    cursor 0 with the stream's length, its palette untouched. *)
Theorem frame_counts_agree :
  forall (malloc : Z -> option mem) (h : handle) (inputData : mem) (n : Z),
  0 < n <= 2147418112 ->
  (forall o, visits inputData o -> 0 <= o < n ->
             ld8 inputData o = 0xAA /\ ld16 inputData (o + 1) <> 0) ->
  exists (c : Z) (h1 : handle),
    1 <= c <= n
    /\ divoom_image_decode_add_data malloc (Z.to_nat n) (Some h) inputData n 0
       = Ret (Some h1, c)
    /\ divoom_image_decode_decode_get_pic_num (Z.to_nat n) (Some inputData) n = Ret c
    /\ decode_all_count (Z.to_nat n) inputData n 0 0 = Ret (c, true)
    /\ cursor h1 = 0 /\ stream_len h1 = n /\ input h1 = inputData
    /\ palette h1 = palette h /\ palette_count h1 = palette_count h.
Proof.
  intros malloc h inputData n Hn Hwf.
  destruct (magic_walks_count inputData n ltac:(lia) Hwf (Z.to_nat n) 0 0)
    as (c & Hc & H1 & H2 & H3); [constructor | lia | lia | lia | lia | ].
  assert (Hle : c <= n).
  { destruct (get_pic_num_walk_iterates inputData n ltac:(lia)
                {| palette_count := 0; palette_capacity := 0; stream_len := n;
                   avail_len := 0; cursor := 0; input := inputData;
                   owned := None; palette := None |} eq_refl eq_refl
                (fun o Hv Ho => proj2 (Hwf o Hv Ho)) (Z.to_nat n) 0 0)
      as (k & hEnd & Hk & Hkn & Hw & _); [constructor | lia | lia | lia | lia | ].
    rewrite H1 in Hw. apply Ret_inj in Hw. lia. }
  exists c. eexists.
  refine (conj _ (conj _ (conj _ (conj H3 _)))).
  - lia.
  - unfold divoom_image_decode_add_data. cbn [Z.eqb].
    destruct (n <? 1) eqn:E; [apply Z.ltb_lt in E; lia | ].
    rewrite H2. reflexivity.
  - unfold divoom_image_decode_decode_get_pic_num.
    destruct (n =? 0) eqn:E; [apply Z.eqb_eq in E; lia | exact H1].
  - cbn [cursor stream_len input palette palette_count].
    refine (conj eq_refl (conj _ (conj eq_refl (conj eq_refl eq_refl)))).
    apply u32_small. lia.
Qed.

Lemma frame_counts_agree_witness :
  exists c h1,
    1 <= c <= 15
    /\ divoom_image_decode_add_data never_alloc (Z.to_nat 15) (Some two_frame_handle)
         (input two_frame_handle) 15 0 = Ret (Some h1, c)
    /\ divoom_image_decode_decode_get_pic_num (Z.to_nat 15)
         (Some (input two_frame_handle)) 15 = Ret c
    /\ decode_all_count (Z.to_nat 15) (input two_frame_handle) 15 0 0 = Ret (c, true)
    /\ cursor h1 = 0 /\ stream_len h1 = 15 /\ input h1 = input two_frame_handle
    /\ palette h1 = palette two_frame_handle
    /\ palette_count h1 = palette_count two_frame_handle.
Proof.
  apply (frame_counts_agree never_alloc two_frame_handle (input two_frame_handle) 15);
    [lia | ].
  intros o Hv Ho.
  destruct (two_frame_visits o Hv) as [-> | [-> | Hge]];
    [split; vm_compute; [reflexivity | discriminate]
    | split; vm_compute; [reflexivity | discriminate] | lia].
Defined.

(** The number [divoom_image_decode_decode_get_pic_num] returns is the
    number of frames the iteration yields: on a handle at cursor 0 whose
    stream of [n] bytes ([0 < n <= 2^31 - 2^16]) declares a length other
    than 0 in every header the walk reaches, it returns some [k] between
    1 and [n], exactly [k] calls of [divoom_image_decode_get_pic_data]
    succeed one after the other, and the next call returns NULL. *)
Theorem pic_num_counts_the_iteration :
  forall (h : handle) (n : Z),
  0 < n <= 2147418112 ->
  cursor h = 0 -> stream_len h = n ->
  (forall o, visits (input h) o -> 0 <= o < n -> ld16 (input h) (o + 1) <> 0) ->
  exists (k : nat) (hEnd : handle),
    (1 <= k)%nat /\ Z.of_nat k <= n
    /\ divoom_image_decode_decode_get_pic_num (Z.to_nat n) (Some (input h)) n
       = Ret (Z.of_nat k)
    /\ iterates h k hEnd
    /\ divoom_image_decode_get_pic_data (Some hEnd) = None.
Proof.
  intros h n Hn Hc Hsl Hlen.
  destruct (get_pic_num_walk_iterates (input h) n ltac:(lia) h Hsl eq_refl Hlen
              (Z.to_nat n) 0 0)
    as (k & hEnd & Hk & Hkn & Hw & Hit & Hend); [constructor | lia | lia | lia | lia | ].
  exists k, hEnd.
  refine (conj Hk (conj _ (conj _ (conj _ Hend)))).
  - lia.
  - unfold divoom_image_decode_decode_get_pic_num.
    destruct (n =? 0) eqn:E; [apply Z.eqb_eq in E; lia | exact Hw].
  - replace h with (set_cursor h 0); [exact Hit | ].
    destruct h; cbn in Hc |- *. subst. reflexivity.
Qed.

Lemma pic_num_counts_the_iteration_witness :
  exists k hEnd,
    (1 <= k)%nat /\ Z.of_nat k <= 15
    /\ divoom_image_decode_decode_get_pic_num (Z.to_nat 15)
         (Some (input two_frame_handle)) 15 = Ret (Z.of_nat k)
    /\ iterates two_frame_handle k hEnd
    /\ divoom_image_decode_get_pic_data (Some hEnd) = None.
Proof.
  apply (pic_num_counts_the_iteration two_frame_handle 15);
    [lia | reflexivity | reflexivity | ].
  intros o Hv Ho.
  destruct (two_frame_visits o Hv) as [-> | [-> | Hge]];
    [vm_compute; discriminate | vm_compute; discriminate | lia].
Defined.
(** ** Skipping frames: [divoom_image_decode_decode_pass_review] *)

Lemma review_test k :
  0 <= k < 256 ->
  (if k <? 0x11 then
     if negb (Z.land (shl32 1 (Z.land k 0x1f)) 0x6e0 =? 0) then false
     else if negb (Z.land (shl32 1 (Z.land k 0x1f)) 0x1f801 =? 0) then true
     else -1 <? s8 k
   else -1 <? s8 k)
  = (k <? 0x80) && negb (existsb (Z.eqb k) [5; 6; 7; 9; 10]).
Proof.
  intros Hk.
  assert (H : forallb (fun k =>
     Bool.eqb (if k <? 0x11 then
        if negb (Z.land (shl32 1 (Z.land k 0x1f)) 0x6e0 =? 0) then false
        else if negb (Z.land (shl32 1 (Z.land k 0x1f)) 0x1f801 =? 0) then true
        else -1 <? s8 k
      else -1 <? s8 k)
     ((k <? 0x80) && negb (existsb (Z.eqb k) [5; 6; 7; 9; 10]))) (zrange 0 256) = true)
    by (vm_compute; reflexivity).
  rewrite forallb_forall in H.
  apply Bool.eqb_prop, (H k), in_zrange. lia.
Qed.

Lemma pass_review_loop_spec h n :
  stream_len h = n -> n <= 4294901760 ->
  (forall o, passed (input h) (cursor h) o -> o < n ->
             stops_review (input h) o = false -> ld16 (input h) (o + 1) <> 0) ->
  forall fuel off,
    passed (input h) (cursor h) off -> 0 <= off < n ->
    (Z.to_nat (n - off) <= fuel)%nat ->
    exists c,
      pass_review_loop fuel (set_cursor h off) off = Ret (set_cursor h c)
      /\ off <= c
      /\ passed (input h) (cursor h) c
      /\ (c < n -> stops_review (input h) c = true).
Proof.
  intros Hsl Hn Hlen.
  induction fuel as [|fuel IH]; intros off Hp Hoff Hfuel; [lia | ].
  cbn [pass_review_loop]. cbn [input set_cursor stream_len].
  pose proof (ld16_range (input h) (off + 1)) as Hr.
  pose proof (ld8_range (input h) (off + 5)) as Hk.
  pose proof (review_test (ld8 (input h) (off + 5)) Hk) as Ht.
  rewrite (u32_small (ld16 (input h) (off + 1) + off)) by lia.
  assert (Hadv : stops_review (input h) off = false ->
    exists c,
      (if ld16 (input h) (off + 1) + off <? stream_len h
       then pass_review_loop fuel (set_cursor h (ld16 (input h) (off + 1) + off))
              (ld16 (input h) (off + 1) + off)
       else Ret (set_cursor h (ld16 (input h) (off + 1) + off)))
      = Ret (set_cursor h c)
      /\ off <= c /\ passed (input h) (cursor h) c
      /\ (c < n -> stops_review (input h) c = true)).
  { intros Hs. pose proof (Hlen off Hp (proj2 Hoff) Hs) as Hnz. rewrite Hsl.
    pose proof (passed_next _ _ _ Hp Hs) as Hp'. rewrite Z.add_comm in Hp'.
    destruct (ld16 (input h) (off + 1) + off <? n) eqn:E.
    - apply Z.ltb_lt in E.
      destruct (IH (ld16 (input h) (off + 1) + off)) as (c & H1 & H2 & H3 & H4);
        [exact Hp' | lia | lia | ].
      exists c. refine (conj H1 (conj _ (conj H3 H4))). lia.
    - apply Z.ltb_ge in E. exists (ld16 (input h) (off + 1) + off).
      refine (conj eq_refl (conj _ (conj Hp' _))); lia. }
  assert (Hstop : stops_review (input h) off = true ->
    exists c, Ret (set_cursor h off) = Ret (set_cursor h c)
      /\ off <= c /\ passed (input h) (cursor h) c
      /\ (c < n -> stops_review (input h) c = true)).
  { intros Hs. exists off. refine (conj eq_refl (conj _ (conj Hp _))); [lia | ].
    intros _. exact Hs. }
  unfold stops_review in Hadv, Hstop.
  destruct (ld8 (input h) off =? 0xAA) eqn:Em; cbn [andb] in Hadv, Hstop.
  - rewrite <- Ht in Hadv, Hstop.
    destruct (ld8 (input h) (off + 5) <? 17).
    + destruct (negb _); [apply Hadv; reflexivity | ].
      destruct (negb _); [apply Hstop; reflexivity | ].
      destruct (-1 <? _); [apply Hstop | apply Hadv]; reflexivity.
    + destruct (-1 <? _); [apply Hstop | apply Hadv]; reflexivity.
  - apply Hadv; reflexivity.
Qed.

(** [divoom_image_decode_decode_pass_review] moves the cursor, and nothing
    else, to the first frame that is not skipped: on a handle whose stream
    is at most 2^32 - 2^16 bytes long and in which every skipped frame
    declares a length other than 0, it returns with the cursor at an
    offset [c] reached by skipping frames only, and [c] is past the end of
    the stream or at a frame with the magic byte and a kind below 0x80
    other than 5, 6, 7, 9 and 10. *)
Theorem pass_review_stops :
  forall (h : handle),
  0 <= cursor h -> stream_len h <= 4294901760 ->
  (forall o, passed (input h) (cursor h) o -> o < stream_len h ->
             stops_review (input h) o = false -> ld16 (input h) (o + 1) <> 0) ->
  exists c,
    divoom_image_decode_decode_pass_review (Z.to_nat (stream_len h - cursor h)) h
      = Ret (set_cursor h c)
    /\ cursor h <= c
    /\ passed (input h) (cursor h) c
    /\ (c < stream_len h -> stops_review (input h) c = true).
Proof.
  intros h Hc Hn Hlen. unfold divoom_image_decode_decode_pass_review.
  assert (Hh : set_cursor h (cursor h) = h) by (destruct h; reflexivity).
  destruct (cursor h <? stream_len h) eqn:E.
  - apply Z.ltb_lt in E.
    destruct (pass_review_loop_spec h (stream_len h) eq_refl Hn Hlen
                (Z.to_nat (stream_len h - cursor h)) (cursor h))
      as (c & H1 & H2 & H3 & H4); [constructor | lia | lia | ].
    rewrite Hh in H1. exists c. exact (conj H1 (conj H2 (conj H3 H4))).
  - apply Z.ltb_ge in E. exists (cursor h). rewrite Hh.
    refine (conj eq_refl (conj _ (conj _ _))); [lia | constructor | lia].
Qed.

Lemma review_handle_passed o :
  passed (input review_handle) 0 o -> o = 0 \/ o = 7 \/ o = 15.
Proof.
  induction 1 as [|o Hp IH Hs]; [left; reflexivity | ].
  destruct IH as [-> | [-> | ->]].
  - right; left. reflexivity.
  - right; right. reflexivity.
  - vm_compute in Hs. discriminate Hs.
Qed.

Lemma pass_review_stops_witness :
  exists c,
    divoom_image_decode_decode_pass_review (Z.to_nat 22) review_handle
      = Ret (set_cursor review_handle c)
    /\ 0 <= c
    /\ passed (input review_handle) 0 c
    /\ (c < 22 -> stops_review (input review_handle) c = true).
Proof.
  apply (pass_review_stops review_handle); [vm_compute; discriminate | vm_compute; discriminate | ].
  intros o Hp _ _.
  destruct (review_handle_passed o Hp) as [-> | [-> | ->]]; vm_compute; discriminate.
Defined.
(** ** Bits per index on the whole 16-bit range *)

Lemma all_from_spec P n : forall lo x,
  all_from P lo n = true -> lo <= x < lo + Z.of_nat n -> P x = true.
Proof.
  induction n as [|n IH]; intros lo x H Hx; [lia | ].
  cbn [all_from] in H. apply andb_true_iff in H. destruct H as [H0 H1].
  destruct (Z.eq_dec x lo) as [-> | Hne]; [exact H0 | ].
  apply (IH (lo + 1)); [exact H1 | lia].
Qed.

Lemma get_bits_all_sizes :
  all_from (fun n => least_width n (divoom_image_get_bits n)) 1 (Z.to_nat 65535) = true.
Proof. vm_compute. reflexivity. Qed.

Lemma multipic_get_bits_all_sizes :
  all_from (fun n => divoom_multipic_get_bits n =? divoom_image_get_bits n) 1 (Z.to_nat 255)
  = true.
Proof. vm_compute. reflexivity. Qed.

(** On every palette size [n] from 1 to 65535 [divoom_image_get_bits]
    returns the least number of bits that index [n] entries: [n <= 2^b],
    and [2^w < n] for every smaller width [w]; on the byte sizes 1..255
    [divoom_multipic_get_bits] returns the same number. *)
Theorem get_bits_least_width :
  forall n, 1 <= n <= 65535 ->
  let b := divoom_image_get_bits n in
  0 <= b <= 16 /\ n <= 2 ^ b /\ (forall w, 0 <= w < b -> 2 ^ w < n)
  /\ (n <= 255 -> divoom_multipic_get_bits n = b).
Proof.
  intros n Hn b.
  pose proof (all_from_spec _ _ 1 n get_bits_all_sizes ltac:(lia)) as H.
  cbn beta in H. fold b in H. unfold least_width in H.
  apply andb_true_iff in H. destruct H as [H H2].
  apply andb_true_iff in H. destruct H as [H0 H1].
  apply Z.leb_le in H0, H1.
  assert (Hw : forall w, 0 <= w < b -> 2 ^ w < n).
  { intros w Hw. apply orb_true_iff in H2. destruct H2 as [H2 | H2].
    - apply Z.eqb_eq in H2. lia.
    - apply Z.ltb_lt in H2.
      pose proof (Z.pow_le_mono_r 2 w (b - 1) ltac:(lia) ltac:(lia)). lia. }
  refine (conj _ (conj H1 (conj Hw _))).
  - split; [exact H0 | ].
    destruct (Z_le_gt_dec b 16) as [Hle | Hgt]; [exact Hle | exfalso].
    pose proof (Hw 16 ltac:(lia)) as H16. change (2 ^ 16) with 65536 in H16. lia.
  - intros H255.
    pose proof (all_from_spec _ _ 1 n multipic_get_bits_all_sizes ltac:(lia)) as H.
    cbn beta in H. apply Z.eqb_eq in H. exact H.
Qed.

Lemma get_bits_least_width_witness :
  0 <= divoom_image_get_bits 300 <= 16 /\ 300 <= 2 ^ divoom_image_get_bits 300
  /\ (forall w, 0 <= w < divoom_image_get_bits 300 -> 2 ^ w < 300)
  /\ (300 <= 255 -> divoom_multipic_get_bits 300 = divoom_image_get_bits 300).
Proof. exact (get_bits_least_width 300 ltac:(lia)). Defined.
(** ** Palette search: [divoom_multipic_get_color_index] *)

Lemma s8_inj x y : 0 <= x < 256 -> 0 <= y < 256 -> s8 x = s8 y -> x = y.
Proof.
  intros Hx Hy. unfold s8. rewrite !u8_small by lia.
  destruct (x <? 128) eqn:Ex; destruct (y <? 128) eqn:Ey;
    [ | apply Z.ltb_lt in Ex; apply Z.ltb_ge in Ey
      | apply Z.ltb_ge in Ex; apply Z.ltb_lt in Ey | ]; lia.
Qed.

Lemma get_color_index_loop_spec pal size target :
  0 <= target < 256 ->
  forall fuel index,
    0 <= index < Z.land size 0xff -> Z.land size 0xff < 256 ->
    (Z.to_nat (Z.land size 0xff - index) <= fuel)%nat ->
    (forall j, 0 <= j < index -> ld8 pal j <> target) ->
    exists r, get_color_index_loop fuel pal size target index = Ret r
      /\ ((index <= r < Z.land size 0xff /\ ld8 pal r = target
           /\ forall j, 0 <= j < r -> ld8 pal j <> target)
          \/ (r = size /\ forall j, 0 <= j < Z.land size 0xff -> ld8 pal j <> target)).
Proof.
  intros Ht. induction fuel as [|fuel IH]; intros index Hi Hn Hfuel Hbefore; [lia | ].
  cbn [get_color_index_loop].
  pose proof (ld8_range pal index) as Hr.
  destruct (s8 (ld8 pal index) =? s8 target) eqn:E.
  - apply Z.eqb_eq in E. apply s8_inj in E; [ | lia | lia].
    exists (Z.land index 0xffffffff).
    replace (Z.land index 0xffffffff) with index.
    + split; [reflexivity | left]. repeat split; try lia; assumption.
    + change 0xffffffff with (Z.ones 32). rewrite Z.land_ones by lia.
      symmetry. apply Z.mod_small. change (2 ^ 32) with 4294967296. lia.
  - apply Z.eqb_neq in E.
    assert (Hne : ld8 pal index <> target) by (intros Heq; apply E; rewrite Heq; reflexivity).
    unfold u64. rewrite Z.mod_small by lia.
    assert (Hbefore' : forall j, 0 <= j < index + 1 -> ld8 pal j <> target).
    { intros j Hj. destruct (Z.eq_dec j index) as [-> | Hd]; [exact Hne | ].
      apply Hbefore. lia. }
    destruct (Z.land size 0xff =? index + 1) eqn:E1; cbn [negb].
    + apply Z.eqb_eq in E1. exists size. split; [reflexivity | right].
      split; [reflexivity | ]. rewrite E1. exact Hbefore'.
    + apply Z.eqb_neq in E1.
      destruct (IH (index + 1)) as (r & Hr1 & Hr2); [lia | lia | lia | exact Hbefore' | ].
      exists r. split; [exact Hr1 | ].
      destruct Hr2 as [(H1 & H2 & H3) | H1]; [left | right; exact H1].
      repeat split; try lia; assumption.
Qed.

(** [divoom_multipic_get_color_index] searches the first [paletteSize & 0xff]
    bytes of the palette: it returns the least index holding the target
    byte when there is one, and otherwise the size it was given (whole,
    not the masked one), which is no index into the palette. *)
Theorem get_color_index_first :
  forall (paletteData : mem) (paletteSize targetColor : Z),
  0 <= targetColor < 256 ->
  exists r,
    divoom_multipic_get_color_index paletteData paletteSize targetColor = Ret r
    /\ ((0 <= r < Z.land paletteSize 0xff /\ ld8 paletteData r = targetColor
         /\ forall j, 0 <= j < r -> ld8 paletteData j <> targetColor)
        \/ (r = paletteSize
            /\ forall j, 0 <= j < Z.land paletteSize 0xff -> ld8 paletteData j <> targetColor)).
Proof.
  intros pal size target Ht. unfold divoom_multipic_get_color_index.
  assert (Hm : 0 <= Z.land size 0xff < 256).
  { change 0xff with (Z.ones 8). rewrite Z.land_ones by lia.
    apply Z.mod_pos_bound. reflexivity. }
  destruct (Z.land size 0xff =? 0) eqn:E; cbn [negb].
  - apply Z.eqb_eq in E. exists size. split; [reflexivity | right].
    split; [reflexivity | ]. intros j Hj. lia.
  - apply Z.eqb_neq in E.
    destruct (get_color_index_loop_spec pal size target Ht (Z.to_nat 0x100) 0)
      as (r & H1 & H2); [lia | lia | lia | intros j Hj; lia | ].
    exists r. split; [exact H1 | ].
    destruct H2 as [(Ha & Hb & Hc) | H2]; [left | right; exact H2].
    repeat split; try lia; assumption.
Qed.

Lemma get_color_index_first_witness :
  exists r,
    divoom_multipic_get_color_index (of_list [3; 9; 4; 9]) 0x104 9 = Ret r
    /\ ((0 <= r < Z.land 0x104 0xff /\ ld8 (of_list [3; 9; 4; 9]) r = 9
         /\ forall j, 0 <= j < r -> ld8 (of_list [3; 9; 4; 9]) j <> 9)
        \/ (r = 0x104
            /\ forall j, 0 <= j < Z.land 0x104 0xff -> ld8 (of_list [3; 9; 4; 9]) j <> 9)).
Proof. apply (get_color_index_first (of_list [3; 9; 4; 9]) 0x104 9). lia. Defined.

(** ** The entries a bit map selects *)

Lemma zrange_S lo n : zrange lo (S n) = lo :: zrange (lo + 1) n.
Proof.
  unfold zrange. cbn [seq map]. rewrite Z.add_0_r. f_equal.
  rewrite <- seq_shift, map_map. apply map_ext. intros k. lia.
Qed.

Lemma zrange_bounds n : forall lo x, In x (zrange lo n) -> lo <= x < lo + Z.of_nat n.
Proof.
  induction n as [|n IH]; intros lo x H; [destruct H | ].
  rewrite zrange_S in H. destruct H as [<- | H]; [lia | ].
  apply IH in H. lia.
Qed.

Lemma length_filter_zrange f lo n : Z.of_nat (length (filter f (zrange lo n))) <= Z.of_nat n.
Proof.
  pose proof (filter_length_le f (zrange lo n)) as H.
  unfold zrange in H at 2. rewrite length_map, length_seq in H. lia.
Qed.

Section IndexFromMap.
Variable bitfieldMap : mem.
Variable entryCount : Z.
Hypothesis count_bound : 0 < entryCount < 2147483648.

(** One lemma for both loops: [entry] is what is stored for a set bit. *)
Lemma get_index_from_map_loop_spec :
  forall fuel cache pos c i,
    0 <= i < entryCount -> Z.of_nat fuel = entryCount - i ->
    0 <= c -> c + (entryCount - i) < 2147483648 ->
    let L := filter (bit_at bitfieldMap) (zrange i fuel) in
    exists cache',
      get_index_from_map_loop fuel bitfieldMap entryCount cache pos c i
        = Ret (cache', c + Z.of_nat (length L))
      /\ (forall k, (k < length L)%nat ->
                    ld8 cache' (pos + Z.of_nat k) = u8 (nth k L 0))
      /\ (forall a, a < pos \/ pos + Z.of_nat (length L) <= a -> cache' a = cache a).
Proof.
  induction fuel as [|fuel IH]; intros cache pos c i Hi Hfuel Hc Hsum L; [lia | ].
  cbn [get_index_from_map_loop].
  rewrite tested_bit by (pose proof (pos_split i); lia).
  change (Z.testbit (ld8 bitfieldMap (Z.shiftr i 3)) (Z.land i 7)) with (bit_at bitfieldMap i).
  rewrite (u32_small (i + 1)) by lia.
  subst L. rewrite zrange_S. cbn [filter].
  pose proof (length_filter_zrange (bit_at bitfieldMap) (i + 1) fuel) as Hlen.
  destruct (entryCount =? i + 1) eqn:E; cbn [negb].
  - apply Z.eqb_eq in E. assert (fuel = 0%nat) by lia. subst fuel.
    cbn [zrange seq map filter].
    destruct (bit_at bitfieldMap i).
    + rewrite s32_small by lia. cbn [length]. eexists. split; [reflexivity | split].
      * intros k Hk. assert (k = 0%nat) by lia. subst k. cbn [nth].
        rewrite Z.add_0_r. apply ld8_st8_same.
      * intros a Ha. apply st8_other. cbn [Z.of_nat] in Ha. lia.
    + cbn [length]. rewrite Z.add_0_r. eexists. split; [reflexivity | split].
      * intros k Hk. lia.
      * intros a _. reflexivity.
  - apply Z.eqb_neq in E.
    destruct (bit_at bitfieldMap i).
    + rewrite s32_small by lia.
      destruct (IH (st8 cache pos i) (pos + 1) (c + 1) (i + 1))
        as (cache' & H1 & H2 & H3); [lia | lia | lia | lia | ].
      exists cache'. cbn [length]. split; [ | split].
      * rewrite H1. do 2 f_equal. lia.
      * intros k Hk. destruct k as [|k].
        -- cbn [nth]. rewrite Z.add_0_r. unfold ld8. rewrite H3 by lia.
           apply ld8_st8_same.
        -- cbn [nth]. rewrite <- (H2 k) by lia. f_equal. lia.
      * intros a Ha. rewrite H3 by lia. apply st8_other. lia.
    + destruct (IH cache pos c (i + 1)) as (cache' & H1 & H2 & H3); [lia | lia | lia | lia | ].
      exists cache'. split; [exact H1 | split; [exact H2 | exact H3]].
Qed.

Variable paletteSource : mem.

Lemma absolute_index_from_map_loop_spec :
  forall fuel cache pos c i,
    0 <= i < entryCount -> Z.of_nat fuel = entryCount - i ->
    0 <= c -> c + (entryCount - i) < 2147483648 ->
    let L := filter (bit_at bitfieldMap) (zrange i fuel) in
    exists cache',
      absolute_index_from_map_loop fuel paletteSource bitfieldMap entryCount cache pos c i
        = Ret (cache', c + Z.of_nat (length L))
      /\ (forall k, (k < length L)%nat ->
                    ld8 cache' (pos + Z.of_nat k) = ld8 paletteSource (nth k L 0))
      /\ (forall a, a < pos \/ pos + Z.of_nat (length L) <= a -> cache' a = cache a).
Proof.
  induction fuel as [|fuel IH]; intros cache pos c i Hi Hfuel Hc Hsum L; [lia | ].
  cbn [absolute_index_from_map_loop].
  assert (Hs : Z.land (Z.shiftr i 3) 0x1fffffff = Z.shiftr i 3).
  { change 0x1fffffff with (Z.ones 29). rewrite Z.land_ones by lia.
    apply Z.mod_small. rewrite Z.shiftr_div_pow2 by lia.
    change (2 ^ 3) with 8. change (2 ^ 29) with 536870912.
    split; [apply Z.div_pos; lia | apply Z.div_lt_upper_bound; lia]. }
  rewrite Hs, (u32_small i) by lia.
  rewrite tested_bit by (pose proof (pos_split i); lia).
  change (Z.testbit (ld8 bitfieldMap (Z.shiftr i 3)) (Z.land i 7)) with (bit_at bitfieldMap i).
  unfold u64. rewrite (Z.mod_small (i + 1)) by lia.
  subst L. rewrite zrange_S. cbn [filter].
  pose proof (length_filter_zrange (bit_at bitfieldMap) (i + 1) fuel) as Hlen.
  destruct (entryCount =? i + 1) eqn:E; cbn [negb].
  - apply Z.eqb_eq in E. assert (fuel = 0%nat) by lia. subst fuel.
    cbn [zrange seq map filter].
    destruct (bit_at bitfieldMap i).
    + rewrite s32_small by lia. cbn [length]. eexists. split; [reflexivity | split].
      * intros k Hk. assert (k = 0%nat) by lia. subst k. cbn [nth].
        rewrite Z.add_0_r, ld8_st8_same. apply u8_ld8.
      * intros a Ha. apply st8_other. cbn [Z.of_nat] in Ha. lia.
    + cbn [length]. rewrite Z.add_0_r. eexists. split; [reflexivity | split].
      * intros k Hk. lia.
      * intros a _. reflexivity.
  - apply Z.eqb_neq in E.
    destruct (bit_at bitfieldMap i).
    + rewrite s32_small by lia.
      destruct (IH (st8 cache pos (ld8 paletteSource i)) (pos + 1) (c + 1) (i + 1))
        as (cache' & H1 & H2 & H3); [lia | lia | lia | lia | ].
      exists cache'. cbn [length]. split; [ | split].
      * rewrite H1. do 2 f_equal. lia.
      * intros k Hk. destruct k as [|k].
        -- cbn [nth]. rewrite Z.add_0_r. unfold ld8 at 1. rewrite H3 by lia.
           fold (ld8 (st8 cache pos (ld8 paletteSource i)) pos).
           rewrite ld8_st8_same. apply u8_ld8.
        -- cbn [nth]. rewrite <- (H2 k) by lia. f_equal. lia.
      * intros a Ha. rewrite H3 by lia. apply st8_other. lia.
    + destruct (IH cache pos c (i + 1)) as (cache' & H1 & H2 & H3); [lia | lia | lia | lia | ].
      exists cache'. split; [exact H1 | split; [exact H2 | exact H3]].
Qed.
End IndexFromMap.

(** [divoom_image_decode_decode_fix_get_index_from_map] lists the set bits
    of the map: for a count [n] below 2^31 it returns the number of set
    bits among the first [n], the cache holds their positions (as bytes)
    in ascending order, and the cache is untouched after them.
    [divoom_image_decode_decode_fix_absolute_index_from_map] returns the
    same number and stores, in the same order, the bytes of the palette
    source at those positions. *)
Theorem index_from_map_lists_set_bits :
  forall (paletteSource bitfieldMap indexCache : mem) (n : Z),
  0 <= n < 2147483648 ->
  let L := set_bits bitfieldMap (Z.to_nat n) in
  exists cache1 cache2,
    divoom_image_decode_decode_fix_get_index_from_map (Z.to_nat n) bitfieldMap n indexCache
      = Ret (cache1, Z.of_nat (length L))
    /\ divoom_image_decode_decode_fix_absolute_index_from_map (Z.to_nat n)
         paletteSource bitfieldMap n indexCache
      = Ret (cache2, Z.of_nat (length L))
    /\ Z.of_nat (length L) <= n
    /\ (forall k, (k < length L)%nat ->
          0 <= nth k L 0 < n /\ bit_at bitfieldMap (nth k L 0) = true
          /\ ld8 cache1 (Z.of_nat k) = u8 (nth k L 0)
          /\ ld8 cache2 (Z.of_nat k) = ld8 paletteSource (nth k L 0))
    /\ (forall a, a < 0 \/ Z.of_nat (length L) <= a ->
          cache1 a = indexCache a /\ cache2 a = indexCache a).
Proof.
  intros src map cache n Hn L.
  unfold divoom_image_decode_decode_fix_get_index_from_map,
         divoom_image_decode_decode_fix_absolute_index_from_map.
  rewrite s32_small by lia.
  assert (HL : Z.of_nat (length L) <= n).
  { pose proof (length_filter_zrange (bit_at map) 0 (Z.to_nat n)). unfold L, set_bits. lia. }
  assert (Hin : forall k, (k < length L)%nat ->
                 0 <= nth k L 0 < n /\ bit_at map (nth k L 0) = true).
  { intros k Hk. pose proof (nth_In L 0 Hk) as H. unfold L, set_bits in H.
    apply filter_In in H. destruct H as [H1 H2].
    apply zrange_bounds in H1. split; [unfold L, set_bits; lia | exact H2]. }
  destruct (0 <? n) eqn:E.
  - apply Z.ltb_lt in E.
    destruct (get_index_from_map_loop_spec map n ltac:(lia) (Z.to_nat n) cache 0 0 0)
      as (c1 & A1 & A2 & A3); [lia | lia | lia | lia | ].
    destruct (absolute_index_from_map_loop_spec map n ltac:(lia) src (Z.to_nat n) cache 0 0 0)
      as (c2 & B1 & B2 & B3); [lia | lia | lia | lia | ].
    exists c1, c2. fold (set_bits map (Z.to_nat n)) in A1, A2, A3, B1, B2, B3.
    fold L in A1, A2, A3, B1, B2, B3.
    refine (conj A1 (conj B1 (conj HL (conj _ _)))).
    + intros k Hk. destruct (Hin k Hk) as [H1 H2].
      refine (conj H1 (conj H2 (conj _ _))); [apply (A2 k Hk) | apply (B2 k Hk)].
    + intros a Ha. split; [apply A3 | apply B3]; lia.
  - apply Z.ltb_ge in E. assert (n = 0) by lia. subst n.
    exists cache, cache.
    refine (conj eq_refl (conj eq_refl (conj HL (conj _ _)))).
    + intros k Hk. cbn in Hk. lia.
    + intros a _. split; reflexivity.
Qed.

Lemma index_from_map_lists_set_bits_witness :
  exists cache1 cache2,
    divoom_image_decode_decode_fix_get_index_from_map (Z.to_nat 12) (of_list [0x29; 0x02])
      12 zeros
      = Ret (cache1, Z.of_nat (length (set_bits (of_list [0x29; 0x02]) (Z.to_nat 12))))
    /\ divoom_image_decode_decode_fix_absolute_index_from_map (Z.to_nat 12)
         ramp (of_list [0x29; 0x02]) 12 zeros
      = Ret (cache2, Z.of_nat (length (set_bits (of_list [0x29; 0x02]) (Z.to_nat 12)))).
Proof.
  destruct (index_from_map_lists_set_bits ramp (of_list [0x29; 0x02]) zeros 12 ltac:(lia))
    as (cache1 & cache2 & H1 & H2 & _).
  exists cache1, cache2. exact (conj H1 H2).
Defined.
(** ** Frames against the palette they carry *)








(** ** What [divoom_image_decode_decode_pic] hands back *)

Lemma same_stream_set_palette h c cap p : same_stream h (set_palette h c cap p).
Proof. repeat split. Qed.

Lemma decode_raw_outcome npix unit h f d :
  decode_raw npix unit h f = Ret d ->
  d_ret d = 1 /\ length (d_pixels d) = (3 * npix)%nat /\ same_stream h (d_handle d).
Proof.
  intros H. apply Ret_inj in H. subst d. cbn [d_ret d_pixels d_handle].
  refine (conj eq_refl (conj _ (same_stream_set_palette _ _ _ _))).
  unfold to_list. rewrite length_map, length_seq. reflexivity.
Qed.

Lemma decode_extend_outcome tbl malloc npix unit h f d :
  decode_extend tbl malloc npix unit h f = Ret d ->
  d = failed h
  \/ (d_ret d = 1 /\ length (d_pixels d) = (3 * npix)%nat /\ same_stream h (d_handle d)).
Proof.
  intros Hd. unfold decode_extend in Hd.
  destruct (palette h) as [existing|]; [ | apply Ret_inj in Hd; left; symmetry; exact Hd].
  match type of Hd with
  | match ?g with _ => _ end = _ => destruct g as [[buf capacity]|]
  end; [ | apply Ret_inj in Hd; left; symmetry; exact Hd].
  destruct (append_entries _ _ _ _ _ _) as [pal cur].
  apply Ret_inj in Hd; subst d. right. cbn [d_ret d_pixels d_handle].
  refine (conj eq_refl (conj _ (same_stream_set_palette _ _ _ _))).
  apply decode_pixels_length.
Qed.

Lemma decode_reset_outcome tbl malloc npix unit step h f alloc i d :
  decode_reset tbl malloc npix unit step h f alloc i = Ret d ->
  d_ret d = 1 /\ length (d_pixels d) = (3 * npix)%nat /\ same_stream h (d_handle d).
Proof.
  intros Hd. unfold decode_reset in Hd.
  match type of Hd with
  | match ?g with _ => _ end = _ => destruct g as [[buf capacity]|]
  end; [ | discriminate Hd].
  destruct (copy_reset _ _ _ _) as [filled|]; [ | discriminate Hd].
  destruct i as [j|]; [ | discriminate Hd].
  apply Ret_inj in Hd; subst d. cbn [d_ret d_pixels d_handle].
  refine (conj eq_refl (conj _ (same_stream_set_palette _ _ _ _))).
  apply decode_pixels_length.
Qed.

(** Each frame decoder either fails and hands the handle back as it was,
    or returns 1 with all the pixels of its size, for a kind byte its
    test lets through. *)
Lemma decode_one_outcome tbl malloc h f d :
  divoom_image_decode_decode_one tbl malloc h (Some f) = Ret d ->
  d = failed h
  \/ (d_ret d = 1 /\ length (d_pixels d) = (3 * Z.to_nat 0x100)%nat
      /\ same_stream h (d_handle d) /\ (1 <? ld8 f 5) = false /\ ld8 f 0 = 0xAA).
Proof.
  intros Hd. unfold divoom_image_decode_decode_one in Hd.
  destruct (ld8 f 0 =? 170) eqn:Emagic; cbn [negb] in Hd;
    [apply Z.eqb_eq in Emagic | apply Ret_inj in Hd; left; symmetry; exact Hd].
  destruct (1 <? ld8 f 5); [apply Ret_inj in Hd; left; symmetry; exact Hd | ].
  destruct (ld8 f 5 =? 0).
  - destruct (malloc _) as [fresh|]; [ | discriminate Hd].
    apply Ret_inj in Hd; subst d. right. cbn [d_ret d_pixels d_handle].
    refine (conj eq_refl (conj _ (conj (same_stream_set_palette _ _ _ _)
                                       (conj eq_refl Emagic)))).
    apply decode_pixels_length.
  - destruct (palette h) as [existing|]; [ | apply Ret_inj in Hd; left; symmetry; exact Hd].
    destruct (palette_capacity h <? palette_count h + ld8 f 6);
      [apply Ret_inj in Hd; left; symmetry; exact Hd | ].
    destruct (append_entries _ _ _ _ _ _) as [pal cur].
    apply Ret_inj in Hd; subst d. right. cbn [d_ret d_pixels d_handle].
    refine (conj eq_refl (conj _ (conj (same_stream_set_palette _ _ _ _)
                                       (conj eq_refl Emagic)))).
    apply decode_pixels_length.
Qed.

Ltac sub_decoder Hd Emagic :=
  let H0 := fresh "Hfail" in
  let H1 := fresh "Hret" in
  let H2 := fresh "Hlen" in
  let H3 := fresh "Hsame" in
  first
    [ destruct (decode_raw_outcome _ _ _ _ _ Hd) as (H1 & H2 & H3)
    | destruct (decode_reset_outcome _ _ _ _ _ _ _ _ _ _ Hd) as (H1 & H2 & H3)
    | destruct (decode_extend_outcome _ _ _ _ _ _ _ Hd) as [H0 | (H1 & H2 & H3)];
      [left; exact H0 | ] ];
  right; refine (conj H1 (conj H2 (conj H3 (conj eq_refl Emagic)))).

Lemma decode_one_big_outcome tbl malloc h f d :
  divoom_image_decode_decode_one_big tbl malloc h (Some f) = Ret d ->
  d = failed h
  \/ (d_ret d = 1 /\ length (d_pixels d) = (3 * Z.to_nat 0x400)%nat
      /\ same_stream h (d_handle d)
      /\ negb (Z.land (ld8 f 5) 0x7e =? 2) && negb (Z.land (ld8 f 5) 0x7f =? 4) = false
      /\ ld8 f 0 = 0xAA).
Proof.
  intros Hd. unfold divoom_image_decode_decode_one_big in Hd.
  destruct (ld8 f 0 =? 170) eqn:Emagic; cbn [negb] in Hd;
    [apply Z.eqb_eq in Emagic | apply Ret_inj in Hd; left; symmetry; exact Hd].
  destruct (negb (Z.land (ld8 f 5) 0x7e =? 2) && negb (Z.land (ld8 f 5) 0x7f =? 4));
    [apply Ret_inj in Hd; left; symmetry; exact Hd | ].
  destruct (Z.land (ld8 f 5) 0x7f =? 4); [sub_decoder Hd Emagic | ].
  destruct (Z.land (ld8 f 5) 0x7f =? 2); sub_decoder Hd Emagic.
Qed.

Lemma decode_one_64_outcome tbl malloc h f d :
  divoom_image_decode_decode_one_64 tbl malloc h (Some f) = Ret d ->
  d = failed h
  \/ (d_ret d = 1 /\ length (d_pixels d) = (3 * Z.to_nat 0x1000)%nat
      /\ same_stream h (d_handle d)
      /\ (u32 (Z.land (ld8 f 5) 0x7f - 0x11) <? 0xfffffffa) = false
      /\ ld8 f 0 = 0xAA).
Proof.
  intros Hd. unfold divoom_image_decode_decode_one_64 in Hd.
  destruct (ld8 f 0 =? 170) eqn:Emagic; cbn [negb] in Hd;
    [apply Z.eqb_eq in Emagic | apply Ret_inj in Hd; left; symmetry; exact Hd].
  destruct (u32 (Z.land (ld8 f 5) 0x7f - 0x11) <? 0xfffffffa);
    [apply Ret_inj in Hd; left; symmetry; exact Hd | ].
  destruct ((ld8 f 5 =? 11) || (ld8 f 5 =? 14) || (ld8 f 5 =? 139) || (ld8 f 5 =? 142));
    [sub_decoder Hd Emagic | ].
  destruct ((ld8 f 5 =? 13) || (ld8 f 5 =? 16) || (ld8 f 5 =? 141) || (ld8 f 5 =? 144));
    sub_decoder Hd Emagic.
Qed.

Lemma decode_one_128_outcome tbl malloc h f d :
  divoom_image_decode_decode_one_128 tbl malloc h (Some f) = Ret d ->
  d = failed h
  \/ (d_ret d = 1 /\ length (d_pixels d) = (3 * Z.to_nat 0x4000)%nat
      /\ same_stream h (d_handle d)
      /\ negb (Z.land (ld8 f 5) 0x7d =? 0x11) && negb (Z.land (ld8 f 5) 0x7f =? 0x14) = false
      /\ ld8 f 0 = 0xAA).
Proof.
  intros Hd. unfold divoom_image_decode_decode_one_128 in Hd.
  destruct (ld8 f 0 =? 170) eqn:Emagic; cbn [negb] in Hd;
    [apply Z.eqb_eq in Emagic | apply Ret_inj in Hd; left; symmetry; exact Hd].
  destruct (negb (Z.land (ld8 f 5) 0x7d =? 0x11) && negb (Z.land (ld8 f 5) 0x7f =? 0x14));
    [apply Ret_inj in Hd; left; symmetry; exact Hd | ].
  destruct (Z.land (ld8 f 5) 0x7f =? 0x13); [sub_decoder Hd Emagic | ].
  destruct (Z.land (ld8 f 5) 0x7f =? 0x11); sub_decoder Hd Emagic.
Qed.

Lemma set_cursor_same h : set_cursor h (cursor h) = h.
Proof. destruct h; reflexivity. Qed.

(** The result of [decode_pic] after one of the four decoders. *)
Lemma decode_pic_finish (h : handle) (size : Z) (npix : nat) (guard : bool) (magic : Prop)
    (r : run decoded) (ho : option handle) (s : Z) (px : list Z) :
  0 <= cursor h < 4294967296 ->
  (forall d, r = Ret d ->
     d = failed h
     \/ (d_ret d = 1 /\ length (d_pixels d) = (3 * npix)%nat
         /\ same_stream h (d_handle d) /\ guard = false /\ magic)) ->
  match r with
  | Ret d =>
      let stackCheck := match d_consumed d with Some c => c | None => 0 end in
      Ret (Some (set_cursor (d_handle d) (u32 (cursor (d_handle d) + stackCheck))),
           (if d_ret d =? 0 then 0 else size), d_pixels d)
  | Undefined => Undefined
  | OutOfFuel => OutOfFuel
  end = Ret (ho, s, px) ->
  exists h',
    ho = Some h'
    /\ stream_len h' = stream_len h /\ avail_len h' = avail_len h
    /\ input h' = input h /\ owned h' = owned h
    /\ ((s = 0 /\ px = [] /\ h' = h)
        \/ (s = size /\ length px = (3 * npix)%nat /\ guard = false /\ magic)).
Proof.
  intros Hc Hr H. destruct r as [d| |]; [ | discriminate H | discriminate H].
  apply Ret_inj in H.
  pose proof (f_equal (fun t => fst (fst t)) H) as Hho.
  pose proof (f_equal (fun t => snd (fst t)) H) as Hs.
  pose proof (f_equal snd H) as Hpx. cbn [fst snd] in Hho, Hs, Hpx. clear H.
  destruct (Hr d eq_refl) as [-> | (Hret & Hlen & (S1 & S2 & S3 & S4 & S5) & Hg & Hmg)].
  - cbn [failed d_handle d_consumed d_ret d_pixels Z.eqb] in Hho, Hs, Hpx.
    rewrite Z.add_0_r, u32_small, set_cursor_same in Hho by lia.
    exists h. subst ho s px. repeat split; left; repeat split.
  - eexists. split; [symmetry; exact Hho | ].
    cbn [set_cursor stream_len avail_len input owned].
    refine (conj S1 (conj S2 (conj S4 (conj S5 _)))).
    right. rewrite Hret in Hs. cbn [Z.eqb] in Hs. subst s px.
    exact (conj eq_refl (conj Hlen (conj Hg Hmg))).
Qed.

Lemma decode_pic_cases tbl malloc h ho s px :
  0 <= cursor h -> cursor h + 5 < 4294967296 ->
  divoom_image_decode_decode_pic tbl malloc (Some h) = Ret (ho, s, px) ->
  exists h',
    ho = Some h'
    /\ stream_len h' = stream_len h /\ avail_len h' = avail_len h
    /\ input h' = input h /\ owned h' = owned h
    /\ ((s = 0 /\ px = [] /\ h' = h)
        \/ (s <> 0 /\ s = accepted_size (ld8 (input h) (cursor h + 5))
            /\ Z.of_nat (length px) = 3 * s * s
            /\ ld8 (input h) (cursor h) = 0xAA)).
Proof.
  intros Hc0 Hc5 H.
  assert (Hfail : Ret (Some h, 0, @nil Z) = Ret (ho, s, px) ->
    forall Q : Prop,
    exists h',
      ho = Some h'
      /\ stream_len h' = stream_len h /\ avail_len h' = avail_len h
      /\ input h' = input h /\ owned h' = owned h
      /\ ((s = 0 /\ px = [] /\ h' = h) \/ Q)).
  { intros E Q. apply Ret_inj in E. inversion E; subst. exists h.
    repeat split; left; repeat split. }
  unfold divoom_image_decode_decode_pic in H. cbv zeta in H.
  destruct (cursor h <? stream_len h); [ | exact (Hfail H _)].
  rewrite (u32_small (cursor h + 5)) in H by lia.
  unfold accepted_size. cbv zeta.
  set (k := ld8 (input h) (cursor h + 5)) in *.
  assert (Hdone : forall size npix guard,
    (exists h',
      ho = Some h'
      /\ stream_len h' = stream_len h /\ avail_len h' = avail_len h
      /\ input h' = input h /\ owned h' = owned h
      /\ ((s = 0 /\ px = [] /\ h' = h)
          \/ (s = size /\ length px = (3 * npix)%nat /\ guard = false
              /\ ld8 (shift (input h) (cursor h)) 0 = 0xAA))) ->
    size <> 0 -> Z.of_nat (3 * npix) = 3 * size * size ->
    forall rest, 
    exists h',
      ho = Some h'
      /\ stream_len h' = stream_len h /\ avail_len h' = avail_len h
      /\ input h' = input h /\ owned h' = owned h
      /\ ((s = 0 /\ px = [] /\ h' = h)
          \/ (s <> 0 /\ s = (if guard then rest else size)
              /\ Z.of_nat (length px) = 3 * s * s
              /\ ld8 (input h) (cursor h) = 0xAA))).
  { intros size npix guard (h' & A & B & C & D & E & F) Hnz Hlen rest.
    exists h'. refine (conj A (conj B (conj C (conj D (conj E _))))).
    destruct F as [F | (F1 & F2 & F3 & F4)]; [left; exact F | right].
    subst s. rewrite F3, F2. refine (conj Hnz (conj eq_refl (conj Hlen _))).
    unfold ld8, shift in F4. rewrite Z.add_0_r in F4. exact F4. }
  destruct (Z.land k 0x7f <? 2).
  { apply (Hdone 0x10 (Z.to_nat 0x100) (1 <? k)); [ | discriminate | vm_compute; reflexivity].
    eapply decode_pic_finish; [lia | | exact H].
    intros d Hd. apply (decode_one_outcome _ _ _ _ _ Hd). }
  destruct (u32 (Z.land k 0x7f - 2) <? 3).
  { apply (Hdone 0x20 (Z.to_nat 0x400)
             (negb (Z.land k 0x7e =? 2) && negb (Z.land k 0x7f =? 4)));
      [ | discriminate | vm_compute; reflexivity].
    eapply decode_pic_finish; [lia | | exact H].
    intros d Hd. apply (decode_one_big_outcome _ _ _ _ _ Hd). }
  destruct (u32 (Z.land k 0x7f - 0xb) <? 6).
  { apply (Hdone 0x40 (Z.to_nat 0x1000) (u32 (Z.land k 0x7f - 0x11) <? 0xfffffffa));
      [ | discriminate | vm_compute; reflexivity].
    eapply decode_pic_finish; [lia | | exact H].
    intros d Hd. apply (decode_one_64_outcome _ _ _ _ _ Hd). }
  destruct ((Z.land k 0x7e =? 0x12) || (Z.land k 0x7b =? 0x11) || (Z.land k 0x7f =? 0x14)).
  { apply (Hdone 0x80 (Z.to_nat 0x4000)
             (negb (Z.land k 0x7d =? 0x11) && negb (Z.land k 0x7f =? 0x14)));
      [ | discriminate | vm_compute; reflexivity].
    eapply decode_pic_finish; [lia | | exact H].
    intros d Hd. apply (decode_one_128_outcome _ _ _ _ _ Hd). }
  exact (Hfail H _).
Qed.

Lemma accepted_size_values k :
  accepted_size k <> 0 -> In (accepted_size k) [0x10; 0x20; 0x40; 0x80].
Proof.
  unfold accepted_size. cbv zeta.
  destruct (Z.land k 0x7f <? 2).
  { destruct (1 <? k); [intros H; elim H; reflexivity | intros _; cbn; tauto]. }
  destruct (u32 (Z.land k 0x7f - 2) <? 3).
  { destruct (negb _ && negb _); [intros H; elim H; reflexivity | intros _; cbn; tauto]. }
  destruct (u32 (Z.land k 0x7f - 0xb) <? 6).
  { destruct (u32 _ <? _); [intros H; elim H; reflexivity | intros _; cbn; tauto]. }
  destruct (_ || _ || _); [ | intros H; elim H; reflexivity].
  destruct (negb _ && negb _); [intros H; elim H; reflexivity | intros _; cbn; tauto].
Qed.

(** [divoom_image_decode_decode_pic] decodes all of a frame or none of
    it.  Whenever it returns on a handle whose cursor is at least 5 below
    2^32, either the size code is 0, no pixel is stored and the handle is
    exactly as it was (the cursor has not moved), or the size code is one
    of 16, 32, 64, 128 and [3 * size * size] pixel bytes are stored; the
    stream, its lengths and the owned copy are never written. *)
Theorem decode_pic_all_or_nothing :
  forall (tbl : mem) (malloc : Z -> option mem) (h : handle)
         (ho : option handle) (s : Z) (px : list Z),
  0 <= cursor h -> cursor h + 5 < 4294967296 ->
  divoom_image_decode_decode_pic tbl malloc (Some h) = Ret (ho, s, px) ->
  exists h',
    ho = Some h'
    /\ stream_len h' = stream_len h /\ avail_len h' = avail_len h
    /\ input h' = input h /\ owned h' = owned h
    /\ ((s = 0 /\ px = [] /\ h' = h)
        \/ (In s [0x10; 0x20; 0x40; 0x80] /\ Z.of_nat (length px) = 3 * s * s)).
Proof.
  intros tbl malloc h ho s px Hc0 Hc5 H.
  destruct (decode_pic_cases tbl malloc h ho s px Hc0 Hc5 H)
    as (h' & A & B & C & D & E & F).
  exists h'. refine (conj A (conj B (conj C (conj D (conj E _))))).
  destruct F as [F | (F1 & F2 & F3 & _)]; [left; exact F | right].
  split; [ | exact F3]. rewrite F2. apply accepted_size_values. rewrite <- F2. exact F1.
Qed.

Lemma decode_pic_all_or_nothing_witness :
  exists ho s px,
    divoom_image_decode_decode_pic gdivoom_image_bits_table (always_alloc 0)
      (Some at_kind3_handle) = Ret (ho, s, px)
    /\ exists h',
         ho = Some h'
         /\ stream_len h' = stream_len at_kind3_handle
         /\ avail_len h' = avail_len at_kind3_handle
         /\ input h' = input at_kind3_handle /\ owned h' = owned at_kind3_handle
         /\ ((s = 0 /\ px = [] /\ h' = at_kind3_handle)
             \/ (In s [0x10; 0x20; 0x40; 0x80] /\ Z.of_nat (length px) = 3 * s * s)).
Proof.
  destruct (divoom_image_decode_decode_pic gdivoom_image_bits_table (always_alloc 0)
              (Some at_kind3_handle)) as [[[ho s] px]| |] eqn:E.
  - exists ho, s, px. split; [reflexivity | ].
    apply (decode_pic_all_or_nothing gdivoom_image_bits_table (always_alloc 0)
             at_kind3_handle ho s px); [cbn; lia | cbn; lia | exact E].
  - vm_compute in E. discriminate E.
  - vm_compute in E. discriminate E.
Defined.

Lemma width_table k :
  0 <= k < 256 -> accepted_size k <> 0 ->
  ((if k =? 0 then 0x10
    else if (k =? 2) || (k =? 3) then 0x20
    else if (k =? 0xb) || (k =? 0xc) then 0x40 else 0x80) = accepted_size k
   <-> In k width_kinds).
Proof.
  intros Hk Hnz.
  assert (H : forallb (fun k =>
      (accepted_size k =? 0)
      || Bool.eqb ((if k =? 0 then 0x10
                    else if (k =? 2) || (k =? 3) then 0x20
                    else if (k =? 0xb) || (k =? 0xc) then 0x40 else 0x80)
                   =? accepted_size k)
                  (existsb (Z.eqb k) width_kinds)) (zrange 0 256) = true)
    by (vm_compute; reflexivity).
  rewrite forallb_forall in H. specialize (H k (in_zrange 0 256 k ltac:(lia))).
  cbn beta in H. apply orb_true_iff in H. destruct H as [H | H].
  { apply Z.eqb_eq in H. contradiction. }
  apply Bool.eqb_prop in H. split.
  - intros Hw. apply Z.eqb_eq in Hw. rewrite Hw in H. symmetry in H.
    apply existsb_exists in H. destruct H as (x & Hx & Hkx).
    apply Z.eqb_eq in Hkx. subst x. exact Hx.
  - intros Hin. apply Z.eqb_eq. rewrite H. apply existsb_exists.
    exists k. split; [exact Hin | apply Z.eqb_refl].
Qed.

(** [divoom_image_decode_get_pic_width] against the decoder: for a frame
    that [divoom_image_decode_decode_pic] decodes (size code other than
    0) on a handle whose cursor is at least 5 below 2^32, the width read off the frame header is that size code exactly
    when the kind byte is one of 0x00, 0x02, 0x03, 0x0B, 0x0C, 0x11,
    0x13, 0x14, 0x91, 0x93, 0x94; for every other decoded frame (the
    continuation kinds 0x01, 0x04, 0x0D..0x10 among them) it reports 128
    for a smaller picture. *)
Theorem pic_width_against_decode :
  forall (tbl : mem) (malloc : Z -> option mem) (h : handle)
         (ho : option handle) (s : Z) (px : list Z),
  0 <= cursor h -> cursor h + 5 < 4294967296 ->
  divoom_image_decode_decode_pic tbl malloc (Some h) = Ret (ho, s, px) ->
  s <> 0 ->
  (divoom_image_decode_get_pic_width (shift (input h) (cursor h)) = s
   <-> In (ld8 (input h) (cursor h + 5)) width_kinds)
  /\ (~ In (ld8 (input h) (cursor h + 5)) width_kinds ->
      divoom_image_decode_get_pic_width (shift (input h) (cursor h)) = 0x80 /\ s < 0x80).
Proof.
  intros tbl malloc h ho s px Hc0 Hc5 H Hs.
  destruct (decode_pic_cases tbl malloc h ho s px Hc0 Hc5 H)
    as (h' & _ & _ & _ & _ & _ & F).
  destruct F as [(F & _) | (_ & F2 & _ & _)]; [contradiction | ].
  unfold divoom_image_decode_get_pic_width. cbv zeta.
  change (ld8 (shift (input h) (cursor h)) 5) with (ld8 (input h) (cursor h + 5)).
  pose proof (ld8_range (input h) (cursor h + 5)) as Hk.
  set (k := ld8 (input h) (cursor h + 5)) in *.
  assert (Hnz : accepted_size k <> 0) by (rewrite <- F2; exact Hs).
  pose proof (width_table k Hk Hnz) as Hw. rewrite <- F2 in Hw.
  split; [exact Hw | ].
  intros Hnot.
  assert (Hne : (if k =? 0 then 0x10
                 else if (k =? 2) || (k =? 3) then 0x20
                 else if (k =? 0xb) || (k =? 0xc) then 0x40 else 0x80) <> s)
    by (intros E; apply Hnot, Hw, E).
  assert (Hin : In s [0x10; 0x20; 0x40; 0x80])
    by (rewrite F2; apply accepted_size_values, Hnz).
  assert (H0 : (k =? 0) = false).
  { destruct (k =? 0) eqn:E; [ | reflexivity]. apply Z.eqb_eq in E.
    elim Hnot. rewrite E. cbn. tauto. }
  assert (H23 : (k =? 2) || (k =? 3) = false).
  { destruct ((k =? 2) || (k =? 3)) eqn:E; [ | reflexivity].
    apply orb_true_iff in E. elim Hnot.
    destruct E as [E | E]; apply Z.eqb_eq in E; rewrite E; cbn; tauto. }
  assert (Hbc : (k =? 0xb) || (k =? 0xc) = false).
  { destruct ((k =? 0xb) || (k =? 0xc)) eqn:E; [ | reflexivity].
    apply orb_true_iff in E. elim Hnot.
    destruct E as [E | E]; apply Z.eqb_eq in E; rewrite E; cbn; tauto. }
  rewrite H0, H23, Hbc in Hne |- *. split; [reflexivity | ].
  cbn [In] in Hin. lia.
Qed.

Lemma pic_width_against_decode_witness :
  exists ho s px,
    divoom_image_decode_decode_pic gdivoom_image_bits_table (always_alloc 0)
      (Some at_kind4_handle) = Ret (ho, s, px)
    /\ divoom_image_decode_get_pic_width (shift (input at_kind4_handle) (cursor at_kind4_handle))
       = 0x80
    /\ s < 0x80.
Proof.
  destruct (divoom_image_decode_decode_pic gdivoom_image_bits_table (always_alloc 0)
              (Some at_kind4_handle)) as [[[ho s] px]| |] eqn:E.
  - exists ho, s, px. split; [reflexivity | ].
    assert (Hs : s <> 0).
    { pose proof (f_equal (fun r => match r with Ret (_, s0, _) => s0 | _ => 0 end) E) as Hs.
      vm_compute in Hs. rewrite <- Hs. discriminate. }
    apply (pic_width_against_decode gdivoom_image_bits_table (always_alloc 0)
             at_kind4_handle ho s px); [cbn; lia | cbn; lia | exact E | exact Hs | ].
    vm_compute. intros Hin. repeat (destruct Hin as [Hin | Hin]; [discriminate Hin | ]).
    exact Hin.
  - vm_compute in E. discriminate E.
  - vm_compute in E. discriminate E.
Defined.

(** ** Header queries against the decoder *)

Lemma info_table k :
  0 <= k < 256 -> accepted_size k <> 0 ->
  ((if k =? 0 then 0x10
    else if k =? 6 then 0x20
    else if k =? 7 then 0x10
    else if k =? 9 then 0x40
    else if k =? 0xa then 0x40
    else if (0xb <=? k) && (k <=? 0x10) then 0x40
    else 0x20) = accepted_size k <-> In k info_kinds)
  /\ ((Z.land k 0x7f <? 9) = true <-> accepted_size k <= 0x20).
Proof.
  intros Hk Hnz.
  assert (H : forallb (fun k =>
      (accepted_size k =? 0)
      || (Bool.eqb ((if k =? 0 then 0x10
                     else if k =? 6 then 0x20
                     else if k =? 7 then 0x10
                     else if k =? 9 then 0x40
                     else if k =? 0xa then 0x40
                     else if (0xb <=? k) && (k <=? 0x10) then 0x40
                     else 0x20) =? accepted_size k)
                   (existsb (Z.eqb k) info_kinds)
          && Bool.eqb (Z.land k 0x7f <? 9) (accepted_size k <=? 0x20)))
      (zrange 0 256) = true)
    by (vm_compute; reflexivity).
  rewrite forallb_forall in H. specialize (H k (in_zrange 0 256 k ltac:(lia))).
  cbn beta in H. apply orb_true_iff in H. destruct H as [H | H].
  { apply Z.eqb_eq in H. contradiction. }
  apply andb_true_iff in H. destruct H as [H1 H2].
  apply Bool.eqb_prop in H1. apply Bool.eqb_prop in H2. split.
  - split.
    + intros Hw. apply Z.eqb_eq in Hw. rewrite Hw in H1. symmetry in H1.
      apply existsb_exists in H1. destruct H1 as (x & Hx & Hkx).
      apply Z.eqb_eq in Hkx. subst x. exact Hx.
    + intros Hin. apply Z.eqb_eq. rewrite H1. apply existsb_exists.
      exists k. split; [exact Hin | apply Z.eqb_refl].
  - rewrite H2. apply Z.leb_le.
Qed.

(** The header queries against the decoder.  For a frame that
    [divoom_image_decode_decode_pic] decodes (size code other than 0) on
    a handle whose cursor is at least 5 below 2^32, the size [divoom_image_decode_get_image_info] returns, with or
    without a place for the format type, is the decoder's size code
    exactly for the kind bytes 0x00, 0x02..0x04, 0x0B..0x10 and
    0x82..0x84 (so never for a 128x128 frame), and
    [divoom_image_decode_check_image] accepts the frame exactly when its
    picture is at most 32 pixels wide. *)
Theorem header_queries_against_decode :
  forall (tbl : mem) (malloc : Z -> option mem) (h : handle)
         (ho : option handle) (s : Z) (px : list Z) (formatTypeOut : bool),
  0 <= cursor h -> cursor h + 5 < 4294967296 ->
  divoom_image_decode_decode_pic tbl malloc (Some h) = Ret (ho, s, px) ->
  s <> 0 ->
  (fst (divoom_image_decode_get_image_info (shift (input h) (cursor h)) formatTypeOut) = s
   <-> In (ld8 (input h) (cursor h + 5)) info_kinds)
  /\ (divoom_image_decode_check_image (shift (input h) (cursor h)) = true <-> s <= 0x20).
Proof.
  intros tbl malloc h ho s px fto Hc0 Hc5 H Hs.
  destruct (decode_pic_cases tbl malloc h ho s px Hc0 Hc5 H)
    as (h' & _ & _ & _ & _ & _ & F).
  destruct F as [(F & _) | (_ & F2 & _ & Hmagic)]; [contradiction | ].
  unfold divoom_image_decode_get_image_info, divoom_image_decode_check_image. cbv zeta.
  change (ld8 (shift (input h) (cursor h)) 5) with (ld8 (input h) (cursor h + 5)).
  assert (Hm0 : ld8 (shift (input h) (cursor h)) 0 = 0xAA).
  { unfold ld8, shift. rewrite Z.add_0_r. exact Hmagic. }
  rewrite Hm0. cbn [Z.eqb Pos.eqb negb].
  pose proof (ld8_range (input h) (cursor h + 5)) as Hk.
  set (k := ld8 (input h) (cursor h + 5)) in *.
  assert (Hnz : accepted_size k <> 0) by (rewrite <- F2; exact Hs).
  destruct (info_table k Hk Hnz) as [Hinfo Hcheck]. rewrite <- F2 in Hinfo, Hcheck.
  split; [ | exact Hcheck].
  replace (fst (if k =? 0 then _ else _))
    with (if k =? 0 then 0x10
          else if k =? 6 then 0x20
          else if k =? 7 then 0x10
          else if k =? 9 then 0x40
          else if k =? 0xa then 0x40
          else if (0xb <=? k) && (k <=? 0x10) then 0x40
          else 0x20); [exact Hinfo | ].
  destruct (k =? 0); [reflexivity | ]. destruct (k =? 6); [reflexivity | ].
  destruct (k =? 7); [reflexivity | ]. destruct (k =? 9); [reflexivity | ].
  destruct (k =? 0xa); [reflexivity | ].
  destruct ((0xb <=? k) && (k <=? 0x10)); [reflexivity | ].
  destruct (k =? 5); reflexivity.
Qed.

Lemma header_queries_against_decode_witness :
  exists ho s px,
    divoom_image_decode_decode_pic gdivoom_image_bits_table (always_alloc 0)
      (Some at_kind3_handle) = Ret (ho, s, px)
    /\ fst (divoom_image_decode_get_image_info
              (shift (input at_kind3_handle) (cursor at_kind3_handle)) true) = s
    /\ divoom_image_decode_check_image
         (shift (input at_kind3_handle) (cursor at_kind3_handle)) = true.
Proof.
  destruct (divoom_image_decode_decode_pic gdivoom_image_bits_table (always_alloc 0)
              (Some at_kind3_handle)) as [[[ho s] px]| |] eqn:E.
  - exists ho, s, px. split; [reflexivity | ].
    assert (Hs : s = 0x20).
    { pose proof (f_equal (fun r => match r with Ret (_, s0, _) => s0 | _ => 0 end) E) as Hs.
      vm_compute in Hs. symmetry. exact Hs. }
    destruct (header_queries_against_decode gdivoom_image_bits_table (always_alloc 0)
                at_kind3_handle ho s px true) as [Hinfo Hcheck];
      [cbn; lia | cbn; lia | exact E | rewrite Hs; discriminate | ].
    split; [apply Hinfo | apply Hcheck].
    + vm_compute. tauto.
    + rewrite Hs. discriminate.
  - vm_compute in E. discriminate E.
  - vm_compute in E. discriminate E.
Defined.

(** ** [divoom_pic_decode]: the run-length modes *)

Lemma paint_run_spec pb e r : forall out pi q,
  0 <= pi -> pi + Z.of_nat r <= 43690 -> 0 <= q <= 43690 ->
  (forall c, 0 <= c < 3 -> 0 <= ld8 pb (e + c) < 16) ->
  divoom_multipic_get_data (paint_run r out pb pi e) q =
    if (pi <=? q) && (q <? pi + Z.of_nat r)
    then (ld8 pb e, ld8 pb (e + 1), ld8 pb (e + 2))
    else divoom_multipic_get_data out q.
Proof.
  induction r as [|r IH]; intros out pi q Hpi Hmax Hq Hnib.
  - cbn [paint_run].
    replace ((pi <=? q) && (q <? pi + Z.of_nat 0)) with false; [reflexivity | ].
    symmetry. apply andb_false_iff.
    destruct (Z_le_gt_dec pi q); [right; apply Z.ltb_ge | left; apply Z.leb_gt]; lia.
  - cbn [paint_run]. rewrite (u16_small (pi + 1)) by lia.
    rewrite IH by (try assumption; lia).
    unfold paint.
    pose proof (Hnib 0 ltac:(lia)) as H0. rewrite Z.add_0_r in H0.
    pose proof (Hnib 1 ltac:(lia)) as H1. pose proof (Hnib 2 ltac:(lia)) as H2.
    rewrite get_data_put_pixel by lia.
    destruct (Z.eq_dec q pi) as [-> | Hne].
    + rewrite Z.eqb_refl.
      replace ((pi + 1 <=? pi) && (pi <? pi + 1 + Z.of_nat r)) with false
        by (symmetry; apply andb_false_iff; left; apply Z.leb_gt; lia).
      replace ((pi <=? pi) && (pi <? pi + Z.of_nat (S r))) with true
        by (symmetry; apply andb_true_iff; split; [apply Z.leb_le | apply Z.ltb_lt]; lia).
      reflexivity.
    + replace (q =? pi) with false by (symmetry; apply Z.eqb_neq; exact Hne).
      replace ((pi <=? q) && (q <? pi + Z.of_nat (S r)))
        with ((pi + 1 <=? q) && (q <? pi + 1 + Z.of_nat r)); [reflexivity | ].
      destruct (Z_le_gt_dec (pi + 1) q) as [Hle | Hgt].
      * replace (pi + 1 <=? q) with true by (symmetry; apply Z.leb_le; lia).
        replace (pi <=? q) with true by (symmetry; apply Z.leb_le; lia).
        cbn [andb]. f_equal. lia.
      * replace (pi + 1 <=? q) with false by (symmetry; apply Z.leb_gt; lia).
        replace (pi <=? q) with false by (symmetry; apply Z.leb_gt; lia).
        reflexivity.
Qed.

Lemma total_length_nonneg4 enc runs : forall pos,
  stored_rle4 enc pos runs -> Z.of_nat (length runs) <= total_length runs.
Proof.
  induction runs as [|[len c] rest IH]; intros pos H; [cbn; lia | ].
  destruct H as (Hl & _ & _ & H). specialize (IH _ H).
  cbn [length total_length]. lia.
Qed.

Lemma total_length_nonneg8 enc runs : forall pos,
  stored_rle8 enc pos runs -> Z.of_nat (length runs) <= total_length runs.
Proof.
  induction runs as [|[len c] rest IH]; intros pos H; [cbn; lia | ].
  destruct H as (Hl & _ & _ & H). specialize (IH _ H).
  cbn [length total_length]. lia.
Qed.

Lemma run_byte len c :
  1 <= len <= 15 -> 0 <= c < 16 ->
  Z.shiftr (16 * len + c) 4 = len /\ Z.land (16 * len + c) 0xf = c.
Proof.
  intros Hl Hc. split.
  - rewrite Z.shiftr_div_pow2 by lia. change (2 ^ 4) with 16.
    symmetry. apply (Z.div_unique _ 16 len c); lia.
  - change 0xf with (Z.ones 4). rewrite Z.land_ones by lia. change (2 ^ 4) with 16.
    symmetry. apply (Z.mod_unique _ 16 len c); lia.
Qed.

Section RunLength.
Variable enc pb : mem.
(** The palette entries are nibbles. *)
Variable count : Z.
Hypothesis entries : forall k c, 0 <= k < count -> 0 <= c < 3 -> 0 <= ld8 pb (k * 3 + c) < 16.

Lemma decode_rle4_spec runs : forall fuel out pos pix,
  runs <> [] -> (length runs <= fuel)%nat ->
  stored_rle4 enc pos runs -> (forall len c, In (len, c) runs -> c < count) ->
  0 <= pos -> pos + Z.of_nat (length runs) <= 65536 ->
  0 <= pix -> pix + total_length runs = 121 ->
  exists out',
    decode_rle4 fuel enc pb out pos pix = Ret out'
    /\ forall q, 0 <= q <= 43690 ->
         divoom_multipic_get_data out' q =
           if (pix <=? q) && (q <? 121) then entry_of pb (colour_of runs (q - pix))
           else divoom_multipic_get_data out q.
Proof.
  induction runs as [|[len c] rest IH]; intros fuel out pos pix Hne Hfuel Hst Hcol Hpos Hend Hpix Hsum;
    [elim Hne; reflexivity | ].
  destruct fuel as [|fuel]; [cbn in Hfuel; lia | ].
  destruct Hst as (Hl & Hc & Hv & Hrest).
  cbn [length] in Hfuel, Hend. cbn [total_length] in Hsum.
  pose proof (total_length_nonneg4 enc rest _ Hrest) as Htl.
  cbn [decode_rle4]. cbv zeta.
  assert (Hmask : Z.land pos 0xffff = pos).
  { rewrite land_ffff. apply u16_small. lia. }
  rewrite Hmask, Hv.
  destruct (run_byte len c Hl Hc) as [Hhi Hlo]. rewrite Hhi, Hlo.
  replace (0xf <? 16 * len + c) with true by (symmetry; apply Z.ltb_lt; lia).
  replace (if len <? 2 then 1 else len) with len
    by (destruct (len <? 2) eqn:E; [apply Z.ltb_lt in E; lia | reflexivity]).
  rewrite (u16_small (pix + len)) by lia.
  assert (Hcc : c < count) by (apply (Hcol len c); left; reflexivity).
  assert (Hpaint : forall o q, 0 <= q <= 43690 ->
            divoom_multipic_get_data (paint_run (Z.to_nat len) o pb pix (c * 3)) q =
              if (pix <=? q) && (q <? pix + len) then entry_of pb c
              else divoom_multipic_get_data o q).
  { intros o q Hq. rewrite paint_run_spec; rewrite ?Z2Nat.id by lia; try lia; [reflexivity | ].
    intros k Hk. apply entries; lia. }
  destruct (pix + len <? 121) eqn:E.
  - apply Z.ltb_lt in E.
    assert (Hrne : rest <> []).
    { intros ->. cbn [total_length] in Hsum. lia. }
    destruct (IH fuel (paint_run (Z.to_nat len) out pb pix (c * 3)) (pos + 1) (pix + len))
      as (out' & Hrun & Hpx);
      [exact Hrne | lia | exact Hrest | intros l k Hin; apply (Hcol l k); right; exact Hin
      | lia | lia | lia | lia | ].
    rewrite (u32_small (pos + 1)) by lia.
    exists out'. split; [exact Hrun | ].
    intros q Hq. rewrite (Hpx q Hq), (Hpaint out q Hq). cbn [colour_of].
    destruct (Z_le_gt_dec (pix + len) q) as [Hle | Hgt].
    + replace (pix + len <=? q) with true by (symmetry; apply Z.leb_le; lia).
      replace (pix <=? q) with true by (symmetry; apply Z.leb_le; lia).
      replace (q - pix <? len) with false by (symmetry; apply Z.ltb_ge; lia).
      replace (q <? pix + len) with false by (symmetry; apply Z.ltb_ge; lia).
      cbn [andb]. replace (q - (pix + len)) with (q - pix - len) by lia. reflexivity.
    + replace (pix + len <=? q) with false by (symmetry; apply Z.leb_gt; lia).
      cbn [andb].
      replace (q <? pix + len) with true by (symmetry; apply Z.ltb_lt; lia).
      replace (q <? 121) with true by (symmetry; apply Z.ltb_lt; lia).
      rewrite !andb_true_r.
      destruct (pix <=? q) eqn:E1; [ | reflexivity].
      apply Z.leb_le in E1.
      replace (q - pix <? len) with true by (symmetry; apply Z.ltb_lt; lia). reflexivity.
  - apply Z.ltb_ge in E.
    assert (Hz : total_length rest = 0) by lia.
    assert (Hlen : pix + len = 121) by lia.
    eexists. split; [reflexivity | ].
    intros q Hq. rewrite (Hpaint out q Hq). cbn [colour_of]. rewrite Hlen.
    destruct ((pix <=? q) && (q <? 121)) eqn:E1; [ | reflexivity].
    apply andb_true_iff in E1. destruct E1 as [Ea Eb].
    apply Z.leb_le in Ea. apply Z.ltb_lt in Eb.
    replace (q - pix <? len) with true by (symmetry; apply Z.ltb_lt; lia). reflexivity.
Qed.

Lemma decode_rle8_spec runs : forall fuel out pos pix,
  runs <> [] -> (length runs <= fuel)%nat ->
  stored_rle8 enc pos runs -> (forall len c, In (len, c) runs -> 0 <= c < count) ->
  0 <= pos -> pos + 2 * Z.of_nat (length runs) <= 65536 ->
  0 <= pix -> pix + total_length runs = 121 ->
  exists out',
    decode_rle8 fuel enc pb out pos pix = Ret out'
    /\ forall q, 0 <= q <= 43690 ->
         divoom_multipic_get_data out' q =
           if (pix <=? q) && (q <? 121) then entry_of pb (colour_of runs (q - pix))
           else divoom_multipic_get_data out q.
Proof.
  induction runs as [|[len c] rest IH]; intros fuel out pos pix Hne Hfuel Hst Hcol Hpos Hend Hpix Hsum;
    [elim Hne; reflexivity | ].
  destruct fuel as [|fuel]; [cbn in Hfuel; lia | ].
  destruct Hst as (Hl & Hc & Hv & Hrest).
  cbn [length] in Hfuel, Hend. cbn [total_length] in Hsum.
  pose proof (total_length_nonneg8 enc rest _ Hrest) as Htl.
  cbn [decode_rle8]. cbv zeta.
  assert (Hmask : Z.land pos 0xffff = pos).
  { rewrite land_ffff. apply u16_small. lia. }
  assert (Hmask1 : Z.land (u32 (pos + 1)) 0xffff = pos + 1).
  { rewrite u32_small by lia. rewrite land_ffff. apply u16_small. lia. }
  rewrite Hmask, Hmask1, Hv, Hc.
  replace (len =? 0) with false by (symmetry; apply Z.eqb_neq; lia). cbn [negb].
  rewrite (u16_small (pix + len)) by lia.
  assert (Hcc : 0 <= c < count) by (apply (Hcol len c); left; reflexivity).
  assert (Hpaint : forall o q, 0 <= q <= 43690 ->
            divoom_multipic_get_data (paint_run (Z.to_nat len) o pb pix (c * 3)) q =
              if (pix <=? q) && (q <? pix + len) then entry_of pb c
              else divoom_multipic_get_data o q).
  { intros o q Hq. rewrite paint_run_spec; rewrite ?Z2Nat.id by lia; try lia; [reflexivity | ].
    intros k Hk. apply entries; lia. }
  destruct (pix + len <? 121) eqn:E.
  - apply Z.ltb_lt in E.
    assert (Hrne : rest <> []).
    { intros ->. cbn [total_length] in Hsum. lia. }
    destruct (IH fuel (paint_run (Z.to_nat len) out pb pix (c * 3)) (pos + 2) (pix + len))
      as (out' & Hrun & Hpx);
      [exact Hrne | lia | exact Hrest | intros l k Hin; apply (Hcol l k); right; exact Hin
      | lia | lia | lia | lia | ].
    rewrite (u32_small (pos + 2)) by lia.
    exists out'. split; [exact Hrun | ].
    intros q Hq. rewrite (Hpx q Hq), (Hpaint out q Hq). cbn [colour_of].
    destruct (Z_le_gt_dec (pix + len) q) as [Hle | Hgt].
    + replace (pix + len <=? q) with true by (symmetry; apply Z.leb_le; lia).
      replace (pix <=? q) with true by (symmetry; apply Z.leb_le; lia).
      replace (q - pix <? len) with false by (symmetry; apply Z.ltb_ge; lia).
      replace (q <? pix + len) with false by (symmetry; apply Z.ltb_ge; lia).
      cbn [andb]. replace (q - (pix + len)) with (q - pix - len) by lia. reflexivity.
    + replace (pix + len <=? q) with false by (symmetry; apply Z.leb_gt; lia).
      cbn [andb].
      replace (q <? pix + len) with true by (symmetry; apply Z.ltb_lt; lia).
      replace (q <? 121) with true by (symmetry; apply Z.ltb_lt; lia).
      rewrite !andb_true_r.
      destruct (pix <=? q) eqn:E1; [ | reflexivity].
      apply Z.leb_le in E1.
      replace (q - pix <? len) with true by (symmetry; apply Z.ltb_lt; lia). reflexivity.
  - apply Z.ltb_ge in E.
    assert (Hz : total_length rest = 0) by lia.
    assert (Hlen : pix + len = 121) by lia.
    eexists. split; [reflexivity | ].
    intros q Hq. rewrite (Hpaint out q Hq). cbn [colour_of]. rewrite Hlen.
    destruct ((pix <=? q) && (q <? 121)) eqn:E1; [ | reflexivity].
    apply andb_true_iff in E1. destruct E1 as [Ea Eb].
    apply Z.leb_le in Ea. apply Z.ltb_lt in Eb.
    replace (q - pix <? len) with true by (symmetry; apply Z.ltb_lt; lia). reflexivity.
Qed.
End RunLength.

Lemma colour_of_in runs : forall p,
  (forall len c, In (len, c) runs -> 0 < len) ->
  0 <= p < total_length runs ->
  exists len, In (len, colour_of runs p) runs.
Proof.
  induction runs as [|[len c] rest IH]; intros p Hpos Hp; [cbn in Hp; lia | ].
  cbn [colour_of total_length] in *.
  destruct (p <? len) eqn:E.
  - exists len. left. reflexivity.
  - apply Z.ltb_ge in E.
    destruct (IH (p - len)) as (l & Hl); [ | lia | exists l; right; exact Hl].
    intros l k Hin. apply (Hpos l k). right. exact Hin.
Qed.

Lemma stored_rle4_positive enc runs : forall pos,
  stored_rle4 enc pos runs -> forall len c, In (len, c) runs -> 0 < len.
Proof.
  induction runs as [|[l k] rest IH]; intros pos H len c Hin; [destruct Hin | ].
  destruct H as (Hl & _ & _ & H). destruct Hin as [E | Hin].
  - inversion E; subst. lia.
  - apply (IH _ H len c Hin).
Qed.

Lemma stored_rle8_positive enc runs : forall pos,
  stored_rle8 enc pos runs -> forall len c, In (len, c) runs -> 0 < len.
Proof.
  induction runs as [|[l k] rest IH]; intros pos H len c Hin; [destruct Hin | ].
  destruct H as (Hl & _ & _ & H). destruct Hin as [E | Hin].
  - inversion E; subst. lia.
  - apply (IH _ H len c Hin).
Qed.

(** [divoom_pic_decode] undoes run-length coding: in mode 0 (a run per
    byte) and in mode 2 (an index byte and a length byte per run), when
    the palette size in byte 1 is at most 122, the number of entries the
    368-byte local palette array holds, and the runs stored after the
    packed palette have lengths that add up to the 121 pixels and indices
    below the palette size, the decoder returns, pixel [p] of the output
    is the palette entry of the run that covers [p], and the output past
    the picture is left as it was. *)
Theorem pic_decode_run_length :
  forall (fuel : nat) (paletteBuffer0 outputBuffer encodedData : mem) (runs : list (Z * Z)),
  ld8 encodedData 1 <= 122 ->
  (length runs <= fuel)%nat ->
  total_length runs = 121 ->
  (forall len c, In (len, c) runs -> 0 <= c < ld8 encodedData 1) ->
  (ld8 encodedData 0 = 0
   /\ stored_rle4 encodedData (Z.shiftr (ld8 encodedData 1 * 3 + 1) 1 + 2) runs)
  \/ (ld8 encodedData 0 = 2
      /\ stored_rle8 encodedData (Z.shiftr (ld8 encodedData 1 * 3 + 1) 1 + 2) runs) ->
  exists out,
    divoom_pic_decode fuel paletteBuffer0 outputBuffer encodedData = Ret out
    /\ (forall p, 0 <= p < 121 ->
          divoom_multipic_get_data out p
            = divoom_multipic_get_data (shift encodedData 2) (colour_of runs p))
    /\ (forall q, 121 <= q <= 43690 ->
          divoom_multipic_get_data out q = divoom_multipic_get_data outputBuffer q).
Proof.
  intros fuel pb0 out0 enc runs Hfit Hfuel Hsum Hcol Hmode.
  pose proof (ld8_range enc 1) as Hcount.
  assert (Hne : runs <> []) by (intros ->; cbn in Hsum; lia).
  assert (Hpos : ld8 enc 1 <> 0).
  { destruct runs as [|[len c] rest]; [elim Hne; reflexivity | ].
    specialize (Hcol len c (or_introl eq_refl)). lia. }
  assert (Hstart : 2 <= Z.shiftr (ld8 enc 1 * 3 + 1) 1 + 2 <= 400).
  { rewrite Z.shiftr_div_pow2 by lia. change (2 ^ 1) with 2.
    pose proof (Z.div_pos (ld8 enc 1 * 3 + 1) 2 ltac:(lia) ltac:(lia)).
    pose proof (Z.div_le_upper_bound (ld8 enc 1 * 3 + 1) 2 398 ltac:(lia) ltac:(lia)). lia. }
  destruct (unpacked_palette enc pb0 (ld8 enc 1) ltac:(lia)) as (pb & Hunpack & Hpal).
  unfold divoom_pic_decode. cbv zeta. rewrite Hunpack.
  assert (Hnib : forall k c, 0 <= k < ld8 enc 1 -> 0 <= c < 3 -> 0 <= ld8 pb (k * 3 + c) < 16).
  { intros k c Hk Hc. apply (Hpal k Hk). exact Hc. }
  assert (Hlenpos : forall len c, In (len, c) runs -> 0 < len).
  { destruct Hmode as [(_ & H) | (_ & H)];
      [apply (stored_rle4_positive enc runs _ H) | apply (stored_rle8_positive enc runs _ H)]. }
  assert (Hfinish : forall out,
    (forall q, 0 <= q <= 43690 ->
       divoom_multipic_get_data out q =
         if (0 <=? q) && (q <? 121) then entry_of pb (colour_of runs (q - 0))
         else divoom_multipic_get_data out0 q) ->
    (forall p, 0 <= p < 121 ->
       divoom_multipic_get_data out p
         = divoom_multipic_get_data (shift enc 2) (colour_of runs p))
    /\ (forall q, 121 <= q <= 43690 ->
          divoom_multipic_get_data out q = divoom_multipic_get_data out0 q)).
  { intros out Hout. split.
    - intros p Hp. rewrite Hout by lia.
      replace ((0 <=? p) && (p <? 121)) with true
        by (symmetry; apply andb_true_iff; split; [apply Z.leb_le | apply Z.ltb_lt]; lia).
      rewrite Z.sub_0_r.
      destruct (colour_of_in runs p Hlenpos ltac:(lia)) as (len & Hin).
      apply (Hpal (colour_of runs p)). apply (Hcol len), Hin.
    - intros q Hq. rewrite Hout by lia.
      replace ((0 <=? q) && (q <? 121)) with false; [reflexivity | ].
      symmetry. apply andb_false_iff. right. apply Z.ltb_ge. lia. }
  destruct Hmode as [(Hm & Hst) | (Hm & Hst)]; rewrite Hm; cbn [Z.eqb Pos.eqb].
  - pose proof (total_length_nonneg4 enc runs _ Hst) as Hn.
    destruct (decode_rle4_spec enc pb (ld8 enc 1) Hnib runs fuel out0
                (Z.shiftr (ld8 enc 1 * 3 + 1) 1 + 2) 0)
      as (out & Hrun & Hpx);
      [exact Hne | exact Hfuel | exact Hst | intros len c Hin; apply (Hcol len c Hin)
      | lia | lia | lia | lia | ].
    exists out. split; [exact Hrun | apply Hfinish, Hpx].
  - pose proof (total_length_nonneg8 enc runs _ Hst) as Hn.
    destruct (decode_rle8_spec enc pb (ld8 enc 1) Hnib runs fuel out0
                (Z.shiftr (ld8 enc 1 * 3 + 1) 1 + 2) 0)
      as (out & Hrun & Hpx);
      [exact Hne | exact Hfuel | exact Hst | exact Hcol | lia | lia | lia | lia | ].
    exists out. split; [exact Hrun | apply Hfinish, Hpx].
Qed.

Lemma pic_decode_run_length_witness :
  exists out,
    divoom_pic_decode 9 zeros zeros rle4_image = Ret out
    /\ divoom_multipic_get_data out 0 = (4, 5, 6)
    /\ divoom_multipic_get_data out 120 = (1, 2, 3).
Proof.
  destruct (pic_decode_run_length 9 zeros zeros rle4_image
              (repeat (15, 1) 8 ++ [(1, 0)])) as (out & Hout & Hpix & _).
  { vm_compute. discriminate. }
  { cbn. lia. }
  { reflexivity. }
  { intros len c Hin. change (ld8 rle4_image 1) with 2. cbn in Hin.
    repeat (destruct Hin as [Hin | Hin]; [inversion Hin; subst; lia | ]).
    destruct Hin. }
  { left. split; [reflexivity | ].
    cbn. repeat split; try lia; reflexivity. }
  exists out. split; [exact Hout | ].
  split; [rewrite (Hpix 0) by lia | rewrite (Hpix 120) by lia]; reflexivity.
Defined.

(** ** [divoom_image_decode_decode_handle] *)

Section EnlargeInlineInPlace.
Variable sourceIndex : Z -> Z -> Z.
Variable destOffset : Z -> Z.
Variable destPrev : Z -> Z.
Variables width height : Z.
Variable from : Z -> Z -> Z.
Hypothesis width_pos : 0 < width <= 65536.
Hypothesis height_pos : 0 < height <= 32768.
Hypothesis dest_ok : forall d, 0 <= d < width * height -> destOffset d = 3 * d.
Hypothesis prev_ok : forall d, 1 <= d < width * height -> destPrev d = d - 1.
Hypothesis source_ok : forall row column,
  0 <= row < height -> 0 <= column < width ->
  Z.land (sourceIndex row column) 0xffff + u16 (sourceIndex row column) * 2
    = 3 * from row column
  /\ 0 <= from row column <= width * row + column.

Lemma enlarge_rows_masked_spec m0 :
  forall fuel row m,
    0 <= row < height -> (Z.to_nat (row + width) < fuel)%nat ->
    enlarged from width height m0 m (width * row + (width - 1)) ->
    exists m',
      enlarge_rows_masked sourceIndex destOffset destPrev fuel (width - 1) m row
        (width * row + (width - 1)) = Ret m'
      /\ enlarged from width height m0 m' (-1).
Proof.
  induction fuel as [|fuel IH]; intros row m Hrow Hfuel Hw; [lia | ].
  cbn [enlarge_rows_masked].
  destruct (enlarge_columns_spec sourceIndex destOffset destPrev width height from
              width_pos height_pos dest_ok prev_ok source_ok
              m0 row Hrow fuel (width - 1) m ltac:(lia) ltac:(lia) Hw)
    as (m1 & d1 & Hcols & Hw1 & Hd1).
  rewrite Hcols. cbv zeta.
  assert (Hr16 : Z.land row 0xffff = row) by (rewrite land_ffff; apply u16_small; lia).
  rewrite Hr16.
  destruct (row =? 0) eqn:E; cbn [negb]; [apply Z.eqb_eq in E | apply Z.eqb_neq in E].
  - subst row. exists m1. split; [reflexivity | ].
    replace (width * 0 - 1) with (-1) in Hw1 by lia. exact Hw1.
  - rewrite Hd1 by lia. rewrite (u32_small (row - 1)) by lia.
    replace (width * row - 1) with (width * (row - 1) + (width - 1)) in * by lia.
    apply IH; [lia | lia | exact Hw1].
Qed.

Lemma enlarge_masked_in_place fuel m0 :
  (Z.to_nat (height + width) <= fuel)%nat ->
  exists m',
    enlarge_rows_masked sourceIndex destOffset destPrev fuel (width - 1) m0 (height - 1)
      (width * height - 1) = Ret m'
    /\ (forall row column k, 0 <= row < height -> 0 <= column < width -> 0 <= k < 3 ->
          ld8 m' (3 * (width * row + column) + k) = ld8 m0 (3 * from row column + k))
    /\ (forall a, a < 0 \/ 3 * (width * height) <= a -> ld8 m' a = ld8 m0 a).
Proof.
  intros Hfuel.
  assert (W0 : enlarged from width height m0 m0 (width * (height - 1) + (width - 1))).
  { split; [ | reflexivity].
    intros r c k Hr Hc Hk Hlt. exfalso.
    destruct (cell_range width height r c ltac:(lia) Hr Hc) as (Hd & _). lia. }
  destruct (enlarge_rows_masked_spec m0 fuel (height - 1) m0 ltac:(lia) ltac:(lia) W0)
    as (m' & Hm' & Hdone & Hrest).
  exists m'. split.
  - replace (width * height - 1) with (width * (height - 1) + (width - 1)) by lia.
    exact Hm'.
  - split.
    + intros r c k Hr Hc Hk. apply Hdone; try assumption.
      destruct (cell_range width height r c ltac:(lia) Hr Hc) as (Hd & _). lia.
    + intros a Ha. apply Hrest. lia.
Qed.
End EnlargeInlineInPlace.

(** The three inlined enlargements, at the head of the buffer. *)
Lemma enlarge_at_16_32 fuel out :
  (64 <= fuel)%nat ->
  exists out',
    enlarge_at fuel out (u32 (0 * 0xc00))
      (fun fuel block =>
         enlarge_rows_masked
           (fun rowIndex columnIndex =>
              u32 (Z.land rowIndex 0x1ffffffe * 8 + Z.shiftr columnIndex 1))
           (fun destPixelIndex =>
              Z.land destPixelIndex 0xffff + Z.land destPixelIndex 0xffff * 2)
           (fun destPixelIndex => u64 (s32 destPixelIndex - 1))
           fuel 0x1f block 0x1f 0x3ff) = Ret out'
    /\ (forall row column k, 0 <= row < 32 -> 0 <= column < 32 -> 0 <= k < 3 ->
          ld8 out' (3 * (32 * row + column) + k)
            = ld8 out (3 * (16 * (row / 2) + column / 2) + k))
    /\ (forall a, a < 0 \/ 3072 <= a -> ld8 out' a = ld8 out a).
Proof.
  intros Hfuel. unfold enlarge_at. change (u32 (0 * 0xc00)) with 0.
  destruct (enlarge_masked_in_place
              (fun rowIndex columnIndex =>
                 u32 (Z.land rowIndex 0x1ffffffe * 8 + Z.shiftr columnIndex 1))
              (fun destPixelIndex =>
                 Z.land destPixelIndex 0xffff + Z.land destPixelIndex 0xffff * 2)
              (fun destPixelIndex => u64 (s32 destPixelIndex - 1))
              32 32 (fun row column => 16 * (row / 2) + column / 2)
              ltac:(lia) ltac:(lia)) with (fuel := fuel) (m0 := shift out 0)
    as (m' & Hm' & Hpix & Hrest); try lia.
  - intros d Hd. rewrite land_ffff, u16_small by lia. lia.
  - intros d Hd. rewrite s32_small by lia. unfold u64. apply Z.mod_small. lia.
  - intros row column Hr Hc.
    destruct (enlarge_indices row ltac:(lia)) as (Hm & _).
    destruct (enlarge_indices column ltac:(lia)) as (_ & _ & _ & Hs & _).
    destruct (half_le row ltac:(lia)). destruct (half_le column ltac:(lia)).
    rewrite Hm, Hs. rewrite u32_small by lia. rewrite land_ffff, u16_small by lia.
    split; lia.
  - change (32 - 1) with 31 in Hm'. change (32 * 32 - 1) with 1023 in Hm'.
    rewrite Hm'. eexists. split; [reflexivity | ]. split.
    + intros row column k Hr Hc Hk. unfold ld8 at 1. rewrite Z.sub_0_r.
      apply (Hpix row column k Hr Hc Hk).
    + intros a Ha. unfold ld8 at 1. rewrite Z.sub_0_r. apply (Hrest a Ha).
Qed.

Lemma enlarge_at_16_64 fuel out :
  (128 <= fuel)%nat ->
  exists out',
    enlarge_at fuel out (u32 (0 * 0x3000))
      (fun fuel block =>
         enlarge_rows_masked
           (fun rowIndex columnIndex =>
              u32 (Z.land rowIndex 0x3ffffffc * 4 + Z.shiftr columnIndex 2))
           (fun destPixelIndex => u16 (destPixelIndex * 3))
           (fun destPixelIndex => s16 (destPixelIndex - 1))
           fuel 0x3f block 0x3f 0xfff) = Ret out'
    /\ (forall row column k, 0 <= row < 64 -> 0 <= column < 64 -> 0 <= k < 3 ->
          ld8 out' (3 * (64 * row + column) + k)
            = ld8 out (3 * (16 * (row / 4) + column / 4) + k))
    /\ (forall a, a < 0 \/ 12288 <= a -> ld8 out' a = ld8 out a).
Proof.
  intros Hfuel. unfold enlarge_at. change (u32 (0 * 0x3000)) with 0.
  destruct (enlarge_masked_in_place
              (fun rowIndex columnIndex =>
                 u32 (Z.land rowIndex 0x3ffffffc * 4 + Z.shiftr columnIndex 2))
              (fun destPixelIndex => u16 (destPixelIndex * 3))
              (fun destPixelIndex => s16 (destPixelIndex - 1))
              64 64 (fun row column => 16 * (row / 4) + column / 4)
              ltac:(lia) ltac:(lia)) with (fuel := fuel) (m0 := shift out 0)
    as (m' & Hm' & Hpix & Hrest); try lia.
  - intros d Hd. rewrite u16_small by lia. lia.
  - intros d Hd. apply s16_small. lia.
  - intros row column Hr Hc.
    destruct (enlarge_indices row ltac:(lia)) as (_ & _ & Hm & _).
    destruct (enlarge_indices column ltac:(lia)) as (_ & _ & _ & _ & Hs).
    destruct (quarter_le row ltac:(lia)). destruct (quarter_le column ltac:(lia)).
    rewrite Hm, Hs. rewrite u32_small by lia. rewrite land_ffff, u16_small by lia.
    split; lia.
  - change (64 - 1) with 63 in Hm'. change (64 * 64 - 1) with 4095 in Hm'.
    rewrite Hm'. eexists. split; [reflexivity | ]. split.
    + intros row column k Hr Hc Hk. unfold ld8 at 1. rewrite Z.sub_0_r.
      apply (Hpix row column k Hr Hc Hk).
    + intros a Ha. unfold ld8 at 1. rewrite Z.sub_0_r. apply (Hrest a Ha).
Qed.

Lemma enlarge_at_32_64 fuel out :
  (128 <= fuel)%nat ->
  exists out',
    enlarge_at fuel out (u32 (0 * 0x3000))
      (fun fuel block =>
         enlarge_rows_masked
           (fun rowIndex columnIndex =>
              u32 (Z.land rowIndex 0xffffffe * 0x10 + Z.shiftr columnIndex 1))
           (fun destPixelIndex => u16 (destPixelIndex * 3))
           (fun destPixelIndex => s16 (destPixelIndex - 1))
           fuel 0x3f block 0x3f 0xfff) = Ret out'
    /\ (forall row column k, 0 <= row < 64 -> 0 <= column < 64 -> 0 <= k < 3 ->
          ld8 out' (3 * (64 * row + column) + k)
            = ld8 out (3 * (32 * (row / 2) + column / 2) + k))
    /\ (forall a, a < 0 \/ 12288 <= a -> ld8 out' a = ld8 out a).
Proof.
  intros Hfuel. unfold enlarge_at. change (u32 (0 * 0x3000)) with 0.
  destruct (enlarge_masked_in_place
              (fun rowIndex columnIndex =>
                 u32 (Z.land rowIndex 0xffffffe * 0x10 + Z.shiftr columnIndex 1))
              (fun destPixelIndex => u16 (destPixelIndex * 3))
              (fun destPixelIndex => s16 (destPixelIndex - 1))
              64 64 (fun row column => 32 * (row / 2) + column / 2)
              ltac:(lia) ltac:(lia)) with (fuel := fuel) (m0 := shift out 0)
    as (m' & Hm' & Hpix & Hrest); try lia.
  - intros d Hd. rewrite u16_small by lia. lia.
  - intros d Hd. apply s16_small. lia.
  - intros row column Hr Hc.
    destruct (enlarge_indices row ltac:(lia)) as (_ & Hm & _).
    destruct (enlarge_indices column ltac:(lia)) as (_ & _ & _ & Hs & _).
    destruct (half_le row ltac:(lia)). destruct (half_le column ltac:(lia)).
    rewrite Hm, Hs. rewrite u32_small by lia. rewrite land_ffff, u16_small by lia.
    split; lia.
  - change (64 - 1) with 63 in Hm'. change (64 * 64 - 1) with 4095 in Hm'.
    rewrite Hm'. eexists. split; [reflexivity | ]. split.
    + intros row column k Hr Hc Hk. unfold ld8 at 1. rewrite Z.sub_0_r.
      apply (Hpix row column k Hr Hc Hk).
    + intros a Ha. unfold ld8 at 1. rewrite Z.sub_0_r. apply (Hrest a Ha).
Qed.

Lemma decode_handle_count_first stream fuel :
  ld8 stream 0 = 0xAA ->
  decode_handle_count (S fuel) stream (ld16 stream 1) 0 0 = Ret (1, true).
Proof.
  intros Hm. cbn [decode_handle_count]. rewrite Hm. cbn [Z.eqb Pos.eqb negb].
  cbn [Z.add]. rewrite Z.add_0_r.
  pose proof (ld16_range stream 1) as Hr. rewrite (u32_small (ld16 stream 1)) by lia.
  rewrite Z.ltb_irrefl. reflexivity.
Qed.

Lemma store_list_nil m off a : store_list m off [] a = m a.
Proof.
  unfold store_list. cbn [length Z.of_nat]. rewrite Z.add_0_r.
  destruct (off <=? a) eqn:E1; destruct (a <? off) eqn:E2; try reflexivity.
  apply Z.leb_le in E1. apply Z.ltb_lt in E2. lia.
Qed.

Lemma store_list_outside m off l a :
  a < off \/ off + Z.of_nat (length l) <= a -> store_list m off l a = m a.
Proof.
  intros Ha. unfold store_list.
  replace ((off <=? a) && (a <? off + Z.of_nat (length l))) with false; [reflexivity | ].
  symmetry. apply andb_false_iff.
  destruct Ha; [left; apply Z.leb_gt | right; apply Z.ltb_ge]; lia.
Qed.

(** [divoom_image_decode_decode_handle] decodes one frame.  It takes the
    first frame's length field for the length of the stream, so that on a
    stream that opens with the magic byte and a length other than 0 the
    frame count is 1: the first frame is decoded at the head of the
    output buffer and 1 is returned, also when that frame is turned down
    (size code 0) or is larger than the format asked for, in which case
    all its pixels have been stored all the same.  A smaller picture is
    enlarged in place to the format asked for. *)
Theorem decode_handle_one_frame :
  forall (tbl : mem) (malloc : Z -> option mem) (fuel : nat) (h : handle)
         (stream out : mem) (requestedFormat : Z)
         (ho : option handle) (s : Z) (px : list Z),
  (129 <= fuel)%nat ->
  In (Z.land requestedFormat 0xff) [0x10; 0x20; 0x40] ->
  ld8 stream 0 = 0xAA -> ld16 stream 1 <> 0 ->
  divoom_image_decode_decode_pic tbl malloc (Some (handle_on h stream)) = Ret (ho, s, px) ->
  exists out',
    divoom_image_decode_decode_handle tbl malloc fuel (Some h) (Some stream) (Some out)
      requestedFormat = Ret (1, ho, Some out')
    /\ (s = 0 \/ Z.land requestedFormat 0xff <= s ->
        forall a, out' a = store_list out 0 px a)
    /\ (0 < s < Z.land requestedFormat 0xff ->
        let F := Z.land requestedFormat 0xff in
        (forall row column k, 0 <= row < F -> 0 <= column < F -> 0 <= k < 3 ->
           ld8 out' (3 * (F * row + column) + k)
             = ld8 (store_list out 0 px)
                   (3 * (s * (row / (F / s)) + column / (F / s)) + k))
        /\ (forall a, a < 0 \/ 3 * (F * F) <= a -> ld8 out' a = ld8 out a)).
Proof.
  intros tbl malloc fuel h stream out fmt ho s px Hfuel HF Hm Hlen Hdec.
  destruct (decode_pic_cases tbl malloc (handle_on h stream) ho s px
              ltac:(cbn; lia) ltac:(cbn; lia) Hdec)
    as (h' & Hho & _ & _ & _ & _ & Hcases).
  assert (Hs : (s = 0 /\ px = []) \/
               (In s [0x10; 0x20; 0x40; 0x80] /\ Z.of_nat (length px) = 3 * s * s)).
  { destruct Hcases as [(A & B & _) | (A & B & C & _)]; [left; split; assumption | right].
    split; [ | exact C]. rewrite B. apply accepted_size_values. rewrite <- B. exact A. }
  clear Hcases.
  destruct fuel as [|fuel]; [lia | ].
  unfold divoom_image_decode_decode_handle, handle_on in *.
  remember (Z.land fmt 0xff) as F eqn:EF.
  assert (Hstride : exists stride,
            (if F =? 0x10 then Some 0x300
             else if F =? 0x40 then Some 0x3000
             else if F =? 0x20 then Some 0xc00 else None) = Some stride).
  { destruct HF as [<- | [<- | [<- | []]]]; eexists; reflexivity. }
  destruct Hstride as (stride & ->).
  replace (ld16 stream 1 =? 0) with false by (symmetry; apply Z.eqb_neq; exact Hlen).
  cbn [negb]. rewrite (decode_handle_count_first stream fuel Hm).
  cbn [decode_handle_frames]. rewrite Hdec, Hho. cbv zeta. rewrite <- !EF.
  change (s32 0) with 0. rewrite Z.mul_0_r. change (u32 0) with 0.
  change (u64 (0 + 1)) with 1. cbn [Z.eqb Pos.eqb negb].
  destruct Hs as [(-> & ->) | (Hs & Hpx)].
  - (* turned down *)
    change (Z.land 0 255) with 0.
    exists (store_list out 0 []). cbn [Z.eqb]. split; [destruct (F <? 0); reflexivity | ]. split.
    + intros _ a. reflexivity.
    + intros H0. lia.
  - assert (Hs8 : Z.land s 0xff = s).
    { destruct Hs as [<- | [<- | [<- | [<- | []]]]]; reflexivity. }
    rewrite Hs8.
    destruct (F <? s) eqn:Ebig.
    { apply Z.ltb_lt in Ebig. eexists. split; [reflexivity | ]. split.
      - intros _ a. reflexivity.
      - intros H0. lia. }
    apply Z.ltb_ge in Ebig.
    replace (s =? 0) with false
      by (destruct Hs as [<- | [<- | [<- | [<- | []]]]]; reflexivity).
    destruct (s <? F) eqn:Esmall.
    2:{ apply Z.ltb_ge in Esmall. eexists. split; [reflexivity | ]. split.
        - intros _ a. reflexivity.
        - intros H0. lia. }
    apply Z.ltb_lt in Esmall.
    assert (Hout : forall a, a < 0 \/ 3 * s * s <= a -> ld8 (store_list out 0 px) a = ld8 out a).
    { intros a Ha. unfold ld8. rewrite store_list_outside by lia. reflexivity. }
    assert (Hcombos : (s = 0x10 /\ F = 0x20) \/ (s = 0x10 /\ F = 0x40)
                      \/ (s = 0x20 /\ F = 0x40)).
    { destruct HF as [E | [E | [E | []]]]; destruct Hs as [E' | [E' | [E' | [E' | []]]]];
        lia. }
    destruct Hcombos as [(-> & EF') | [(-> & EF') | (-> & EF')]]; rewrite EF';
      cbn [Z.eqb Pos.eqb].
    + destruct (enlarge_at_16_32 fuel (store_list out 0 px) ltac:(lia))
        as (out' & Hrun & Hpix & Hrest).
      rewrite Hrun. exists out'. split; [reflexivity | ]. split; [intros H0; lia | ].
      intros _. split.
      * intros row column k Hr Hc Hk. change (32 / 16) with 2. apply Hpix; assumption.
      * intros a Ha. rewrite Hrest by lia. apply Hout. lia.
    + destruct (enlarge_at_16_64 fuel (store_list out 0 px) ltac:(lia))
        as (out' & Hrun & Hpix & Hrest).
      rewrite Hrun. exists out'. split; [reflexivity | ]. split; [intros H0; lia | ].
      intros _. split.
      * intros row column k Hr Hc Hk. change (64 / 16) with 4. apply Hpix; assumption.
      * intros a Ha. rewrite Hrest by lia. apply Hout. lia.
    + destruct (enlarge_at_32_64 fuel (store_list out 0 px) ltac:(lia))
        as (out' & Hrun & Hpix & Hrest).
      rewrite Hrun. exists out'. split; [reflexivity | ]. split; [intros H0; lia | ].
      intros _. split.
      * intros row column k Hr Hc Hk. change (64 / 32) with 2. apply Hpix; assumption.
      * intros a Ha. rewrite Hrest by lia. apply Hout. lia.
Qed.

Lemma decode_handle_one_frame_witness :
  exists ho out',
    divoom_image_decode_decode_handle gdivoom_image_bits_table (always_alloc 0) 129
      (Some divoom_image_decode_creat_handle) (Some kind3_stream) (Some zeros) 0x40
      = Ret (1, ho, Some out').
Proof.
  destruct (divoom_image_decode_decode_pic gdivoom_image_bits_table (always_alloc 0)
              (Some (handle_on divoom_image_decode_creat_handle kind3_stream)))
    as [[[ho s] px]| |] eqn:E.
  - destruct (decode_handle_one_frame gdivoom_image_bits_table (always_alloc 0) 129
                divoom_image_decode_creat_handle kind3_stream zeros 0x40 ho s px)
      as (out' & H & _);
      [lia | cbn; tauto | reflexivity | vm_compute; discriminate | exact E | ].
    exists ho, out'. exact H.
  - vm_compute in E. discriminate E.
  - vm_compute in E. discriminate E.
Defined.

(** ** [divoom_image_decode_check_decode] against the iteration *)

(** What [divoom_image_decode_check_decode] promises while a stream is
    being received ([avail_len] bytes of [stream_len] are there), on a
    handle whose cursor is at least 65542 below 2^32.  With
    more than 7 bytes available past the cursor, a true answer means the
    frame at the cursor is wholly available: the next
    [divoom_image_decode_get_pic_data] returns it and leaves the cursor
    at most at [avail_len].  With 7 bytes or fewer the answer is whether
    the stream is complete, so that at the end of a complete stream the
    answer is true although [get_pic_data] has no frame to return. *)
Theorem check_decode_guard :
  forall (h : handle),
  0 <= cursor h -> cursor h + 65542 < 4294967296 ->
  (cursor h + 7 < avail_len h -> avail_len h <= stream_len h ->
   divoom_image_decode_check_decode (Some h) = true ->
   exists h' len delay,
     divoom_image_decode_get_pic_data (Some h) = Some (h', cursor h, len, delay)
     /\ cursor h' = cursor h + len /\ cursor h' <= avail_len h)
  /\ (avail_len h <= cursor h + 7 ->
      divoom_image_decode_check_decode (Some h) = (avail_len h =? stream_len h))
  /\ (stream_len h <= cursor h -> avail_len h = stream_len h ->
      divoom_image_decode_check_decode (Some h) = true
      /\ divoom_image_decode_get_pic_data (Some h) = None).
Proof.
  intros h Hc Hmax.
  pose proof (ld16_range (input h) (cursor h + 1)) as Hlen.
  unfold divoom_image_decode_check_decode, divoom_image_decode_get_pic_data. cbv zeta.
  rewrite (u32_small (cursor h + 7)) by lia.
  rewrite (u32_small (cursor h + ld16 (input h) (cursor h + 1))) by lia.
  split; [ | split].
  - intros Havail Hle Hcheck.
    replace (cursor h + 7 <? avail_len h) with true in Hcheck
      by (symmetry; apply Z.ltb_lt; lia).
    apply Z.leb_le in Hcheck.
    replace (cursor h <? stream_len h) with true by (symmetry; apply Z.ltb_lt; lia).
    eexists _, _, _. split; [reflexivity | ]. cbn [cursor set_cursor]. lia.
  - intros Havail.
    replace (cursor h + 7 <? avail_len h) with false by (symmetry; apply Z.ltb_ge; lia).
    reflexivity.
  - intros Hend Hcomplete.
    replace (cursor h + 7 <? avail_len h) with false by (symmetry; apply Z.ltb_ge; lia).
    replace (cursor h <? stream_len h) with false by (symmetry; apply Z.ltb_ge; lia).
    split; [apply Z.eqb_eq; exact Hcomplete | reflexivity].
Qed.

Lemma check_decode_guard_witness :
  exists h' len delay,
    divoom_image_decode_get_pic_data (Some received_handle)
      = Some (h', cursor received_handle, len, delay)
    /\ cursor h' = cursor received_handle + len /\ cursor h' <= avail_len received_handle.
Proof.
  destruct (check_decode_guard received_handle) as (H & _); [cbn; lia | cbn; lia | ].
  apply H; [cbn; lia | cbn; lia | reflexivity].
Defined.

(** ** Cursor stepping (C4) *)

(** The byte count each frame decoder reports when it returns 1. *)
Lemma decode_raw_consumed tbl npix unit h f size d :
  decode_raw npix unit h f = Ret d ->
  0 <= unit <= 0x800 -> size * size / 8 = unit -> (size =? 0x10) = false ->
  consumed_as tbl f size d.
Proof.
  intros Hd Hu Hs H16. apply Ret_inj in Hd. subst d.
  unfold consumed_as, frame_bytes. cbn [d_consumed d_handle set_palette palette].
  rewrite H16, Hs. change (Z.land 8 0xffff) with 8.
  rewrite s32_small by lia. split; [f_equal; lia | lia].
Qed.

Lemma decode_extend_consumed tbl malloc npix unit h f size d :
  decode_extend tbl malloc npix unit h f = Ret d -> d_ret d = 1 ->
  0 <= unit <= 0x800 -> size * size / 8 = unit -> (size =? 0x10) = false ->
  consumed_as tbl f size d.
Proof.
  intros Hd Hret Hu Hs H16. unfold decode_extend in Hd.
  pose proof (ld16_range f 6) as H6.
  destruct (palette h) as [existing|]; [ | apply Ret_inj in Hd; subst d; discriminate Hret].
  match type of Hd with
  | match ?g with _ => _ end = _ => destruct g as [[buf capacity]|]
  end; [ | apply Ret_inj in Hd; subst d; discriminate Hret].
  destruct (append_entries _ _ _ _ _ _) as [pal cur].
  apply Ret_inj in Hd; subst d.
  unfold consumed_as, frame_bytes.
  cbn [d_consumed d_handle set_palette palette palette_count].
  rewrite H16, Hs, !land_ffff, u16_u32.
  replace (ld16 f 6 * 3 + 8) with (3 * ld16 f 6 + 8) by lia.
  pose proof (u16_range (3 * ld16 f 6 + 8)) as Ho.
  pose proof (ld8_range tbl (u16 cur)) as Hb.
  rewrite s32_small by nia. split; [f_equal; lia | nia].
Qed.

Lemma decode_reset_consumed tbl malloc npix unit step h f alloc i size d :
  decode_reset tbl malloc npix unit step h f alloc i = Ret d ->
  (forall j, i = Some j -> j = ld16 f 6) ->
  0 <= unit <= 0x800 -> size * size / 8 = unit -> (size =? 0x10) = false ->
  consumed_as tbl f size d.
Proof.
  intros Hd Hi Hu Hs H16. unfold decode_reset in Hd.
  pose proof (ld16_range f 6) as H6.
  match type of Hd with
  | match ?g with _ => _ end = _ => destruct g as [[buf capacity]|]
  end; [ | discriminate Hd].
  destruct (copy_reset _ _ _ _) as [filled|]; [ | discriminate Hd].
  destruct i as [j|]; [ | discriminate Hd].
  rewrite (Hi j eq_refl) in Hd.
  apply Ret_inj in Hd; subst d.
  unfold consumed_as, frame_bytes.
  cbn [d_consumed d_handle set_palette palette palette_count].
  rewrite H16, Hs, !land_ffff, u16_u32.
  replace (ld16 f 6 * 3 + 8) with (3 * ld16 f 6 + 8) by lia.
  pose proof (u16_range (3 * ld16 f 6 + 8)) as Ho.
  pose proof (ld8_range tbl (ld16 f 6)) as Hb.
  rewrite s32_small by nia. split; [f_equal; lia | nia].
Qed.

Lemma decode_one_consumed tbl malloc h f d :
  divoom_image_decode_decode_one tbl malloc h (Some f) = Ret d -> d_ret d = 1 ->
  consumed_as tbl f 0x10 d.
Proof.
  intros Hd Hret.
  unfold divoom_image_decode_decode_one in Hd.
  destruct (ld8 f 0 =? 170); cbn [negb] in Hd;
    [ | apply Ret_inj in Hd; subst d; discriminate Hret].
  destruct (1 <? ld8 f 5); [apply Ret_inj in Hd; subst d; discriminate Hret | ].
  pose proof (ld8_range f 6) as H6.
  destruct (ld8 f 5 =? 0) eqn:Ekind.
  - set (cnt := if ld8 f 6 =? 0 then 256 else ld8 f 6) in Hd.
    assert (Hcnt : 1 <= cnt <= 256).
    { unfold cnt. destruct (ld8 f 6 =? 0) eqn:E; [lia | apply Z.eqb_neq in E; lia]. }
    destruct (malloc _) as [fresh|]; [ | discriminate Hd].
    apply Ret_inj in Hd; subst d.
    unfold consumed_as, frame_bytes.
    cbn [d_consumed d_handle set_palette palette palette_count].
    rewrite Ekind. cbn [Z.eqb Pos.eqb].
    rewrite (u16_small cnt) by lia.
    rewrite (u32_small (cnt * 3 + 7)) by lia.
    change (16 * 16 / 8) with 32.
    pose proof (ld8_range tbl cnt) as Hb.
    rewrite s32_small by lia. split; [f_equal; lia | lia].
  - destruct (palette h) as [existing|]; [ | apply Ret_inj in Hd; subst d; discriminate Hret].
    destruct (palette_capacity h <? palette_count h + ld8 f 6);
      [apply Ret_inj in Hd; subst d; discriminate Hret | ].
    destruct (append_entries _ _ _ _ _ _) as [pal cur].
    apply Ret_inj in Hd; subst d.
    unfold consumed_as, frame_bytes.
    cbn [d_consumed d_handle set_palette palette palette_count].
    rewrite Ekind. cbn [Z.eqb Pos.eqb].
    rewrite land_ffff.
    change (16 * 16 / 8) with 32.
    pose proof (ld8_range tbl (u16 cur)) as Hb.
    rewrite s32_small by lia. split; [f_equal; lia | lia].
Qed.

Lemma decode_one_big_consumed tbl malloc h f d :
  divoom_image_decode_decode_one_big tbl malloc h (Some f) = Ret d -> d_ret d = 1 ->
  consumed_as tbl f 0x20 d.
Proof.
  intros Hd Hret. unfold divoom_image_decode_decode_one_big in Hd.
  destruct (ld8 f 0 =? 170); cbn [negb] in Hd;
    [ | apply Ret_inj in Hd; subst d; discriminate Hret].
  destruct (negb (Z.land (ld8 f 5) 126 =? 2) && negb (Z.land (ld8 f 5) 127 =? 4));
    [apply Ret_inj in Hd; subst d; discriminate Hret | ].
  destruct (Z.land (ld8 f 5) 127 =? 4).
  - apply (decode_extend_consumed tbl malloc _ _ h f _ d Hd Hret); [lia | | ]; reflexivity.
  - destruct (Z.land (ld8 f 5) 127 =? 2).
    + apply (decode_raw_consumed tbl _ _ h f _ d Hd); [lia | | ]; reflexivity.
    + apply (decode_reset_consumed tbl malloc _ _ _ h f _ _ _ d Hd);
        [ | lia | reflexivity | reflexivity].
      intros j Hj. inversion Hj. reflexivity.
Qed.

Lemma decode_one_64_consumed tbl malloc h f d :
  divoom_image_decode_decode_one_64 tbl malloc h (Some f) = Ret d -> d_ret d = 1 ->
  consumed_as tbl f 0x40 d.
Proof.
  intros Hd Hret. unfold divoom_image_decode_decode_one_64 in Hd.
  destruct (ld8 f 0 =? 170); cbn [negb] in Hd;
    [ | apply Ret_inj in Hd; subst d; discriminate Hret].
  destruct (u32 (Z.land (ld8 f 5) 127 - 17) <? 4294967290);
    [apply Ret_inj in Hd; subst d; discriminate Hret | ].
  destruct ((ld8 f 5 =? 11) || (ld8 f 5 =? 14) || (ld8 f 5 =? 139) || (ld8 f 5 =? 142)).
  - apply (decode_raw_consumed tbl _ _ h f _ d Hd); [lia | | ]; reflexivity.
  - destruct ((ld8 f 5 =? 13) || (ld8 f 5 =? 16) || (ld8 f 5 =? 141) || (ld8 f 5 =? 144)).
    + apply (decode_extend_consumed tbl malloc _ _ h f _ d Hd Hret); [lia | | ]; reflexivity.
    + apply (decode_reset_consumed tbl malloc _ _ _ h f _ _ _ d Hd);
        [ | lia | reflexivity | reflexivity].
      intros j Hj. destruct (ld16 f 6 =? 0) eqn:E; [ | discriminate Hj].
      apply Z.eqb_eq in E. inversion Hj. lia.
Qed.

Lemma decode_one_128_consumed tbl malloc h f d :
  divoom_image_decode_decode_one_128 tbl malloc h (Some f) = Ret d -> d_ret d = 1 ->
  consumed_as tbl f 0x80 d.
Proof.
  intros Hd Hret. unfold divoom_image_decode_decode_one_128 in Hd.
  destruct (ld8 f 0 =? 170); cbn [negb] in Hd;
    [ | apply Ret_inj in Hd; subst d; discriminate Hret].
  destruct (negb (Z.land (ld8 f 5) 125 =? 17) && negb (Z.land (ld8 f 5) 127 =? 20));
    [apply Ret_inj in Hd; subst d; discriminate Hret | ].
  destruct (Z.land (ld8 f 5) 127 =? 19).
  - apply (decode_extend_consumed tbl malloc _ _ h f _ d Hd Hret); [lia | | ]; reflexivity.
  - destruct (Z.land (ld8 f 5) 127 =? 17).
    + apply (decode_raw_consumed tbl _ _ h f _ d Hd); [lia | | ]; reflexivity.
    + apply (decode_reset_consumed tbl malloc _ _ _ h f _ _ _ d Hd);
        [ | lia | reflexivity | reflexivity].
      intros j Hj. inversion Hj. reflexivity.
Qed.

(** The cursor after [divoom_image_decode_decode_pic]. *)
Lemma decode_pic_finish_cursor tbl (h : handle) (f : mem) (size : Z)
    (r : run decoded) (ho : option handle) (s : Z) (px : list Z) :
  0 <= cursor h < 4294967296 -> size <> 0 ->
  (forall d, r = Ret d ->
     d = failed h \/ (d_ret d = 1 /\ same_stream h (d_handle d))) ->
  (forall d, r = Ret d -> d_ret d = 1 -> consumed_as tbl f size d) ->
  match r with
  | Ret d =>
      let stackCheck := match d_consumed d with Some c => c | None => 0 end in
      Ret (Some (set_cursor (d_handle d) (u32 (cursor (d_handle d) + stackCheck))),
           (if d_ret d =? 0 then 0 else size), d_pixels d)
  | Undefined => Undefined
  | OutOfFuel => OutOfFuel
  end = Ret (ho, s, px) ->
  exists h',
    ho = Some h' /\ stream_len h' = stream_len h
    /\ (s = 0 -> cursor h' = cursor h)
    /\ (s <> 0 ->
        s = size
        /\ cursor h' = u32 (cursor h + frame_bytes tbl h' f s)
        /\ 0 <= frame_bytes tbl h' f s < 1048576).
Proof.
  intros Hc Hnz Hr Hcons H. destruct r as [d| |]; [ | discriminate H | discriminate H].
  apply Ret_inj in H.
  pose proof (f_equal (fun t => fst (fst t)) H) as Hho.
  pose proof (f_equal (fun t => snd (fst t)) H) as Hs.
  cbn [fst snd] in Hho, Hs. clear H.
  destruct (Hr d eq_refl) as [-> | (Hret & (S1 & S2 & S3 & S4 & S5))].
  - cbn [failed d_handle d_consumed d_ret d_pixels Z.eqb] in Hho, Hs.
    rewrite Z.add_0_r, u32_small, set_cursor_same in Hho by lia.
    exists h. subst ho s. split; [reflexivity | ]. split; [reflexivity | ].
    split; [reflexivity | ]. intros E. elim E. reflexivity.
  - destruct (Hcons d eq_refl Hret) as [Hcd Hrange].
    rewrite Hcd in Hho. rewrite Hret in Hs. cbn [Z.eqb] in Hs. subst s.
    eexists. split; [symmetry; exact Hho | ].
    cbn [set_cursor stream_len cursor]. split; [exact S1 | ].
    split; [intros E; elim (Hnz E) | ].
    intros _. split; [reflexivity | ].
    unfold frame_bytes in *. cbn [palette palette_count]. rewrite S3.
    split; [reflexivity | exact Hrange].
Qed.

(** C4, amended.  A [get_pic_data] step succeeds exactly when the
    handle is not NULL and the cursor is below the stream length; it
    returns the frame at the old cursor and moves the cursor by the
    length field declared at [cursor + 1] (modulo 2^32), whatever that
    field holds; the new cursor is strictly greater than the old one and
    at most the stream length exactly when the field is not 0 and does
    not exceed the bytes remaining.  A [decode_pic] step on a NULL handle
    returns size 0; on a handle whose cursor is a [uint] value it never
    changes the stream length, leaves the cursor where it was when it
    returns size 0, and when it returns another size the cursor was below
    the stream length and has moved (modulo 2^32) by [frame_bytes], the
    byte count the frame decoder reports, a number from 0 to 2^20 - 1
    that depends on the palette sizes and the bits table, not on the
    length field or on the stream length. *)
Theorem get_pic_data_cursor :
  forall (tbl : mem) (malloc : Z -> option mem) (h : handle),
  divoom_image_decode_get_pic_data None = None
  /\ ((exists r, divoom_image_decode_get_pic_data (Some h) = Some r)
      <-> cursor h < stream_len h)
  /\ (forall h' off len delay,
       divoom_image_decode_get_pic_data (Some h) = Some (h', off, len, delay) ->
       off = cursor h /\ cursor h < stream_len h /\
       len = ld16 (input h) (cursor h + 1) /\
       cursor h' = u32 (cursor h + len) /\
       stream_len h' = stream_len h /\
       (0 <= cursor h -> stream_len h < 4294967296 ->
        (cursor h < cursor h' <= stream_len h' <-> 0 < len <= stream_len h - cursor h)))
  /\ divoom_image_decode_decode_pic tbl malloc None = Ret (None, 0, [])
  /\ (0 <= cursor h < 4294967296 ->
      forall ho s px,
      divoom_image_decode_decode_pic tbl malloc (Some h) = Ret (ho, s, px) ->
      exists h',
        ho = Some h' /\ stream_len h' = stream_len h
        /\ (s = 0 -> cursor h' = cursor h)
        /\ (s <> 0 ->
            cursor h < stream_len h
            /\ cursor h' = u32 (cursor h + frame_bytes tbl h' (shift (input h) (cursor h)) s)
            /\ 0 <= frame_bytes tbl h' (shift (input h) (cursor h)) s < 1048576)).
Proof.
  intros tbl malloc h.
  split; [reflexivity | ]. split; [ | split; [ | split; [reflexivity | ]]].
  - unfold divoom_image_decode_get_pic_data. split.
    + intros [r Hr]. destruct (cursor h <? stream_len h) eqn:E; [ | discriminate Hr].
      apply Z.ltb_lt. exact E.
    + intros Hlt. apply Z.ltb_lt in Hlt. rewrite Hlt. eexists. reflexivity.
  - intros h' off len delay H.
    unfold divoom_image_decode_get_pic_data in H.
    destruct (cursor h <? stream_len h) eqn:E; [ | discriminate H].
    apply Z.ltb_lt in E. inversion H; subst; clear H. simpl.
    split; [reflexivity | ]. split; [exact E | ]. split; [reflexivity | ].
    split; [reflexivity | ]. split; [reflexivity | ].
    intros Hc Hlen.
    pose proof (ld16_range (input h) (cursor h + 1)) as Hr.
    destruct (Z_lt_dec (cursor h + ld16 (input h) (cursor h + 1)) 4294967296) as [Hs|Hs].
    + rewrite u32_small by lia. lia.
    + assert (Hm : u32 (cursor h + ld16 (input h) (cursor h + 1))
                   = cursor h + ld16 (input h) (cursor h + 1) - 4294967296).
      { unfold u32. symmetry. apply Z.mod_unique with (q := 1); lia. }
      rewrite Hm. lia.
  - intros Hc ho s px H.
    assert (Hstay : Ret (Some h, 0, @nil Z) = Ret (ho, s, px) ->
      exists h',
        ho = Some h' /\ stream_len h' = stream_len h
        /\ (s = 0 -> cursor h' = cursor h)
        /\ (s <> 0 ->
            cursor h < stream_len h
            /\ cursor h' = u32 (cursor h + frame_bytes tbl h' (shift (input h) (cursor h)) s)
            /\ 0 <= frame_bytes tbl h' (shift (input h) (cursor h)) s < 1048576)).
    { intros E. apply Ret_inj in E. inversion E; subst. exists h.
      split; [reflexivity | ]. split; [reflexivity | ]. split; [reflexivity | ].
      intros E0. elim E0. reflexivity. }
    unfold divoom_image_decode_decode_pic in H. cbv zeta in H.
    destruct (cursor h <? stream_len h) eqn:Elt; [ | exact (Hstay H)].
    apply Z.ltb_lt in Elt.
    assert (Hdone : forall size,
      (exists h',
         ho = Some h' /\ stream_len h' = stream_len h
         /\ (s = 0 -> cursor h' = cursor h)
         /\ (s <> 0 ->
             s = size
             /\ cursor h' = u32 (cursor h + frame_bytes tbl h' (shift (input h) (cursor h)) s)
             /\ 0 <= frame_bytes tbl h' (shift (input h) (cursor h)) s < 1048576)) ->
      exists h',
        ho = Some h' /\ stream_len h' = stream_len h
        /\ (s = 0 -> cursor h' = cursor h)
        /\ (s <> 0 ->
            cursor h < stream_len h
            /\ cursor h' = u32 (cursor h + frame_bytes tbl h' (shift (input h) (cursor h)) s)
            /\ 0 <= frame_bytes tbl h' (shift (input h) (cursor h)) s < 1048576)).
    { intros size (h' & A & B & C & D). exists h'.
      refine (conj A (conj B (conj C _))). intros Hs.
      destruct (D Hs) as (_ & D1 & D2). exact (conj Elt (conj D1 D2)). }
    destruct (Z.land _ 0x7f <? 2).
    { apply (Hdone 0x10).
      eapply (decode_pic_finish_cursor tbl h _ 0x10); [exact Hc | discriminate | | | exact H].
      - intros d Hd. destruct (decode_one_outcome _ _ _ _ _ Hd) as [F | (R & _ & S & _)];
          [left; exact F | right; exact (conj R S)].
      - intros d Hd. apply (decode_one_consumed _ _ _ _ _ Hd). }
    destruct (u32 (_ - 2) <? 3).
    { apply (Hdone 0x20).
      eapply (decode_pic_finish_cursor tbl h _ 0x20); [exact Hc | discriminate | | | exact H].
      - intros d Hd. destruct (decode_one_big_outcome _ _ _ _ _ Hd) as [F | (R & _ & S & _)];
          [left; exact F | right; exact (conj R S)].
      - intros d Hd. apply (decode_one_big_consumed _ _ _ _ _ Hd). }
    destruct (u32 (_ - 0xb) <? 6).
    { apply (Hdone 0x40).
      eapply (decode_pic_finish_cursor tbl h _ 0x40); [exact Hc | discriminate | | | exact H].
      - intros d Hd. destruct (decode_one_64_outcome _ _ _ _ _ Hd) as [F | (R & _ & S & _)];
          [left; exact F | right; exact (conj R S)].
      - intros d Hd. apply (decode_one_64_consumed _ _ _ _ _ Hd). }
    destruct (_ || _ || _).
    { apply (Hdone 0x80).
      eapply (decode_pic_finish_cursor tbl h _ 0x80); [exact Hc | discriminate | | | exact H].
      - intros d Hd. destruct (decode_one_128_outcome _ _ _ _ _ Hd) as [F | (R & _ & S & _)];
          [left; exact F | right; exact (conj R S)].
      - intros d Hd. apply (decode_one_128_consumed _ _ _ _ _ Hd). }
    exact (Hstay H).
Qed.

Lemma get_pic_data_cursor_witness :
  (exists h', divoom_image_decode_get_pic_data (Some two_frame_handle) = Some (h', 0, 7, 100)
              /\ cursor h' = 7)
  /\ (exists ho s px,
        divoom_image_decode_decode_pic gdivoom_image_bits_table (always_alloc 0)
          (Some at_kind3_handle) = Ret (ho, s, px)
        /\ exists h',
             ho = Some h' /\ stream_len h' = stream_len at_kind3_handle
             /\ (s = 0 -> cursor h' = cursor at_kind3_handle)
             /\ (s <> 0 ->
                 cursor at_kind3_handle < stream_len at_kind3_handle
                 /\ cursor h'
                    = u32 (cursor at_kind3_handle
                           + frame_bytes gdivoom_image_bits_table h'
                               (shift (input at_kind3_handle) (cursor at_kind3_handle)) s)
                 /\ 0 <= frame_bytes gdivoom_image_bits_table h'
                           (shift (input at_kind3_handle) (cursor at_kind3_handle)) s
                      < 1048576)).
Proof.
  destruct (get_pic_data_cursor gdivoom_image_bits_table (always_alloc 0) two_frame_handle)
    as (_ & _ & Hstep & _).
  destruct (get_pic_data_cursor gdivoom_image_bits_table (always_alloc 0) at_kind3_handle)
    as (_ & _ & _ & _ & Hpic).
  split.
  - eexists. split; [reflexivity | ].
    match goal with
    | |- cursor ?h' = _ =>
        destruct (Hstep h' 0 7 100 eq_refl) as (_ & _ & _ & Hc & _)
    end.
    rewrite Hc. reflexivity.
  - destruct (divoom_image_decode_decode_pic gdivoom_image_bits_table (always_alloc 0)
                (Some at_kind3_handle)) as [[[ho s] px]| |] eqn:E.
    + exists ho, s, px. split; [reflexivity | ].
      exact (Hpic ltac:(cbn; lia) ho s px eq_refl).
    + vm_compute in E. discriminate E.
    + vm_compute in E. discriminate E.
Defined.
